(* ===== verification/_CoqProject ===== *)
-Q . S2P
Prelude.v
Utf8.v
GoStrings.v
Bufio.v
Redact.v
Paths.v
Os.v
Frame.v
LogRotation.v
MqVersion.v
MqIni.v
Ready.v
Signals.v
Json.v
Diagnostics.v
Logger.v
ConsoleLog.v
Mirror.v
MirrorEnd.v
Sensitive.v
Support.v
Keystore.v
Tls.v
Startup.v
Runtime.v
Qmgr.v
Ha.v
Web.v
Main.v
Dev.v
Lifecycle.v
MetricNames.v
Metrics.v
Gather.v
Watch.v
AuditLog.v
StartOrder.v
Failures.v
