(* ===== verification/Prelude.v ===== *)
(** * Verification of the IBM MQ container programs

    The repository builds the programs of a container that runs one queue manager: [runmqserver], the
    first process, which prepares the volumes and the configuration, creates and starts the queue manager by its
    commands, mirrors the logs, reaps orphans, and stops the queue manager when it is told to;
    [runmqdevserver], which comes before it in the developer image; the probes [chkmqready],
    [chkmqhealthy] and [chkmqstarted]; and the packages below [internal] and [pkg] they use.  This
    library is a shallow embedding of that code: a function of the source is a definition of the same name,
    which can be evaluated.

    ** The files

    Common ground:
    - Prelude.v: notations, tactics and lemmas on lists and strings that every file uses;
    - Utf8.v, GoStrings.v, Bufio.v: strings as bytes, runes, and what the code uses of [strings], [strconv],
      [unicode] and [bufio];
    - Json.v: [encoding/json], both ways;
    - Paths.v: [path/filepath], internal/pathutils, internal/filecheck;
    - Os.v: the state monad [M] over a [world] (environment, files, console, handles, clock), errors, and the
      operations of package [os];
    - Frame.v: rules by which one shows that an operation leaves a part of the world alone.

    Components, by the source they model:
    - Redact.v: internal/mqscredact;  LogRotation.v: pkg/logrotation;  MqVersion.v: internal/mqversion;
    - MqIni.v: pkg/name and pkg/mqini;  Ready.v: internal/ready and the three probes of cmd;
    - Signals.v, Mirror.v, MirrorEnd.v, ConsoleLog.v, Diagnostics.v: signals.go, mirror.go and logging.go of
      cmd/runmqserver;
    - Logger.v: pkg/logger and pkg/syncwriter;  Sensitive.v: internal/sensitive;
    - Support.v: internal/fips, internal/copy, internal/mqtemplate, internal/securityutility,
      internal/simpleauth;  Keystore.v: internal/keystore;  Tls.v: internal/tls;
    - Startup.v: crtmqvol.go, license.go, process.go and version.go of cmd/runmqserver;
    - Runtime.v: internal/containerruntime, internal/user, pkg/containerruntimelogger;
    - Qmgr.v: qmgr.go;  Ha.v: internal/ha;  Web.v: webserver.go and post_init.go;
    - Main.v: main.go of cmd/runmqserver, the composition of the components above in the code's order;
    - Lifecycle.v: the main goroutine, the signal handler and the log mirrors as one system, from the call of
      signalHandler in main.go to the end of the process;
    - Dev.v: cmd/runmqdevserver;
    - MetricNames.v, Metrics.v, Gather.v, Watch.v, AuditLog.v: internal/metrics (mapping.go; update.go and
      exporter.go; processMetrics and doConnect of update.go as a state machine; tlswatch.go and metrics.go; audit.go);
    - StartOrder.v, Failures.v: properties of the whole start of runmqserver, and of runmqdevserver.

    ** How the code is represented

    Code that calls the system is an element of [M]: a function from the world to a result and the next world.
    A Go error is a value of [error], a pair of a value and an error is [res], and a run-time panic
    is [None], [Panic] or [Panicked], whichever the file says.  Goroutines are state machines: one step is what one
    goroutine does between two points at which another can run, a run is a list of events, and the
    theorems hold for every run (Signals.v, Mirror.v, Gather.v, Watch.v, the writers of Logger.v).
    In Main.v they are only started; Lifecycle.v puts those of runmqserver together.

    Parameters, each a type class or an argument, stand for code that is not in the repository: external
    commands, faults of the file system and the host name ([OS]); PEM, X.509, PKCS#8 and PKCS#12, hashes and
    random bytes ([Crypto]); crypto/tls ([KeyPairs]); prctl, capabilities, statfs and the user's
    identity ([Kernel]); the limit of open files ([Rlimits]); fsnotify ([Fsnotify]); owners
    and permissions of files ([Metadata]); text/template ([Templates] and the arguments [execute] and [parse]);
    mqmetric and float64 ([Mqmetric], [Floats], [Fmt]); the allocation of slices ([Runtime] of Sensitive.v).  What a theorem needs of them is among its hypotheses:
    [Faultless] says that no file operation is refused, [FaultsExist] that a refusal is not reported
    as a missing file, [PemShrinks] that decoding a block consumes text.

    The file system is a map from the elements of a clean absolute path to a file, a directory or a link.
    Reading follows a link once, to an absolute target; writing does not follow one (the program writes to
    /run, to which the links of the image lead, and not through them).  Modes and owners are not in it.
    The texts of errors and of log messages are those of the code, with these exceptions: the time stamp that the
    standard logger puts before a line of Watch.v, the numbers in the errors of [strconv] where the text has
    unprintable runes above ASCII, and the order of a Go map in a log line, which is fixed.

    ** What is shown

    - Secrets: [redact_statement] (the scanner meets its specification on every well-formed text),
      [redact_secret] (texts that differ in secrets only are printed alike), [redact_preserves],
      [sensitive_zeroed].
    - Start: [ready_after_start] (the ready signal is given only after the queue manager was started, whatever
      fails), [failures_reported] (an error is on the console and in the termination log), [developer_start],
      [license_required], [volumes_checked], [volume_cleaned], [cleanpath_confined],
      [file_source_verdict], [service_component_removed], [web_config_installed], [ha_files].
    - Processes: [children_reaped], [stop_honoured] over every interleaving of the handler, the main goroutine and the
      kernel; [orderly_end] and [nothing_hangs], the life of runmqserver with its handler and its log mirrors; [probes_agree], [nha_started_in_time].
    - Logs: [append_refines] (the rotating log implements a list of files), [log_history];
      [mirrored_in_order] (each line once and in order, across rotations, with errors of the system);
      [cancelled_drains] (what was written before the container stops is mirrored);
      [mirrored_unless_excluded], [json_line], [messages_whole].
    - Keys: [trust_complete], [labels_listed], [password_bounds].
    - Metrics: [scrapes], [vectors_well_formed], [gathering_lifecycle], [scrapes_never_panic],
      [cert_last_good], [change_served], [request_audited].
    - Data: [version_roundtrip], [version_order].

    ** Fuel

    A loop without a structural measure has fuel, and the theorem about it shows that the fuel
    given by the code's definition is enough: the number of runes for the scanner of Redact.v
    ([redact_preserves]), of children for [reapLoop] ([children_reaped]), the depth of the file system for the
    walks of Startup.v and Web.v ([volume_cleaned], [web_config_installed]), the length of the path for
    [markSkip] ([volume_cleaned]; for the path / the loop of the code does not end, and the definition gives
    [None]), the length of the text for JSON ([json_line], [request_audited]) and for PEM blocks
    ([trust_complete]).

    ** Not modelled

    - net/http, which serves the requests for the metrics: its errors are arguments, what a handler calls on its
      writer is a list in AuditLog.v;
    - a read of a mirrored log that fails after it has given something (a read that is refused is modelled); the
      helper of the tests that makes certificates (internal/metrics/test);
    - runtime_other.go: a build for other systems, one function that returns nil;
    - the C service below authservice, the container tests below test, vendored modules, shell scripts
      and Dockerfiles: not part of the Go programs;
    - the panic of the Prometheus library when a negative value is added to a counter, which [Normalise] of
      mqmetric does not give; links that lead to links, and links with a relative target. *)
From Stdlib Require Export ZArith Lia Ascii.
From stdpp Require Export base tactics list strings gmap numbers sorting.

(** ** Scope and notations of the development *)

Declare Scope go_scope.
Delimit Scope go_scope with go.

(** [c =b c'] is the boolean equality of bytes. *)
Notation "a =b b" := (Ascii.eqb a b) (at level 70) : go_scope.

(** [s =s t] is Go's [==] on strings. *)
Notation "s =s t" := (String.eqb s t) (at level 70) : go_scope.

Open Scope go_scope.

(** ** Automation *)

Create HintDb go discriminated.
Create Rewrite HintDb gostr.

(** Turn the boolean tests of the code into the propositions they decide. *)
Ltac breflect :=
  repeat match goal with
  | H : (_ && _)%bool = true |- _ => apply andb_true_iff in H as [? ?]
  | H : (_ || _)%bool = false |- _ => apply orb_false_iff in H as [? ?]
  | H : negb _ = true |- _ => apply negb_true_iff in H
  | H : negb _ = false |- _ => apply negb_false_iff in H
  | H : String.eqb _ _ = true |- _ => apply String.eqb_eq in H
  | H : String.eqb _ _ = false |- _ => apply String.eqb_neq in H
  | H : Ascii.eqb _ _ = true |- _ => apply Ascii.eqb_eq in H
  | H : Ascii.eqb _ _ = false |- _ => apply Ascii.eqb_neq in H
  | H : Z.eqb _ _ = true |- _ => apply Z.eqb_eq in H
  | H : Z.eqb _ _ = false |- _ => apply Z.eqb_neq in H
  | H : Z.ltb _ _ = true |- _ => apply Z.ltb_lt in H
  | H : Z.ltb _ _ = false |- _ => apply Z.ltb_ge in H
  | H : Z.leb _ _ = true |- _ => apply Z.leb_le in H
  | H : Z.leb _ _ = false |- _ => apply Z.leb_gt in H
  | H : Nat.eqb _ _ = true |- _ => apply Nat.eqb_eq in H
  | H : Nat.eqb _ _ = false |- _ => apply Nat.eqb_neq in H
  | H : bool_decide _ = true |- _ => apply bool_decide_eq_true in H
  | H : bool_decide _ = false |- _ => apply bool_decide_eq_false in H
  end.

(** Case analysis on the tests and matches of the goal, with the tests
    reflected and contradictory branches closed. *)
Ltac split_branches :=
  repeat (case_match; simplify_eq/=; breflect; try done).

(** ** Strings as sequences of bytes *)

Lemma sapp_nil_l s : "" +:+ s = s.
Proof. done. Qed.

Lemma sapp_cons c s t : String c s +:+ t = String c (s +:+ t).
Proof. done. Qed.

Lemma sapp_nil_r s : s +:+ "" = s.
Proof. induction s as [|c s IH]; [done|]. by rewrite sapp_cons, IH. Qed.

Lemma sapp_assoc s t u : (s +:+ t) +:+ u = s +:+ (t +:+ u).
Proof. induction s as [|c s IH]; [done|]. by rewrite !sapp_cons, IH. Qed.

Lemma slength_app s t : String.length (s +:+ t) = String.length s + String.length t.
Proof. induction s as [|c s IH]; [done|]. rewrite sapp_cons; simpl. by rewrite IH. Qed.

Lemma sapp_inj_l s t u : s +:+ t = s +:+ u → t = u.
Proof. apply (inj (String.append s)). Qed.

Lemma slength_zero s : String.length s = 0 → s = "".
Proof. by destruct s. Qed.

Lemma sapp_length_inj s t s' t' :
  String.length s = String.length s' → s +:+ t = s' +:+ t' → s = s' ∧ t = t'.
Proof.
  revert s'; induction s as [|c s IH]; intros [|c' s'] Hl; try done.
  rewrite !sapp_cons. intros [= -> H]. injection Hl as Hl.
  by destruct (IH s' Hl H) as [-> ->].
Qed.

Lemma sapp_inj_r s t u : s +:+ u = t +:+ u → s = t.
Proof.
  intros H. eapply sapp_length_inj, proj1 in H; [done|].
  apply (f_equal String.length) in H. rewrite !slength_app in H. lia.
Qed.

#[export] Hint Rewrite sapp_nil_l sapp_nil_r sapp_cons sapp_assoc : gostr.

(** Normalise an equation between concatenations: right-nested, no empty parts. *)
Ltac snorm := autorewrite with gostr in *.
Ltac ssolve := by (autorewrite with gostr; auto with go).

(** [sconcat] flattens a list of strings (Go's [strings.Join] with an empty separator). *)
Definition sconcat (l : list string) : string := foldr String.append "" l.

Lemma sconcat_nil : sconcat [] = "".
Proof. done. Qed.

Lemma sconcat_cons s l : sconcat (s :: l) = s +:+ sconcat l.
Proof. done. Qed.

Lemma sconcat_app l k : sconcat (l ++ k) = sconcat l +:+ sconcat k.
Proof.
  induction l as [|s l IH]; [done|].
  by rewrite <- app_comm_cons, !sconcat_cons, IH, sapp_assoc.
Qed.

Lemma sconcat_singleton s : sconcat [s] = s.
Proof. unfold sconcat; simpl. apply sapp_nil_r. Qed.

#[export] Hint Rewrite sconcat_nil sconcat_cons sconcat_app : gostr.

(** ** Lists *)

Lemma rev_inj {A} (l k : list A) : rev l = rev k → l = k.
Proof. intros H. by rewrite <- (rev_involutive l), H, rev_involutive. Qed.

(** Longest prefix whose elements satisfy a boolean test, and what follows it. *)
Section span.
Context {A : Type} (p : A → bool).

Fixpoint take_while (l : list A) : list A :=
  match l with
  | [] => []
  | x :: l => if p x then x :: take_while l else []
  end.

Fixpoint drop_while (l : list A) : list A :=
  match l with
  | [] => []
  | x :: l' => if p x then drop_while l' else l
  end.

Lemma take_drop_while l : take_while l ++ drop_while l = l.
Proof. induction l as [|x l IH]; simpl; [done|]. destruct (p x); simpl; by rewrite ?IH. Qed.

Lemma take_while_all l : Forall (λ x, p x = true) (take_while l).
Proof. induction l as [|x l IH]; simpl; [done|]. destruct (p x) eqn:?; auto. Qed.

Lemma drop_while_head l x k : drop_while l = x :: k → p x = false.
Proof. induction l as [|y l IH]; simpl; [done|]. destruct (p y) eqn:?; naive_solver. Qed.

Lemma drop_while_id l : (∀ x k, l = x :: k → p x = false) → drop_while l = l.
Proof. destruct l as [|x l]; simpl; [done|]. intros H. by rewrite (H x l). Qed.

Lemma drop_while_app_all l k : Forall (λ x, p x = true) l → drop_while (l ++ k) = drop_while k.
Proof. induction 1 as [|x l Hx _ IH]; simpl; [done|]. by rewrite Hx. Qed.
End span.

(** Last element of a list that satisfies nothing is untouched by trimming. *)
Definition trim_end {A} (p : A → bool) (l : list A) : list A :=
  rev (drop_while p (rev l)).

Lemma trim_end_id {A} (p : A → bool) l :
  (∀ x, list.last l = Some x → p x = false) → trim_end p l = l.
Proof.
  intros H. unfold trim_end. rewrite drop_while_id; [apply rev_involutive|].
  intros x k Hx. apply H. apply (f_equal (@rev A)) in Hx. rewrite rev_involutive in Hx. simpl in Hx.
  rewrite Hx. apply last_snoc.
Qed.
