(* ===== verification/Utf8.v ===== *)
(** * UTF-8, as Go's [unicode/utf8] decodes and encodes it

    A Go string is a sequence of bytes: here a [string] of [ascii] bytes.
    [decode] splits a string the way [utf8.DecodeRune] (and so
    [bufio.Reader.ReadRune] and [for range]) walks it: every element is a
    rune together with the bytes it was read from.  A byte that starts no
    valid encoding is read alone as [RuneError] (U+FFFD).  [encode_rune] is
    Go's [string(rune)]. *)
From S2P Require Import Prelude.

Open Scope Z_scope.

(** A decoded rune and the bytes it came from. *)
Record gorune := GoRune { rune : Z; raw : string }.

Definition byteZ (c : ascii) : Z := Z.of_N (N_of_ascii c).
Definition byte_of (z : Z) : ascii := ascii_of_N (Z.to_N z).

Definition RuneError : Z := 65533.

Definition in_range (lo hi : Z) (c : ascii) : bool := (lo <=? byteZ c) && (byteZ c <=? hi).
Definition is_cont : ascii → bool := in_range 128 191.

(** The accepted range of the second byte after a three- or four-byte lead. *)
Definition second3 (b0 : Z) : ascii → bool :=
  if b0 =? 224 then in_range 160 191 else if b0 =? 237 then in_range 128 159 else is_cont.
Definition second4 (b0 : Z) : ascii → bool :=
  if b0 =? 240 then in_range 144 191 else if b0 =? 244 then in_range 128 143 else is_cont.

Definition rune2 (c0 c1 : ascii) : Z := (byteZ c0 - 192) * 64 + (byteZ c1 - 128).
Definition rune3 (c0 c1 c2 : ascii) : Z :=
  (byteZ c0 - 224) * 4096 + (byteZ c1 - 128) * 64 + (byteZ c2 - 128).
Definition rune4 (c0 c1 c2 c3 : ascii) : Z :=
  (byteZ c0 - 240) * 262144 + (byteZ c1 - 128) * 4096 + (byteZ c2 - 128) * 64 + (byteZ c3 - 128).

Definition s1 (a : ascii) : string := String a "".
Definition s2 (a b : ascii) : string := String a (s1 b).
Definition s3 (a b c : ascii) : string := String a (s2 b c).
Definition s4 (a b c d : ascii) : string := String a (s3 b c d).

(** [utf8.DecodeRune] on a non-empty string: the first rune and its bytes. *)
Definition decode_first (c0 : ascii) (t1 : string) : gorune :=
  let b0 := byteZ c0 in
  let bad := GoRune RuneError (s1 c0) in
  if b0 <? 128 then GoRune b0 (s1 c0)
  else if (194 <=? b0) && (b0 <=? 223) then
    match t1 with
    | String c1 _ => if is_cont c1 then GoRune (rune2 c0 c1) (s2 c0 c1) else bad
    | _ => bad
    end
  else if (224 <=? b0) && (b0 <=? 239) then
    match t1 with
    | String c1 (String c2 _) =>
        if second3 b0 c1 && is_cont c2 then GoRune (rune3 c0 c1 c2) (s3 c0 c1 c2) else bad
    | _ => bad
    end
  else if (240 <=? b0) && (b0 <=? 244) then
    match t1 with
    | String c1 (String c2 (String c3 _)) =>
        if second4 b0 c1 && is_cont c2 && is_cont c3
        then GoRune (rune4 c0 c1 c2 c3) (s4 c0 c1 c2 c3) else bad
    | _ => bad
    end
  else bad.

(** The whole string; [skip] counts the bytes already read by the last rune. *)
Fixpoint decode_from (skip : nat) (s : string) : list gorune :=
  match s with
  | "" => []
  | String c0 t1 =>
      match skip with
      | S k => decode_from k t1
      | O => let x := decode_first c0 t1 in x :: decode_from (String.length (raw x) - 1) t1
      end
  end.

Definition decode (s : string) : list gorune := decode_from 0 s.

(** A Unicode scalar value: what [utf8.ValidRune] accepts. *)
Definition scalar (r : Z) : bool :=
  (0 <=? r) && (r <=? 1114111) && negb ((55296 <=? r) && (r <=? 57343)).

(** Go's [string(r)]. *)
Definition encode_rune (r : Z) : string :=
  let r := if scalar r then r else RuneError in
  if r <? 128 then s1 (byte_of r)
  else if r <? 2048 then s2 (byte_of (192 + r / 64)) (byte_of (128 + r mod 64))
  else if r <? 65536 then
    s3 (byte_of (224 + r / 4096)) (byte_of (128 + (r / 64) mod 64)) (byte_of (128 + r mod 64))
  else
    s4 (byte_of (240 + r / 262144)) (byte_of (128 + (r / 4096) mod 64))
       (byte_of (128 + (r / 64) mod 64)) (byte_of (128 + r mod 64)).

(** Go's [string([]rune)]. *)
Definition encode (l : list Z) : string := sconcat (map encode_rune l).

Definition raws (l : list gorune) : string := sconcat (map raw l).

(** ** Bytes *)

Lemma byteZ_range c : 0 <= byteZ c < 256.
Proof. unfold byteZ. pose proof (N_ascii_bounded c). lia. Qed.

Lemma byteZ_of z : 0 <= z < 256 → byteZ (byte_of z) = z.
Proof. intros Hz. unfold byteZ, byte_of. rewrite N_ascii_embedding; lia. Qed.

Lemma byte_of_byteZ c : byte_of (byteZ c) = c.
Proof. unfold byteZ, byte_of. by rewrite N2Z.id, ascii_N_embedding. Qed.

Lemma byteZ_inj c d : byteZ c = byteZ d → c = d.
Proof. intros H. by rewrite <- (byte_of_byteZ c), H, byte_of_byteZ. Qed.

(** ** Decoding loses nothing: the raw bytes of the runes are the string. *)

Lemma raws_cons x l : raws (x :: l) = raw x +:+ raws l.
Proof. done. Qed.

Lemma raws_app l k : raws (l ++ k) = raws l +:+ raws k.
Proof. unfold raws. by rewrite map_app, sconcat_app. Qed.

Lemma decode_from_app s t : decode_from (String.length s) (s +:+ t) = decode t.
Proof. induction s as [|c s IH]; [by destruct t|]. done. Qed.

(** The first rune is read from a prefix of the string. *)
Lemma decode_first_raw c0 t1 :
  ∃ u v, t1 = u +:+ v ∧ raw (decode_first c0 t1) = String c0 u.
Proof.
  unfold decode_first. repeat case_match; subst; unfold s4, s3, s2, s1; cbn [raw].
  all: do 2 eexists; split; cycle 1; [done|]; by autorewrite with gostr.
Qed.

Lemma decode_cons c0 t1 u v : t1 = u +:+ v → raw (decode_first c0 t1) = String c0 u →
  decode (String c0 t1) = decode_first c0 t1 :: decode v.
Proof.
  intros -> Hr. unfold decode at 1. cbn [decode_from]. rewrite Hr. cbn [String.length].
  by rewrite Nat.sub_1_r, Nat.pred_succ, decode_from_app.
Qed.

Lemma decode_lossless s : raws (decode s) = s.
Proof.
  remember (String.length s) as n eqn:Hn. revert s Hn.
  induction (lt_wf n) as [n _ IH]; intros [|c0 t1] ->; [done|].
  destruct (decode_first_raw c0 t1) as (u & v & -> & Hr).
  rewrite (decode_cons _ _ u v), raws_cons, Hr, (IH (String.length v)); simpl; auto.
  rewrite slength_app. lia.
Qed.

(** ** Decoding an encoded scalar gives it back *)

Ltac zbool :=
  repeat match goal with
  | |- context [?a <=? ?b] => first
      [ rewrite (proj2 (Z.leb_le a b)) by lia | rewrite (proj2 (Z.leb_gt a b)) by lia ]
  | |- context [?a <? ?b] => first
      [ rewrite (proj2 (Z.ltb_lt a b)) by lia | rewrite (proj2 (Z.ltb_ge a b)) by lia ]
  | |- context [?a =? ?b] => first
      [ rewrite (proj2 (Z.eqb_eq a b)) by lia | rewrite (proj2 (Z.eqb_neq a b)) by lia ]
  end; simpl.

Lemma scalar_spec r :
  scalar r = true → 0 <= r <= 1114111 ∧ (r < 55296 ∨ 57343 < r).
Proof. unfold scalar. intros. breflect. apply andb_false_iff in H0. destruct H0; breflect; lia. Qed.

Lemma in_range_of lo hi z : 0 <= z < 256 → in_range lo hi (byte_of z) = (lo <=? z) && (z <=? hi).
Proof. intros. unfold in_range. by rewrite byteZ_of. Qed.

Lemma is_cont_of z : 128 <= z <= 191 → is_cont (byte_of z) = true.
Proof. intros. unfold is_cont. rewrite in_range_of by lia. by zbool. Qed.

Lemma decode1 b t : 0 <= b < 128 →
  decode (s1 (byte_of b) +:+ t) = GoRune b (s1 (byte_of b)) :: decode t.
Proof.
  intros. assert (decode_first (byte_of b) t = GoRune b (s1 (byte_of b))) as Hf.
  { unfold decode_first. rewrite byteZ_of by lia. by zbool. }
  unfold s1 at 1. rewrite sapp_cons, sapp_nil_l. rewrite (decode_cons _ _ "" t); by rewrite ?Hf.
Qed.

Lemma decode2 b0 b1 t : 194 <= b0 <= 223 → 128 <= b1 <= 191 →
  decode (s2 (byte_of b0) (byte_of b1) +:+ t)
  = GoRune ((b0 - 192) * 64 + (b1 - 128)) (s2 (byte_of b0) (byte_of b1)) :: decode t.
Proof.
  intros. set (c0 := byte_of b0). set (c1 := byte_of b1).
  assert (decode_first c0 (s1 c1 +:+ t) = GoRune ((b0 - 192) * 64 + (b1 - 128)) (s2 c0 c1)) as Hf.
  { change (s1 c1 +:+ t) with (String c1 t). unfold decode_first, rune2, c0, c1. cbv zeta iota.
    rewrite !byteZ_of, is_cont_of by lia. by zbool. }
  unfold s2 at 1. rewrite sapp_cons. rewrite (decode_cons _ _ (s1 c1) t); by rewrite ?Hf.
Qed.

Lemma decode3 b0 b1 b2 t : 224 <= b0 <= 239 → second3 b0 (byte_of b1) = true →
  128 <= b1 <= 191 → 128 <= b2 <= 191 →
  decode (s3 (byte_of b0) (byte_of b1) (byte_of b2) +:+ t)
  = GoRune ((b0 - 224) * 4096 + (b1 - 128) * 64 + (b2 - 128))
      (s3 (byte_of b0) (byte_of b1) (byte_of b2)) :: decode t.
Proof.
  intros ? Hs ??. set (c0 := byte_of b0). set (c1 := byte_of b1) in *. set (c2 := byte_of b2).
  assert (decode_first c0 (s2 c1 c2 +:+ t) =
    GoRune ((b0 - 224) * 4096 + (b1 - 128) * 64 + (b2 - 128)) (s3 c0 c1 c2)) as Hf.
  { change (s2 c1 c2 +:+ t) with (String c1 (String c2 t)).
    unfold decode_first, rune3. cbv zeta iota. unfold c0, c1, c2 in *.
    rewrite !byteZ_of, !is_cont_of, Hs by lia. by zbool. }
  unfold s3 at 1. rewrite sapp_cons. rewrite (decode_cons _ _ (s2 c1 c2) t); by rewrite ?Hf.
Qed.

Lemma decode4 b0 b1 b2 b3 t : 240 <= b0 <= 244 → second4 b0 (byte_of b1) = true →
  128 <= b1 <= 191 → 128 <= b2 <= 191 → 128 <= b3 <= 191 →
  decode (s4 (byte_of b0) (byte_of b1) (byte_of b2) (byte_of b3) +:+ t)
  = GoRune ((b0 - 240) * 262144 + (b1 - 128) * 4096 + (b2 - 128) * 64 + (b3 - 128))
      (s4 (byte_of b0) (byte_of b1) (byte_of b2) (byte_of b3)) :: decode t.
Proof.
  intros ? Hs ???. set (c0 := byte_of b0). set (c1 := byte_of b1) in *.
  set (c2 := byte_of b2). set (c3 := byte_of b3).
  assert (decode_first c0 (s3 c1 c2 c3 +:+ t) =
    GoRune ((b0 - 240) * 262144 + (b1 - 128) * 4096 + (b2 - 128) * 64 + (b3 - 128))
      (s4 c0 c1 c2 c3)) as Hf.
  { change (s3 c1 c2 c3 +:+ t) with (String c1 (String c2 (String c3 t))).
    unfold decode_first, rune4. cbv zeta iota. unfold c0, c1, c2, c3 in *.
    rewrite !byteZ_of, !is_cont_of, Hs by lia. by zbool. }
  unfold s4 at 1. rewrite sapp_cons. rewrite (decode_cons _ _ (s3 c1 c2 c3) t); by rewrite ?Hf.
Qed.

Ltac zdiv := Z.to_euclidean_division_equations; lia.

Lemma second3_ok b0 b1 : 224 <= b0 → 128 <= b1 <= 191 →
  (b0 = 224 → 160 <= b1) → (b0 = 237 → b1 <= 159) → second3 b0 (byte_of b1) = true.
Proof.
  intros. unfold second3, is_cont.
  destruct (Z.eqb_spec b0 224), (Z.eqb_spec b0 237); rewrite in_range_of by lia; by zbool.
Qed.

Lemma second4_ok b0 b1 : 240 <= b0 → 128 <= b1 <= 191 →
  (b0 = 240 → 144 <= b1) → (b0 = 244 → b1 <= 143) → second4 b0 (byte_of b1) = true.
Proof.
  intros. unfold second4, is_cont.
  destruct (Z.eqb_spec b0 240), (Z.eqb_spec b0 244); rewrite in_range_of by lia; by zbool.
Qed.

Lemma decode_encode_rune r t : scalar r = true →
  decode (encode_rune r +:+ t) = GoRune r (encode_rune r) :: decode t.
Proof.
  intros Hr. pose proof (scalar_spec r Hr). unfold encode_rune. rewrite Hr.
  destruct (Z.ltb_spec r 128); [apply decode1; lia|].
  destruct (Z.ltb_spec r 2048); [rewrite decode2; [f_equal; f_equal| |]; zdiv|].
  destruct (Z.ltb_spec r 65536).
  - rewrite decode3; [f_equal; f_equal| |apply second3_ok| |]; zdiv.
  - rewrite decode4; [f_equal; f_equal| |apply second4_ok| | |]; zdiv.
Qed.

Definition runes_of (l : list Z) : list gorune := map (λ r, GoRune r (encode_rune r)) l.

Lemma length_runes_of l : length (runes_of l) = length l.
Proof. apply List.length_map. Qed.

Lemma encode_cons r l : encode (r :: l) = encode_rune r +:+ encode l.
Proof. done. Qed.

Lemma encode_one r : encode [r] = encode_rune r.
Proof. apply sconcat_singleton. Qed.

Lemma encode_app l k : encode (l ++ k) = encode l +:+ encode k.
Proof. unfold encode. by rewrite map_app, sconcat_app. Qed.

Lemma decode_encode l t : Forall (λ r, scalar r = true) l →
  decode (encode l +:+ t) = runes_of l ++ decode t.
Proof.
  induction 1 as [|r l Hr _ IH]; [done|].
  rewrite encode_cons, sapp_assoc, decode_encode_rune by done. simpl. by rewrite IH.
Qed.

Lemma decode_encode_nil l : Forall (λ r, scalar r = true) l → decode (encode l) = runes_of l.
Proof. intros H. rewrite <- (sapp_nil_r (encode l)), decode_encode; simpl; auto using app_nil_r. Qed.

Lemma forallb_scalar l : forallb scalar l = true → Forall (λ r, scalar r = true) l.
Proof. rewrite forallb_forall, List.Forall_forall. done. Qed.

(** [valid_utf8 s]: Go's [utf8.ValidString], every byte belongs to an encoded scalar. *)
Definition valid_utf8 (s : string) : bool :=
  forallb (λ x, scalar (rune x) && (encode_rune (rune x) =s raw x)) (decode s).

Lemma valid_utf8_runes s : valid_utf8 s = true →
  ∃ l, Forall (λ r, scalar r = true) l ∧ s = encode l.
Proof.
  unfold valid_utf8. intros H. exists (map rune (decode s)). rewrite forallb_forall in H. split.
  - apply List.Forall_forall. intros r [x [<- Hx]]%in_map_iff. specialize (H x Hx). by breflect.
  - rewrite <- (decode_lossless s) at 1. unfold raws, encode. rewrite map_map. f_equal.
    apply map_ext_in. intros x Hx. specialize (H x Hx). by breflect.
Qed.
