(* ===== verification/GoStrings.v ===== *)
(** * The functions of Go's [strings], [unicode] and [strconv] the programs use

    Each is written over byte strings.  Functions whose Go version works rune
    by rune go through [Utf8.decode].  The case functions [ToUpper], [ToLower]
    and [EqualFold] are exact on every rune whose image or fold is an ASCII
    character (the ASCII letters and the runes U+0130, U+0131, U+017F and U+212A) and leave the
    other runes alone: the programs only ever search or compare their results
    with ASCII constants. *)
From S2P Require Import Prelude Utf8.
From stdpp Require Export pretty.

Open Scope Z_scope.

(** ** Prefixes, suffixes and substrings *)

Fixpoint HasPrefix (s pre : string) {struct pre} : bool :=
  match pre, s with
  | "", _ => true
  | String c pre, String d s => (c =b d) && HasPrefix s pre
  | _, _ => false
  end.

Fixpoint drop_bytes (n : nat) (s : string) : string :=
  match n, s with
  | S n, String _ s => drop_bytes n s
  | _, _ => s
  end.

Fixpoint take_bytes (n : nat) (s : string) : string :=
  match n, s with
  | S n, String c s => String c (take_bytes n s)
  | _, _ => ""
  end.

Definition HasSuffix (s suf : string) : bool :=
  (String.length suf <=? String.length s)%nat &&
  (drop_bytes (String.length s - String.length suf) s =s suf).

Definition TrimPrefix (s pre : string) : string :=
  if HasPrefix s pre then drop_bytes (String.length pre) s else s.

Definition TrimSuffix (s suf : string) : string :=
  if HasSuffix s suf then take_bytes (String.length s - String.length suf) s else s.

Fixpoint Contains (s sub : string) : bool :=
  HasPrefix s sub ||
  match s with
  | "" => false
  | String _ s => Contains s sub
  end.

(** [strings.Count] of a one-byte substring. *)
Fixpoint count_byte (c : ascii) (s : string) : Z :=
  match s with
  | "" => 0
  | String d s => (if c =b d then 1 else 0) + count_byte c s
  end.

(** ** Splitting and joining (the separators used are single bytes) *)

Fixpoint Split (s : string) (sep : ascii) : list string :=
  match s with
  | "" => [""]
  | String c s =>
      if c =b sep then "" :: Split s sep
      else match Split s sep with
           | w :: ws => String c w :: ws
           | [] => [s1 c]
           end
  end.

Fixpoint Join (l : list string) (sep : string) : string :=
  match l with
  | [] => ""
  | [s] => s
  | s :: l => s +:+ sep +:+ Join l sep
  end.

(** [strings.Replace s old new n]; [None] is the count [-1].  [skip] counts the
    bytes of the last match still to be dropped. *)
Fixpoint replace_from (skip : nat) (old new : string) (n : option nat) (s : string) : string :=
  match s with
  | "" => ""
  | String c s' =>
      match skip with
      | S k => replace_from k old new n s'
      | O =>
          if HasPrefix s old && match n with Some O => false | _ => true end
          then new +:+ replace_from (String.length old - 1) old new (pred <$> n) s'
          else String c (replace_from 0 old new n s')
      end
  end.

(** For a non-empty [old], as in all uses. *)
Definition Replace (s old new : string) (n : option nat) : string := replace_from 0 old new n s.
Definition ReplaceAll (s old new : string) : string := Replace s old new None.

(** ** Trimming *)

(** [unicode.IsSpace] *)
Definition IsSpace (r : Z) : bool :=
  if r <? 256 then
    ((9 <=? r) && (r <=? 13)) || (r =? 32) || (r =? 133) || (r =? 160)
  else
    (r =? 5760) || ((8192 <=? r) && (r <=? 8202)) || (r =? 8232) || (r =? 8233)
    || (r =? 8239) || (r =? 8287) || (r =? 12288).

Definition trim_runes (p : Z → bool) (l : list gorune) : list gorune :=
  trim_end (λ x, p (rune x)) (drop_while (λ x, p (rune x)) l).

(** [strings.TrimFunc] and [strings.TrimSpace] *)
Definition TrimFunc (p : Z → bool) (s : string) : string := raws (trim_runes p (decode s)).
Definition TrimSpace (s : string) : string := TrimFunc IsSpace s.

(** [strings.TrimLeft] and [strings.Trim] with a cutset of ASCII characters. *)
Fixpoint in_cutset (cut : string) (c : ascii) : bool :=
  match cut with
  | "" => false
  | String d cut => (c =b d) || in_cutset cut c
  end.

Fixpoint TrimLeft (s cut : string) : string :=
  match s with
  | "" => ""
  | String c s' => if in_cutset cut c then TrimLeft s' cut else s
  end.

Fixpoint TrimRight (s cut : string) : string :=
  match s with
  | "" => ""
  | String c s =>
      match TrimRight s cut with
      | "" => if in_cutset cut c then "" else s1 c
      | t => String c t
      end
  end.

Definition Trim (s cut : string) : string := TrimRight (TrimLeft s cut) cut.

(** [strings.Fields]: maximal runs of non-space runes. *)
Fixpoint fields_go (l : list gorune) (cur : string) : list string :=
  match l with
  | [] => if cur =s "" then [] else [cur]
  | x :: l =>
      if IsSpace (rune x)
      then (if cur =s "" then [] else [cur]) ++ fields_go l ""
      else fields_go l (cur +:+ raw x)
  end.
Definition Fields (s : string) : list string := fields_go (decode s) "".

(** ** Case *)

Definition upper_rune (r : Z) : Z :=
  if (97 <=? r) && (r <=? 122) then r - 32
  else if r =? 305 then 73 (* dotless i *)
  else if r =? 383 then 83 (* long s *)
  else r.

Definition lower_rune (r : Z) : Z :=
  if (65 <=? r) && (r <=? 90) then r + 32
  else if r =? 304 then 105 (* I with dot *)
  else if r =? 8490 then 107 (* Kelvin sign *)
  else r.

(** The representative of a simple-folding orbit. *)
Definition fold_rune (r : Z) : Z :=
  if (65 <=? r) && (r <=? 90) then r + 32
  else if r =? 383 then 115
  else if r =? 8490 then 107
  else r.

Definition map_runes (f : Z → Z) (s : string) : string :=
  sconcat (map (λ x, encode_rune (f (rune x))) (decode s)).

Definition ToUpper (s : string) : string := map_runes upper_rune s.
Definition ToLower (s : string) : string := map_runes lower_rune s.

Definition EqualFold (s t : string) : bool :=
  bool_decide (map (fold_rune ∘ rune) (decode s) = map (fold_rune ∘ rune) (decode t)).

(** ** Numbers *)

Definition digit (c : ascii) : option Z :=
  let z := byteZ c in if (48 <=? z) && (z <=? 57) then Some (z - 48) else None.

Fixpoint parse_digits (acc : Z) (s : string) : option Z :=
  match s with
  | "" => Some acc
  | String c s => d ← digit c; parse_digits (acc * 10 + d) s
  end.

Definition min_int64 : Z := -9223372036854775808.
Definition max_int64 : Z := 9223372036854775807.

(** Arithmetic on [int64] wraps around. *)
Definition int64 (z : Z) : Z := (z - min_int64) mod 2 ^ 64 + min_int64.

Lemma int64_id z : min_int64 <= z <= max_int64 → int64 z = z.
Proof. intros Hz. unfold int64, min_int64, max_int64 in *. rewrite Z.mod_small by lia. lia. Qed.

(** [strconv.Atoi] on a 64-bit platform and [strconv.ParseInt(s, 10, 64)]:
    [None] is a syntax or a range error. *)
Definition Atoi (s : string) : option Z :=
  let '(neg, body) :=
    match s with
    | String "-" s => (true, s)
    | String "+" s => (false, s)
    | _ => (false, s)
    end in
  if body =s "" then None else
  n ← parse_digits 0 body;
  let z := if neg then - n else n in
  if (min_int64 <=? z) && (z <=? max_int64) then Some z else None.

(** [strconv.Itoa] and [strconv.FormatInt(z, 10)] *)
Definition Itoa (z : Z) : string := pretty z.

(** [strconv.ParseBool] *)
Definition ParseBool (s : string) : option bool :=
  if existsb (String.eqb s) ["1"; "t"; "T"; "true"; "TRUE"; "True"] then Some true
  else if existsb (String.eqb s) ["0"; "f"; "F"; "false"; "FALSE"; "False"] then Some false
  else None.

(** Whether [Atoi] fails on a number that is too large, and not on the syntax. *)
Definition out_of_range (s : string) : bool :=
  let body := match s with String "-" s | String "+" s => s | _ => s end in
  negb (body =s "") && bool_decide (is_Some (parse_digits 0 body)) && bool_decide (Atoi s = None).

(** [strconv.Quote]; the runes above ASCII that are printed as they are are the first argument. *)
Definition hex_digit (z : Z) : Z := if z <? 10 then 48 + z else 87 + z.

Definition hex_string (digits : nat) (z : Z) : string :=
  encode (map (λ i, hex_digit (z / 16 ^ Z.of_nat i mod 16)) (rev (seq 0 digits))).

Definition quote_go (IsPrint : Z → bool) (x : gorune) : string :=
  let r := rune x in
  if (r =? RuneError) && negb (raw x =s encode_rune RuneError) then
    match raw x with String c _ => "\x" +:+ hex_string 2 (byteZ c) | "" => "" end
  else if (r =? 34) || (r =? 92) then "\" +:+ encode_rune r
  else if (32 <=? r) && (r <? 127) then encode_rune r
  else if (128 <=? r) && IsPrint r then encode_rune r
  else if r =? 7 then "\a" else if r =? 8 then "\b" else if r =? 12 then "\f" else if r =? 10 then "\n"
  else if r =? 13 then "\r" else if r =? 9 then "\t" else if r =? 11 then "\v"
  else if (r <? 32) || (r =? 127) then "\x" +:+ hex_string 2 r
  else if r <? 65536 then "\u" +:+ hex_string 4 r
  else "\U" +:+ hex_string 8 r.

Definition dquote : string := s1 "034".
Definition QuoteWith (IsPrint : Z → bool) (s : string) : string :=
  dquote +:+ sconcat (map (quote_go IsPrint) (decode s)) +:+ dquote.

(** ** Laws *)

Lemma drop_bytes_app s t : drop_bytes (String.length s) (s +:+ t) = t.
Proof. induction s as [|c s IH]; [by destruct t|]. done. Qed.

Lemma take_bytes_app s t : take_bytes (String.length s) (s +:+ t) = s.
Proof. induction s as [|c s IH]; [by destruct t|]. rewrite sapp_cons; simpl. by rewrite IH. Qed.

Lemma HasPrefix_spec s p : HasPrefix s p = true ↔ ∃ t, s = p +:+ t.
Proof.
  revert s; induction p as [|c p IH]; intros [|d s]; simpl; split; try done.
  - by exists "".
  - intros _. by exists (String d s).
  - by intros [t ?].
  - intros H. breflect. subst. apply IH in H0 as [t ->]. by exists t.
  - intros [t Ht]. rewrite sapp_cons in Ht. simplify_eq.
    apply andb_true_iff; split; [by apply Ascii.eqb_eq|]. apply IH. eauto.
Qed.

Lemma HasPrefix_app p t : HasPrefix (p +:+ t) p = true.
Proof. apply HasPrefix_spec. eauto. Qed.

Lemma HasPrefix_refl p : HasPrefix p p = true.
Proof. apply HasPrefix_spec. exists "". by autorewrite with gostr. Qed.

Lemma HasSuffix_spec s p : HasSuffix s p = true ↔ ∃ t, s = t +:+ p.
Proof.
  unfold HasSuffix. split.
  - intros H. breflect. apply Nat.leb_le in H.
    exists (take_bytes (String.length s - String.length p) s). rewrite <- H0 at 2.
    generalize (String.length s - String.length p)%nat as n. clear.
    induction s as [|c s IH]; intros [|n]; simpl; try done. by rewrite sapp_cons, <- IH.
  - intros [t ->]. rewrite slength_app. apply andb_true_iff; split; [apply Nat.leb_le; lia|].
    replace (_ - _)%nat with (String.length t) by lia. rewrite drop_bytes_app. apply String.eqb_refl.
Qed.

Lemma TrimSuffix_app t p : TrimSuffix (t +:+ p) p = t.
Proof.
  unfold TrimSuffix. rewrite (proj2 (HasSuffix_spec _ _)) by eauto. rewrite slength_app.
  replace (_ - _)%nat with (String.length t) by lia. apply take_bytes_app.
Qed.

Lemma Contains_spec s sub : Contains s sub = true ↔ ∃ a b, s = a +:+ sub +:+ b.
Proof.
  split.
  - induction s as [|c s IH]; cbn [Contains]; rewrite orb_true_iff; intros [H|H]; try done.
    + apply HasPrefix_spec in H as [t ->]. by exists "", t.
    + apply HasPrefix_spec in H as [t ->]. by exists "", t.
    + apply IH in H as (a & b & ->). by exists (String c a), b.
  - intros (a & b & ->). induction a as [|c a IH].
    + rewrite sapp_nil_l. destruct (sub +:+ b) eqn:E; cbn [Contains]; by rewrite <- E, HasPrefix_app.
    + rewrite sapp_cons. cbn [Contains]. by rewrite IH, orb_true_r.
Qed.

Lemma Contains_app_l s t sub : Contains s sub = true → Contains (s +:+ t) sub = true.
Proof.
  rewrite !Contains_spec. intros (a & b & ->). exists a, (b +:+ t). by autorewrite with gostr.
Qed.

Lemma Contains_app_r s t sub : Contains t sub = true → Contains (s +:+ t) sub = true.
Proof.
  rewrite !Contains_spec. intros (a & b & ->). exists (s +:+ a), b. by autorewrite with gostr.
Qed.

#[export] Hint Resolve Contains_app_l Contains_app_r HasPrefix_app HasPrefix_refl : go.

Lemma Split_ne s c : Split s c ≠ [].
Proof. destruct s as [|d s]; simpl; [done|]. by repeat case_match. Qed.

Lemma Join_cons s t l sep : Join (s :: t :: l) sep = s +:+ sep +:+ Join (t :: l) sep.
Proof. done. Qed.

Lemma Join_Split s c : Join (Split s c) (s1 c) = s.
Proof.
  induction s as [|d s IH]; simpl; [done|]. destruct (Ascii.eqb_spec d c) as [->|].
  - pose proof (Split_ne s c). destruct (Split s c) as [|w ws]; [done|].
    rewrite Join_cons, IH. done.
  - pose proof (Split_ne s c). destruct (Split s c) as [|w [|w' ws]]; [done|by rewrite <- IH|].
    rewrite Join_cons in *. by rewrite <- IH, sapp_cons.
Qed.

(** [no_byte c s]: the separator [c] does not occur in [s]. *)
Fixpoint no_byte (c : ascii) (s : string) : bool :=
  match s with
  | "" => true
  | String d s => negb (d =b c) && no_byte c s
  end.

Lemma Split_no_byte s c : no_byte c s = true → Split s c = [s].
Proof.
  induction s as [|d s IH]; simpl; [done|]. destruct (d =b c); [done|]. intros H. by rewrite IH.
Qed.

Lemma Split_app s c t : no_byte c s = true → Split (s +:+ String c t) c = s :: Split t c.
Proof.
  induction s as [|d s IH]; intros H; simpl in *.
  - by rewrite Ascii.eqb_refl.
  - destruct (d =b c); [done|]. by rewrite IH.
Qed.

Lemma Split_Join ws c : ws ≠ [] → Forall (λ w, no_byte c w = true) ws → Split (Join ws (s1 c)) c = ws.
Proof.
  intros Hne Hws. induction Hws as [|w ws Hw Hws IH]; [done|]. destruct ws as [|w' ws].
  - by apply Split_no_byte.
  - rewrite Join_cons. unfold s1 at 1. rewrite sapp_cons, sapp_nil_l, Split_app by done. by rewrite IH.
Qed.

Lemma Split_no_bytes s c : Forall (λ w, no_byte c w = true) (Split s c).
Proof.
  induction s as [|d s IH]; simpl; [by repeat constructor|].
  destruct (d =b c) eqn:E; [by constructor|].
  destruct IH as [|w ws Hw Hws]; repeat constructor; simpl; rewrite ?E; auto.
Qed.

(** [TrimSpace] leaves alone a string of runes that neither starts nor ends with a space. *)
Lemma TrimFunc_id p l : Forall (λ r, scalar r = true) l →
  (∀ r, head l = Some r → p r = false) → (∀ r, list.last l = Some r → p r = false) →
  TrimFunc p (encode l) = encode l.
Proof.
  intros Hl Hh Ht. unfold TrimFunc, trim_runes. rewrite decode_encode_nil by done.
  rewrite drop_while_id, trim_end_id.
  - unfold raws, encode, runes_of. by rewrite map_map.
  - intros x. unfold runes_of. rewrite fmap_last. intros [r [Hr ->]]%fmap_Some. auto.
  - intros x k. destruct l as [|r l]; [done|]. intros [= <- <-]. by apply Hh.
Qed.

(** Trimming a list keeps a contiguous part of it. *)
Lemma drop_while_split {A} (p : A → bool) l : ∃ a, l = a ++ drop_while p l.
Proof. exists (take_while p l). by rewrite take_drop_while. Qed.

Lemma trim_runes_split p l : ∃ a b, l = a ++ trim_runes p l ++ b.
Proof.
  unfold trim_runes. set (q := λ x, p (rune x)).
  destruct (drop_while_split q l) as [a Ha]. exists a.
  destruct (drop_while_split q (rev (drop_while q l))) as [b Hb]. exists (rev b).
  rewrite Ha at 1. f_equal. unfold trim_end. rewrite <- rev_app_distr, <- Hb. by rewrite rev_involutive.
Qed.

Lemma TrimSpace_runes l : Forall (λ r, scalar r = true) l →
  ∃ a l' b, l = a ++ l' ++ b ∧ TrimSpace (encode l) = encode l'.
Proof.
  intros Hl. unfold TrimSpace, TrimFunc. rewrite decode_encode_nil by done.
  destruct (trim_runes_split IsSpace (runes_of l)) as (a & b & E).
  exists (map rune a), (map rune (trim_runes IsSpace (runes_of l))), (map rune b).
  rewrite <- !map_app, <- E. unfold runes_of at 1. rewrite map_map, map_id. split; [done|].
  assert (Forall (λ x, raw x = encode_rune (rune x)) (runes_of l)) as Hraw.
  { apply Forall_fmap, Forall_true. done. }
  rewrite E in Hraw. apply Forall_app in Hraw as [_ [Hraw _]%Forall_app]. revert Hraw.
  generalize (trim_runes IsSpace (runes_of l)) as k. intros k Hk.
  unfold raws, encode. rewrite map_map. induction Hk as [|x k Hx _ IH]; [done|].
  rewrite !map_cons, !sconcat_cons. by rewrite Hx, IH.
Qed.

Lemma trim_runes_snoc p l x : p (rune x) = true → trim_runes p (l ++ [x]) = trim_runes p l.
Proof.
  intros Hx. unfold trim_runes, trim_end. induction l as [|y l IH]; simpl.
  - by rewrite Hx.
  - destruct (p (rune y)); [done|]. rewrite (app_comm_cons l [x] y), rev_app_distr. simpl. by rewrite Hx.
Qed.

(** A space after a valid text is trimmed. *)
Lemma TrimSpace_snoc l r : Forall (λ r, scalar r = true) l → scalar r = true → IsSpace r = true →
  TrimSpace (encode l +:+ encode_rune r) = TrimSpace (encode l).
Proof.
  intros Hl Hr Hs. unfold TrimSpace, TrimFunc.
  rewrite <- (sapp_nil_r (encode_rune r)), decode_encode, decode_encode_rune by done.
  rewrite trim_runes_snoc by done. by rewrite decode_encode_nil.
Qed.

Lemma Contains_TrimSpace s sub : Contains (TrimSpace s) sub = true → Contains s sub = true.
Proof.
  unfold TrimSpace, TrimFunc. destruct (trim_runes_split IsSpace (decode s)) as (a & b & E).
  intros H. rewrite <- (decode_lossless s), E, !raws_app. auto with go.
Qed.

(** ** [Itoa] and [Atoi] are inverse on 64-bit integers *)

Lemma digit_pretty n : (n < 10)%N → digit (pretty_N_char n) = Some (Z.of_N n).
Proof.
  intros. assert (n = 0 ∨ n = 1 ∨ n = 2 ∨ n = 3 ∨ n = 4 ∨ n = 5 ∨ n = 6 ∨ n = 7 ∨ n = 8 ∨ n = 9)%N
    as Hn by lia.
  by repeat destruct Hn as [->|Hn]; subst.
Qed.

Lemma parse_pretty_go x s : parse_digits 0 (pretty_N_go x s) = parse_digits (Z.of_N x) s.
Proof.
  revert s. induction (N.lt_wf_0 x) as [x _ IH]. intros s.
  destruct (decide (x = 0)%N) as [->|]; [by rewrite pretty_N_go_0|].
  rewrite pretty_N_go_step by lia. rewrite IH by (apply N.div_lt; lia). simpl.
  rewrite digit_pretty by (by apply N.mod_lt). simpl. f_equal.
  rewrite (N.div_mod x 10) at 3 by done. lia.
Qed.

Lemma parse_pretty (n : N) : parse_digits 0 (pretty n) = Some (Z.of_N n).
Proof.
  unfold pretty, pretty_N. case_decide; [by subst|]. by rewrite parse_pretty_go.
Qed.

(** The first byte of a printed natural is a digit. *)
Definition starts_digit (s : string) : Prop := ∃ c t d, s = String c t ∧ digit c = Some d.

Lemma pretty_starts_digit (n : N) : starts_digit (pretty n).
Proof.
  pose proof (parse_pretty n) as H. destruct (pretty n) as [|c t] eqn:E.
  - exfalso. unfold pretty, pretty_N in E. case_decide; [done|].
    assert (∀ x s, s ≠ "" → pretty_N_go x s ≠ "") as Hne.
    { intros x. induction (N.lt_wf_0 x) as [x _ IH]. intros s Hs.
      destruct (decide (x = 0)%N) as [->|]; [by rewrite pretty_N_go_0|].
      rewrite pretty_N_go_step by lia. apply IH; [apply N.div_lt; lia|done]. }
    rewrite pretty_N_go_step in E by lia. by apply Hne in E.
  - simpl in H. destruct (digit c) as [d|] eqn:Hd; [|done]. by exists c, t, d.
Qed.

Lemma Atoi_unsigned s : starts_digit s →
  Atoi s = n ← parse_digits 0 s; if (min_int64 <=? n) && (n <=? max_int64) then Some n else None.
Proof.
  intros (c & t & d & -> & Hd). unfold Atoi.
  destruct c as [[] [] [] [] [] [] [] []]; try done.
Qed.

Theorem Atoi_Itoa z : min_int64 <= z <= max_int64 → Atoi (Itoa z) = Some z.
Proof.
  intros [Hlo Hhi]. unfold Itoa. destruct z as [|p|p]; [done| |].
  - change (pretty (Z.pos p)) with (pretty (N.pos p)).
    rewrite Atoi_unsigned, parse_pretty by apply pretty_starts_digit.
    cbn [mbind option_bind Z.of_N].
    rewrite (proj2 (Z.leb_le min_int64 _)), (proj2 (Z.leb_le (Z.pos p) _)) by lia. done.
  - change (pretty (Z.neg p)) with ("-" +:+ pretty (N.pos p)). unfold Atoi.
    change ("-" +:+ pretty (N.pos p)) with (String "-" (pretty (N.pos p))). cbv iota beta.
    destruct (pretty_starts_digit (N.pos p)) as (c & t & d & E & _).
    rewrite E. cbn [String.eqb]. rewrite <- E, parse_pretty.
    cbn [mbind option_bind Z.of_N Z.opp].
    rewrite (proj2 (Z.leb_le min_int64 _)), (proj2 (Z.leb_le (Z.neg p) _)) by lia. done.
Qed.

(** ** ASCII text *)

(** Every byte passes the test. *)
Fixpoint all_bytes (p : ascii → bool) (s : string) : bool :=
  match s with
  | "" => true
  | String c s => p c && all_bytes p s
  end.

Lemma all_bytes_app p s t : all_bytes p (s +:+ t) = all_bytes p s && all_bytes p t.
Proof. induction s as [|c s IH]; [done|]. rewrite sapp_cons. simpl. rewrite IH. apply andb_assoc. Qed.

Lemma all_bytes_impl (p q : ascii → bool) s : (∀ c, p c = true → q c = true) →
  all_bytes p s = true → all_bytes q s = true.
Proof. intros Hpq. induction s as [|c s IH]; simpl; [done|]. rewrite !andb_true_iff. naive_solver. Qed.

Lemma no_byte_all c s : no_byte c s = all_bytes (λ d, negb (d =b c)) s.
Proof. induction s as [|d s IH]; simpl; [done|]. by rewrite IH. Qed.

(** The runes of a string of ASCII bytes. *)
Fixpoint runes (s : string) : list Z :=
  match s with "" => [] | String c s => byteZ c :: runes s end.

Definition is_ascii (c : ascii) : bool := byteZ c <? 128.

Lemma ascii_scalar c : is_ascii c = true → scalar (byteZ c) = true.
Proof. unfold is_ascii, scalar. pose proof (byteZ_range c). intros ?%Z.ltb_lt. zbool; lia. Qed.

Lemma encode_runes s : all_bytes is_ascii s = true → encode (runes s) = s ∧ Forall (λ r, scalar r = true) (runes s).
Proof.
  induction s as [|c s IH]; simpl; [done|]. intros [Hc Hs]%andb_true_iff. destruct (IH Hs) as [E HF].
  rewrite encode_cons, E. split; [|constructor; auto using ascii_scalar].
  unfold encode_rune. rewrite ascii_scalar by done. unfold is_ascii in Hc. rewrite Hc.
  by rewrite byte_of_byteZ.
Qed.

(** An ASCII text without white space, with a line feed after it. *)
Lemma TrimSpace_line s : all_bytes (λ c, is_ascii c && negb (IsSpace (byteZ c))) s = true →
  TrimSpace (s +:+ s1 "010") = s.
Proof.
  intros Hs. assert (all_bytes is_ascii s = true) as Ha.
  { eapply all_bytes_impl; [|done]. intros c [? _]%andb_true_iff. done. }
  destruct (encode_runes s Ha) as [E HF].
  rewrite <- E at 1. change (s1 "010") with (encode_rune 10). rewrite TrimSpace_snoc by done.
  assert (Forall (λ r, IsSpace r = false) (runes s)) as Hsp.
  { clear -Hs. induction s as [|c s IH]; simpl in *; [done|].
    rewrite !andb_true_iff, negb_true_iff in Hs. constructor; naive_solver. }
  unfold TrimSpace. rewrite TrimFunc_id; [done|done|..]; intros r Hr; rewrite Forall_forall in Hsp; apply Hsp.
  - apply head_Some in Hr as [l ->]. left.
  - apply last_Some in Hr as [l ->]. set_solver.
Qed.

Definition is_digit (c : ascii) : bool := (48 <=? byteZ c) && (byteZ c <=? 57).

Lemma parse_digits_all acc s z : parse_digits acc s = Some z → all_bytes is_digit s = true.
Proof.
  revert acc. induction s as [|c s IH]; intros acc; simpl; [done|].
  unfold digit, is_digit. destruct (_ && _); simpl; [|done]. apply IH.
Qed.

Lemma Itoa_digits z : 0 <= z → all_bytes is_digit (Itoa z) = true.
Proof.
  intros Hz. apply (parse_digits_all 0 _ z). unfold Itoa.
  destruct z as [|p|p]; [done| |lia]. change (pretty (Z.pos p)) with (pretty (N.pos p)). apply parse_pretty.
Qed.

Lemma Itoa_no_byte z c : 0 <= z → is_digit c = false → no_byte c (Itoa z) = true.
Proof.
  intros Hz Hc. rewrite no_byte_all. eapply all_bytes_impl; [|by apply Itoa_digits].
  intros d Hd. apply negb_true_iff. destruct (Ascii.eqb_spec d c); congruence.
Qed.

Lemma Itoa_ne z : Itoa z ≠ "".
Proof.
  unfold Itoa. destruct z as [|p|p]; [done| |].
  - change (pretty (Z.pos p)) with (pretty (N.pos p)). by destruct (pretty_starts_digit (N.pos p)) as (? & ? & ? & -> & _).
  - done.
Qed.

Lemma Atoi_range s z : Atoi s = Some z → min_int64 <= z <= max_int64.
Proof.
  unfold Atoi. match goal with |- (let '(_, _) := ?x in _) = _ → _ => destruct x as [neg body] end.
  destruct (body =s ""); [done|]. destruct (parse_digits 0 body) as [n|]; simpl; [|done].
  destruct (_ && _) eqn:E; [|done]. intros [= <-]. apply andb_true_iff in E as [?%Z.leb_le ?%Z.leb_le]. done.
Qed.

(** White space around a text that has none at its ends is trimmed. *)
Lemma trim_runes_pad p a l b : Forall (λ x, p (rune x) = true) a → Forall (λ x, p (rune x) = true) b →
  Forall (λ x, p (rune x) = false) l → trim_runes p (a ++ l ++ b) = l.
Proof.
  intros Ha Hb Hl. unfold trim_runes. rewrite drop_while_app_all by done.
  unfold trim_end. destruct Hl as [|x l Hx Hl].
  - simpl. rewrite <- (app_nil_r b). by rewrite drop_while_app_all.
  - rewrite <- app_comm_cons. simpl drop_while at 1. rewrite Hx. rewrite app_comm_cons, rev_app_distr.
    rewrite drop_while_app_all by by apply Forall_rev.
    rewrite drop_while_id, rev_involutive; [done|]. intros y k E.
    assert (Forall (λ x, p (rune x) = false) (rev (x :: l))) as Hr by (apply Forall_rev; by constructor).
    rewrite E in Hr. by apply Forall_cons in Hr as [? _].
Qed.

Definition blank (c : ascii) : bool := is_ascii c && IsSpace (byteZ c).
Definition solid (c : ascii) : bool := is_ascii c && negb (IsSpace (byteZ c)).

Lemma runes_app s t : runes (s +:+ t) = runes s ++ runes t.
Proof. induction s as [|c s IH]; [done|]. rewrite sapp_cons. simpl. by rewrite IH. Qed.

Lemma runes_of_Forall (P : Z → Prop) s : Forall P (runes s) → Forall (λ x, P (rune x)) (runes_of (runes s)).
Proof. intros H. unfold runes_of. by apply Forall_fmap. Qed.

Lemma all_bytes_runes (p : ascii → bool) (P : Z → Prop) s : (∀ c, p c = true → P (byteZ c)) →
  all_bytes p s = true → Forall P (runes s).
Proof.
  intros Hp. induction s as [|c s IH]; simpl; [done|]. intros [Hc Hs]%andb_true_iff. constructor; auto.
Qed.

Lemma TrimSpace_pad a s b : all_bytes blank a = true → all_bytes solid s = true → all_bytes blank b = true →
  TrimSpace (a +:+ s +:+ b) = s.
Proof.
  intros Ha Hs Hb.
  assert (all_bytes is_ascii (a +:+ s +:+ b) = true) as Hall.
  { rewrite !all_bytes_app, !andb_true_iff. split_and!; (eapply all_bytes_impl; [|done]);
      intros c [? _]%andb_true_iff; done. }
  destruct (encode_runes _ Hall) as [E HF]. rewrite <- E. unfold TrimSpace, TrimFunc.
  rewrite decode_encode_nil, !runes_app by done. unfold runes_of. rewrite !map_app.
  fold (runes_of (runes a)) (runes_of (runes s)) (runes_of (runes b)). rewrite trim_runes_pad.
  - rewrite !all_bytes_app, !andb_true_iff in Hall. destruct Hall as (_ & Hs' & _).
    destruct (encode_runes s Hs') as [Es _]. rewrite <- Es at 2. unfold raws, runes_of, encode. by rewrite map_map.
  - apply (runes_of_Forall (λ r, IsSpace r = true)). eapply all_bytes_runes; [|done]. by intros c [_ ?]%andb_true_iff.
  - apply (runes_of_Forall (λ r, IsSpace r = true)). eapply all_bytes_runes; [|done]. by intros c [_ ?]%andb_true_iff.
  - apply (runes_of_Forall (λ r, IsSpace r = false)). eapply all_bytes_runes; [|done]. by intros c [_ ?%negb_true_iff]%andb_true_iff.
Qed.

Lemma HasSuffix_no_byte c s : no_byte c s = true → HasSuffix s (s1 c) = false.
Proof.
  intros Hs. apply not_true_is_false. intros (t & ->)%HasSuffix_spec.
  rewrite no_byte_all, all_bytes_app in Hs. apply andb_true_iff in Hs as [_ Hs]. simpl in Hs.
  by rewrite Ascii.eqb_refl in Hs.
Qed.
