(* ===== verification/Bufio.v ===== *)
(** * Reading text by lines

    [bufio.Scanner] with its default line splitting and its limit on the length of a
    line, and text made of whole lines. *)
From S2P Require Import Prelude Utf8 GoStrings.

Open Scope Z_scope.

(** ** [bufio.Scanner] with its default line splitting *)

Definition MaxScanTokenSize : Z := 65536.

Definition dropCR (l : string) : string := TrimSuffix l (s1 "013").

(** The lines before the first one that is too long, and whether there is one. *)
Fixpoint take_tokens (ls : list string) : list string * bool :=
  match ls with
  | [] => ([], false)
  | l :: ls =>
      if MaxScanTokenSize <=? Z.of_nat (String.length l) then ([], true)
      else let '(ts, e) := take_tokens ls in (dropCR l :: ts, e)
  end.

(** The text after the last line feed is a line unless it is empty. *)
Definition drop_last_empty (ls : list string) : list string :=
  match list.last ls with Some "" => removelast ls | _ => ls end.

Definition ScanLines (text : string) : list string * bool :=
  take_tokens (drop_last_empty (Split text "010")).

Definition lf : string := s1 "010".


(** ** Scanning the text gives its lines back *)

Definition line_ok (l : string) : Prop :=
  no_byte "010" l = true ∧ HasSuffix l (s1 "013") = false ∧ Z.of_nat (String.length l) < MaxScanTokenSize.

Lemma take_tokens_ok ls : Forall line_ok ls → take_tokens ls = (ls, false).
Proof.
  induction 1 as [|l ls (_ & Hcr & Hl) _ IH]; simpl; [done|]. rewrite IH.
  rewrite (proj2 (Z.leb_gt _ _)) by done. unfold dropCR, TrimSuffix. by rewrite Hcr.
Qed.

Lemma ScanLines_Join ls : Forall line_ok ls → ls ≠ [] → list.last ls ≠ Some "" →
  ScanLines (Join ls (s1 "010")) = (ls, false).
Proof.
  intros Hls Hne Hlast. unfold ScanLines. rewrite Split_Join; [|done|].
  - unfold drop_last_empty. destruct (list.last ls) as [[|]|]; by rewrite ?take_tokens_ok.
  - eapply Forall_impl; [done|]. by intros l [? _].
Qed.

(** ** Files of whole lines *)

Definition text (ls : list string) : string := sconcat (map (λ l, l +:+ lf) ls).

Definition line_okb (l : string) : bool :=
  no_byte "010" l && negb (HasSuffix l (s1 "013")) && (Z.of_nat (String.length l) <? MaxScanTokenSize).

Lemma line_okb_spec l : line_okb l = true ↔ line_ok l.
Proof.
  unfold line_okb, line_ok. rewrite !andb_true_iff, negb_true_iff, Z.ltb_lt. tauto.
Qed.

Lemma lines_text_app ls ls' : text (ls ++ ls') = text ls +:+ text ls'.
Proof. unfold text. by rewrite map_app, sconcat_app. Qed.

Lemma text_snoc ls l : text (ls ++ [l]) = text ls +:+ l +:+ lf.
Proof. rewrite lines_text_app. unfold text at 2. cbn [map]. by rewrite sconcat_singleton. Qed.

Lemma Split_text ls : Forall line_ok ls → Split (text ls) "010" = ls ++ [""].
Proof.
  induction 1 as [|l ls (Hl & _) _ IH]; [done|]. unfold text. cbn [map]. rewrite sconcat_cons, sapp_assoc.
  change (lf +:+ ?x) with (String "010" x). rewrite Split_app by done. cbn [app]. f_equal. exact IH.
Qed.

Lemma ScanLines_text ls : Forall line_ok ls → ScanLines (text ls) = (ls, false).
Proof.
  intros Hls. unfold ScanLines. rewrite Split_text by done. unfold drop_last_empty.
  rewrite last_snoc, removelast_last. by apply take_tokens_ok.
Qed.
