(* ===== verification/Redact.v ===== *)
(** * Redaction of MQSC output (internal/mqscredact/mqscredact.go)

    The scanner behind [formatMQSCOutput]: it copies MQSC text and replaces the
    parenthesised value of every sensitive parameter by [redactionString].  The
    [bufio.Reader] over the text is the list of its decoded runes; the labelled
    loops of the Go code are the modes of one recursive function, the main
    loop is a step function iterated with fuel. *)
From S2P Require Import Prelude Utf8 GoStrings.

Open Scope Z_scope.

Module Redact.

Definition sensitiveParameters : list string := ["LDAPPWD"; "PASSWORD"; "SSLCRYP"].

Definition redactionString : string := "(*********)".

(** The runes still to be read. *)
Abbreviation reader := (list gorune).

Definition nl : Z := byteZ "010".
Definition star : Z := byteZ "*".
Definition lparen : Z := byteZ "(".
Definition rparen : Z := byteZ ")".
Definition plus : Z := byteZ "+".
Definition minus : Z := byteZ "-".
Definition is_quote (r : Z) : bool := (r =? byteZ "'") || (r =? 34).

(** Go's [string(char)]. *)
Definition str (c : gorune) : string := encode_rune (rune c).

(** The regular expression [[^:0-9\s]] on a one-rune string. *)
Definition startOutput (r : Z) : bool :=
  negb ((r =? byteZ ":") || ((48 <=? r) && (r <=? 57))
        || (r =? 9) || (r =? 10) || (r =? 12) || (r =? 13) || (r =? 32)).

(** [r.Peek(1)]: the next byte, not consumed. *)
Definition peek1 (c : gorune) : Z :=
  match raw c with String b _ => byteZ b | "" => 0 end.

(** ** Quoted strings inside a value *)

(** Where [findEndOfParamterString] is: in the string, skipping the start of a
    new line ([NewLineLoop]), or in a comment line ([CommentLoop]). *)
Inductive qmode := QValue | QNewLine | QComment.

(** Leaving [NewLineLoop] does not consume: the mode is decided by the peeked byte. *)
Definition peek_mode (m : qmode) (c : gorune) : qmode :=
  match m with
  | QNewLine =>
      if startOutput (peek1 c)
      then if peek1 c =? star then QComment else QValue
      else QNewLine
  | _ => m
  end.

Fixpoint findEndOfParamterString (stringDenoter : Z) (m : qmode) (r : reader) (parameter : string)
    : string * reader :=
  match r with
  | [] => (parameter, [])
  | c :: r =>
      let parameter := parameter +:+ str c in
      match peek_mode m c with
      | QValue =>
          if rune c =? stringDenoter then (parameter, r)
          else findEndOfParamterString stringDenoter (if rune c =? nl then QNewLine else QValue) r parameter
      | QNewLine => findEndOfParamterString stringDenoter QNewLine r parameter
      | QComment =>
          findEndOfParamterString stringDenoter (if rune c =? nl then QNewLine else QComment) r parameter
      end
  end.

(** ** Parenthesised values *)

Fixpoint getParameterLoop (fuel : nat) (r : reader) (parameter : string) : option (string * reader) :=
  match fuel with
  | O => None
  | S fuel =>
      match r with
      | [] => Some (parameter, [])
      | c :: r =>
          let parameter := parameter +:+ str c in
          if rune c =? rparen then Some (parameter, r)
          else if is_quote (rune c) then
            let '(s, r) := findEndOfParamterString (rune c) QValue r "" in
            getParameterLoop fuel r (parameter +:+ s)
          else getParameterLoop fuel r parameter
      end
  end.

Definition getParameterString (r : reader) : option (string * reader) :=
  getParameterLoop (S (length r)) r "(".

(** ** The main loop *)

Record state := State {
  returnStr : string; currentVerb : string; originalString : string;
  lineContinuation : bool; foundGap : bool; parameterNext : bool;
  redacting : bool; checkComment : bool; newline : bool }.

Definition resetAllParameters (s : state) : state :=
  State (returnStr s) "" "" false false false false true (newline s).

Definition isSensitiveCommand (command : string) : bool :=
  existsb (Contains command) sensitiveParameters.

(** [originalString = originalString + string(char)] *)
Definition keep (c : gorune) (s : state) : state :=
  State (returnStr s) (currentVerb s) (originalString s +:+ str c) (lineContinuation s)
    (foundGap s) (parameterNext s) (redacting s) (checkComment s) (newline s).

Definition set_newline (b : bool) (s : state) : state :=
  State (returnStr s) (currentVerb s) (originalString s) (lineContinuation s)
    (foundGap s) (parameterNext s) (redacting s) (checkComment s) b.

(** The comment of the main loop, up to its new line; [None] at end of text. *)
Fixpoint commentLoop (r : reader) (original : string) : string * option reader :=
  match r with
  | [] => (original, None)
  | c :: r =>
      let original := original +:+ str c in
      if rune c =? nl then (original, Some r) else commentLoop r original
  end.

(** The parameter value at the head of the loop, when the last rune was an
    opening parenthesis. *)
Definition readParameter (s : state) (r : reader) : option (state * reader) :=
  if parameterNext s then
    '(parameterStr, r) ← getParameterString r;
    let returnStr := returnStr s +:+ (if redacting s then redactionString else parameterStr) in
    Some (resetAllParameters
      (State returnStr (currentVerb s) (originalString s) (lineContinuation s)
         (foundGap s) (parameterNext s) (redacting s) (checkComment s) (newline s)), r)
  else Some (s, r).

(** A rune of a word or an opening parenthesis: the end of the switch. *)
Definition wordRune (c : gorune) (s : state) : state :=
  let parameterNext := (rune c =? lparen) || parameterNext s in
  let completed := foundGap s || parameterNext in
  if completed then
    State (returnStr s +:+ originalString s) (str c) (str c) false false parameterNext
      (redacting s || isSensitiveCommand (ToUpper (currentVerb s))) false (newline s)
  else
    State (returnStr s) (currentVerb s +:+ str c) (originalString s +:+ str c) false
      (foundGap s) parameterNext (redacting s) false (newline s).

(** The switch on the rune just read: either the final text, at the end of a
    comment that ends the input, or the next state. *)
Definition readRune (c : gorune) (r : reader) (s : state) : string + (state * reader) :=
  if newline s && negb (startOutput (rune c)) then inr (keep c s, r) else
  let s := set_newline false s in
  let x := rune c in
  if (x =? plus) || (x =? minus) then
    inr (keep c (State (returnStr s) (currentVerb s) (originalString s) true false
           (parameterNext s) (redacting s) (checkComment s) (newline s)), r)
  else if (x =? nl) || (x =? 9) || (x =? 13) || (x =? 32) then
    inr (keep c (State (returnStr s) (currentVerb s) (originalString s) (lineContinuation s)
           (foundGap s || negb (lineContinuation s)) (parameterNext s) (redacting s)
           ((x =? nl) || checkComment s) ((x =? nl) || newline s)), r)
  else if (x =? star) && checkComment s then
    match commentLoop r (originalString s +:+ str c) with
    | (original, None) => inl (returnStr s +:+ original)
    | (original, Some r) =>
        inr (State (returnStr s) (currentVerb s) original (lineContinuation s) (foundGap s)
               (parameterNext s) (redacting s) true true, r)
    end
  else inr (wordRune c s, r).

(** One turn of [MainLoop]. *)
Definition mainStep (s : state) (r : reader) : option (string + (state * reader)) :=
  '(s, r) ← readParameter s r;
  Some match r with
  | [] => inl (returnStr s +:+ originalString s)
  | c :: r => readRune c r s
  end.

Fixpoint mainLoop (fuel : nat) (s : state) (r : reader) : option string :=
  match fuel with
  | O => None
  | S fuel =>
      o ← mainStep s r;
      match o with
      | inl out => Some out
      | inr (s, r) => mainLoop fuel s r
      end
  end.

Definition initial : state := State "" "" "" false false false false true true.

(** [Redact].  The reader runs over a string, so that its only error is
    [io.EOF] and the Go function's error result is always nil; [None] would be
    a loop that does not terminate. *)
Definition Redact (out : string) : option string :=
  let r := decode (TrimSpace out) in
  mainLoop (S (length r)) initial r.

(** ** Examples: cases of mqscredact_test.go *)

Example redact_ldap :
  Redact "DEFINE AUTHINFO(TEST) AUTHTYPE(IDPWLDAP) ldappwd     ('hippo123456')"
  = Some "DEFINE AUTHINFO(TEST) AUTHTYPE(IDPWLDAP) ldappwd     (*********)".
Proof. vm_compute. reflexivity. Qed.

Definition lf : string := s1 "010".

Example redact_continuation :
  Redact ("ALTER QMGR +   " +:+ lf +:+ "   SSL +" +:+ lf +:+ " CRYP('hippo+" +:+ lf
          +:+ " 1+" +:+ lf +:+ "6') +" +:+ lf +:+ " TEST(1234)")
  = Some ("ALTER QMGR +   " +:+ lf +:+ "   SSL +" +:+ lf +:+ " CRYP(*********) +" +:+ lf +:+ " TEST(1234)").
Proof. vm_compute. reflexivity. Qed.

Example redact_comment_in_value :
  Redact (" 3: ALTER CHANNEL(TEST3) CHLTYPE(SDR) PASSWORD('hippo-" +:+ lf
          +:+ "*commentinmiddle with ') " +:+ lf +:+ "123456')")
  = Some "3: ALTER CHANNEL(TEST3) CHLTYPE(SDR) PASSWORD(*********)".
Proof. vm_compute. reflexivity. Qed.

(** ** What the loops read *)

Definition strs (r : reader) : string := sconcat (map str r).

Lemma strs_cons c r : strs (c :: r) = str c +:+ strs r.
Proof. done. Qed.

Lemma strs_app r r' : strs (r ++ r') = strs r +:+ strs r'.
Proof. unfold strs. by rewrite map_app, sconcat_app. Qed.

#[export] Hint Rewrite strs_cons strs_app : gostr.

Lemma findEnd_reads d m r p :
  ∃ u r', r = u ++ r' ∧ findEndOfParamterString d m r p = (p +:+ strs u, r').
Proof.
  revert m p. induction r as [|c r IH]; intros m p; simpl.
  - exists [], []. by rewrite sapp_nil_r.
  - assert (∀ m', ∃ u r', c :: r = u ++ r' ∧
      findEndOfParamterString d m' r (p +:+ str c) = (p +:+ strs u, r')) as Hgo.
    { intros m'. destruct (IH m' (p +:+ str c)) as (u & r' & -> & ->).
      exists (c :: u), r'. split; [done|]. by autorewrite with gostr. }
    destruct (peek_mode m c); try apply Hgo.
    destruct (rune c =? d); [|apply Hgo].
    exists [c], r. split; [done|]. by autorewrite with gostr.
Qed.

Lemma getParameterLoop_reads fuel r p : (length r < fuel)%nat →
  ∃ u r', r = u ++ r' ∧ getParameterLoop fuel r p = Some (p +:+ strs u, r').
Proof.
  revert r p. induction fuel as [|fuel IH]; intros [|c r] p Hf; simpl in *; try lia.
  - exists [], []. by rewrite sapp_nil_r.
  - destruct (rune c =? rparen).
    { exists [c], r. split; [done|]. by autorewrite with gostr. }
    destruct (is_quote (rune c)).
    + destruct (findEnd_reads (rune c) QValue r "") as (u & r1 & -> & ->).
      rewrite length_app in Hf.
      destruct (IH r1 ((p +:+ str c) +:+ "" +:+ strs u)) as (v & r' & -> & ->); [lia|].
      exists (c :: u ++ v), r'. split; [by rewrite <- app_comm_cons, <- app_assoc|].
      by autorewrite with gostr.
    + destruct (IH r (p +:+ str c)) as (u & r' & -> & ->); [lia|].
      exists (c :: u), r'. split; [done|]. by autorewrite with gostr.
Qed.

Lemma getParameterString_reads r :
  ∃ u r', r = u ++ r' ∧ getParameterString r = Some ("(" +:+ strs u, r').
Proof. apply getParameterLoop_reads. lia. Qed.

Lemma commentLoop_reads r o :
  (∃ u r', r = u ++ r' ∧ commentLoop r o = (o +:+ strs u, Some r'))
  ∨ commentLoop r o = (o +:+ strs r, None).
Proof.
  revert o. induction r as [|c r IH]; intros o; simpl.
  - right. by rewrite sapp_nil_r.
  - destruct (rune c =? nl).
    { left. exists [c], r. split; [done|]. by autorewrite with gostr. }
    destruct (IH (o +:+ str c)) as [(u & r' & -> & ->)| ->]; [left|right].
    + exists (c :: u), r'. split; [done|]. by autorewrite with gostr.
    + by autorewrite with gostr.
Qed.

(** ** Any text is a sequence of kept and hidden segments *)

Inductive segment := Kept (t : string) | Hidden (t : string).

Definition seg_text (g : segment) : string := match g with Kept t | Hidden t => t end.
Definition seg_shown (g : segment) : string :=
  match g with Kept t => t | Hidden _ => redactionString end.
Definition seg_ok (g : segment) : Prop :=
  match g with Kept _ => True | Hidden t => HasPrefix t "(" = true end.

Definition text (l : list segment) : string := sconcat (map seg_text l).
Definition shown (l : list segment) : string := sconcat (map seg_shown l).

Lemma text_app l k : text (l ++ k) = text l +:+ text k.
Proof. unfold text. by rewrite map_app, sconcat_app. Qed.
Lemma shown_app l k : shown (l ++ k) = shown l +:+ shown k.
Proof. unfold shown. by rewrite map_app, sconcat_app. Qed.
Lemma text_kept t : text [Kept t] = t.
Proof. apply sconcat_singleton. Qed.
Lemma shown_kept t : shown [Kept t] = t.
Proof. apply sconcat_singleton. Qed.

#[export] Hint Rewrite text_app shown_app text_kept shown_kept : gostr.

(** The invariant of the head of the loop: before a value is read, the pending
    text is the opening parenthesis. *)
Definition loop_inv (s : state) : Prop := parameterNext s = true → originalString s = "(".

Lemma readParameter_segments s r : loop_inv s →
  ∃ s' r' segs, readParameter s r = Some (s', r') ∧ parameterNext s' = false
    ∧ (length r' ≤ length r)%nat ∧ returnStr s' = returnStr s +:+ shown segs
    ∧ originalString s +:+ strs r = text segs +:+ originalString s' +:+ strs r'
    ∧ Forall seg_ok segs.
Proof.
  intros Hinv. unfold readParameter. destruct (parameterNext s) eqn:Hp.
  - destruct (getParameterString_reads r) as (u & r' & -> & ->). simpl.
    rewrite Hinv by done. destruct (redacting s); do 2 eexists;
      [exists [Hidden ("(" +:+ strs u)]|exists [Kept ("(" +:+ strs u)]];
      (split_and!; [done|done|rewrite length_app; lia| | |]); unfold text, shown; simpl;
      autorewrite with gostr; try done; apply Forall_singleton; first [done|apply (HasPrefix_app "(")].
  - exists s, r, []. unfold text, shown; simpl. by rewrite sapp_nil_r.
Qed.

Lemma readRune_segments c r s : parameterNext s = false →
  match readRune c r s with
  | inl out => out = returnStr s +:+ originalString s +:+ strs (c :: r)
  | inr (s', r') =>
      loop_inv s' ∧ (length r' ≤ length r)%nat ∧
      ∃ t, returnStr s' = returnStr s +:+ t ∧
           originalString s +:+ strs (c :: r) = t +:+ originalString s' +:+ strs r'
  end.
Proof.
  intros Hp. unfold readRune, keep, wordRune, loop_inv, set_newline; simpl; rewrite Hp.
  destruct (newline s && _); simpl.
  { split; [done|]. split; [lia|]. exists "". by autorewrite with gostr. }
  destruct (_ || _); simpl.
  { split; [done|]. split; [lia|]. exists "". by autorewrite with gostr. }
  destruct (_ || (_ =? 32)); simpl.
  { split; [done|]. split; [lia|]. exists "". by autorewrite with gostr. }
  destruct (_ && _); simpl.
  - destruct (commentLoop_reads r (originalString s +:+ str c)) as [(u & r' & -> & ->)| ->]; simpl.
    + split; [done|]. rewrite length_app. split; [lia|]. exists "". by autorewrite with gostr.
    + by autorewrite with gostr.
  - rewrite orb_false_r. destruct (Z.eqb_spec (rune c) lparen) as [E|]; simpl.
    + rewrite orb_true_r; simpl. split; [intros _; unfold str; by rewrite E|]. split; [lia|].
      exists (originalString s). by autorewrite with gostr.
    + rewrite orb_false_r. destruct (foundGap s); simpl; (split; [done|]); (split; [lia|]).
      * exists (originalString s). by autorewrite with gostr.
      * exists "". by autorewrite with gostr.
Qed.

Lemma mainLoop_segments fuel s r : (length r < fuel)%nat → loop_inv s →
  ∃ out segs, mainLoop fuel s r = Some out ∧ out = returnStr s +:+ shown segs
    ∧ originalString s +:+ strs r = text segs ∧ Forall seg_ok segs.
Proof.
  revert s r. induction fuel as [|fuel IH]; intros s r Hf Hinv; [lia|]. cbn [mainLoop].
  destruct (readParameter_segments s r Hinv) as (s1 & r1 & g1 & E1 & Hp & Hl & Hr & Ht & Hg).
  unfold mainStep. rewrite E1. cbn [mbind option_bind].
  assert (∀ k, Forall seg_ok (g1 ++ k) ↔ Forall seg_ok k) as Happ.
  { intros k. rewrite Forall_app. tauto. }
  destruct r1 as [|c r1]; cbn [option_bind].
  - eexists. exists (g1 ++ [Kept (originalString s1)]).
    rewrite Happ, Hr, Ht, shown_app, text_app, shown_kept, text_kept.
    split_and!; [done| |by unfold strs; autorewrite with gostr|by repeat constructor].
    by autorewrite with gostr.
  - simpl in Hl. pose proof (readRune_segments c r1 s1 Hp) as H.
    destruct (readRune c r1 s1) as [out|[s2 r2]].
    + exists out, (g1 ++ [Kept (originalString s1 +:+ strs (c :: r1))]).
      rewrite Happ, H, Hr, Ht, shown_app, text_app, shown_kept, text_kept.
      split_and!; [done|by autorewrite with gostr|done|by repeat constructor].
    + destruct H as (Hi & Hl' & t & Hr' & Ht').
      destruct (IH s2 r2) as (out & segs & -> & -> & E & Hok); [lia|done|].
      eexists. exists (g1 ++ [Kept t] ++ segs). rewrite Happ, Ht, Ht', E, Hr', Hr.
      split_and!; [done|..|by constructor]; by autorewrite with gostr.
Qed.

(** The scanner never runs out of fuel: more of it changes nothing. *)
Lemma mainLoop_fuel fuel fuel' s r : (fuel ≤ fuel')%nat → (length r < fuel)%nat → loop_inv s →
  mainLoop fuel' s r = mainLoop fuel s r.
Proof.
  revert fuel' s r. induction fuel as [|fuel IH]; intros [|fuel'] s r Hle Hf Hinv; try lia.
  cbn [mainLoop].
  destruct (readParameter_segments s r Hinv) as (s1 & r1 & g1 & E1 & Hp & Hl & _).
  unfold mainStep. rewrite E1. cbn [mbind option_bind]. destruct r1 as [|c r1]; [done|].
  cbn [option_bind]. simpl in Hl. pose proof (readRune_segments c r1 s1 Hp) as H.
  destruct (readRune c r1 s1) as [out|[s2 r2]]; [done|]. destruct H as (? & ? & _).
  apply IH; [lia|lia|done].
Qed.

Lemma initial_inv : loop_inv initial.
Proof. done. Qed.
#[local] Hint Resolve initial_inv : go.

(** The runes of a valid text are read back as its bytes. *)
Lemma strs_runes_of l : strs (runes_of l) = encode l.
Proof. unfold strs, runes_of, encode. by rewrite map_map. Qed.

(** ** Statements of MQSC and their lexical structure *)

(** The pieces of a text, as the rune lists they print to: a run of word
    characters, blanks, a continuation sign, an end of line, the characters
    that open a line, a comment line, and a parenthesised value. *)
Inductive piece :=
| Word (w : list Z)
| Blank (w : list Z)
| Sign (r : Z)
| Eol
| Indent (w : list Z)
| Comment (t : list Z)
| Value (v : list Z).

Definition piece_runes (p : piece) : list Z :=
  match p with
  | Word w | Blank w | Indent w => w
  | Sign r => [r]
  | Eol => [nl]
  | Comment t => star :: t ++ [nl]
  | Value v => lparen :: v ++ [rparen]
  end.

Definition print (ps : list piece) : list Z := concat (map piece_runes ps).

Definition blank (r : Z) : bool := (r =? 9) || (r =? 13) || (r =? 32).
Definition word_rune (r : Z) : bool :=
  negb (blank r || (r =? nl) || (r =? plus) || (r =? minus) || (r =? lparen) || (r =? star)).

(** A value ends at its first closing parenthesis outside quotes.  Inside
    quotes a new line may be followed by comment lines, where quotes do not count. *)
Inductive vmode := VOut | VIn (q : Z) | VNl (q : Z) | VCom (q : Z).

Definition vstep (m : vmode) (r : Z) : vmode :=
  match m with
  | VOut => if is_quote r then VIn r else VOut
  | VIn q => if r =? q then VOut else if r =? nl then VNl q else VIn q
  | VNl q =>
      if negb (startOutput r) then VNl q
      else if r =? star then VCom q
      else if r =? q then VOut else if r =? nl then VNl q else VIn q
  | VCom q => if r =? nl then VNl q else VCom q
  end.

(** [l] is read exactly up to the parenthesis that closes the value. *)
Fixpoint closes (m : vmode) (l : list Z) : bool :=
  match l with
  | [] => false
  | r :: l' =>
      match m with
      | VOut => if r =? rparen then match l' with [] => true | _ => false end else closes (vstep m r) l'
      | _ => closes (vstep m r) l'
      end
  end.

Definition value_ok (v : list Z) : bool := closes VOut (v ++ [rparen]).

(** The pieces in an order that prints to what they say; [start] is true where
    a line may still be indented. *)
Fixpoint wf (start : bool) (ps : list piece) : bool :=
  match ps with
  | [] => true
  | Word w :: ps =>
      negb (bool_decide (w = [])) && forallb word_rune w
      && (negb start || match w with r :: _ => startOutput r | [] => true end) && wf false ps
  | Blank w :: ps => negb start && forallb blank w && wf false ps
  | Sign r :: ps => ((r =? plus) || (r =? minus)) && wf false ps
  | Eol :: ps => negb start && wf true ps
  | Indent w :: ps => start && forallb (negb ∘ startOutput) w && wf true ps
  | Comment t :: ps => start && forallb (λ r, negb (r =? nl)) t && wf true ps
  | Value v :: ps => value_ok v && wf false ps
  end.

(** The words since the last value: a blank or a new line separates words, a
    sign glues the text on its sides together. *)
Record lex := Lex { words : list string; current : string; gap : bool; glued : bool }.

Definition lex0 : lex := Lex [] "" false false.

Definition lex_step (x : lex) (p : piece) : lex :=
  match p with
  | Word w =>
      if gap x then Lex (current x :: words x) (encode w) false false
      else Lex (words x) (current x +:+ encode w) false false
  | Blank [] => x
  | Blank _ | Eol => Lex (words x) (current x) (gap x || negb (glued x)) (glued x)
  | Sign _ => Lex (words x) (current x) false true
  | Indent _ | Comment _ => x
  | Value _ => lex0
  end.

Definition sensitive_word (w : string) : bool := isSensitiveCommand (ToUpper w).

(** A value is sensitive when one of the words since the last value contains
    the name of a sensitive parameter. *)
Definition sensitive (x : lex) : bool := existsb sensitive_word (current x :: words x).

(** The specification of redaction. *)
Fixpoint redacted (x : lex) (ps : list piece) : string :=
  match ps with
  | [] => ""
  | p :: ps =>
      match p with
      | Value _ => if sensitive x then redactionString else encode (piece_runes p)
      | _ => encode (piece_runes p)
      end +:+ redacted (lex_step x p) ps
  end.

(** ** The scanner follows the pieces *)

(** Runs of the main loop, without fuel. *)
Inductive evals : state → reader → string → Prop :=
| evals_end s r out : mainStep s r = Some (inl out) → evals s r out
| evals_next s r s' r' out : mainStep s r = Some (inr (s', r')) → evals s' r' out → evals s r out.

Lemma mainStep_decreases s r s' r' : loop_inv s → mainStep s r = Some (inr (s', r')) →
  loop_inv s' ∧ (length r' < length r)%nat.
Proof.
  intros Hinv. destruct (readParameter_segments s r Hinv) as (s1 & r1 & g & E & Hp & Hl & _).
  unfold mainStep. rewrite E. cbn [mbind option_bind]. destruct r1 as [|c r1]; [done|].
  intros [= Hs]. pose proof (readRune_segments c r1 s1 Hp) as H. rewrite Hs in H.
  simpl in Hl. split; [tauto|]. destruct H as (_ & H & _). lia.
Qed.

Lemma evals_mainLoop s r out : loop_inv s → evals s r out → mainLoop (S (length r)) s r = Some out.
Proof.
  intros Hinv H. induction H as [s r out E|s r s' r' out E _ IH].
  - cbn [mainLoop]. by rewrite E.
  - destruct (mainStep_decreases s r s' r' Hinv E) as [Hinv' Hl]. cbn [mainLoop].
    rewrite E; cbn [mbind option_bind]. rewrite (mainLoop_fuel (S (length r'))); auto; lia.
Qed.

Lemma evals_rune c r s s' r' out : parameterNext s = false →
  readRune c r s = inr (s', r') → evals s' r' out → evals s (c :: r) out.
Proof.
  intros Hp Hr. apply evals_next. unfold mainStep, readParameter. by rewrite Hp; simpl; rewrite Hr.
Qed.

Lemma evals_parameter s r s' r' out : readParameter s r = Some (s', r') →
  parameterNext s' = false → evals s' r' out → evals s r out.
Proof.
  intros Hr Hp H.
  assert (mainStep s r = mainStep s' r') as E.
  { unfold mainStep at 1. rewrite Hr. unfold mainStep, readParameter. by rewrite Hp. }
  destruct H as [s' r' out E'|s' r' s2 r2 out E' H].
  - apply evals_end. by rewrite E.
  - eapply evals_next; [|done]. by rewrite E.
Qed.

(** A rune as the reader delivers it. *)
Definition gr (r : Z) : gorune := GoRune r (encode_rune r).

Lemma str_gr r : str (gr r) = encode_rune r.
Proof. done. Qed.

Lemma runes_of_cons r l : runes_of (r :: l) = gr r :: runes_of l.
Proof. done. Qed.

Lemma runes_of_app l k : runes_of (l ++ k) = runes_of l ++ runes_of k.
Proof. apply map_app. Qed.

(** The peeked byte of a rune decides like the rune itself. *)
Lemma peek1_gr r : scalar r = true →
  (r < 128 ∧ peek1 (gr r) = r) ∨ (128 ≤ r ∧ 192 ≤ peek1 (gr r)).
Proof.
  intros Hr. pose proof (scalar_spec r Hr). unfold peek1, gr, encode_rune; simpl. rewrite Hr.
  destruct (Z.ltb_spec r 128); [left; simpl; rewrite byteZ_of by lia; lia|right].
  destruct (r <? 2048) eqn:?; [simpl; rewrite byteZ_of; breflect; zdiv|].
  destruct (r <? 65536) eqn:?; simpl; rewrite byteZ_of; breflect; zdiv.
Qed.

Lemma startOutput_high r : 128 ≤ r → startOutput r = true.
Proof.
  intros. unfold startOutput. change (byteZ ":") with 58. zbool. done.
Qed.

Lemma peek_mode_gr m r : scalar r = true →
  peek_mode m (gr r) = match m with
                       | QNewLine => if startOutput r then if r =? star then QComment else QValue else QNewLine
                       | _ => m
                       end.
Proof.
  intros Hr. destruct m; simpl; try done. destruct (peek1_gr r Hr) as [[? ->]|[? Hp]]; [done|].
  rewrite !startOutput_high by lia. change star with 42. by zbool.
Qed.

(** *** Values *)

Definition vmode_of (m : qmode) (q : Z) : vmode :=
  match m with QValue => VIn q | QNewLine => VNl q | QComment => VCom q end.

Lemma findEnd_closes q m l rest p :
  Forall (λ r, scalar r = true) l → is_quote q = true → closes (vmode_of m q) l = true →
  ∃ u l', l = u ++ l' ∧ u ≠ [] ∧ closes VOut l' = true ∧
    findEndOfParamterString q m (runes_of l ++ rest) p = (p +:+ encode u, runes_of l' ++ rest).
Proof.
  intros Hl Hq. revert m p. induction Hl as [|r l Hr Hl IH]; intros m p Hc; [by destruct m|].
  assert (∀ m', closes (vmode_of m' q) l = true → ∃ u l', r :: l = u ++ l' ∧ u ≠ [] ∧
     closes VOut l' = true ∧ findEndOfParamterString q m' (runes_of l ++ rest) (p +:+ encode_rune r)
       = (p +:+ encode u, runes_of l' ++ rest)) as Hgo.
  { intros m' Hc'. destruct (IH m' (p +:+ encode_rune r) Hc') as (u & l' & -> & _ & ? & ->).
    exists (r :: u), l'. by rewrite encode_cons, sapp_assoc. }
  assert (closes VOut l = true → ∃ u l', r :: l = u ++ l' ∧ u ≠ [] ∧ closes VOut l' = true
    ∧ (p +:+ encode_rune r, runes_of l ++ rest) = (p +:+ encode u, runes_of l' ++ rest)) as Hend.
  { intros. exists [r], l. by rewrite encode_one. }
  rewrite runes_of_cons, <- app_comm_cons. cbn [findEndOfParamterString]. rewrite str_gr, peek_mode_gr by done.
  destruct m; cbn [vmode_of closes vstep] in Hc; cbn [rune gr].
  - destruct (r =? q); [by apply Hend|]. destruct (r =? nl); by apply Hgo.
  - destruct (startOutput r); simpl in Hc; [|by apply Hgo].
    destruct (Z.eqb_spec r star) as [->|]; [by apply Hgo|].
    destruct (r =? q); [by apply Hend|]. destruct (r =? nl); by apply Hgo.
  - destruct (r =? nl); by apply Hgo.
Qed.

Lemma getParameterLoop_closes fuel l rest p :
  Forall (λ r, scalar r = true) l → closes VOut l = true → (length l < fuel)%nat →
  getParameterLoop fuel (runes_of l ++ rest) p = Some (p +:+ encode l, rest).
Proof.
  revert l p. induction fuel as [|fuel IH]; intros l p Hl Hc Hf; [lia|].
  destruct Hl as [|r l Hr Hl]; [done|].
  rewrite runes_of_cons, <- app_comm_cons, encode_cons, <- sapp_assoc. cbn [getParameterLoop rune gr].
  rewrite str_gr. cbn [closes vstep] in Hc. simpl in Hf. destruct (Z.eqb_spec r rparen) as [->|].
  { destruct l; [|done]. by rewrite (sapp_nil_r (p +:+ _)). }
  destruct (is_quote r) eqn:Hq.
  - destruct (findEnd_closes r QValue l rest "" Hl Hq Hc) as (u & l' & -> & Hu & Hc' & ->).
    rewrite length_app in Hf. apply Forall_app in Hl as [Hlu Hl'].
    rewrite IH by (auto; lia). by rewrite sapp_nil_l, encode_app, sapp_assoc.
  - by rewrite IH by (auto; lia).
Qed.

Lemma getParameterString_value v rest :
  Forall (λ r, scalar r = true) v → value_ok v = true →
  getParameterString (runes_of (v ++ [rparen]) ++ rest) = Some (encode (lparen :: v ++ [rparen]), rest).
Proof.
  intros Hv Hok. unfold getParameterString. rewrite getParameterLoop_closes; auto.
  - apply Forall_app; auto using Forall_singleton.
  - rewrite (length_app (runes_of _)), length_runes_of. lia.
Qed.

(** *** Pieces *)

Definition push (t : string) (s : state) : state :=
  State (returnStr s) (currentVerb s) (originalString s +:+ t) (lineContinuation s)
    (foundGap s) (parameterNext s) (redacting s) (checkComment s) (newline s).

Lemma push_push t u s : push u (push t s) = push (t +:+ u) s.
Proof. unfold push; simpl. by rewrite sapp_assoc. Qed.

Lemma push_nil s : push "" s = s.
Proof. unfold push. rewrite sapp_nil_r. by destruct s. Qed.

Lemma keep_gr r s : keep (gr r) s = push (encode_rune r) s.
Proof. done. Qed.

(** What stays to be printed of a state. *)
Definition pending (s : state) : string := returnStr s +:+ originalString s.

(** The scanner's flags are the lexical state. *)
Record sim (x : lex) (b : bool) (s : state) : Prop := {
  sim_verb : currentVerb s = current x;
  sim_gap : foundGap s = gap x;
  sim_glued : lineContinuation s = glued x;
  sim_next : parameterNext s = false;
  sim_redacting : redacting s = existsb sensitive_word (words x);
  sim_newline : newline s = b;
  sim_comment : b = true → checkComment s = true }.

Lemma sim_push x b s t : sim x b s → sim x b (push t s).
Proof. by intros []. Qed.

Lemma pending_push t s : pending (push t s) = pending s +:+ t.
Proof. unfold pending, push; simpl. by rewrite sapp_assoc. Qed.

Section pieces.
Context (r : reader) (out : string).

Lemma evals_indent w s : newline s = true → parameterNext s = false →
  forallb (negb ∘ startOutput) w = true →
  evals (push (encode w) s) r out → evals s (runes_of w ++ r) out.
Proof.
  revert s. induction w as [|c w IH]; intros s Hn Hp Hw H; [by rewrite push_nil in H|].
  simpl in Hw. breflect. rewrite runes_of_cons, <- app_comm_cons.
  eapply evals_rune; [done| |apply (IH (push (encode_rune c) s)); try done; by rewrite push_push].
  unfold readRune. simpl. by rewrite Hn, H0.
Qed.

Definition gapped (s : state) : state :=
  State (returnStr s) (currentVerb s) (originalString s) (lineContinuation s)
    (foundGap s || negb (lineContinuation s)) (parameterNext s) (redacting s)
    (checkComment s) (newline s).

Lemma gapped_idem s : gapped (gapped s) = gapped s.
Proof. unfold gapped; simpl. by destruct (foundGap s), (lineContinuation s). Qed.

Lemma read_blank c rest s : blank c = true → newline s = false →
  readRune (gr c) rest s = inr (push (encode_rune c) (gapped s), rest).
Proof.
  intros Hb Hn. unfold readRune. rewrite Hn. cbn [andb rune gr].
  unfold blank in Hb. rewrite !orb_true_iff, !Z.eqb_eq in Hb.
  destruct Hb as [[-> | ->]| ->]; unfold push, gapped, set_newline, keep; simpl; by rewrite ?Hn.
Qed.

Lemma evals_blank w s : newline s = false → parameterNext s = false →
  forallb blank w = true → w ≠ [] →
  evals (push (encode w) (gapped s)) r out → evals s (runes_of w ++ r) out.
Proof.
  intros Hn Hp Hw Hne H.
  assert (∀ w s, forallb blank w = true → newline s = false → parameterNext s = false →
    gapped s = s → evals (push (encode w) s) r out → evals s (runes_of w ++ r) out) as Hgo.
  { clear. induction w as [|c w IH]; intros s Hw Hn Hp Hg H; [by rewrite push_nil in H|].
    simpl in Hw. breflect. rewrite runes_of_cons, <- app_comm_cons.
    eapply evals_rune; [done|by apply read_blank|rewrite Hg].
    apply IH; try done; [|by rewrite push_push].
    destruct s; unfold gapped, push in *; simpl in *. by injection Hg as ->. }
  destruct w as [|c w]; [done|]. simpl in Hw. breflect.
  rewrite runes_of_cons, <- app_comm_cons.
  eapply evals_rune; [done|by apply read_blank|]. apply Hgo; try done; [|by rewrite push_push].
  change (gapped (push (encode_rune c) (gapped s))) with (push (encode_rune c) (gapped (gapped s))).
  by rewrite gapped_idem.
Qed.

Lemma read_word c rest s : word_rune c = true →
  newline s = false ∨ startOutput c = true →
  readRune (gr c) rest s = inr (wordRune (gr c) (set_newline false s), rest).
Proof.
  intros Hw Hn. unfold readRune. cbn [rune gr].
  replace (newline s && negb (startOutput c)) with false
    by (destruct Hn as [-> | ->]; [done|by rewrite andb_false_r]).
  unfold word_rune, blank in Hw. rewrite negb_true_iff, !orb_false_iff in Hw.
  destruct Hw as [[[[[[[-> ->] ->] ->] ->] ->] ?] ->]. done.
Qed.

(** The state after a word: it joins the verb, or starts a new one after a gap. *)
Definition worded (w : list Z) (s : state) : state :=
  if foundGap s then
    State (pending s) (encode w) (encode w) false false false
      (redacting s || sensitive_word (currentVerb s)) false false
  else
    State (returnStr s) (currentVerb s +:+ encode w) (originalString s +:+ encode w) false
      false false (redacting s) false false.

Lemma wordRune_worded c s : word_rune c = true → parameterNext s = false →
  wordRune (gr c) (set_newline false s) = worded [c] s.
Proof.
  intros Hw Hp. unfold wordRune, worded, set_newline. cbn [rune gr parameterNext foundGap].
  unfold word_rune in Hw. rewrite negb_true_iff, !orb_false_iff in Hw.
  destruct Hw as [[_ ->] _]. rewrite str_gr, encode_one, Hp. by destruct (foundGap s).
Qed.

Lemma worded_app w w' s : worded w' (worded w s) = worded (w ++ w') s.
Proof.
  unfold worded, pending. destruct (foundGap s); simpl; rewrite ?encode_app;
    by autorewrite with gostr.
Qed.

Lemma evals_word w s : parameterNext s = false → w ≠ [] → forallb word_rune w = true →
  (newline s = false ∨ match w with c :: _ => startOutput c = true | [] => True end) →
  evals (worded w s) r out → evals s (runes_of w ++ r) out.
Proof.
  intros Hp Hne Hw Hn H. destruct w as [|c w]; [done|]. simpl in Hw. breflect.
  rewrite runes_of_cons, <- app_comm_cons.
  eapply evals_rune; [done|by apply read_word|]. rewrite wordRune_worded by done.
  change (c :: w) with ([c] ++ w) in H. rewrite <- worded_app in H.
  assert (parameterNext (worded [c] s) = false ∧ newline (worded [c] s) = false
    ∧ worded [] (worded [c] s) = worded [c] s) as (Hp1 & Hn1 & Hid).
  { rewrite worded_app. unfold worded. by destruct (foundGap s). }
  revert H Hp1 Hn1 Hid. generalize (worded [c] s) as s1. clear -H1.
  induction w as [|c w IH]; intros s1 H Hp Hn Hid; [by rewrite Hid in H|].
  simpl in H1. breflect. rewrite runes_of_cons, <- app_comm_cons.
  eapply evals_rune; [done|apply read_word; auto|]. rewrite wordRune_worded by done.
  change (c :: w) with ([c] ++ w) in H. rewrite <- worded_app in H.
  apply IH; try done; rewrite ?worded_app; unfold worded; by destruct (foundGap s1).
Qed.

Definition signed (c : Z) (s : state) : state :=
  State (returnStr s) (currentVerb s) (originalString s +:+ encode_rune c) true false
    (parameterNext s) (redacting s) (checkComment s) false.

Lemma evals_sign c s : parameterNext s = false → (c =? plus) || (c =? minus) = true →
  evals (signed c s) r out → evals s (gr c :: r) out.
Proof.
  intros Hp Hc. apply evals_rune; [done|]. unfold readRune. cbn [rune gr].
  rewrite Hc. replace (startOutput c) with true; [by rewrite andb_false_r|].
  rewrite orb_true_iff, !Z.eqb_eq in Hc. by destruct Hc as [-> | ->].
Qed.

Definition ended (s : state) : state :=
  State (returnStr s) (currentVerb s) (originalString s) (lineContinuation s)
    (foundGap s || negb (lineContinuation s)) (parameterNext s) (redacting s) true true.

Lemma evals_eol s : parameterNext s = false → newline s = false →
  evals (push (encode_rune nl) (ended s)) r out → evals s (gr nl :: r) out.
Proof. intros Hp Hn. apply evals_rune; [done|]. unfold readRune. by rewrite Hn. Qed.

Lemma commentLoop_text t o : Forall (λ r, scalar r = true) t →
  forallb (λ r, negb (r =? nl)) t = true →
  commentLoop (runes_of (t ++ [nl]) ++ r) o = (o +:+ encode (t ++ [nl]), Some r).
Proof.
  intros Ht. revert o. induction Ht as [|c t Hc _ IH]; intros o Hn; [done|].
  simpl in Hn. breflect. rewrite <- app_comm_cons, runes_of_cons, encode_cons, <- app_comm_cons.
  cbn [commentLoop rune gr]. rewrite (proj2 (Z.eqb_neq c nl)) by done.
  rewrite IH, str_gr by done. by rewrite sapp_assoc.
Qed.

Lemma evals_comment t s : parameterNext s = false → newline s = true → checkComment s = true →
  Forall (λ r, scalar r = true) t → forallb (λ r, negb (r =? nl)) t = true →
  evals (State (returnStr s) (currentVerb s) (originalString s +:+ encode (star :: t ++ [nl]))
           (lineContinuation s) (foundGap s) (parameterNext s) (redacting s) true true) r out →
  evals s (runes_of (star :: t ++ [nl]) ++ r) out.
Proof.
  intros Hp Hn Hc Ht Ht' H. rewrite runes_of_cons, <- app_comm_cons.
  eapply evals_rune; [done| |exact H]. unfold readRune. cbn [rune gr].
  change (startOutput star) with true. rewrite andb_false_r.
  change ((star =? plus) || (star =? minus)) with false.
  change ((star =? nl) || (star =? 9) || (star =? 13) || (star =? 32)) with false.
  change (star =? star) with true. cbn [andb set_newline checkComment originalString].
  rewrite Hc, commentLoop_text, str_gr, encode_cons, sapp_assoc by done. done.
Qed.

Definition valued (v : list Z) (s : state) : state :=
  resetAllParameters (State (pending s +:+
      if redacting s || sensitive_word (currentVerb s) then redactionString
      else encode (lparen :: v ++ [rparen]))
    "" "" false false false false true false).

Lemma evals_value v s : parameterNext s = false →
  Forall (λ r, scalar r = true) v → value_ok v = true →
  evals (valued v s) r out → evals s (runes_of (lparen :: v ++ [rparen]) ++ r) out.
Proof.
  intros Hp Hv Hok H. rewrite runes_of_cons, <- app_comm_cons.
  eapply (evals_rune (gr lparen) _ s); [done| |].
  { unfold readRune. cbn [rune gr]. change (startOutput lparen) with true.
    by rewrite andb_false_r. }
  eapply evals_parameter; [| |exact H]; [|done].
  unfold readParameter, wordRune. cbn [rune gr set_newline foundGap parameterNext].
  change (lparen =? lparen) with true. cbn [orb]. rewrite orb_true_r. cbn [parameterNext].
  rewrite getParameterString_value by done. cbn [mbind option_bind]. unfold valued, pending.
  simpl. done.
Qed.
End pieces.

Lemma print_cons p ps : print (p :: ps) = piece_runes p ++ print ps.
Proof. done. Qed.

Lemma sim_worded x b s w : sim x b s → sim (lex_step x (Word w)) false (worded w s).
Proof.
  intros []. unfold worded. rewrite sim_gap0. simpl. destruct (gap x); constructor; simpl; try done.
  - by rewrite sim_redacting0, sim_verb0, orb_comm.
  - by rewrite sim_verb0.
Qed.

Lemma pending_worded s w : pending (worded w s) = pending s +:+ encode w.
Proof. unfold worded. destruct (foundGap s); unfold pending; simpl; by rewrite ?sapp_assoc. Qed.

Lemma pending_valued x b s v : sim x b s →
  pending (valued v s) = pending s +:+ if sensitive x then redactionString
                                     else encode (piece_runes (Value v)).
Proof.
  intros []. unfold sensitive, valued, pending; simpl.
  by rewrite sim_redacting0, sim_verb0, orb_comm, sapp_nil_r.
Qed.

Lemma evals_pieces ps x b s : wf b ps = true → Forall (λ r, scalar r = true) (print ps) →
  sim x b s → evals s (runes_of (print ps)) (pending s +:+ redacted x ps).
Proof.
  revert x b s. induction ps as [|p ps IH]; intros x b s Hwf Hsc Hsim.
  { apply evals_end. unfold mainStep, readParameter. rewrite (sim_next _ _ _ Hsim); simpl.
    by rewrite sapp_nil_r. }
  pose proof (sim_next _ _ _ Hsim) as Hp. pose proof (sim_newline _ _ _ Hsim) as Hn.
  rewrite print_cons in *. apply Forall_app in Hsc as [Hsp Hsc].
  rewrite runes_of_app. cbn [redacted]. rewrite <- sapp_assoc.
  assert (∀ b' s', wf b' ps = true → sim (lex_step x p) b' s' → pending s' = pending s +:+
      match p with Value _ => if sensitive x then redactionString else encode (piece_runes p)
      | _ => encode (piece_runes p) end →
    evals s' (runes_of (print ps))
      ((pending s +:+ match p with Value _ => if sensitive x then redactionString else encode (piece_runes p)
      | _ => encode (piece_runes p) end) +:+ redacted (lex_step x p) ps)) as Hgo.
  { intros b' s' ?? <-. eauto. }
  destruct p as [w|w|c| |w|t|v]; cbn [wf] in Hwf; breflect; cbn [piece_runes] in *.
  - apply evals_word; try done.
    + destruct b; [right; by destruct w|by left].
    + eapply Hgo; [done|by eapply sim_worded|apply pending_worded].
  - destruct w as [|c w]; [|apply evals_blank; try done; [by subst b|]].
    + eapply Hgo; [done|destruct Hsim; subst b; by constructor|by rewrite sapp_nil_r].
    + eapply Hgo; [done| |by rewrite pending_push].
      apply sim_push. subst b. destruct Hsim. constructor; simpl; try done; by rewrite ?sim_gap0, ?sim_glued0.
  - apply evals_sign; try done. eapply Hgo; [done| |].
    + destruct Hsim. by constructor.
    + unfold pending, signed; simpl. by rewrite encode_one, sapp_assoc.
  - apply evals_eol; try done; [by subst b|]. eapply Hgo; [done| |].
    + apply sim_push. destruct Hsim. constructor; simpl; try done. by rewrite sim_gap0, sim_glued0.
    + by rewrite pending_push, encode_one.
  - subst b. apply evals_indent; try done. eapply Hgo; [done| |apply pending_push].
    apply sim_push. destruct Hsim. by constructor.
  - subst b. apply evals_comment; try done; [by apply (sim_comment _ _ _ Hsim)| |].
    { apply Forall_cons in Hsp as [_ Hsp]. by apply Forall_app in Hsp as [? _]. }
    eapply Hgo; [done| |].
    + destruct Hsim. by constructor.
    + unfold pending; simpl. by rewrite sapp_assoc.
  - apply evals_value; try done.
    { apply Forall_cons in Hsp as [_ Hsp]. by apply Forall_app in Hsp as [? _]. }
    eapply Hgo; [done|by constructor|by eapply pending_valued].
Qed.

Lemma initial_sim : sim lex0 true initial.
Proof. by constructor. Qed.

Lemma Redact_evals s l out : TrimSpace s = encode l → Forall (λ r, scalar r = true) l →
  evals initial (runes_of l) out → Redact s = Some out.
Proof.
  intros Hs Hl H. unfold Redact. rewrite Hs, decode_encode_nil by done.
  apply evals_mainLoop; [apply initial_inv|done].
Qed.

(** Two statements that differ only in the values that are hidden. *)
Fixpoint same_public (x : lex) (ps qs : list piece) : Prop :=
  match ps, qs with
  | [], [] => True
  | Value v :: ps, Value w :: qs => (sensitive x = false → v = w) ∧ same_public lex0 ps qs
  | p :: ps, q :: qs => p = q ∧ same_public (lex_step x p) ps qs
  | _, _ => False
  end.

Lemma same_public_redacted x ps qs : same_public x ps qs → redacted x ps = redacted x qs.
Proof.
  revert x qs. induction ps as [|p ps IH]; intros x [|q qs]; simpl; try done; [by destruct p|].
  destruct p, q; simpl; intros [Hv H]; simplify_eq; try (by rewrite (IH _ _ H)).
  rewrite (IH _ _ H). destruct (sensitive x); [done|]. by rewrite Hv.
Qed.

(** ** Properties *)

(** C1. Redaction meets its specification: on every text that is a sequence of
    well-formed MQSC pieces (words, blanks, line continuations, comment lines,
    values, with quotes and comments inside values), the value of a parameter is
    replaced exactly when one of the words since the previous value, joined across line
    continuations and in any case, contains a sensitive name; everything else is
    copied. *)
Theorem redact_statement s ps :
  TrimSpace s = encode (print ps) → forallb scalar (print ps) = true →
  wf true ps = true → Redact s = Some (redacted lex0 ps).
Proof.
  intros Hs Hsc%forallb_scalar Hwf. eapply Redact_evals; [done..|].
  by apply (evals_pieces ps lex0 true initial Hwf Hsc initial_sim).
Qed.

(** C2. Secrecy: two statements that differ only in the values of sensitive
    parameters are redacted to the same text, so that the result carries
    nothing of those values, not even their length. *)
Theorem redact_secret s t ps qs :
  TrimSpace s = encode (print ps) → TrimSpace t = encode (print qs) →
  forallb scalar (print ps) = true → forallb scalar (print qs) = true →
  wf true ps = true → wf true qs = true → same_public lex0 ps qs →
  Redact s = Redact t.
Proof.
  intros Hs Ht Hps%forallb_scalar Hqs%forallb_scalar Hwp Hwq H.
  rewrite (Redact_evals s _ _ Hs Hps (evals_pieces _ _ _ _ Hwp Hps initial_sim)).
  rewrite (Redact_evals t _ _ Ht Hqs (evals_pieces _ _ _ _ Hwq Hqs initial_sim)).
  by rewrite (same_public_redacted _ _ _ H).
Qed.

Lemma redact_segments s : valid_utf8 s = true →
  ∃ out segs, Redact s = Some out ∧ out = shown segs ∧ TrimSpace s = text segs
    ∧ Forall seg_ok segs.
Proof.
  intros Hv. destruct (valid_utf8_runes s Hv) as (l & Hl & Hs).
  destruct (TrimSpace_runes l Hl) as (a & l' & b & -> & E).
  apply Forall_app in Hl as [_ [Hl' _]%Forall_app].
  destruct (mainLoop_segments (S (length (runes_of l'))) initial (runes_of l'))
    as (out & segs & Hout & -> & Ht & Hok); [lia|apply initial_inv|].
  exists (shown segs), segs. unfold Redact. rewrite Hs, E, decode_encode_nil by done.
  split_and!; [done|done| |done]. rewrite <- Ht. simpl. by rewrite strs_runes_of.
Qed.


Lemma text_hidden segs : Forall seg_ok segs → Contains (text segs) "(" = false → shown segs = text segs.
Proof.
  induction 1 as [|g segs Hg _ IH]; intros Hc; [done|].
  change (g :: segs) with ([g] ++ segs) in *. rewrite shown_app, text_app in *.
  destruct g as [t|t].
  - rewrite shown_kept, text_kept in *. rewrite IH; [done|]. apply not_true_is_false. intros Ht.
    by rewrite Contains_app_r in Hc.
  - cbn [seg_ok] in Hg. apply HasPrefix_spec in Hg as [u ->].
    rewrite Contains_app_l in Hc; [done|]. apply Contains_spec. exists "", u.
    unfold text; simpl. by autorewrite with gostr.
Qed.

(** A text without an opening parenthesis is only trimmed: words alone,
    sensitive or not, are never altered. *)
Lemma redact_no_value s : valid_utf8 s = true → Contains s "(" = false →
  Redact s = Some (TrimSpace s).
Proof.
  intros Hv Hc. destruct (redact_segments s Hv) as (out & segs & -> & -> & Ht & Hok).
  rewrite Ht, text_hidden; [done..|]. rewrite <- Ht. apply not_true_is_false. intros H.
  by rewrite (Contains_TrimSpace s) in Hc.
Qed.

(** Where the scanner and MQSC disagree: after a value the scanner takes an
    asterisk for the start of a comment although it is not the first character
    of a line, so that a sensitive value behind it is printed. *)
Lemma redact_star_after_value :
  Redact "ALTER QMGR CHLAUTH(ENABLED) *PASSWORD('secret')"
  = Some "ALTER QMGR CHLAUTH(ENABLED) *PASSWORD('secret')".
Proof. vm_compute. reflexivity. Qed.

(** ** Witnesses *)

(** The runes of an ASCII text. *)
Definition runes (s : string) : list Z := map rune (decode s).

Definition sample (secret : string) : list piece :=
  [Word (runes "ALTER"); Blank (runes " "); Word (runes "QMGR"); Blank (runes " ");
   Word (runes "DESCR"); Value (runes "'a (b)'"); Blank (runes " ");
   Word (runes "ssl"); Sign plus; Blank (runes " "); Eol; Indent (runes "   ");
   Comment (runes " it's a comment"); Indent (runes " "); Word (runes "Cryp"); Value (runes secret)].

Lemma redact_statement_witness :
  Redact (encode (print (sample "'hip)po'"))) = Some (redacted lex0 (sample "'hip)po'")).
Proof. apply redact_statement; vm_compute; reflexivity. Defined.

Lemma redact_secret_witness :
  Redact (encode (print (sample "'hip)po'"))) = Redact (encode (print (sample "longer1234"))).
Proof.
  apply (redact_secret _ _ (sample "'hip)po'") (sample "longer1234")); try (vm_compute; reflexivity).
  vm_compute. repeat split; intros; discriminate.
Defined.


Lemma redact_no_value_witness : Redact " 1: DISPLAY PASSWORD " = Some (TrimSpace " 1: DISPLAY PASSWORD ").
Proof. apply redact_no_value; vm_compute; reflexivity. Defined.

End Redact.
