(* ===== verification/Paths.v ===== *)
(** * File paths (Go's [path] and [path/filepath]; internal/pathutils, internal/filecheck)

    [Clean], [Join], [Dir], [Ext] and [IsAbs] are the functions of Go's [path]
    package (the same as [path/filepath] on Unix).  On top of them:
    [CleanPath] (internal/pathutils/clean.go), which joins paths so that none
    of them can climb out of the ones before it, and [CheckFileSource]
    (internal/filecheck/filecheck.go), which refuses system directories. *)
From S2P Require Import Prelude Utf8 GoStrings.

Open Scope nat_scope.

(** ** Go's path package *)

Definition IsAbs (s : string) : bool := HasPrefix s "/".

(** One element of a path, on the stack of the elements kept so far. *)
Definition clean_step (rooted : bool) (acc : list string) (c : string) : list string :=
  if (c =s "") || (c =s ".") then acc
  else if c =s ".." then
    match acc with
    | [] => if rooted then [] else [".."]
    | x :: acc' => if x =s ".." then ".." :: acc else acc'
    end
  else c :: acc.

Definition clean_comps (rooted : bool) (cs : list string) : list string :=
  rev (foldl (clean_step rooted) [] cs).

Definition abs_path (cs : list string) : string := "/" +:+ Join cs "/".
Definition rel_path (cs : list string) : string :=
  match cs with [] => "." | _ => Join cs "/" end.

Definition Clean (s : string) : string :=
  let cs := clean_comps (IsAbs s) (Split s "/") in
  if IsAbs s then abs_path cs else rel_path cs.

(** [filepath.Join]: empty elements are ignored. *)
Definition JoinPath (l : list string) : string :=
  match filter (λ s, s ≠ "") l with
  | [] => ""
  | l => Clean (Join l "/")
  end.

Definition Dir (s : string) : string :=
  match rev (Split s "/") with
  | [] | [_] => "."
  | _ :: cs => match rev cs with [""] => "/" | cs => Clean (Join cs "/" +:+ "/") end
  end.

Definition Base (s : string) : string := List.last (Split s "/") "".

(** [filepath.Ext]: from the last dot of the last element. *)
Definition Ext (s : string) : string :=
  match rev (Split (Base s) ".") with
  | [] | [_] => ""
  | e :: _ => "." +:+ e
  end.

(** ** internal/pathutils *)

Definition CleanPath (paths : list string) : string :=
  match paths with
  | [] => ""
  | p :: _ =>
      let combined := if IsAbs p then "" else "./" in
      foldl (λ combined part, JoinPath [combined; Clean ("/" +:+ part)]) combined paths
  end.

(** ** internal/filecheck *)

Definition systemPrefixes : list string :=
  ["bin"; "boot"; "dev"; "lib"; "lib64"; "proc"; "sbin"; "sys"].

(** [filepath.Abs], given the working directory. *)
Definition Abs (cwd fileName : string) : string :=
  if IsAbs fileName then Clean fileName else JoinPath [cwd; fileName].

(** [CheckFileSource]: the text of the error, if there is one. *)
Definition CheckFileSource (cwd fileName : string) : option string :=
  let absFile := Abs cwd fileName in
  if existsb (λ prefix, HasPrefix absFile (CleanPath ["/"; prefix])) systemPrefixes
  then Some ("Filename resolves to invalid path '" +:+ absFile +:+ "'")
  else None.

(** ** Elements of a clean path *)

Definition plain (c : string) : bool :=
  negb (c =s "") && negb (c =s ".") && negb (c =s "..") && no_byte "/" c.

(** The elements of a path after cleaning it as an absolute one. *)
Definition norm (s : string) : list string := clean_comps true (Split s "/").

Lemma Split_mid x c y : Split (x +:+ String c y) c = Split x c ++ Split y c.
Proof.
  induction x as [|d x IH]; [by rewrite sapp_nil_l; simpl; rewrite Ascii.eqb_refl|].
  rewrite sapp_cons. cbn [Split]. rewrite IH.
  destruct (d =b c); [done|]. pose proof (Split_ne x c). by destruct (Split x c).
Qed.

Lemma clean_plain b acc cs : Forall (λ c, plain c = true) cs →
  foldl (clean_step b) acc cs = rev cs ++ acc.
Proof.
  intros H. revert acc. induction H as [|c cs Hc _ IH]; intros acc; [done|].
  simpl. rewrite IH. unfold plain in Hc. apply andb_true_iff in Hc as [[[H1 H2]%andb_true_iff H3]%andb_true_iff _].
  rewrite negb_true_iff in H1, H2, H3. unfold clean_step. rewrite H1, H2, H3. simpl.
  by rewrite <- app_assoc.
Qed.

Lemma clean_step_plain acc c : Forall (λ c, plain c = true) acc → no_byte "/" c = true →
  Forall (λ c, plain c = true) (clean_step true acc c).
Proof.
  intros Ha Hc. unfold clean_step. destruct (c =s "") eqn:E1; [done|].
  destruct (c =s ".") eqn:E2; [done|]. destruct (c =s "..") eqn:E3; simpl.
  - destruct Ha as [|x acc Hx Ha]; [done|]. destruct (x =s "..") eqn:E; [|done].
    breflect. by subst x.
  - constructor; [|done]. unfold plain. by rewrite E1, E2, E3, Hc.
Qed.

Lemma norm_plain s : Forall (λ c, plain c = true) (norm s).
Proof.
  unfold norm, clean_comps. apply Forall_rev.
  assert (∀ cs acc, Forall (λ c, no_byte "/" c = true) cs → Forall (λ c, plain c = true) acc →
    Forall (λ c, plain c = true) (foldl (clean_step true) acc cs)) as H.
  { induction cs as [|c cs IH]; intros acc Hcs Ha; [done|]. apply Forall_cons in Hcs as [? ?].
    simpl. auto using clean_step_plain. }
  apply H; [apply Split_no_bytes|done].
Qed.

Lemma plain_no_byte cs : Forall (λ c, plain c = true) cs → Forall (λ c, no_byte "/" c = true) cs.
Proof. intros H. eapply Forall_impl; [exact H|]. intros c Hc. unfold plain in Hc. by breflect. Qed.

Lemma Split_Join_slash cs : cs ≠ [] → Forall (λ c, plain c = true) cs → Split (Join cs "/") "/" = cs.
Proof. intros Hne Hcs. apply (Split_Join cs "/"); auto using plain_no_byte. Qed.

(** A rooted clean path decomposes into its elements. *)
Lemma foldl_abs acc cs b : Forall (λ c, plain c = true) cs →
  foldl (clean_step b) acc (Split (abs_path cs) "/") = rev cs ++ acc.
Proof.
  intros H. unfold abs_path. change ("/" +:+ Join cs "/") with (String "/" (Join cs "/")).
  cbn [Split]. rewrite Ascii.eqb_refl. simpl. destruct cs as [|c cs]; [done|].
  rewrite Split_Join_slash by done. by rewrite clean_plain.
Qed.

Lemma IsAbs_abs cs : IsAbs (abs_path cs) = true.
Proof. apply (HasPrefix_app "/"). Qed.

Lemma Clean_abs s : IsAbs s = true → Clean s = abs_path (norm s).
Proof. intros H. unfold Clean. by rewrite H. Qed.

Lemma norm_slash s : norm ("/" +:+ s) = norm s.
Proof.
  unfold norm, clean_comps. change ("/" +:+ s) with (String "/" s). cbn [Split].
  by rewrite Ascii.eqb_refl.
Qed.

Lemma norm_abs cs : Forall (λ c, plain c = true) cs → norm (abs_path cs) = cs.
Proof.
  intros H. unfold norm, clean_comps. rewrite foldl_abs by done.
  by rewrite app_nil_r, rev_involutive.
Qed.

Lemma abs_path_ne cs : abs_path cs ≠ "".
Proof. done. Qed.

Lemma JoinPath_abs a b : Forall (λ c, plain c = true) a → Forall (λ c, plain c = true) b →
  JoinPath [abs_path a; abs_path b] = abs_path (a ++ b).
Proof.
  intros Ha Hb. unfold JoinPath. rewrite !filter_cons_True by done. cbn [filter list_filter Join].
  unfold Clean. change (IsAbs (abs_path a +:+ "/" +:+ abs_path b)) with true. f_equal.
  unfold clean_comps. change ("/" +:+ abs_path b) with (String "/" (abs_path b)).
  rewrite Split_mid, foldl_app, !foldl_abs by done.
  by rewrite app_nil_r, rev_app_distr, !rev_involutive.
Qed.

Lemma CleanPath_abs p ps : IsAbs p = true →
  CleanPath (p :: ps) = abs_path (norm p ++ concat (map norm ps)).
Proof.
  intros Hp. unfold CleanPath. rewrite Hp. cbn [foldl].
  assert (JoinPath [""; Clean ("/" +:+ p)] = abs_path (norm p)) as ->.
  { rewrite Clean_abs, norm_slash by apply (HasPrefix_app "/"). unfold JoinPath.
    rewrite filter_cons_False by auto. rewrite filter_cons_True by done. cbn [filter list_filter Join].
    rewrite Clean_abs by apply IsAbs_abs. by rewrite norm_abs by apply norm_plain. }
  assert (Forall (λ c, plain c = true) (norm p)) as Ha by apply norm_plain.
  revert Ha. generalize (norm p) as a. clear Hp. induction ps as [|q ps IH]; intros a Ha.
  - by rewrite app_nil_r.
  - simpl. rewrite Clean_abs, norm_slash by apply (HasPrefix_app "/").
    rewrite JoinPath_abs by (done || apply norm_plain).
    rewrite IH by (apply Forall_app; auto using norm_plain). by rewrite app_assoc.
Qed.

Lemma CleanPath_plain ps : Forall (λ c, plain c = true) (concat (map norm ps)).
Proof. induction ps as [|q ps IH]; simpl; [done|]. apply Forall_app; auto using norm_plain. Qed.

(** C13. No traversal: whatever the later parts are, a path built by [CleanPath] on an
    absolute base lies at or below the base, and none of its elements is empty,
    [.] or [..]. *)
Theorem cleanpath_confined base parts : IsAbs base = true →
  ∃ below, Forall (λ c, plain c = true) (norm base ++ below)
    ∧ Clean base = abs_path (norm base)
    ∧ CleanPath (base :: parts) = abs_path (norm base ++ below).
Proof.
  intros Hb. exists (concat (map norm parts)). rewrite CleanPath_abs, Clean_abs by done.
  split; [apply Forall_app; split; [apply norm_plain|apply CleanPath_plain]|done].
Qed.

(** A text without a slash is a prefix of an element when it is one of the path from there on. *)
Lemma HasPrefix_element d p rest : no_byte "/" p = true → (rest = "" ∨ ∃ t, rest = String "/" t) →
  HasPrefix (d +:+ rest) p = HasPrefix d p.
Proof.
  revert d. induction p as [|c p IH]; intros d Hp Hr; [by destruct d, rest|].
  cbn [no_byte] in Hp. apply andb_true_iff in Hp as [Hc Hp]. apply negb_true_iff in Hc. destruct d as [|x d].
  - destruct Hr as [->|[t ->]]; [done|]. rewrite sapp_nil_l. cbn [HasPrefix]. by rewrite Hc.
  - rewrite sapp_cons. cbn [HasPrefix]. by rewrite IH.
Qed.

Lemma HasPrefix_abs p cs : p ≠ "" → no_byte "/" p = true →
  HasPrefix (abs_path cs) ("/" +:+ p) = match cs with [] => false | d :: _ => HasPrefix d p end.
Proof.
  intros Hp Hn. unfold abs_path. change (HasPrefix ("/" +:+ Join cs "/") ("/" +:+ p)) with (HasPrefix (Join cs "/") p).
  destruct cs as [|d [|e cs]]; [by destruct p|done|]. rewrite Join_cons. apply HasPrefix_element; [done|]. right. eauto.
Qed.

(** The elements of the path that a name stands for in a working directory. *)
Definition resolved (cwd fileName : string) : list string :=
  norm (if IsAbs fileName then fileName else cwd +:+ "/" +:+ fileName).

Lemma Abs_resolved cwd fileName : IsAbs cwd = true → Abs cwd fileName = abs_path (resolved cwd fileName).
Proof.
  intros Hc. unfold Abs, resolved. destruct (IsAbs fileName) eqn:Ha; [by apply Clean_abs|].
  destruct cwd as [|c cwd]; [done|]. unfold JoinPath. rewrite filter_cons_True by done.
  destruct (decide (fileName = "")) as [->|Hf].
  - rewrite filter_cons_False by auto. cbn [filter list_filter Join]. rewrite Clean_abs by done. f_equal.
    unfold norm, clean_comps. change ("/" +:+ "") with (String "/" ""). rewrite Split_mid, foldl_app. done.
  - rewrite filter_cons_True by done. cbn [filter list_filter Join]. by rewrite Clean_abs.
Qed.

(** C32. The verdict of [CheckFileSource], for relative names too: a name is refused exactly when the first element of
    the path it resolves to, whatever dots and slashes it is spelled with, begins with the name of a system
    directory; the error has that path.  So nothing below a system directory is accepted; and a directory like
    /library, whose name only begins like one, is refused as well. *)
Theorem file_source_verdict cwd fileName : IsAbs cwd = true →
  CheckFileSource cwd fileName =
    match resolved cwd fileName with
    | [] => None
    | d :: rest => if existsb (HasPrefix d) systemPrefixes
                   then Some ("Filename resolves to invalid path '" +:+ abs_path (d :: rest) +:+ "'") else None
    end.
Proof.
  intros Hc. unfold CheckFileSource. rewrite Abs_resolved by done.
  generalize (resolved cwd fileName) as cs. intros cs.
  assert (∀ p, In p systemPrefixes → HasPrefix (abs_path cs) (CleanPath ["/"; p])
    = match cs with [] => false | d :: _ => HasPrefix d p end) as Hp.
  { intros p Hin. replace (CleanPath ["/"; p]) with ("/" +:+ p) by (by repeat destruct Hin as [<-|Hin]).
    apply HasPrefix_abs; by repeat destruct Hin as [<-|Hin]. }
  cbn [existsb systemPrefixes]. rewrite !Hp by (cbn; tauto). by destruct cs.
Qed.

Lemma cleanpath_confined_witness :
  ∃ below, Forall (λ c, plain c = true) (norm "/etc/mqm/pki" ++ below)
    ∧ Clean "/etc/mqm/pki" = abs_path (norm "/etc/mqm/pki")
    ∧ CleanPath ["/etc/mqm/pki"; "../../passwd"; "tls.key"] = abs_path (norm "/etc/mqm/pki" ++ below).
Proof. apply cleanpath_confined. reflexivity. Defined.

Lemma file_source_verdict_witness :
  CheckFileSource "/tmp" "../proc/./self//mem" = Some "Filename resolves to invalid path '/proc/self/mem'"
  ∧ CheckFileSource "/tmp" "/library/key" = Some "Filename resolves to invalid path '/library/key'"
  ∧ CheckFileSource "/tmp" "keys/dev" = None.
Proof. split_and!; (etransitivity; [apply file_source_verdict; reflexivity|vm_compute; reflexivity]). Defined.
