(* ===== verification/Os.v ===== *)
(** * The operating system the programs run on

    A state monad over a [world]: the process environment, a file system, the
    console, the error stream and the clock.  Files are kept by the elements of
    their clean absolute path.  Two things are parameters, in the class [OS]:
    the results and effects of external commands, and the operating-system
    errors other than a missing file ([fault], by operation and path). *)
From S2P Require Import Prelude Utf8 GoStrings Paths.

Open Scope Z_scope.

(** ** Errors *)

(** The number of a system error: a missing file, or another one by its text. *)
Inductive errno := ENOENT | Errno (text : string).
Definition EEXIST : errno := Errno "file exists".
Definition EISDIR : errno := Errno "is a directory".
Definition ENOTDIR : errno := Errno "not a directory".

(** Go's [error] values: an error of the system ([os.PathError]; a [LinkError] has both paths), one of
    strconv, and the messages of [errors.New] and [fmt.Errorf], with the error they report
    if any. *)
Inductive error :=
| PathError (op path : string) (n : errno)
| NumError (func num : string) (range : bool)
| Errorf (msg : string)
| Wrapped (before : string) (e : error) (after : string).

(** A format that ends in the error, after a colon. *)
Definition Wrap (msg : string) (e : error) : error := Wrapped (msg +:+ ": ") e "".

#[export] Instance errno_eq_dec : EqDecision errno.
Proof. solve_decision. Defined.
#[export] Instance error_eq_dec : EqDecision error.
Proof. solve_decision. Defined.

Definition errno_text (n : errno) : string :=
  match n with ENOENT => "no such file or directory" | Errno text => text end.

(** The text of an error; a number is quoted as if all runes above ASCII were printable. *)
Fixpoint Error_ (e : error) : string :=
  match e with
  | PathError op path n => op +:+ " " +:+ path +:+ ": " +:+ errno_text n
  | NumError func num range =>
      "strconv." +:+ func +:+ ": parsing " +:+ QuoteWith (λ _, true) num +:+ ": "
      +:+ (if range then "value out of range" else "invalid syntax")
  | Errorf msg => msg
  | Wrapped before e after => before +:+ Error_ e +:+ after
  end.

(** The error of [strconv.Atoi] and [strconv.ParseInt] where they fail. *)
Definition AtoiError (func s : string) : error := NumError func s (out_of_range s).

Definition IsNotExist (e : error) : bool :=
  match e with PathError _ _ ENOENT => true | _ => false end.

(** A Go result pair [(value, error)]. *)
Inductive res (A : Type) := Ok (a : A) | Err (e : error).
Arguments Ok {A} a.
Arguments Err {A} e.

#[export] Instance res_ret : MRet res := λ _ a, Ok a.
#[export] Instance res_fmap : FMap res := λ _ _ f m, match m with Ok a => Ok (f a) | Err e => Err e end.
#[export] Instance res_bind : MBind res := λ _ _ f m, match m with Ok a => f a | Err e => Err e end.

Definition err_of {A} (r : res A) : option error :=
  match r with Ok _ => None | Err e => Some e end.

(** ** The world *)

Inductive node := File (data : string) | Directory | Link (target : string).

#[export] Instance node_eq_dec : EqDecision node.
Proof. solve_decision. Defined.

(** The level of a logger call; [RAW] is text written to the standard output directly. *)
Inductive level := DEBUG | INFO | ERROR | RAW.

Record world := World {
  env : gmap string string;
  files : gmap (list string) node;
  console : list (level * string);   (* oldest first *)
  stderr : list string;
  handles : gset nat;                (* open file handles *)
  next_handle : nat;
  clock : Z }.

Definition set_files (f : gmap (list string) node) (w : world) : world :=
  World (env w) f (console w) (stderr w) (handles w) (next_handle w) (clock w).
Definition set_env (e : gmap string string) (w : world) : world :=
  World e (files w) (console w) (stderr w) (handles w) (next_handle w) (clock w).
Definition set_console (c : list (level * string)) (w : world) : world :=
  World (env w) (files w) c (stderr w) (handles w) (next_handle w) (clock w).
Definition set_stderr (s : list string) (w : world) : world :=
  World (env w) (files w) (console w) s (handles w) (next_handle w) (clock w).
Definition set_handles (h : gset nat) (n : nat) (w : world) : world :=
  World (env w) (files w) (console w) (stderr w) h n (clock w).

(** ** The monad *)

Definition M (A : Type) : Type := world → A * world.

#[export] Instance M_ret : MRet M := λ A a w, (a, w).
#[export] Instance M_fmap : FMap M := λ A B f m w, let '(a, w) := m w in (f a, w).
#[export] Instance M_bind : MBind M := λ A B f m w, let '(a, w) := m w in f a w.

Lemma bind_run {A B} (m : M A) (f : A → M B) w : (m ≫= f) w = f (m w).1 (m w).2.
Proof. unfold mbind, M_bind. by destruct (m w). Qed.

Definition gets {A} (f : world → A) : M A := λ w, (f w, w).
Definition modify (f : world → world) : M unit := λ w, (tt, f w).

(** [if err := m; err != nil { return err }] *)
Definition check (m : M (option error)) (k : M (option error)) : M (option error) :=
  e ← m; match e with Some e => mret (Some e) | None => k end.

Notation "'try' m ;; k" := (check m k) (at level 100, m at next level, k at level 200,
  right associativity) : go_scope.

(** Run an action for its effect on each element. *)
Fixpoint each {A} (f : A → M unit) (l : list A) : M unit :=
  match l with
  | [] => mret tt
  | x :: l => _ ← f x; each f l
  end.

(** [for _, x := range l { if err := f(x); err != nil { return err } }] *)
Fixpoint each_err {A} (f : A → M (option error)) (l : list A) : M (option error) :=
  match l with
  | [] => mret None
  | x :: l => try f x ;; each_err f l
  end.

(** ** Environment, console and clock *)

Definition LookupEnv (k : string) : M (option string) := gets (λ w, env w !! k).
Definition Getenv (k : string) : M string := gets (λ w, default "" (env w !! k)).
(** [os.Setenv] refuses an empty name, a name with [=] and a null byte. *)
Definition setenv_ok (k v : string) : bool :=
  negb (k =s "") && no_byte "=" k && no_byte "000" k && no_byte "000" v.

Definition Setenv (k v : string) : M (option error) := λ w,
  if setenv_ok k v then (None, set_env (<[k := v]> (env w)) w)
  else (Some (Errorf "setenv: invalid argument"), w).

Definition log (l : level) (msg : string) : M unit := modify (λ w, set_console (console w ++ [(l, msg)]) w).
Definition print_stderr (msg : string) : M unit := modify (λ w, set_stderr (stderr w ++ [msg]) w).

(** ** External commands and faults *)

Class OS := {
  (** The error of an operation on a path, when the system refuses it. *)
  fault : string → list string → option error;
  (** [exec.Command] and [CombinedOutput]: the output, the exit code, the error. *)
  exec : string → list string → world → (string * Z * option error) * world;
  (** The path of a command, [cmd.Path]. *)
  LookPath : string → string;
  (** [os.Hostname] *)
  hostname : res string;
  (** [os.Getwd] *)
  getwd : string }.

(** A system without faults. *)
Class Faultless `{OS} : Prop := no_fault : ∀ op p, fault op p = None.

(** What every documented system satisfies: refusals are not missing files. *)
Class FaultsExist `{OS} : Prop :=
  fault_exists : ∀ op p e, fault op p = Some e → IsNotExist e = false.

Section fs.
Context `{OS}.

(** internal/command: [RunContext] and [Run].  The context of the probes ends with the process. *)
Definition RunContext (name : string) (args : list string) : M (string * Z * option error) :=
  '(out, rc, err) ← exec name args;
  mret (out, rc, match err with Some e => Some (Wrap (LookPath name) e) | None => None end).
Definition Run := RunContext.

(** A command with one more variable in its environment: [cmd.Env]. *)
Definition exec_env (k v : string) (name : string) (args : list string) : M (string * Z * option error) := λ w,
  let '(r, w') := exec name args (set_env (<[k := v]> (env w)) w) in (r, set_env (env w) w').

Lemma RunContext_run name args w : RunContext name args w =
  (let '(out, rc, err) := (exec name args w).1 in
   (out, rc, match err with Some e => Some (Wrap (LookPath name) e) | None => None end), (exec name args w).2).
Proof. unfold RunContext. rewrite bind_run. by destruct (exec name args w) as [[[out rc] err] w1]. Qed.

Lemma Run_run name args w : Run name args w =
  (let '(out, rc, err) := (exec name args w).1 in
   (out, rc, match err with Some e => Some (Wrap (LookPath name) e) | None => None end), (exec name args w).2).
Proof. apply RunContext_run. Qed.

Definition guarded {A} (op : string) (p : list string) (k : M (res A)) : M (res A) :=
  match fault op p with Some e => mret (Err e) | None => k end.

Definition path_str (p : list string) : string := abs_path p.

(** [os.Stat]: a symbolic link is followed once. *)
Definition follow (w : world) (p : list string) : option node :=
  match files w !! p with
  | Some (Link t) => files w !! norm t
  | o => o
  end.

Definition Stat (path : string) : M (res node) :=
  let p := norm path in
  guarded "stat" p (λ w, match follow w p with
    | Some n => (Ok n, w)
    | None => (Err (PathError "stat" path ENOENT), w)
    end).

(** [os.Open] for reading: a directory can be opened and not read. *)
Definition Open (path : string) : M (res node) :=
  let p := norm path in
  guarded "open" p (λ w, match follow w p with
    | Some n => (Ok n, w)
    | None => (Err (PathError "open" path ENOENT), w)
    end).

Definition ReadFile (path : string) : M (res string) :=
  let p := norm path in
  guarded "read" p (λ w, match follow w p with
    | Some (File d) => (Ok d, w)
    | Some _ => (Err (PathError "read" path EISDIR), w)
    | None => (Err (PathError "open" path ENOENT), w)
    end).

(** The directory a new entry goes into exists. *)
Definition has_parent (w : world) (p : list string) : bool :=
  match rev p with
  | [] => false
  | _ :: d => match rev d with
              | [] => true
              | d => bool_decide (files w !! d = Some Directory)
              end
  end.

(** Open for writing, with creation: the new content is a function of the old one. *)
Definition write_with (op path : string) (f : string → string) : M (res unit) :=
  let p := norm path in
  guarded op p (λ w,
    match files w !! p with
    | Some (File d) => (Ok tt, set_files (<[p := File (f d)]> (files w)) w)
    | Some _ => (Err (PathError "open" path EISDIR), w)
    | None =>
        if has_parent w p
        then (Ok tt, set_files (<[p := File (f "")]> (files w)) w)
        else (Err (PathError "open" path ENOENT), w)
    end).

(** [os.WriteFile] truncates first. *)
Definition WriteFile (path data : string) : M (option error) :=
  err_of <$> write_with "write" path (λ _, data).

(** A file opened with [O_CREATE|O_WRONLY] and no [O_TRUNC], then written from
    the start: what the old content had beyond the new data stays. *)
Definition overwrite (old data : string) : string :=
  data +:+ drop_bytes (String.length data) old.

Definition Remove (path : string) : M (option error) :=
  let p := norm path in
  err_of <$> guarded "remove" p (λ w,
    match files w !! p with
    | Some _ => (Ok tt, set_files (delete p (files w)) w)
    | None => (Err (PathError "remove" path ENOENT), w)
    end).

(** [os.Rename] of a file. *)
Definition Rename (old new : string) : M (option error) :=
  let p := norm old in
  err_of <$> guarded "rename" p (λ w,
    match files w !! p with
    | Some n => (Ok tt, set_files (<[norm new := n]> (delete p (files w))) w)
    | None => (Err (PathError "rename" (old +:+ " " +:+ new) ENOENT), w)
    end).

(** The directories [p] consists of, outermost first. *)
Fixpoint ancestors (p : list string) : list (list string) :=
  match p with
  | [] => []
  | c :: p => [c] :: map (cons c) (ancestors p)
  end.

Fixpoint mkdirs (op path : string) (ds : list (list string)) : M (res unit) :=
  match ds with
  | [] => mret (Ok tt)
  | d :: ds => λ w,
      match files w !! d with
      | Some Directory => mkdirs op path ds w
      | Some _ => (Err (PathError op path ENOTDIR), w)
      | None => mkdirs op path ds (set_files (<[d := Directory]> (files w)) w)
      end
  end.

Definition MkdirAll (path : string) : M (option error) :=
  let p := norm path in err_of <$> guarded "mkdir" p (mkdirs "mkdir" path (ancestors p)).

(** [os.RemoveAll]: the path and everything below it. *)
Definition below (p q : list string) : bool := bool_decide (p `prefix_of` q).

Definition RemoveAll (path : string) : M (option error) :=
  let p := norm path in
  err_of <$> guarded "removeall" p (λ w,
    (Ok tt, set_files (filter (λ x, below p x.1 = false) (files w)) w)).

(** [os.ReadDir]: the names of the entries, sorted.  A name is never empty, "." or "..", and has no slash. *)
Definition child (p q : list string) : option string :=
  if below p q then match drop (length p) q with [c] => if plain c then Some c else None | _ => None end else None.

Definition children (f : gmap (list string) node) (p : list string) : list string :=
  merge_sort String.le (omap (child p) (map_to_list f).*1).

Definition ReadDir (path : string) : M (res (list string)) :=
  let p := norm path in
  guarded "readdir" p (λ w,
    match follow w p with
    | Some Directory => (Ok (children (files w) p), w)
    | Some _ => (Err (PathError "readdirent" path ENOTDIR), w)
    | None => (Err (PathError "open" path ENOENT), w)
    end).

(** ** File handles: a handle is closed once. *)

Definition Open_handle : M nat := λ w,
  (next_handle w, set_handles ({[next_handle w]} ∪ handles w) (S (next_handle w)) w).

(** [f.Close()] of the file with a name. *)
Definition Close (name : string) (h : nat) : M (option error) := λ w,
  if bool_decide (h ∈ handles w)
  then (None, set_handles (handles w ∖ {[h]}) (next_handle w) w)
  else (Some (PathError "close" name (Errno "file already closed")), w).

End fs.

(** ** Laws *)

Lemma bind_ret {A B} (a : A) (f : A → M B) : (mret a ≫= f) = f a.
Proof. done. Qed.

Lemma check_run (m k : M (option error)) w :
  (try m ;; k) w = match (m w).1 with Some e => (Some e, (m w).2) | None => k (m w).2 end.
Proof. unfold check. rewrite bind_run. by destruct (m w) as [[e|] w']. Qed.

Lemma fmap_run {A B} (f : A → B) (m : M A) w : (f <$> m) w = (f (m w).1, (m w).2).
Proof. unfold fmap, M_fmap. by destruct (m w). Qed.

Lemma bind_assoc_run {A B C} (m : M A) (f : A → M B) (g : B → M C) w :
  (m ≫= λ x, f x ≫= g) w = ((m ≫= f) ≫= g) w.
Proof. by rewrite !bind_run. Qed.

(** ** File operations without faults *)

Lemma set_files_id w : set_files (files w) w = w.
Proof. by destruct w. Qed.

Lemma set_files_set f g w : set_files f (set_files g w) = set_files f w.
Proof. done. Qed.

(** A file operation that keeps every directory keeps the parents. *)
Lemma has_parent_dirs w w' p : (∀ q, files w !! q = Some Directory → files w' !! q = Some Directory) →
  has_parent w p = true → has_parent w' p = true.
Proof.
  intros Hd. unfold has_parent. destruct (rev p) as [|c d]; [done|].
  destruct (rev d); [done|]. rewrite !bool_decide_eq_true. auto.
Qed.

Definition keeps_dirs (f g : gmap (list string) node) : Prop :=
  ∀ q, f !! q = Some Directory → g !! q = Some Directory.

Lemma keeps_dirs_refl f : keeps_dirs f f.
Proof. by intros q. Qed.

Lemma keeps_dirs_trans f g h : keeps_dirs f g → keeps_dirs g h → keeps_dirs f h.
Proof. unfold keeps_dirs. auto. Qed.

Lemma keeps_dirs_insert f p d : f !! p ≠ Some Directory → keeps_dirs f (<[p := File d]> f).
Proof. intros Hp q Hq. rewrite lookup_insert_ne; [done|]. by intros ->. Qed.

Lemma keeps_dirs_delete f p : f !! p ≠ Some Directory → keeps_dirs f (delete p f).
Proof. intros Hp q Hq. rewrite lookup_delete_ne; [done|]. by intros ->. Qed.

Section faultless.
Context `{Faultless}.

Lemma guarded_ok {A} op p (k : M (res A)) : guarded op p k = k.
Proof. unfold guarded. by rewrite no_fault. Qed.

Lemma write_existing op path f w d : files w !! norm path = Some (File d) →
  write_with op path f w = (Ok tt, set_files (<[norm path := File (f d)]> (files w)) w).
Proof. intros Hd. unfold write_with. rewrite guarded_ok. by rewrite Hd. Qed.

Lemma write_new op path f w : files w !! norm path = None → has_parent w (norm path) = true →
  write_with op path f w = (Ok tt, set_files (<[norm path := File (f "")]> (files w)) w).
Proof. intros Hn Hp. unfold write_with. rewrite guarded_ok, Hn. by rewrite Hp. Qed.

Lemma Rename_ok old new w n : files w !! norm old = Some n →
  Rename old new w = (None, set_files (<[norm new := n]> (delete (norm old) (files w))) w).
Proof. intros Hn. unfold Rename. rewrite guarded_ok. unfold fmap, M_fmap. by rewrite Hn. Qed.

Lemma Remove_ok path w n : files w !! norm path = Some n →
  Remove path w = (None, set_files (delete (norm path) (files w)) w).
Proof. intros Hn. unfold Remove. rewrite guarded_ok. unfold fmap, M_fmap. by rewrite Hn. Qed.

Lemma Stat_ok path w n : files w !! norm path = Some n → (∀ t, n ≠ Link t) → Stat path w = (Ok n, w).
Proof.
  intros Hn Hl. unfold Stat. rewrite guarded_ok. unfold follow. rewrite Hn. destruct n; [done..|naive_solver].
Qed.

Lemma Stat_missing path w : files w !! norm path = None → Stat path w = (Err (PathError "stat" path ENOENT), w).
Proof. intros Hn. unfold Stat. rewrite guarded_ok. unfold follow. by rewrite Hn. Qed.

Lemma Open_ok path w n : follow w (norm path) = Some n → Open path w = (Ok n, w).
Proof. intros Hn. unfold Open. rewrite guarded_ok. by rewrite Hn. Qed.

Lemma ReadFile_ok path w d : files w !! norm path = Some (File d) → ReadFile path w = (Ok d, w).
Proof. intros Hn. unfold ReadFile. rewrite guarded_ok. unfold follow. by rewrite Hn. Qed.

(** A regular file can be written at this path: it is one already, or there is
    nothing and its directory exists. *)
Definition writable (w : world) (path : string) : Prop :=
  (∃ d, files w !! norm path = Some (File d)) ∨ files w !! norm path = None ∧ has_parent w (norm path) = true.

Lemma WriteFile_ok path data w : writable w path →
  WriteFile path data w = (None, set_files (<[norm path := File data]> (files w)) w).
Proof.
  intros [[d Hd]|[Hn Hp]]; unfold WriteFile; rewrite fmap_run.
  - by erewrite write_existing by done.
  - by rewrite write_new.
Qed.

End faultless.

(** ** A system to evaluate on: no faults, commands that print nothing *)

#[export] Instance quiet : OS := {|
  fault _ _ := None;
  exec _ _ w := (("", 0, None), w);
  LookPath name := name;
  hostname := Ok "mq0";
  getwd := "/" |}.

#[export] Instance quiet_faultless : Faultless.
Proof. done. Qed.

#[export] Instance quiet_faults : FaultsExist.
Proof. done. Qed.

Definition world_of (e : list (string * string)) (f : list (string * node)) : world :=
  World (list_to_map e) (list_to_map (map (λ x, (norm x.1, x.2)) f)) [] [] ∅ 0 0.
