(* ===== verification/Frame.v ===== *)
(** * What an operation leaves alone

    [frame R m]: whatever [m] does, the worlds before and after are related by [R], a preorder that allows
    lines to be logged.  There is a rule for each construct of the monad and for each
    operation of Os.v, and [solve_frame] applies them and the hints of the database [frame], the lemmas of the
    functions, so that the proof for a function is its unfolding. *)
From S2P Require Import Prelude Utf8 GoStrings Paths Os.

Create HintDb frame discriminated.

(** A relation that allows a line to be logged. *)
Class AllowsLogs (R : relation world) : Prop := {
  allows_pre :: PreOrder R;
  allows_console : ∀ w x, R w (set_console (console w ++ [x]) w);
  allows_stderr : ∀ w s, R w (set_stderr (stderr w ++ [s]) w) }.

Section frame.
Context `{OS} (R : relation world) `{!AllowsLogs R}.

Definition frame {A} (m : M A) : Prop := ∀ w, R w (m w).2.

(** ** The monad *)

Lemma frame_ret {A} (a : A) : frame (mret a).
Proof. intros w. cbn. reflexivity. Qed.

Lemma frame_bind {A B} (m : M A) (f : A → M B) : frame m → (∀ a, frame (f a)) → frame (m ≫= f).
Proof. intros Hm Hf w. rewrite bind_run. etrans; [apply Hm|apply Hf]. Qed.

Lemma frame_fmap {A B} (f : A → B) (m : M A) : frame m → frame (f <$> m).
Proof using Type. intros Hm w. rewrite fmap_run. apply Hm. Qed.

Lemma frame_gets {A} (f : world → A) : frame (gets f).
Proof. intros w. cbn. reflexivity. Qed.

Lemma frame_check m k : frame m → frame k → frame (check m k).
Proof. intros Hm Hk. apply frame_bind; [done|]. by intros [e|]; [apply frame_ret|]. Qed.

Lemma frame_each {A} (f : A → M unit) l : (∀ x, x ∈ l → frame (f x)) → frame (each f l).
Proof.
  intros Hf. induction l as [|x l IH]; [apply frame_ret|]. apply frame_bind; [apply Hf; by left|].
  intros _. apply IH. intros y Hy. apply Hf. by right.
Qed.

Lemma frame_each_err {A} (f : A → M (option error)) l : (∀ x, x ∈ l → frame (f x)) → frame (each_err f l).
Proof.
  intros Hf. induction l as [|x l IH]; [apply frame_ret|]. apply frame_check; [apply Hf; by left|].
  apply IH. intros y Hy. apply Hf. by right.
Qed.

Lemma frame_guarded {A} op p (k : M (res A)) : frame k → frame (guarded op p k).
Proof. intros Hk. unfold guarded. destruct (fault op p); [apply frame_ret|done]. Qed.

(** ** Operations that change no file *)

Lemma frame_LookupEnv k : frame (LookupEnv k).
Proof. apply frame_gets. Qed.
Lemma frame_Getenv k : frame (Getenv k).
Proof. apply frame_gets. Qed.
Lemma frame_log l s : frame (log l s).
Proof. intros w. apply allows_console. Qed.
Lemma frame_print_stderr s : frame (print_stderr s).
Proof. intros w. apply allows_stderr. Qed.

Lemma frame_Stat path : frame (Stat path).
Proof. apply frame_guarded. intros w. by destruct (follow w _). Qed.
Lemma frame_Open path : frame (Open path).
Proof. apply frame_guarded. intros w. by destruct (follow w _). Qed.
Lemma frame_ReadFile path : frame (ReadFile path).
Proof. apply frame_guarded. intros w. by destruct (follow w _) as [[]|]. Qed.
Lemma frame_ReadDir path : frame (ReadDir path).
Proof. apply frame_guarded. intros w. by destruct (follow w _) as [[]|]. Qed.

(** ** Operations with an effect, and the condition on the relation *)

Lemma frame_Setenv k v : (∀ w, R w (set_env (<[k := v]> (env w)) w)) → frame (Setenv k v).
Proof. intros Hr w. unfold Setenv. destruct (setenv_ok k v); [apply Hr|cbn; reflexivity]. Qed.

Lemma frame_write_with op path f : (∀ w d, R w (set_files (<[norm path := File d]> (files w)) w)) → frame (write_with op path f).
Proof.
  intros Hr. apply frame_guarded. intros w. destruct (files w !! norm path) as [[]|]; [apply Hr|cbn; reflexivity..|].
  destruct (has_parent w _); [apply Hr|cbn; reflexivity].
Qed.

Lemma frame_WriteFile path d : (∀ w d, R w (set_files (<[norm path := File d]> (files w)) w)) → frame (WriteFile path d).
Proof. intros Hr. by apply frame_fmap, frame_write_with. Qed.

Lemma frame_Remove path : (∀ w, R w (set_files (delete (norm path) (files w)) w)) → frame (Remove path).
Proof. intros Hr. apply frame_fmap, frame_guarded. intros w. destruct (files w !! _); [apply Hr|cbn; reflexivity]. Qed.

Lemma frame_RemoveAll path : (∀ w, R w (set_files (filter (λ x, below (norm path) x.1 = false) (files w)) w)) → frame (RemoveAll path).
Proof. intros Hr. apply frame_fmap, frame_guarded. intros w. apply Hr. Qed.

Lemma frame_mkdirs op path ds : (∀ d w, d ∈ ds → R w (set_files (<[d := Directory]> (files w)) w)) → frame (mkdirs op path ds).
Proof.
  intros Hr. induction ds as [|d ds IH]; [apply frame_ret|]. intros w. cbn [mkdirs].
  assert (frame (mkdirs op path ds)) as Hd by (apply IH; intros; apply Hr; by right).
  destruct (files w !! d) as [[]|]; [cbn; reflexivity|apply Hd|cbn; reflexivity|].
  etrans; [|apply Hd]. apply Hr. by left.
Qed.

Lemma frame_MkdirAll path : (∀ d w, d ∈ ancestors (norm path) → R w (set_files (<[d := Directory]> (files w)) w)) → frame (MkdirAll path).
Proof. intros Hr. by apply frame_fmap, frame_guarded, frame_mkdirs. Qed.

Lemma frame_Run name args : (∀ w, R w (exec name args w).2) → frame (Run name args).
Proof.
  intros Hr w. rewrite Run_run. specialize (Hr w). by destruct (exec name args w) as [[[out rc] err] w1].
Qed.

(** A command for its own sake: [exec.Command]. *)
Lemma frame_exec name args : (∀ w, R w (exec name args w).2) → frame (exec name args).
Proof using Type. done. Qed.

End frame.

(** The operations that change nothing. *)
Ltac frame_leaf :=
  first [ apply frame_ret | apply frame_gets | apply frame_LookupEnv | apply frame_Getenv
        | apply frame_log | apply frame_print_stderr | apply frame_Stat | apply frame_Open | apply frame_ReadFile | apply frame_ReadDir ]; exact _.

(** ** Absence of a file *)

(** A file that is not there is not made. *)
Definition absent (p : list string) : relation world := λ w w', files w !! p = None → files w' !! p = None.

#[export] Instance absent_logs p : AllowsLogs (absent p).
Proof. split; [|by intros w c Hw..]. split; [by intros w Hw|]. intros w w1 w2 H1 H2 Hw. auto. Qed.

Lemma absent_env p e w : absent p w (set_env e w).
Proof. by intros Hw. Qed.

Lemma absent_insert p q n w : q ≠ p → absent p w (set_files (<[q := n]> (files w)) w).
Proof. intros Hne Hw. cbn. by rewrite lookup_insert_ne. Qed.

Lemma absent_delete p q w : absent p w (set_files (delete q (files w)) w).
Proof. intros Hw. cbn. destruct (decide (q = p)) as [->|]; [by rewrite lookup_delete_eq|by rewrite lookup_delete_ne]. Qed.

Lemma absent_filter p (P : list string * node → Prop) `{!∀ x, Decision (P x)} w : absent p w (set_files (filter P (files w)) w).
Proof. intros Hw. cbn. apply map_lookup_filter_None. by left. Qed.

(** ** Everything but some files *)

(** The environment and the files outside a list stay as they are. *)
Definition only (ps : list (list string)) : relation world :=
  λ w w', env w' = env w ∧ ∀ q, q ∉ ps → files w' !! q = files w !! q.

#[export] Instance only_logs ps : AllowsLogs (only ps).
Proof.
  split; [|by intros w c..]. split; [by intros w|]. intros w w1 w2 [H1 H1'] [H2 H2'].
  split; [congruence|]. intros q Hq. rewrite H2', H1'; done.
Qed.

Lemma only_insert ps q n w : q ∈ ps → only ps w (set_files (<[q := n]> (files w)) w).
Proof. intros Hq. split; [done|]. intros r Hr. cbn. rewrite lookup_insert_ne; [done|]. by intros ->. Qed.

Lemma only_delete ps q w : q ∈ ps → only ps w (set_files (delete q (files w)) w).
Proof. intros Hq. split; [done|]. intros r Hr. cbn. rewrite lookup_delete_ne; [done|]. by intros ->. Qed.

(** ** The tactic *)

(** Membership of a constant path in a constant list. *)
Ltac frame_member := apply list_elem_of_In; vm_compute; tauto.

(** The conditions, where paths that are constants are computed. *)
Ltac frame_path :=
  intros; first
  [ apply absent_delete | apply absent_filter | apply absent_env
  | apply absent_insert; first [assumption | by vm_compute | by eauto with frame]
  | apply only_insert; frame_member | apply only_delete; frame_member ].

Ltac frame_step :=
  match goal with
  | |- frame _ _ => frame_leaf
  | |- frame _ _ => solve [eauto with frame nocore]
  | |- frame _ (match ?x with _ => _ end) => destruct x eqn:?
  | |- frame _ (_ ≫= _) => apply frame_bind; [exact _| |intros ?]
  | |- frame _ (_ <$> _) => apply frame_fmap
  | |- frame _ (check _ _) => apply frame_check; [exact _| |]
  | |- frame _ (each _ _) => apply frame_each; [exact _|intros ? ?]
  | |- frame _ (each_err _ _) => apply frame_each_err; [exact _|intros ? ?]
  | |- frame _ (guarded _ _ _) => apply frame_guarded; [exact _|]
  | |- frame _ (Setenv _ _) => apply frame_Setenv; frame_path
  | |- frame _ (write_with _ _ _) => apply frame_write_with; [exact _|]; frame_path
  | |- frame _ (WriteFile _ _) => apply frame_WriteFile; [exact _|]; frame_path
  | |- frame _ (Remove _) => apply frame_Remove; [exact _|]; frame_path
  | |- frame _ (RemoveAll _) => apply frame_RemoveAll; [exact _|]; frame_path
  end.

Ltac solve_frame := intros; repeat frame_step.
