(* ===== verification/LogRotation.v ===== *)
(** * Rotating log files (pkg/logrotation/logrotation.go)

    The metrics audit log: messages go to instance 1 of [logFilesCount] files; when
    a message would bring that file to the size limit the files are renamed one step up,
    the oldest being deleted.  [Append] runs under the logger's mutex, so that
    concurrent appends are a sequence of these operations. *)
From S2P Require Import Prelude Utf8 GoStrings Paths Os.

Open Scope Z_scope.

Module LogRotation.

Record RotatingLogger := NewRotatingLogger {
  baseDirectory : string; filenameFormat : string; maxFileBytes : Z; logFilesCount : nat }.

Definition lf : string := s1 "010".

(** [fmt.Sprintf] of one integer, with the verbs [%d] and [%0Nd]. *)
Fixpoint zeros (n : nat) : string := match n with O => "" | S n => String "0" (zeros n) end.
Definition pad (n : nat) (s : string) : string := zeros (n - String.length s) +:+ s.

Fixpoint Sprintf_d (format : string) (i : Z) : string :=
  match format with
  | String "%" (String "d" rest) => Itoa i +:+ rest
  | String "%" (String "0" (String c (String "d" rest))) =>
      pad (Z.to_nat (byteZ c - 48)) (Itoa i) +:+ rest
  | String c rest => String c (Sprintf_d rest i)
  | "" => ""
  end.

Definition instanceFileName (r : RotatingLogger) (instance : nat) : string :=
  JoinPath [baseDirectory r; Sprintf_d (filenameFormat r) (Z.of_nat instance)].

Section operations.
Context `{OS}.

(** [os.OpenFile] with [O_CREATE], and [O_APPEND|O_WRONLY] where the file is written. *)
Definition OpenCreate (path : string) : M (res nat) :=
  r ← write_with "open" path id;
  match r with
  | Ok _ => h ← Open_handle; mret (Ok h)
  | Err e => mret (Err e)
  end.

(** [for i := 1; i <= logFilesCount; i++] *)
Definition Init (r : RotatingLogger) : M (option error) :=
  each_err (λ i,
    f ← OpenCreate (instanceFileName r i);
    match f with
    | Err e => mret (Some e)
    | Ok h => Close (instanceFileName r i) h
    end) (seq 1 (logFilesCount r)).

(** ** Deduplication *)

Definition is_newline (c : ascii) : bool := (c =b "010") || (c =b "013").

(** The bytes before position [pos], last first; [lineCharsBackwards] accumulates. *)
Fixpoint lastLineLoop (backwards : list ascii) (lineCharsBackwards : list ascii) : list ascii :=
  match backwards with
  | [] => lineCharsBackwards
  | c :: backwards =>
      if is_newline c then
        match lineCharsBackwards with
        | [] => lastLineLoop backwards lineCharsBackwards
        | _ => lineCharsBackwards
        end
      else lastLineLoop backwards (lineCharsBackwards ++ [c])
  end.

Definition lastLine (d : string) : string :=
  String.string_of_list_ascii (rev (lastLineLoop (rev (String.list_ascii_of_string d)) [])).

Definition getLogLastLine (logFilePath : string) : M (res string) :=
  fmap lastLine <$> ReadFile logFilePath.

Definition cleaned (s : string) : string := ReplaceAll (TrimSpace s) lf " ".

Definition checkIfMessageShouldBeAppended (logFilePath currentLogLine : string)
    (deduplicateLine : bool) : M (res bool) :=
  if negb deduplicateLine then mret (Ok true) else
  l ← getLogLastLine logFilePath;
  mret (lastLogLine ← l; Ok (negb (cleaned currentLogLine =s cleaned lastLogLine))).

(** ** Rotation *)

Definition checkIfLogFileSizeExceeded (r : RotatingLogger) (messageLineLength : Z) (logFile : string)
    : M (res bool) :=
  f ← Stat logFile;
  mret (n ← f;
    let size := match n with File d => Z.of_nat (String.length d) | _ => 0 end in
    Ok (maxFileBytes r <=? size + messageLineLength)).

(** [err != nil && !os.IsNotExist(err)], with the message of [fmt.Errorf] in front of the error. *)
Definition ignore_missing (msg : string) (m : M (option error)) : M (option error) :=
  e ← m;
  mret (match e with
        | Some e => if IsNotExist e then None else Some (Wrap msg e)
        | None => None
        end).

(** [for i := k; i >= 2; i--] *)
Fixpoint renameLoop (r : RotatingLogger) (k : nat) : M (option error) :=
  match k with
  | S (S _ as k') =>
      let oldLogFileInstance := instanceFileName r k' in
      let newLogFileInstance := instanceFileName r k in
      try ignore_missing ("error moving '" +:+ oldLogFileInstance +:+ "' to '" +:+ newLogFileInstance +:+ "'")
            (Rename oldLogFileInstance newLogFileInstance) ;;
      renameLoop r k'
  | _ => mret None
  end.

Definition performLogRotation (r : RotatingLogger) : M (option error) :=
  let lastLogFile := instanceFileName r (logFilesCount r) in
  try ignore_missing ("error deleting '" +:+ lastLogFile +:+ "'") (Remove lastLogFile) ;;
  try renameLoop r (logFilesCount r) ;;
  let firstInstancePath := instanceFileName r 1 in
  e ← WriteFile firstInstancePath "";
  mret (Wrap ("error creating log file ('" +:+ firstInstancePath +:+ "')") <$> e).

(** ** Append *)

(** [errOutput.Printf] of the error of closing a file, if there is one. *)
Definition closeFailed (e : error) (logFilePath : string) : string :=
  "Error: " +:+ Error_ e +:+ ", Failed to close log file: " +:+ logFilePath +:+ lf.

Definition reportClose (logFilePath : string) (e : option error) : M unit :=
  match e with Some e => print_stderr (closeFailed e logFilePath) | None => mret tt end.

Definition report (msg : string) (e : option error) : M unit :=
  match e with Some e => print_stderr (msg +:+ Error_ e +:+ lf) | None => mret tt end.

(** The deferred closure: it closes what the variable [logFile] holds when the
    function returns. *)
Definition deferredClose (logFilePath : string) (logFile : option nat) : M unit :=
  e ← match logFile with Some h => Close logFilePath h | None => mret (Some (Errorf "invalid argument")) end;
  reportClose logFilePath e.

Definition writeMessage (logFilePath messageLine : string) : M unit :=
  e ← err_of <$> write_with "append" logFilePath (λ d, d +:+ messageLine);
  report "Failed to write to log file: " e.

(** The part of [Append] that rotates; the result is the variable [logFile] and
    whether to write. *)
Definition rotateAndReopen (r : RotatingLogger) (logFilePath : string) (h : nat) : M (option nat * bool) :=
  e ← Close logFilePath h;
  _ ← reportClose logFilePath e;
  e ← performLogRotation r;
  _ ← report "Failed to perform log-rotation: " e;
  f ← OpenCreate logFilePath;
  _ ← report "Failed to open log file: " (err_of f);
  match f with
  | Err _ => mret (None, false)
  | Ok h => mret (Some h, true)
  end.

Definition Append (r : RotatingLogger) (messageLine : string) (deduplicateLine : bool) : M unit :=
  let messageLine := TrimSpace messageLine +:+ lf in
  let logFilePath := instanceFileName r 1 in
  f ← OpenCreate logFilePath;
  _ ← report "Failed to open log file: " (err_of f);
  match f with
  | Err _ => mret tt
  | Ok h =>
      s ← checkIfMessageShouldBeAppended logFilePath messageLine deduplicateLine;
      _ ← report "Failed to validate the currentLog and the lastLog line " (err_of s);
      match s with
      | Ok true =>
          x ← checkIfLogFileSizeExceeded r (Z.of_nat (String.length messageLine)) logFilePath;
          _ ← report "Failed to validate log file size: " (err_of x);
          match x with
          | Err _ => deferredClose logFilePath (Some h)
          | Ok false => _ ← writeMessage logFilePath messageLine; deferredClose logFilePath (Some h)
          | Ok true =>
              '(logFile, ok) ← rotateAndReopen r logFilePath h;
              if (ok : bool) then
                _ ← writeMessage logFilePath messageLine;
                _ ← deferredClose logFilePath logFile;
                deferredClose logFilePath logFile
              else deferredClose logFilePath logFile
          end
      | _ => deferredClose logFilePath (Some h)
      end
  end.

End operations.

(** ** Specification: the files as a list, newest first *)

Definition line (m : string) : string := TrimSpace m +:+ lf.

Definition slen (s : string) : Z := Z.of_nat (String.length s).

(** Adding a line rotates when it would bring the newest file to the limit. *)
Definition rotates (max : Z) (m : string) (fs : list string) : bool :=
  match fs with [] => false | f :: _ => max <=? slen f + slen m end.

Definition append_files (max : Z) (m : string) (fs : list string) : list string :=
  match fs with
  | [] => []
  | f :: rest => if rotates max m fs then m :: take (length rest) fs else (f +:+ m) :: rest
  end.

(** The line repeats the last one of the newest file. *)
Definition repeats (m : string) (fs : list string) : bool :=
  match fs with [] => false | f :: _ => cleaned m =s cleaned (lastLine f) end.

Definition append_spec (max : Z) (dedup : bool) (m : string) (fs : list string) : list string :=
  if dedup && repeats m fs then fs else append_files max m fs.

(** What the operation writes to the error stream: after a rotation the file at [path] is closed twice. *)
Definition closed_twice (path : string) : string :=
  closeFailed (PathError "close" path (Errno "file already closed")) path.

Definition append_errors (path : string) (max : Z) (dedup : bool) (m : string) (fs : list string) : list string :=
  if dedup && repeats m fs then []
  else if rotates max m fs then [closed_twice path] else [].

(** ** The operations without faults *)

Lemma handles_reclosed n (hs : gset nat) : n ∉ hs → ({[n]} ∪ hs) ∖ {[n]} = hs.
Proof.
  intros Hn. rewrite difference_union_distr_l_L, difference_diag_L, union_empty_l_L.
  apply difference_disjoint_L. by apply disjoint_singleton_r.
Qed.

Section correctness.
Context `{Faultless} (r : RotatingLogger).

Definition inst (i : nat) : list string := norm (instanceFileName r i).

(** The instances are different files, and there is at least one. *)
Definition layout : Prop :=
  (1 ≤ logFilesCount r)%nat ∧
  ∀ i j, (1 ≤ i ≤ logFilesCount r)%nat → (1 ≤ j ≤ logFilesCount r)%nat → inst i = inst j → i = j.

Definition holds (w : world) (fs : list string) : Prop :=
  length fs = logFilesCount r ∧ ∀ i f, fs !! i = Some f → files w !! inst (S i) = Some (File f).

(** The logger's state between two operations. *)
Record ready (w : world) (fs : list string) : Prop := {
  ready_holds : holds w fs;
  ready_parent : has_parent w (inst 1) = true;
  ready_handles : ∀ h, h ∈ handles w → (h < next_handle w)%nat }.

Lemma ignore_missing_ok msg (m : M (option error)) w w' : m w = (None, w') → ignore_missing msg m w = (None, w').
Proof. intros E. unfold ignore_missing. by rewrite bind_run, E. Qed.

Lemma renameLoop_step k : renameLoop r (S (S k)) =
  (try ignore_missing ("error moving '" +:+ instanceFileName r (S k) +:+ "' to '" +:+ instanceFileName r (S (S k)) +:+ "'")
         (Rename (instanceFileName r (S k)) (instanceFileName r (S (S k)))) ;;
   renameLoop r (S k)).
Proof. done. Qed.

Lemma renameLoop_spec k w g : layout → (k ≤ logFilesCount r)%nat →
  (∀ i, (1 ≤ i < k)%nat → files w !! inst i = Some (File (g i))) →
  files w !! inst k ≠ Some Directory →
  ∃ f, renameLoop r k w = (None, set_files f w) ∧ keeps_dirs (files w) f
    ∧ (∀ i, (2 ≤ i ≤ k)%nat → f !! inst i = Some (File (g (i - 1)%nat)))
    ∧ f !! inst 1 = (if bool_decide (2 ≤ k)%nat then None else files w !! inst 1)
    ∧ (∀ q, (∀ i, (1 ≤ i ≤ k)%nat → q ≠ inst i) → f !! q = files w !! q).
Proof.
  intros [Hn Hinj]. revert w g. induction k as [|[|k] IH]; intros w g Hk Hg Hd.
  1,2: exists (files w); rewrite set_files_id; split_and!;
    first [done | apply keeps_dirs_refl | intros; exfalso; lia].
  assert (inst (S k) ≠ inst (S (S k))) as Hne by (intros E; apply Hinj in E; lia).
  rewrite renameLoop_step, check_run.
  erewrite ignore_missing_ok by (eapply Rename_ok, Hg; lia). cbn [fst snd]. fold (inst (S k)) (inst (S (S k))).
  set (w1 := set_files _ w).
  destruct (IH w1 g) as (f & E & Hdirs & Hmv & H1 & Hout); [lia| | |].
  { intros i Hi. simpl. rewrite lookup_insert_ne, lookup_delete_ne; [apply Hg; lia|..];
      intros E; apply Hinj in E; lia. }
  { simpl. rewrite lookup_insert_ne by done. by rewrite lookup_delete_eq. }
  exists f. rewrite E. unfold w1 in *. rewrite set_files_set. split_and!; [done|..].
  - eapply keeps_dirs_trans; [|done]. simpl.
    eapply keeps_dirs_trans; [apply (keeps_dirs_delete _ (inst (S k)))|apply keeps_dirs_insert].
    + rewrite Hg by lia. done.
    + by rewrite lookup_delete_ne.
  - intros i Hi. destruct (decide (i = S (S k))) as [->|].
    + rewrite Hout by (intros j Hj E'; apply Hinj in E'; lia). simpl. by rewrite lookup_insert_eq.
    + apply Hmv. lia.
  - rewrite H1. simpl. case_bool_decide as Hk2; [done|]. assert (k = 0%nat) as -> by lia.
    rewrite lookup_insert_ne by done. by rewrite lookup_delete_eq.
  - intros q Hq. rewrite Hout by (intros; apply Hq; lia). simpl.
    rewrite lookup_insert_ne, lookup_delete_ne; [done|..]; apply not_eq_sym, Hq; lia.
Qed.

Lemma holds_lookup w fs i : holds w fs → (1 ≤ i ≤ logFilesCount r)%nat →
  ∃ f, fs !! (i - 1)%nat = Some f ∧ files w !! inst i = Some (File f).
Proof.
  intros [Hl Hh] Hi. destruct (lookup_lt_is_Some_2 fs (i - 1)) as [f Hf]; [lia|].
  exists f. split; [done|]. apply Hh in Hf. by replace (S (i - 1)) with i in Hf by lia.
Qed.

(** Rotation shifts the files up by one, the oldest disappears and the newest is empty. *)
Lemma performLogRotation_spec w fs : layout → holds w fs → has_parent w (inst 1) = true →
  ∃ f, performLogRotation r w = (None, set_files f w) ∧ keeps_dirs (files w) f
    ∧ holds (set_files f w) ("" :: take (logFilesCount r - 1) fs).
Proof.
  intros Hlay Hh Hp. pose proof Hlay as [Hn Hinj].
  unfold performLogRotation. rewrite check_run.
  destruct (holds_lookup w fs (logFilesCount r) Hh) as (fn & _ & Hfn); [lia|].
  erewrite ignore_missing_ok by (by eapply Remove_ok). fold (inst (logFilesCount r)). cbn [fst snd].
  rewrite check_run. set (w1 := set_files _ w).
  destruct (renameLoop_spec (logFilesCount r) w1 (λ i, default "" (fs !! (i - 1)%nat)))
    as (f & E & Hdirs & Hmv & H1 & _); [done|lia| | |].
  { intros i Hi. destruct (holds_lookup w fs i Hh) as (fi & Ei & Hfi); [lia|].
    simpl. rewrite lookup_delete_ne by (intros E; apply Hinj in E; lia). by rewrite Hfi, Ei. }
  { simpl. by rewrite lookup_delete_eq. }
  rewrite E. cbn [fst snd]. unfold w1. rewrite set_files_set.
  assert (keeps_dirs (files w) f) as Hkeep.
  { eapply keeps_dirs_trans; [apply (keeps_dirs_delete _ (inst (logFilesCount r)))|exact Hdirs].
    by rewrite Hfn. }
  assert (f !! inst 1 = None) as Hf1.
  { rewrite H1. case_bool_decide; [done|]. simpl.
    replace (logFilesCount r) with 1%nat by lia. by rewrite lookup_delete_eq. }
  rewrite bind_run. unfold WriteFile. rewrite fmap_run, write_new; [|done|by eapply has_parent_dirs].
  cbn. eexists. split; [done|]. split.
  - eapply keeps_dirs_trans; [exact Hkeep|]. apply keeps_dirs_insert. fold (inst 1). by rewrite Hf1.
  - split.
    + simpl. rewrite length_take. destruct Hh as [-> _]. lia.
    + intros i x Hx. fold (inst 1). simpl. destruct i as [|i]; simpl in Hx.
      * simplify_eq. by rewrite lookup_insert_eq.
      * assert (i < logFilesCount r - 1)%nat as Hi.
        { apply lookup_lt_Some in Hx. rewrite length_take in Hx. lia. }
        rewrite lookup_take_lt in Hx by lia.
        rewrite lookup_insert_ne by (intros E'; apply Hinj in E'; lia).
        rewrite Hmv by lia. by replace (S (S i) - 1 - 1)%nat with i by lia; rewrite Hx.
Qed.
(** ** One append *)

Definition opened (w : world) : world :=
  set_handles ({[next_handle w]} ∪ handles w) (S (next_handle w)) w.

Lemma OpenCreate_ok path w d : files w !! norm path = Some (File d) →
  OpenCreate path w = (Ok (next_handle w), opened w).
Proof.
  intros Hd. unfold OpenCreate. rewrite bind_run. erewrite write_existing by done.
  unfold id. rewrite insert_id, set_files_id by done. done.
Qed.

Lemma Close_ok path h w : h ∈ handles w →
  Close path h w = (None, set_handles (handles w ∖ {[h]}) (next_handle w) w).
Proof. intros Hh. unfold Close. by rewrite bool_decide_true. Qed.

Lemma deferredClose_ok path h w : h ∈ handles w →
  deferredClose path (Some h) w = (tt, set_handles (handles w ∖ {[h]}) (next_handle w) w).
Proof. intros Hh. unfold deferredClose. by rewrite bind_run, Close_ok. Qed.

Lemma deferredClose_closed path h w : h ∉ handles w →
  deferredClose path (Some h) w = print_stderr (closed_twice path) w.
Proof. intros Hh. unfold deferredClose. rewrite bind_run. unfold Close. by rewrite bool_decide_false. Qed.

Lemma writeMessage_ok path m w d : files w !! norm path = Some (File d) →
  writeMessage path m w = (tt, set_files (<[norm path := File (d +:+ m)]> (files w)) w).
Proof. intros Hd. unfold writeMessage. rewrite bind_run, fmap_run. by erewrite write_existing by done. Qed.

Lemma size_check n path w d : files w !! norm path = Some (File d) →
  checkIfLogFileSizeExceeded r n path w = (Ok (maxFileBytes r <=? slen d + n), w).
Proof.
  intros Hd. unfold checkIfLogFileSizeExceeded, Stat. rewrite bind_run, guarded_ok.
  unfold follow. by rewrite Hd.
Qed.

Lemma dedup_check m dedup path w d : files w !! norm path = Some (File d) →
  checkIfMessageShouldBeAppended path m dedup w
  = (Ok (negb (dedup && (cleaned m =s cleaned (lastLine d)))), w).
Proof.
  intros Hd. unfold checkIfMessageShouldBeAppended, getLogLastLine, ReadFile. destruct dedup; [|done].
  simpl. rewrite bind_run, fmap_run, guarded_ok. unfold follow. by rewrite Hd.
Qed.

Lemma rotateAndReopen_ok w fs h : layout → holds w fs → has_parent w (inst 1) = true → h ∈ handles w →
  ∃ f, rotateAndReopen r (instanceFileName r 1) h w
       = ((Some (next_handle w), true), opened (set_files f (set_handles (handles w ∖ {[h]}) (next_handle w) w)))
    ∧ keeps_dirs (files w) f ∧ holds (set_files f w) ("" :: take (logFilesCount r - 1) fs).
Proof.
  intros Hlay Hh Hp Hin. unfold rotateAndReopen. rewrite bind_run, Close_ok by done. cbn [fst snd].
  set (w1 := set_handles _ _ w).
  destruct (performLogRotation_spec w1 fs) as (f & E & Hd & Hf); [done..|].
  exists f. cbn [reportClose]. rewrite bind_ret, bind_run, E. cbn [fst snd report]. rewrite bind_ret, bind_run.
  erewrite OpenCreate_ok by (by apply (proj2 Hf 0%nat "")). done.
Qed.

(** The files after the newest one is replaced. *)
Lemma holds_write w d x rest : layout → holds w (d :: rest) →
  holds (set_files (<[inst 1 := File x]> (files w)) w) (x :: rest).
Proof.
  intros [Hn Hinj] [Hl Hh]. split; [done|]. intros i f Hf. simpl. destruct i as [|i]; simpl in Hf.
  - simplify_eq. by rewrite lookup_insert_eq.
  - rewrite lookup_insert_ne; [by apply (Hh (S i))|]. intros E. apply Hinj in E; [lia..|].
    apply lookup_lt_Some in Hf. simpl in Hl. lia.
Qed.

Lemma ready_files w fs f hs n fs' : layout → ready w fs → keeps_dirs (files w) f →
  holds (set_files f w) fs' → (next_handle w ≤ n)%nat → hs = handles w →
  ∀ er, ready (World (env w) f (console w) er hs n (clock w)) fs'.
Proof.
  intros Hlay [Hh Hp Hlt] Hd Hh' Hle -> er. split; simpl.
  - exact Hh'.
  - by eapply has_parent_dirs.
  - intros h Hx. apply Hlt in Hx. lia.
Qed.

Lemma write_then_close w d rest m : layout → ready w (d :: rest) →
  ∃ w', (_ ← writeMessage (instanceFileName r 1) m; deferredClose (instanceFileName r 1) (Some (next_handle w))) (opened w) = (tt, w')
    ∧ ready w' ((d +:+ m) :: rest) ∧ handles w' = handles w ∧ stderr w' = stderr w
    ∧ (next_handle w < next_handle w')%nat ∧ next_handle w ∉ handles w'.
Proof.
  intros Hlay Hr. pose proof Hlay as [Hn Hinj]. pose proof (ready_holds _ _ Hr) as Hh.
  assert (next_handle w ∉ handles w) as Hfresh by (intros Hx; apply Hr in Hx; lia).
  assert (files w !! inst 1 = Some (File d)) as Hf by by apply (proj2 Hh 0%nat).
  rewrite bind_run. erewrite writeMessage_ok by done. cbn [fst snd].
  rewrite deferredClose_ok by (simpl; set_solver). eexists; split; [done|].
  simpl. fold (inst 1). rewrite handles_reclosed by done. split_and!; [|done|done|lia|done].
  unfold opened, set_handles, set_files; simpl.
  eapply ready_files; [done..| | |lia|done].
  - apply keeps_dirs_insert. by rewrite Hf.
  - by eapply holds_write.
Qed.

(** After an append the files are those of the specification, no handle is left
    open, and the error stream has what [append_errors] says. *)
Lemma Append_run w fs m dedup : layout → ready w fs →
  ∃ w', Append r m dedup w = (tt, w')
    ∧ ready w' (append_spec (maxFileBytes r) dedup (line m) fs)
    ∧ handles w' = handles w
    ∧ stderr w' = stderr w ++ append_errors (instanceFileName r 1) (maxFileBytes r) dedup (line m) fs.
Proof.
  intros Hlay Hr. pose proof Hr as [Hh Hp Hlt]. pose proof Hlay as [Hn Hinj].
  destruct (holds_lookup w fs 1 Hh) as (d & Hd & Hf); [lia|].
  destruct fs as [|d' rest]; simpl in Hd; simplify_eq.
  assert (next_handle w ∉ handles w) as Hfresh by (intros Hx; apply Hlt in Hx; lia).
  unfold Append. rewrite bind_run. erewrite OpenCreate_ok by done. cbn [fst snd err_of report]. rewrite bind_ret.
  fold (line m). rewrite bind_run. erewrite dedup_check by done. cbn [fst snd].
  unfold append_spec, append_errors. cbn [repeats err_of report]. rewrite bind_ret.
  destruct (dedup && _); cbn [negb].
  { rewrite deferredClose_ok by (simpl; set_solver). eexists; split; [done|].
    simpl. rewrite handles_reclosed, app_nil_r by done. split_and!; [|done..].
    unfold opened, set_handles; simpl.
    eapply ready_files; [done..|apply keeps_dirs_refl|by rewrite set_files_id|lia|done]. }
  rewrite bind_run. erewrite size_check by done. cbn [fst snd err_of report]. rewrite bind_ret. fold (slen (line m)).
  unfold append_files. cbn [rotates]. destruct (maxFileBytes r <=? _).
  - rewrite bind_run.
    destruct (rotateAndReopen_ok (opened w) (d :: rest) (next_handle w)) as (f & E & Hdirs & Hf');
      [done..|simpl; set_solver|].
    rewrite E. cbn [fst snd].
    set (w2 := set_files f (set_handles _ _ (opened w))) in *.
    assert (handles w2 = handles w) as E2 by by apply handles_reclosed.
    assert (ready w2 ("" :: take (logFilesCount r - 1) (d :: rest))) as Hr2.
    { unfold w2, opened, set_handles, set_files; simpl. by eapply ready_files; [..|lia|]. }
    rewrite bind_assoc_run.
    destruct (write_then_close w2 "" (take (logFilesCount r - 1) (d :: rest)) (line m))
      as (w' & Ew & Hr' & Hh' & Hs' & _ & Hnot); [done|done|].
    change (next_handle (opened w)) with (next_handle w2). rewrite bind_run, Ew. rewrite E2 in Hh'.
    cbn [fst snd]. rewrite deferredClose_closed by done. eexists; split; [done|]. simpl.
    rewrite Hs'. split_and!; [|done..].
    destruct Hh as [Hl _]. rewrite <- Hl in Hr'. simpl in Hr'. rewrite Nat.sub_0_r in Hr'. by destruct Hr'; split.
  - destruct (write_then_close w d rest (line m)) as (w' & E & ? & ? & ? & _); [done..|].
    rewrite app_nil_r. eauto.
Qed.
(** [Append] to each message in turn. *)
Definition appends (dedup : bool) (ms : list string) : M unit := each (λ m, Append r m dedup) ms.

Definition run_files (dedup : bool) (ms : list string) (fs : list string) : list string :=
  foldl (λ fs m, append_spec (maxFileBytes r) dedup (line m) fs) fs ms.

Lemma appends_run dedup ms w fs : layout → ready w fs →
  ∃ w', appends dedup ms w = (tt, w') ∧ ready w' (run_files dedup ms fs) ∧ handles w' = handles w.
Proof.
  intros Hlay. revert w fs. induction ms as [|m ms IH]; intros w fs Hr; [by exists w|].
  destruct (Append_run w fs m dedup Hlay Hr) as (w1 & E & Hr1 & Hh1 & _).
  destruct (IH _ _ Hr1) as (w2 & E2 & Hr2 & Hh2). exists w2.
  unfold appends. simpl. rewrite bind_run, E. simpl. split; [exact E2|]. split; [exact Hr2|congruence].
Qed.

(** What an instance holds: it is below the limit, or it is one line. *)
Definition bounded (f : string) : Prop := slen f < maxFileBytes r ∨ ∃ m, f = line m.

Lemma append_spec_bounded dedup m fs : Forall bounded fs →
  Forall bounded (append_spec (maxFileBytes r) dedup (line m) fs).
Proof.
  intros Hf. unfold append_spec, append_files. destruct (_ && _); [done|].
  destruct fs as [|f rest]; [done|]. destruct (rotates _ _ _) eqn:E.
  - constructor; [by right; exists m|]. by apply Forall_take.
  - inversion_clear Hf. constructor; [|done]. left. cbn [rotates] in E.
    unfold slen in *. rewrite slength_app. apply Z.leb_gt in E. lia.
Qed.

(** Everything the files hold, oldest first. *)
Definition content (fs : list string) : string := sconcat (rev fs).

(** Without deduplication nothing but the oldest data is lost. *)
Lemma append_spec_kept m fs : fs ≠ [] →
  ∃ dropped, content fs +:+ m = dropped +:+ content (append_spec (maxFileBytes r) false m fs).
Proof.
  intros Hfs. unfold append_spec, append_files, content. simpl.
  destruct fs as [|f rest]; [done|]. destruct (rotates _ _ _).
  - exists (sconcat (rev (drop (length rest) (f :: rest)))).
    rewrite <- (take_drop (length rest) (f :: rest)) at 1. cbn [rev]. rewrite rev_app_distr. by snorm.
  - exists "". cbn [rev]. by snorm.
Qed.

Lemma append_spec_nonnil dedup m fs : fs ≠ [] → append_spec (maxFileBytes r) dedup m fs ≠ [].
Proof.
  intros Hfs. unfold append_spec, append_files. destruct fs as [|f rest]; [done|].
  destruct (_ && _); [done|]. by destruct (rotates _ _ _).
Qed.

Lemma run_files_kept ms fs : fs ≠ [] →
  ∃ dropped, content fs +:+ sconcat (map line ms) = dropped +:+ content (run_files false ms fs).
Proof.
  revert fs. induction ms as [|m ms IH]; intros fs Hfs.
  { exists "". simpl. by snorm. }
  destruct (append_spec_kept (line m) fs Hfs) as (d1 & E1).
  destruct (IH _ (append_spec_nonnil false (line m) fs Hfs)) as (d2 & E2).
  exists (d1 +:+ d2). cbn [map]. rewrite sconcat_cons, <- sapp_assoc, E1, sapp_assoc, E2. by snorm.
Qed.

Lemma run_files_bounded dedup ms fs : Forall bounded fs → Forall bounded (run_files dedup ms fs).
Proof.
  revert fs. induction ms as [|m ms IH]; intros fs Hf; [done|]. by apply IH, append_spec_bounded.
Qed.

(** *** The last line *)

Lemma lastLineLoop_line l k acc : Forall (λ c, is_newline c = false) l →
  (∀ x y, k = x :: y → is_newline x = true) → acc ++ l ≠ [] →
  lastLineLoop (l ++ k) acc = acc ++ l.
Proof.
  intros Hl Hk. revert acc. induction Hl as [|c l Hc Hl IH]; intros acc Hne; simpl.
  - rewrite app_nil_r in *. destruct k as [|x k]; [done|]. simpl. rewrite (Hk x k) by done. by destruct acc.
  - rewrite Hc, IH, <- app_assoc; [done|]. by destruct acc.
Qed.

Lemma bytes_app s t : String.list_ascii_of_string (s +:+ t)
  = String.list_ascii_of_string s ++ String.list_ascii_of_string t.
Proof. induction s as [|c s IH]; [done|]. rewrite sapp_cons. simpl. by rewrite IH. Qed.

(** The text has no line break. *)
Definition one_line (m : string) : bool :=
  forallb (λ c, negb (is_newline c)) (String.list_ascii_of_string m).

Lemma lastLine_line f m : one_line m = true → m ≠ "" → (f = "" ∨ ∃ g, f = g +:+ lf) →
  lastLine (f +:+ (m +:+ lf)) = m.
Proof.
  intros Hm Hne Hf. unfold lastLine. rewrite !bytes_app, !rev_app_distr. simpl.
  rewrite lastLineLoop_line; simpl.
  - by rewrite rev_involutive, String.string_of_list_ascii_of_string.
  - apply Forall_rev, Forall_forall. intros c Hc. unfold one_line in Hm.
    rewrite forallb_forall in Hm. apply negb_true_iff, Hm. by apply list_elem_of_In.
  - intros x y. destruct Hf as [->|[g ->]]; [done|]. rewrite bytes_app, rev_app_distr. by intros [= <- _].
  - destruct m; [done|]. simpl. by destruct (rev _).
Qed.

Definition ended (f : string) : Prop := f = "" ∨ ∃ g, f = g +:+ lf.

Lemma cleaned_line m : valid_utf8 m = true → cleaned (line m) = cleaned (TrimSpace m).
Proof.
  intros (l & Hl & ->)%valid_utf8_runes. unfold cleaned, line.
  destruct (TrimSpace_runes l Hl) as (a & l' & b & -> & ->).
  apply Forall_app in Hl as [_ [Hl' _]%Forall_app].
  change lf with (encode_rune 10). by rewrite TrimSpace_snoc.
Qed.

(** A one-line message is not written twice in a row. *)
Lemma append_spec_idem m fs : valid_utf8 m = true → one_line (TrimSpace m) = true → TrimSpace m ≠ "" →
  fs ≠ [] → (∀ f, head fs = Some f → ended f) →
  run_files true [m; m] fs = run_files true [m] fs.
Proof.
  intros Hm Hl Hne Hfs He. unfold run_files. simpl. set (fs' := append_spec _ true (line m) fs).
  assert (repeats (line m) fs' = true) as Hrep; [|unfold append_spec; by rewrite Hrep].
  unfold fs', append_spec. destruct (repeats (line m) fs) eqn:Hr; simpl; [done|].
  unfold append_files. destruct fs as [|f rest]; [done|]. clear Hr.
  destruct (rotates _ _ _); simpl; rewrite cleaned_line by done; apply String.eqb_eq; f_equal.
  - symmetry. apply (lastLine_line ""); auto.
  - symmetry. apply lastLine_line; auto. by apply He.
Qed.

End correctness.

(** ** [Init] *)

Section init.
Context `{Faultless} (r : RotatingLogger).

(** Instance [i] is there with content [g i], or is missing and [g i] is empty. *)
Definition initial (w : world) (g : nat → string) (i : nat) : Prop :=
  files w !! inst r i = Some (File (g i))
  ∨ files w !! inst r i = None ∧ g i = "" ∧ has_parent w (inst r i) = true.

Lemma Init_step w g i : initial w g i → (∀ h, h ∈ handles w → (h < next_handle w)%nat) →
  ∃ f, (f ← OpenCreate (instanceFileName r i);
        match f with Err e => mret (Some e) | Ok h => Close (instanceFileName r i) h end) w
     = (None, World (env w) f (console w) (stderr w) (handles w) (S (next_handle w)) (clock w))
    ∧ f = <[inst r i := File (g i)]> (files w) ∧ keeps_dirs (files w) f.
Proof.
  intros Hi Hlt. assert (next_handle w ∉ handles w) as Hf by (intros Hx; apply Hlt in Hx; lia).
  exists (<[inst r i := File (g i)]> (files w)). rewrite bind_run.
  assert (OpenCreate (instanceFileName r i) w
    = (Ok (next_handle w), opened (set_files (<[inst r i := File (g i)]> (files w)) w))) as ->.
  { unfold OpenCreate. rewrite bind_run. destruct Hi as [E|(E & -> & Hp)].
    - by erewrite write_existing by done.
    - by rewrite write_new. }
  cbn [fst snd]. rewrite Close_ok by (simpl; set_solver). simpl. rewrite handles_reclosed by done.
  split; [done|]. split; [done|]. apply keeps_dirs_insert. by destruct Hi as [->|(-> & _)].
Qed.

Lemma Init_loop k a w g : layout r → (1 ≤ a)%nat → (a + k ≤ S (logFilesCount r))%nat →
  (∀ i, (a ≤ i < a + k)%nat → initial w g i) → (∀ h, h ∈ handles w → (h < next_handle w)%nat) →
  ∃ f n, each_err (λ i, f ← OpenCreate (instanceFileName r i);
            match f with Err e => mret (Some e) | Ok h => Close (instanceFileName r i) h end) (seq a k) w
         = (None, World (env w) f (console w) (stderr w) (handles w) n (clock w))
    ∧ (next_handle w ≤ n)%nat ∧ keeps_dirs (files w) f
    ∧ (∀ i, (a ≤ i < a + k)%nat → f !! inst r i = Some (File (g i)))
    ∧ (∀ p, (∀ i, (a ≤ i < a + k)%nat → p ≠ inst r i) → f !! p = files w !! p).
Proof.
  intros [Hn Hinj]. revert a w. induction k as [|k IH]; intros a w Ha Hk Hi Hlt.
  { exists (files w), (next_handle w). split; [by destruct w|]. split; [lia|].
    split; [apply keeps_dirs_refl|]. split; [intros; lia|done]. }
  destruct (Init_step w g a) as (f1 & E1 & Ef1 & Hd1); [apply Hi; lia|done|].
  set (w1 := World _ f1 _ _ _ _ _) in E1.
  destruct (IH (S a) w1) as (f & n & E & Hle & Hd & Hin & Hout); [lia|lia| |intros h Hx; apply Hlt in Hx; simpl; lia|].
  { intros i Hr. destruct (Hi i) as [E|(E & Eg & Hp)]; [lia|left|right]; simpl.
    - rewrite Ef1, lookup_insert_ne; [done|]. intros E'. apply Hinj in E'; lia.
    - split; [|split; [done|by eapply has_parent_dirs]].
      rewrite Ef1, lookup_insert_ne; [done|]. intros E'. apply Hinj in E'; lia. }
  exists f, n. cbn [seq each_err]. rewrite check_run, E1. cbn [fst snd]. split; [exact E|]. simpl in *.
  split; [lia|]. split; [by eapply keeps_dirs_trans|]. split.
  - intros i Hr. destruct (decide (i = a)) as [->|]; [|apply Hin; lia].
    rewrite Hout; [by rewrite Ef1, lookup_insert_eq|]. intros j Hj E'. apply Hinj in E'; lia.
  - intros q Hq. rewrite Hout by (intros; apply Hq; lia).
    rewrite Ef1, lookup_insert_ne; [done|]. apply not_eq_sym, Hq. lia.
Qed.

Lemma Init_run w g : layout r → (∀ i, (1 ≤ i ≤ logFilesCount r)%nat → initial w g i) →
  (∀ h, h ∈ handles w → (h < next_handle w)%nat) → has_parent w (inst r 1) = true →
  ∃ w', Init r w = (None, w') ∧ ready r w' (map g (seq 1 (logFilesCount r))) ∧ handles w' = handles w.
Proof.
  intros Hlay Hi Hlt Hp.
  destruct (Init_loop (logFilesCount r) 1 w g) as (f & n & E & Hle & Hd & Hin & _); [done|lia|lia| |done|].
  { intros i Hr. apply Hi. lia. }
  eexists; split; [exact E|]. split; [|done]. split; simpl.
  - split; [by rewrite length_map, length_seq|]. intros i x Hx.
    rewrite list_lookup_fmap in Hx. apply fmap_Some in Hx as (j & Hj & ->).
    apply lookup_seq in Hj as [-> Hj]. apply Hin. lia.
  - by eapply has_parent_dirs.
  - intros h Hx. apply Hlt in Hx. lia.
Qed.

End init.
(** ** The properties *)

(** A run from [Init] on: what the files hold in the end is a suffix of
    everything ever logged, and the limit holds in each file. *)
Lemma history_run `{Faultless} r w g ms : layout r → (∀ i, (1 ≤ i ≤ logFilesCount r)%nat → initial r w g i) →
  (∀ h, h ∈ handles w → (h < next_handle w)%nat) → has_parent w (inst r 1) = true →
  ∃ w' fs dropped, (e ← Init r; match e with Some e => mret (Some e) | None => _ ← appends r false ms; mret None end) w
      = (None, w')
    ∧ ready r w' fs ∧ handles w' = handles w
    ∧ content (map g (seq 1 (logFilesCount r))) +:+ sconcat (map line ms) = dropped +:+ content fs
    ∧ (Forall (bounded r) (map g (seq 1 (logFilesCount r))) → Forall (bounded r) fs).
Proof.
  intros Hlay Hi Hlt Hp. destruct (Init_run r w g) as (w1 & E1 & Hr1 & Hh1); [done..|].
  destruct (appends_run r false ms w1 _ Hlay Hr1) as (w2 & E2 & Hr2 & Hh2).
  set (fs := map g _) in *.
  destruct (run_files_kept r ms fs) as (d & Ed).
  { destruct Hlay as [Hn _]. unfold fs. destruct (logFilesCount r); [lia|done]. }
  exists w2, (run_files r false ms fs), d. rewrite bind_run, E1. cbn [fst snd].
  rewrite bind_run, E2. cbn [fst snd]. split_and!; [done|done|congruence|done|].
  apply run_files_bounded.
Qed.

Lemma layout_check r : (1 <=? logFilesCount r)%nat = true →
  bool_decide (NoDup (map (inst r) (seq 1 (logFilesCount r)))) = true → layout r.
Proof.
  intros Hn%Nat.leb_le Hd%bool_decide_eq_true. split; [done|]. intros i j Hi Hj E.
  assert (∀ i, (1 ≤ i ≤ logFilesCount r)%nat →
    map (inst r) (seq 1 (logFilesCount r)) !! (i - 1)%nat = Some (inst r i)) as Hs.
  { intros x Hx. rewrite list_lookup_fmap, lookup_seq_lt by lia. simpl. by replace (S (x - 1)) with x by lia. }
  apply Hs in Hi as Ei. apply Hs in Hj as Ej. rewrite E in Ei.
  pose proof (NoDup_lookup _ _ _ _ Hd Ei Ej). lia.
Qed.

(** A logger of three files of at most 16 bytes, in [/logs]. *)
Definition small : RotatingLogger := NewRotatingLogger "/logs" "audit%02d.json" 16 3.

Definition small_world (fs : list string) : world :=
  world_of [] (("/logs", Directory) :: imap (λ i f, (instanceFileName small (S i), File f)) fs).

Lemma small_layout : layout small.
Proof. apply layout_check; vm_compute; reflexivity. Defined.

Lemma small_ready f1 f2 f3 : ready small (small_world [f1; f2; f3]) [f1; f2; f3].
Proof.
  split; [split|..]; [done| |done|intros h Hh; set_solver].
  intros [|[|[|i]]] f [= <-]; reflexivity.
Defined.

(** C6. Without faults an append puts the message, as one line, at the end of
    the newest file, or rotates first when that file would reach the limit, or does
    nothing when asked to skip a repeated line; it returns, leaves no file handle
    open, and each rotation puts one message on the error stream. *)
Theorem append_refines `{Faultless} r w fs m dedup : layout r → ready r w fs →
  ∃ w', Append r m dedup w = (tt, w')
    ∧ ready r w' (append_spec (maxFileBytes r) dedup (line m) fs)
    ∧ handles w' = handles w
    ∧ stderr w' = stderr w ++ append_errors (instanceFileName r 1) (maxFileBytes r) dedup (line m) fs.
Proof. apply Append_run. Qed.

(** Rotation on full files, seen on the three files. *)
Lemma append_refines_witness :
  ∃ w', Append small "  new line " true (small_world ["0123456789"; "b"; "c"]) = (tt, w')
    ∧ ready small w' ["new line" +:+ lf; "0123456789"; "b"]
    ∧ stderr w' = ["Error: close /logs/audit01.json: file already closed, Failed to close log file: /logs/audit01.json" +:+ lf].
Proof.
  destruct (append_refines small (small_world ["0123456789"; "b"; "c"]) ["0123456789"; "b"; "c"] "  new line " true)
    as (w' & E & Hr & _ & Hs); [exact small_layout|apply small_ready|].
  exists w'. split; [exact E|]. split; [exact Hr|exact Hs].
Defined.

(** C16. From [Init] on, whether the files were there or not, any sequence of
    messages leaves in the files, oldest first, a suffix of what they held followed
    by every message in order: only the oldest data is lost, and no file reaches the
    limit unless it is a single line. *)
Theorem log_history `{Faultless} r w g ms : layout r →
  (∀ i, (1 ≤ i ≤ logFilesCount r)%nat → initial r w g i) →
  (∀ h, h ∈ handles w → (h < next_handle w)%nat) → has_parent w (inst r 1) = true →
  ∃ w' fs dropped, (e ← Init r; match e with Some e => mret (Some e) | None => _ ← appends r false ms; mret None end) w
      = (None, w')
    ∧ ready r w' fs ∧ handles w' = handles w
    ∧ content (map g (seq 1 (logFilesCount r))) +:+ sconcat (map line ms) = dropped +:+ content fs
    ∧ (Forall (bounded r) (map g (seq 1 (logFilesCount r))) → Forall (bounded r) fs).
Proof. apply history_run. Qed.

Lemma log_history_witness :
  ∃ w' fs dropped, (e ← Init small;
      match e with Some e => mret (Some e) | None => _ ← appends small false ["one"; "two"]; mret None end)
      (small_world []) = (None, w')
    ∧ ready small w' fs ∧ handles w' = ∅
    ∧ "" +:+ ("one" +:+ lf +:+ "two" +:+ lf) = dropped +:+ content fs.
Proof.
  destruct (log_history small (small_world []) (λ _, "") ["one"; "two"]) as (w' & fs & d & E & Hr & Hh & Ed & _).
  - exact small_layout.
  - intros i Hi. right. simpl in Hi.
    assert (i = 1 ∨ i = 2 ∨ i = 3)%nat as [->|[->| ->]] by lia; vm_compute; auto.
  - intros h Hx. set_solver.
  - reflexivity.
  - exists w', fs, d. auto.
Defined.

(** With deduplication a one-line message logged twice in a row is in the
    files once. *)
Lemma append_once `{Faultless} r w fs m : layout r → ready r w fs →
  valid_utf8 m = true → one_line (TrimSpace m) = true → TrimSpace m ≠ "" →
  (∀ f, head fs = Some f → ended f) →
  ∃ w1 w2, Append r m true w = (tt, w1) ∧ Append r m true w1 = (tt, w2)
    ∧ ready r w1 (append_spec (maxFileBytes r) true (line m) fs)
    ∧ ready r w2 (append_spec (maxFileBytes r) true (line m) fs).
Proof.
  intros Hlay Hr Hm Hl Hne He.
  destruct (Append_run r w fs m true Hlay Hr) as (w1 & E1 & Hr1 & _).
  destruct (Append_run r w1 _ m true Hlay Hr1) as (w2 & E2 & Hr2 & _).
  exists w1, w2. split_and!; [done..|].
  assert (fs ≠ []) as Hfs by (intros ->; destruct (ready_holds _ _ _ Hr), Hlay; simpl in *; lia).
  pose proof (append_spec_idem r m fs Hm Hl Hne Hfs He) as E. unfold run_files in E. simpl in E.
  by rewrite <- E at 1.
Qed.

Lemma append_once_witness :
  ∃ w1 w2, Append small " hello" true (small_world ["one" +:+ lf; ""; ""]) = (tt, w1)
    ∧ Append small " hello" true w1 = (tt, w2)
    ∧ ready small w1 ["one" +:+ lf +:+ "hello" +:+ lf; ""; ""]
    ∧ ready small w2 ["one" +:+ lf +:+ "hello" +:+ lf; ""; ""].
Proof.
  apply (append_once small _ ["one" +:+ lf; ""; ""]).
  - exact small_layout.
  - apply small_ready.
  - reflexivity.
  - reflexivity.
  - discriminate.
  - intros f [= <-]. right. by exists "one".
Defined.

End LogRotation.
