(* ===== verification/MqVersion.v ===== *)
(** * Queue manager versions (internal/mqversion/mqversion.go)

    Parsing, printing and comparing the four-part VRMF version of the product.
    A Go [[4]int] is a list of four [Z]; [Compare] runs the [dspmqver] command,
    which is a parameter ([Os.exec]). *)
From S2P Require Import Prelude Utf8 GoStrings Paths Os.

Open Scope Z_scope.

Module MqVersion.

Definition vrmf : Type := list Z.

(** [fmt.Sprintf("%d.%d.%d.%d", v[0], v[1], v[2], v[3])] *)
Definition vrmf_String (v : vrmf) : string := Join (map Itoa v) ".".

(** [for idx := 0; idx < 4; idx++] *)
Fixpoint compare (v to : vrmf) : Z :=
  match v, to with
  | x :: v, y :: to => if x <? y then -1 else if y <? x then 1 else compare v to
  | _, _ => 0
  end.

Definition vmrfPartNames : list string := ["version"; "release"; "minor"; "fix"].

(** [for idx, value := range versionParts]; [parsed] is the array. *)
Fixpoint parseLoop (idx : nat) (parts : list string) (parsed : list Z) : res (list Z) :=
  match parts with
  | [] => Ok parsed
  | value :: parts =>
      let partName := default "" (vmrfPartNames !! idx) in
      if value =s "" then Err (Errorf ("empty " +:+ partName +:+ " found in VRMF")) else
      match Atoi value with
      | None => Err (Errorf ("non-numeric " +:+ partName +:+ " found in VRMF"))
      | Some val =>
          if val <? 0 then Err (Errorf ("negative " +:+ partName +:+ " found in VRMF")) else
          if (idx =? 0)%nat && (val =? 0) then Err (Errorf "zero value for version not allowed") else
          parseLoop (S idx) parts (<[idx := val]> parsed)
      end
  end.

Definition parseVRMF (vrmfString : string) : res vrmf :=
  let versionParts := Split vrmfString "." in
  if negb (length versionParts =? 4)%nat
  then Err (Errorf ("incorrect number of parts to version string: expected 4, got "
                    +:+ Itoa (Z.of_nat (length versionParts))))
  else parseLoop 0 versionParts [0; 0; 0; 0].

Section command.
Context `{OS}.

Definition Get : M (res string) :=
  '(out, _, err) ← Run "dspmqver" ["-b"; "-f"; "2"];
  mret (match err with
        | Some e => Err (Wrap "Error Getting MQ version" e)
        | None => Ok (TrimSpace out)
        end).

Definition Compare (checkVersion : string) : M (res Z) :=
  currentVersion ← Get;
  mret (currentVersion ← currentVersion;
        currentVRMF ← parseVRMF currentVersion;
        match parseVRMF checkVersion with
        | Err e => Err (Wrap "failed to parse compare version" e)
        | Ok compareVRMF => Ok (compare currentVRMF compareVRMF)
        end).
End command.

(** ** Specification *)

(** A version that can be parsed: four components of an [int], none negative, the
    first positive. *)
Definition part (x : Z) : Prop := 0 <= x <= max_int64.
Definition wf (v : vrmf) : Prop := length v = 4%nat ∧ Forall part v ∧ 0 < default 0 (head v).

(** A version as one number, so that comparison is the order of numbers. *)
Definition base : Z := max_int64 + 1.
Definition number (v : vrmf) : Z := foldl (λ n x, n * base + x) 0 v.

(** ** Comparison *)

Lemma number_acc n v : foldl (λ n x, n * base + x) n v = n * base ^ Z.of_nat (length v) + number v.
Proof.
  unfold number. revert n. induction v as [|x v IH]; intros n; cbn [foldl length].
  { change (Z.of_nat 0) with 0. rewrite Z.pow_0_r. lia. }
  rewrite IH, (IH (0 * base + x)), Nat2Z.inj_succ, Z.pow_succ_r by lia. lia.
Qed.

Lemma number_cons x v : number (x :: v) = x * base ^ Z.of_nat (length v) + number v.
Proof. unfold number at 1. simpl. by rewrite number_acc. Qed.

Lemma number_range v : Forall part v → 0 <= number v < base ^ Z.of_nat (length v).
Proof.
  induction 1 as [|x v Hx _ IH]; [done|]. rewrite number_cons. cbn [length].
  rewrite Nat2Z.inj_succ, Z.pow_succ_r by lia. unfold part, base in *. nia.
Qed.

Lemma compare_number v w : length v = length w → Forall part v → Forall part w →
  compare v w = Z.sgn (number v - number w).
Proof.
  intros Hl Hv. revert w Hl. induction Hv as [|x v Hx Hv IH]; intros [|y w] Hl Hw; try done.
  injection Hl as Hl. apply Forall_cons in Hw as [Hy Hw]. rewrite !number_cons. simpl. rewrite <- Hl.
  pose proof (number_range v Hv). pose proof (number_range w Hw) as Hw'. rewrite <- Hl in Hw'.
  assert (0 < base ^ Z.of_nat (length v)) by (by apply Z.pow_pos_nonneg; [|lia]).
  destruct (Z.ltb_spec x y); [symmetry; apply Z.sgn_neg_iff; nia|].
  destruct (Z.ltb_spec y x); [symmetry; apply Z.sgn_pos_iff; nia|].
  assert (x = y) as -> by lia. rewrite IH by done. f_equal. lia.
Qed.

(** ** Parsing *)

Lemma parseLoop_ok idx parts parsed v : parseLoop idx parts parsed = Ok v →
  (idx + length parts = length parsed)%nat →
  ∃ vs, v = take idx parsed ++ vs ∧ Forall part vs
    ∧ Forall2 (λ s x, Atoi s = Some x) parts vs ∧ (idx = 0%nat → parts ≠ [] → 0 < default 0 (head vs)).
Proof.
  revert idx parsed. induction parts as [|s parts IH]; intros idx parsed; simpl.
  { intros [= <-] Hl. exists []. rewrite take_ge, app_nil_r by lia. done. }
  destruct (s =s ""); [done|]. destruct (Atoi s) as [z|] eqn:Hs; [|done].
  destruct (Z.ltb_spec z 0); [done|]. destruct (_ && _) eqn:Hz; [done|]. intros E Hl.
  destruct (IH _ _ E) as (vs & -> & Hp & Ha & _); [rewrite length_insert; lia|].
  exists (z :: vs). rewrite (take_S_r _ _ z), take_insert_ge, <- app_assoc
    by (try apply list_lookup_insert_eq; lia).
  split_and!; [done|constructor; [|done]|by constructor|].
  - split; [done|]. by apply Atoi_range in Hs as [_ ?].
  - intros -> _. simpl in *. apply Z.eqb_neq in Hz. lia.
Qed.

Lemma parseLoop_complete idx vs parsed : Forall part vs → (idx + length vs = length parsed)%nat →
  (idx = 0%nat → 0 < default 0 (head vs)) →
  parseLoop idx (map Itoa vs) parsed = Ok (take idx parsed ++ vs).
Proof.
  intros Hp. revert idx parsed. induction Hp as [|x vs Hx _ IH]; intros idx parsed Hl H0.
  { simpl in *. rewrite take_ge, app_nil_r by lia. done. }
  cbn [map parseLoop]. destruct (String.eqb_spec (Itoa x) "") as [E|_]; [by apply Itoa_ne in E|].
  rewrite Atoi_Itoa by (unfold part, min_int64 in *; lia).
  destruct (Z.ltb_spec x 0); [unfold part in *; lia|].
  replace ((idx =? 0)%nat && (x =? 0)) with false.
  2: { symmetry. apply andb_false_iff. destruct idx; [right|by left]. specialize (H0 eq_refl). simpl in H0.
       apply Z.eqb_neq. lia. }
  rewrite IH by (rewrite ?length_insert; simpl in *; lia).
  rewrite (take_S_r _ _ x), take_insert_ge, <- app_assoc by (try apply list_lookup_insert_eq; simpl in *; lia).
  done.
Qed.

Lemma parseVRMF_String v : wf v → parseVRMF (vrmf_String v) = Ok v.
Proof.
  intros (Hl & Hp & H0). unfold parseVRMF, vrmf_String.
  rewrite (Split_Join _ ".") by (first [by destruct v | apply Forall_fmap; eapply Forall_impl; [done|];
    intros x Hx; apply Itoa_no_byte; [apply Hx|done]]).
  rewrite length_map, Hl. simpl negb. cbn iota. rewrite parseLoop_complete; [done|done|by rewrite Hl|done].
Qed.

Lemma parseVRMF_wf s v : parseVRMF s = Ok v →
  wf v ∧ Forall2 (λ s x, Atoi s = Some x) (Split s ".") v.
Proof.
  unfold parseVRMF. destruct (Nat.eqb_spec (length (Split s ".")) 4) as [Hl|]; [|done]. simpl.
  intros E. destruct (parseLoop_ok _ _ _ _ E) as (vs & -> & Hp & Ha & H0); [by rewrite Hl|].
  simpl. split; [|done]. split; [by rewrite <- (Forall2_length _ _ _ Ha)|].
  split; [done|]. apply H0; [done|]. apply Split_ne.
Qed.

Lemma number_inj v w : wf v → wf w → number v = number w → v = w.
Proof.
  intros (Hl & Hv & _) (Hl' & Hw & _). rewrite <- Hl in Hl'. symmetry in Hl'. clear Hl.
  revert w Hl' Hw. induction Hv as [|x v Hx Hv IH]; intros [|y w] Hl Hw; try done.
  injection Hl as Hl. apply Forall_cons in Hw as [Hy Hw]. rewrite !number_cons, <- Hl.
  pose proof (number_range v Hv). pose proof (number_range w Hw) as Hw'. rewrite <- Hl in Hw'.
  intros E. assert (x = y) as -> by nia. f_equal. apply IH; [done..|lia].
Qed.

(** The line [dspmqver] prints is trimmed to the version. *)
Lemma TrimSpace_version v : wf v → TrimSpace (vrmf_String v +:+ s1 "010") = vrmf_String v.
Proof.
  intros (Hl & Hp & _). apply TrimSpace_line. unfold vrmf_String.
  assert (∀ x, part x → all_bytes (λ c, is_ascii c && negb (IsSpace (byteZ c))) (Itoa x) = true) as Hx.
  { intros x Hx. eapply all_bytes_impl; [|apply Itoa_digits, Hx]. unfold is_digit, is_ascii, IsSpace.
    intros c. pose proof (byteZ_range c). intros Hd. zbool; try lia; try (by apply Z.leb_gt in Hd; lia). }
  clear Hl. induction Hp as [|x v Hpx Hp IH]; [done|]. destruct v as [|y v]; [by apply Hx|].
  cbn [map] in *. rewrite Join_cons, !all_bytes_app, IH, Hx by done. done.
Qed.

(** ** The properties *)



(** C35. Parsed versions are ordered by [compare] as the numbers they write in
    base 2^63: it is a total order, and only equal versions compare as equal. *)
Theorem version_order s t v w : parseVRMF s = Ok v → parseVRMF t = Ok w →
  compare v w = Z.sgn (number v - number w) ∧ compare w v = - compare v w ∧ (compare v w = 0 ↔ v = w).
Proof.
  intros [Hv _]%parseVRMF_wf [Hw _]%parseVRMF_wf. pose proof Hv as (Hl & Hp & _). pose proof Hw as (Hl' & Hp' & _).
  rewrite !compare_number by congruence. split; [done|]. split.
  - rewrite <- Z.sgn_opp. f_equal. lia.
  - rewrite Z.sgn_null_iff, Z.sub_move_0_r. split; [by apply number_inj|by intros ->].
Qed.

Lemma version_order_witness :
  compare [9; 4; 0; 10] [9; 10; 0; 0] = -1 ∧ compare [9; 10; 0; 0] [9; 4; 0; 10] = 1.
Proof.
  destruct (version_order "9.4.0.10" "9.10.0.0" [9; 4; 0; 10] [9; 10; 0; 0]) as (E & E' & _); [reflexivity..|].
  split; [exact E|]. rewrite E', E. reflexivity.
Defined.

(** When [dspmqver] prints a version on a line, [Compare] says whether it is
    before, at or after the version asked for; a version asked for that cannot be
    parsed is an error. *)
Lemma compare_installed `{OS} v s w w' : wf v →
  exec "dspmqver" ["-b"; "-f"; "2"] w = ((vrmf_String v +:+ s1 "010", 0, None), w') →
  Compare s w = (match parseVRMF s with
                 | Ok x => Ok (Z.sgn (number v - number x))
                 | Err e => Err (Wrap "failed to parse compare version" e)
                 end, w').
Proof.
  intros Hv Hx. unfold Compare, Get. rewrite !bind_run, Run_run, Hx. cbn. rewrite TrimSpace_version, parseVRMF_String by done.
  simpl. destruct (parseVRMF s) as [x|e] eqn:E; [|done]. apply parseVRMF_wf in E as [(Hl & Hp & _) _].
  destruct Hv as (Hl' & Hp' & _). by rewrite compare_number by congruence.
Qed.

Definition installed : OS := {|
  fault _ _ := None;
  exec name _ w := ((if name =s "dspmqver" then "9.4.1.0" +:+ s1 "010" else "", 0, None), w);
  LookPath name := name;
  hostname := Ok "mq0";
  getwd := "/" |}.

Lemma compare_installed_witness : Compare (H := installed) "9.4.0.10" (world_of [] []) = (Ok 1, world_of [] []).
Proof.
  apply (compare_installed (H := installed) [9; 4; 1; 0]); [|reflexivity].
  repeat split; try (repeat constructor; unfold part; vm_compute; discriminate).
Defined.

End MqVersion.
