(* ===== verification/MqIni.v ===== *)
(** * Queue manager names and configuration (pkg/name/name.go, pkg/mqini/mqini.go)

    The queue manager's name from the environment or the host name, and its
    directories from the stanza [dspmqinf] prints.  [None] is a run-time panic. *)
From S2P Require Import Prelude Utf8 GoStrings Bufio Paths Os.

Open Scope Z_scope.

Module Name.

Definition name_byte (c : ascii) : bool :=
  let z := byteZ c in
  ((97 <=? z) && (z <=? 122)) || ((65 <=? z) && (z <=? 90)) || ((48 <=? z) && (z <=? 57))
  || (c =b ".") || (c =b "_") || (c =b "%") || (c =b "/").

(** [regexp.MustCompile("[^a-zA-Z0-9._%/]").ReplaceAllString(name, "")]: a byte
    above 127 is part of a rune, or of a broken one, that the class excludes. *)
Fixpoint sanitizeQueueManagerName (name : string) : string :=
  match name with
  | "" => ""
  | String c name =>
      if name_byte c then String c (sanitizeQueueManagerName name) else sanitizeQueueManagerName name
  end.

Section name.
Context `{OS}.

Definition GetQueueManagerName : M (res string) :=
  name ← LookupEnv "MQ_QMGR_NAME";
  mret (match name with
        | Some (String c n) => Ok (String c n)
        | _ => name ← hostname; Ok (sanitizeQueueManagerName name)
        end).
End name.

Lemma sanitize_valid n : all_bytes name_byte (sanitizeQueueManagerName n) = true.
Proof. induction n as [|c n IH]; simpl; [done|]. destruct (name_byte c) eqn:E; simpl; [by rewrite E|done]. Qed.

Lemma sanitize_id n : all_bytes name_byte n = true → sanitizeQueueManagerName n = n.
Proof. induction n as [|c n IH]; simpl; [done|]. intros [-> Hn]%andb_true_iff. by rewrite IH. Qed.

(** The name is the environment's when that is set and not empty; otherwise
    it is the host name without its invalid characters: it has only valid ones, and a
    valid host name is kept. *)
Lemma queue_manager_name `{OS} w : ∃ r, GetQueueManagerName w = (r, w) ∧
  match env w !! "MQ_QMGR_NAME", hostname with
  | Some (String c n), _ => r = Ok (String c n)
  | _, Err e => r = Err e
  | _, Ok h => ∃ n, r = Ok n ∧ all_bytes name_byte n = true ∧ (all_bytes name_byte h = true → n = h)
  end.
Proof.
  unfold GetQueueManagerName, LookupEnv, gets. rewrite bind_run. cbn [fst snd]. eexists; split; [done|].
  destruct (env w !! _) as [[|c n]|]; [|done|]; destruct hostname as [h|e]; try done;
    exists (sanitizeQueueManagerName h); split_and!; auto using sanitize_valid, sanitize_id.
Qed.

End Name.

Module MqIni.

Record QueueManager := {
  Name : string; Prefix : string; Directory : string; DataPath : string; InstallationName : string }.

Definition empty : QueueManager := Build_QueueManager "" "" "" "" "".

(** One line of the loop: a key this function knows must have a value. *)
Definition stanza_line (qm : QueueManager) (l : string) : option QueueManager :=
  let t := Split (TrimSpace l) "=" in
  let 'Build_QueueManager n p d dp i := qm in
  let key := default "" (t !! 0%nat) in
  if key =s "Name" then v ← t !! 1%nat; Some (Build_QueueManager v p d dp i)
  else if key =s "Prefix" then v ← t !! 1%nat; Some (Build_QueueManager n v d dp i)
  else if key =s "Directory" then v ← t !! 1%nat; Some (Build_QueueManager n p v dp i)
  else if key =s "DataPath" then v ← t !! 1%nat; Some (Build_QueueManager n p d v i)
  else if key =s "InstallationName" then v ← t !! 1%nat; Some (Build_QueueManager n p d dp v)
  else Some qm.

Definition stanza_lines (ls : list string) (qm : QueueManager) : option QueueManager :=
  foldl (λ o l, qm ← o; stanza_line qm l) (Some qm) ls.

Definition getQueueManagerFromStanza (stanza : string) : option (QueueManager * bool) :=
  let '(ls, tooLong) := ScanLines stanza in
  qm ← stanza_lines ls empty; Some (qm, tooLong).

(** [if err != nil] of the scanner's error, which comes with the value read so far *)
Definition stanza_result (r : QueueManager * bool) : res QueueManager :=
  if r.2 then Err (Errorf "bufio.Scanner: token too long") else Ok r.1.

Section operations.
Context `{OS}.

Definition GetQueueManager (name : string) : M (option (res QueueManager)) :=
  f ← Stat "/var/mqm/mqs.ini";
  match f with
  | Err _ => mret (Some (Err (Errorf "dspmqinf should not be run before crtmqdir")))
  | Ok _ =>
      '(out, _, err) ← Run "dspmqinf" ["-o"; "stanza"; name];
      mret (match err with
            | Some e => Some (Err e)
            | None => stanza_result <$> getQueueManagerFromStanza out
            end)
  end.
End operations.

Definition GetDataDirectory (qm : QueueManager) : string :=
  if negb (DataPath qm =s "") then DataPath qm
  else CleanPath [Prefix qm; "qmgrs"; Directory qm].

Definition GetErrorLogDirectory (qm : QueueManager) : string :=
  CleanPath [GetDataDirectory qm; "errors"].

(** ** Stanzas as lists of keys and values *)

Definition value_byte (c : ascii) : bool := solid c && negb (c =b "=").

(** A key and value [dspmqinf] can print: no white space and no [=], and shorter
    than the scanner's limit. *)
Definition printable (kv : string * string) : bool :=
  all_bytes value_byte kv.1 && all_bytes value_byte kv.2
  && (Z.of_nat (String.length kv.1 + String.length kv.2) <? MaxScanTokenSize - 4).

Definition stanza_text (kvs : list (string * string)) : string :=
  Join ("QueueManager:" :: map (λ kv, "   " +:+ kv.1 +:+ "=" +:+ kv.2) kvs) (s1 "010").

(** The value a key has in the end. *)
Definition value (k : string) (kvs : list (string * string)) : string :=
  foldl (λ v kv, if kv.1 =s k then kv.2 else v) "" kvs.

Lemma solid_no_byte c s : solid c = false → all_bytes solid s = true → no_byte c s = true.
Proof.
  intros Hc Hs. rewrite no_byte_all. eapply all_bytes_impl; [|done].
  intros d Hd. apply negb_true_iff. destruct (Ascii.eqb_spec d c); congruence.
Qed.

Lemma value_solid s : all_bytes value_byte s = true → all_bytes solid s = true ∧ no_byte "=" s = true.
Proof.
  intros Hs. split; [|rewrite no_byte_all]; (eapply all_bytes_impl; [|done]); by intros c [? ?]%andb_true_iff.
Qed.

Lemma stanza_line_kv qm k v : all_bytes value_byte k = true → all_bytes value_byte v = true →
  ∃ qm', stanza_line qm ("   " +:+ k +:+ "=" +:+ v) = Some qm'
    ∧ Name qm' = (if k =s "Name" then v else Name qm)
    ∧ Prefix qm' = (if k =s "Prefix" then v else Prefix qm)
    ∧ Directory qm' = (if k =s "Directory" then v else Directory qm)
    ∧ DataPath qm' = (if k =s "DataPath" then v else DataPath qm)
    ∧ InstallationName qm' = (if k =s "InstallationName" then v else InstallationName qm).
Proof.
  intros [Hk Hk']%value_solid [Hv Hv']%value_solid. unfold stanza_line.
  assert (TrimSpace ("   " +:+ k +:+ "=" +:+ v) = k +:+ String "=" v) as ->.
  { rewrite <- (sapp_nil_r (k +:+ "=" +:+ v)), TrimSpace_pad; [reflexivity|reflexivity| |reflexivity].
    by rewrite !all_bytes_app, Hk, Hv. }
  rewrite Split_app by done. rewrite Split_no_byte by done. destruct qm as [n p d dp i].
  change (default "" ([k; v] !! 0%nat)) with k. change ([k; v] !! 1%nat) with (Some v).
  cbn [mbind option_bind Name Prefix Directory DataPath InstallationName].
  repeat match goal with |- context [k =s ?x] =>
    destruct (String.eqb_spec k x); [subst k; eexists; split; [done|]; repeat split|] end.
  eexists; split; [done|]. repeat split.
Qed.

Lemma stanza_lines_kv kvs qm : forallb printable kvs = true →
  ∃ qm', stanza_lines (map (λ kv, "   " +:+ kv.1 +:+ "=" +:+ kv.2) kvs) qm = Some qm'
    ∧ Name qm' = foldl (λ v kv, if kv.1 =s "Name" then kv.2 else v) (Name qm) kvs
    ∧ Prefix qm' = foldl (λ v kv, if kv.1 =s "Prefix" then kv.2 else v) (Prefix qm) kvs
    ∧ Directory qm' = foldl (λ v kv, if kv.1 =s "Directory" then kv.2 else v) (Directory qm) kvs
    ∧ DataPath qm' = foldl (λ v kv, if kv.1 =s "DataPath" then kv.2 else v) (DataPath qm) kvs
    ∧ InstallationName qm'
      = foldl (λ v kv, if kv.1 =s "InstallationName" then kv.2 else v) (InstallationName qm) kvs.
Proof.
  revert qm. induction kvs as [|[k v] kvs IH]; intros qm; [by exists qm|].
  cbn [forallb]. intros [[[Hk Hv]%andb_true_iff _]%andb_true_iff Hkvs]%andb_true_iff.
  cbn [foldl fst snd]. destruct (stanza_line_kv qm k v Hk Hv) as (qm1 & E & <- & <- & <- & <- & <-).
  destruct (IH qm1 Hkvs) as (qm2 & E2 & Hrest). exists qm2. split; [|exact Hrest].
  unfold stanza_lines in *. cbn [map foldl fst snd mbind option_bind]. rewrite E. exact E2.
Qed.

Lemma stanza_text_lines kvs : forallb printable kvs = true →
  ScanLines (stanza_text kvs)
  = ("QueueManager:" :: map (λ kv, "   " +:+ kv.1 +:+ "=" +:+ kv.2) kvs, false).
Proof.
  intros Hkvs. apply ScanLines_Join; [|done|].
  - constructor; [done|]. apply Forall_fmap, Forall_forall. intros [k v] Hin.
    rewrite forallb_forall in Hkvs. apply list_elem_of_In, Hkvs in Hin.
    apply andb_true_iff in Hin as [[Hk Hv]%andb_true_iff Hl%Z.ltb_lt]. cbn [fst snd] in *.
    apply value_solid in Hk as [Hk _], Hv as [Hv _]. split_and!.
    + rewrite !no_byte_all, !all_bytes_app, <- !no_byte_all, (solid_no_byte _ k), (solid_no_byte _ v) by done. done.
    + apply HasSuffix_no_byte.
      rewrite !no_byte_all, !all_bytes_app, <- !no_byte_all, (solid_no_byte _ k), (solid_no_byte _ v) by done. done.
    + rewrite !slength_app. simpl. lia.
  - rewrite last_cons, fmap_last. destruct (list.last kvs) as [[k v]|]; discriminate.
Qed.

(** ** The properties *)

(** Reading back a stanza printed as lines [   key=value] gives each field
    the last value its key has, and ignores every other key. *)
Lemma stanza_roundtrip kvs : forallb printable kvs = true →
  ∃ qm, getQueueManagerFromStanza (stanza_text kvs) = Some (qm, false)
    ∧ Name qm = value "Name" kvs ∧ Prefix qm = value "Prefix" kvs ∧ Directory qm = value "Directory" kvs
    ∧ DataPath qm = value "DataPath" kvs ∧ InstallationName qm = value "InstallationName" kvs.
Proof.
  intros Hk. destruct (stanza_lines_kv kvs empty Hk) as (qm & E & Hqm). exists qm. split; [|exact Hqm].
  unfold getQueueManagerFromStanza. rewrite stanza_text_lines by done.
  unfold stanza_lines in *. cbn [foldl]. change (Some empty ≫= _) with (Some empty). by rewrite E.
Qed.

Example stanza_read_back :
  ∃ qm, getQueueManagerFromStanza (stanza_text [("Name", "qm1"); ("Directory", "QM1"); ("Prefix", "/var/mqm");
    ("InstallationName", "Installation1")]) = Some (qm, false) ∧ Directory qm = "QM1" ∧ DataPath qm = "".
Proof.
  destruct (stanza_roundtrip [("Name", "qm1"); ("Directory", "QM1"); ("Prefix", "/var/mqm");
    ("InstallationName", "Installation1")]) as (qm & E & _ & _ & Hd & Hp & _); [reflexivity|]. eauto.
Qed.

(** A queue manager without a data path of its own has its error logs below
    its prefix: no part of its name leads out of it. *)
Lemma error_logs_confined qm : DataPath qm = "" → IsAbs (Prefix qm) = true →
  ∃ below, GetErrorLogDirectory qm = abs_path (norm (Prefix qm) ++ ["qmgrs"] ++ below ++ ["errors"])
    ∧ Forall (λ c, plain c = true) (norm (Prefix qm) ++ below).
Proof.
  intros Hd Hp. unfold GetErrorLogDirectory, GetDataDirectory. rewrite Hd. cbn [String.eqb negb].
  exists (norm (Directory qm)). rewrite (CleanPath_abs (Prefix qm)) by done.
  set (cs := norm (Prefix qm) ++ _). assert (Forall (λ c, plain c = true) cs) as Hcs.
  { apply Forall_app; split; [apply norm_plain|apply CleanPath_plain]. }
  rewrite CleanPath_abs by apply IsAbs_abs. rewrite norm_abs by done. split.
  - unfold cs. simpl. by rewrite app_nil_r, <- !app_assoc.
  - apply Forall_app; split; apply norm_plain.
Qed.

Lemma error_logs_confined_witness :
  ∃ below, GetErrorLogDirectory (Build_QueueManager "qm1" "/var/mqm" "../../etc" "" "")
    = abs_path (["var"; "mqm"] ++ ["qmgrs"] ++ below ++ ["errors"])
    ∧ Forall (λ c, plain c = true) (["var"; "mqm"] ++ below).
Proof. apply (error_logs_confined (Build_QueueManager "qm1" "/var/mqm" "../../etc" "" "")); reflexivity. Defined.

(** A line with a known key and no value is a run-time panic. *)
Lemma stanza_panics k : In k ["Name"; "Prefix"; "Directory"; "DataPath"; "InstallationName"] →
  getQueueManagerFromStanza (k +:+ s1 "010") = None.
Proof. intros H. repeat destruct H as [<-|H]; try reflexivity. destruct H. Qed.


End MqIni.
