(* ===== verification/Ready.v ===== *)
(** * Readiness signals and probes

    internal/ready/ready.go (the files by which the container's main process tells
    the probes that configuration is done) and the probe commands
    cmd/chkmqready, cmd/chkmqhealthy and cmd/chkmqstarted (main.go of each), whose
    result is the process's exit code.  The connection to the listener is a
    parameter.  What the commands print goes to the world's console. *)
From S2P Require Import Prelude Utf8 GoStrings Paths Os MqIni.

Open Scope Z_scope.

(** [fmt.Println] and [fmt.Printf] to the standard output *)
Definition Print (msg : string) : M unit := log RAW msg.
Definition Println (msg : string) : M unit := Print (msg +:+ s1 "010").

Module Ready.

Definition readyFile : string := "/run/runmqserver/ready".
Definition readyToSyncFile : string := "/run/runmqserver/ready-to-sync".

Inductive QMStatus := StatusUnknown | StatusActiveQM | StatusStandbyQM | StatusReplicaQM | StatusRecoveryQM.

#[export] Instance QMStatus_eq_dec : EqDecision QMStatus.
Proof. solve_decision. Defined.

Definition ActiveQM (s : QMStatus) : bool := match s with StatusActiveQM => true | _ => false end.
Definition StandbyQM (s : QMStatus) : bool := match s with StatusStandbyQM => true | _ => false end.
Definition ReplicaQM (s : QMStatus) : bool := match s with StatusReplicaQM => true | _ => false end.
Definition RecoveryQM (s : QMStatus) : bool := match s with StatusRecoveryQM => true | _ => false end.

(** The status in what [dspmq] prints. *)
Definition status_of (out : string) : QMStatus :=
  if Contains out "(RUNNING)" then StatusActiveQM
  else if Contains out "(RUNNING AS STANDBY)" then StatusStandbyQM
  else if Contains out "(REPLICA)" then StatusStandbyQM
  else if Contains out "(RECOVERY GROUP LEADER)" then StatusRecoveryQM
  else StatusUnknown.

Section operations.
Context `{OS}.

Definition fileExists (fileName : string) : M (res bool) :=
  f ← Stat fileName;
  mret (match f with
        | Err e => if negb (IsNotExist e) then Err e else Ok false
        | Ok _ => Ok true
        end).

Definition clearFile (fileName : string) : M (option error) :=
  exist ← fileExists fileName;
  match exist with
  | Err e => mret (Some e)
  | Ok true => Remove fileName
  | Ok false => mret None
  end.

Definition Clear : M (option error) :=
  try clearFile readyFile ;; try clearFile readyToSyncFile ;; mret None.

Definition Set_ : M (option error) := WriteFile readyFile "1".

Definition Check_ : M (res bool) :=
  exists_ ← fileExists readyFile;
  mret (match exists_ with Err e => Err e | Ok b => Ok b end).

Definition SetReadyToSync : M (option error) :=
  exists_ ← fileExists readyToSyncFile;
  match exists_ with
  | Err e => mret (Some e)
  | Ok true => mret None
  | Ok false =>
      now ← gets clock;
      WriteFile readyToSyncFile (Itoa now)
  end.

(** [(exists, start time)]; an error comes with a time of zero. *)
Definition GetReadyToSyncStartTime : M (res (bool * Z)) :=
  exists_ ← fileExists readyToSyncFile;
  match exists_ with
  | Err e => mret (Err e)
  | Ok false => mret (Ok (false, 0))
  | Ok true =>
      buf ← ReadFile readyToSyncFile;
      mret (buf ← buf;
            match Atoi buf with
            | None => Err (AtoiError "ParseInt" buf)
            | Some t => Ok (true, t)
            end)
  end.

Definition Status (name : string) : M (QMStatus * option error) :=
  '(out, _, err) ← RunContext "dspmq" ["-n"; "-m"; name];
  mret (match err with
        | Some e => (StatusUnknown, Some e)
        | None => (status_of out, None)
        end).

(** ** cmd/chkmqready *)

(** [net.Dial] to the address, and closing the connection. *)
Context (dial close : string → M (option error)).

Definition checkPort (address : string) : M (bool * option error) :=
  err ← dial address;
  match err with
  | Some e => mret (false, Some e)
  | None => err ← close address; mret (true, err)
  end.

Definition chkmqready : M Z :=
  r ← Check_;
  match r with
  | Err _ | Ok false => mret 1
  | Ok true =>
      name ← Name.GetQueueManagerName;
      match name with
      | Err e => _ ← Println (Error_ e); mret 1
      | Ok name =>
          '(status, err) ← Status name;
          match err with
          | Some _ => mret 1
          | None =>
              match status with
              | StatusActiveQM =>
                  '(portOpen, err) ← checkPort "127.0.0.1:1414";
                  _ ← match err with Some e => Println (Error_ e) | None => mret tt end;
                  mret (if negb portOpen then 1 else 0)
              | StatusRecoveryQM => _ ← Print "Detected queue manager running as recovery leader"; mret 0
              | StatusStandbyQM => _ ← Print "Detected queue manager running in standby mode"; mret 10
              | StatusReplicaQM => _ ← Print "Detected queue manager running in replica mode"; mret 20
              | StatusUnknown => mret 1
              end
          end
      end
  end.

(** ** cmd/chkmqhealthy *)

Definition readyStrings : list string :=
  ["(RUNNING)"; "(RUNNING AS STANDBY)"; "(RECOVERY GROUP LEADER)"; "(STARTING)"; "(REPLICA)"].

Definition any_ready (out : string) : bool := existsb (Contains out) readyStrings.

Definition queueManagerHealthy : M (res bool) :=
  name ← Name.GetQueueManagerName;
  match name with
  | Err e => mret (Err e)
  | Ok name =>
      '(out, _, err) ← exec "dspmq" ["-n"; "-m"; name];
      _ ← Print out;
      match err with
      | Some e => _ ← Println (Error_ e); mret (Err e)
      | None => mret (Ok (any_ready out))
      end
  end.

Definition exit_code (r : res bool) : Z :=
  match r with Err _ => 2 | Ok false => 1 | Ok true => 0 end.

Definition chkmqhealthy : M Z := exit_code <$> queueManagerHealthy.

(** ** cmd/chkmqstarted *)

(** [(isReadyToSync, isInSync)] *)
Definition isInSyncWithReplicas (name : string) : M (res (bool * bool)) :=
  '(out, _, err) ← exec "dspmq" ["-n"; "-o"; "nativeha"; "-m"; name];
  mret (match err with
        | Some e => Err e
        | None =>
            if Contains out "INSYNC(YES)" then Ok (true, true)
            else Ok (any_ready out, false)
        end).

Definition in_sync_timeout (customTimeout : string) : res Z :=
  if customTimeout =s "" then Ok 5
  else match Atoi customTimeout with
       | None => Err (AtoiError "ParseInt" customTimeout)
       | Some t => Ok t
       end.

Definition hasInSyncTimePeriodExpired : M (res bool) :=
  customTimeout ← Getenv "MQ_NATIVE_HA_IN_SYNC_TIMEOUT";
  match in_sync_timeout customTimeout with
  | Err e => mret (Err e)
  | Ok timeout =>
      start ← GetReadyToSyncStartTime;
      match start with
      | Err e => mret (Err e)
      | Ok (isReadyToSync, readyToSyncStartTime) =>
          now ← gets clock;
          mret (Ok (isReadyToSync && (timeout <=? int64 (now - readyToSyncStartTime))))
      end
  end.

Definition nativeHAStarted (name : string) : M (res bool) :=
  s ← isInSyncWithReplicas name;
  match s with
  | Err e => mret (Err e)
  | Ok (_, true) => mret (Ok true)
  | Ok (false, false) => mret (Ok false)
  | Ok (true, false) =>
      err ← SetReadyToSync;
      match err with
      | Some e => mret (Err e)
      | None => hasInSyncTimePeriodExpired
      end
  end.

Definition queueManagerStarted : M (res bool) :=
  name ← Name.GetQueueManagerName;
  match name with
  | Err e => mret (Err e)
  | Ok name =>
      nha ← Getenv "MQ_NATIVE_HA";
      if nha =s "true" then nativeHAStarted name else
      '(out, _, err) ← exec "dspmq" ["-n"; "-m"; name];
      match err with
      | Some e => _ ← Println (Error_ e); mret (Err e)
      | None => mret (Ok (any_ready out))
      end
  end.

Definition chkmqstarted : M Z := exit_code <$> queueManagerStarted.

End operations.
(** ** The files of the ready signal *)

(** A regular file or nothing. *)
Definition plain_file (w : world) (path : string) : bool :=
  match files w !! norm path with None | Some (File _) => true | _ => false end.

(** The signal files can be written and removed. *)
Definition run_dir (w : world) : bool :=
  bool_decide (files w !! norm "/run/runmqserver" = Some Directory)
  && plain_file w readyFile && plain_file w readyToSyncFile.

Definition set_clock (t : Z) (w : world) : world :=
  World (env w) (files w) (console w) (stderr w) (handles w) (next_handle w) t.

Section files.
Context `{Faultless}.

Lemma fileExists_ok path w : plain_file w path = true →
  fileExists path w = (Ok (bool_decide (is_Some (files w !! norm path))), w).
Proof.
  unfold plain_file, fileExists. rewrite bind_run. destruct (files w !! norm path) as [[d| |]|] eqn:E; try done; intros _.
  - by rewrite (Stat_ok path w (File d)).
  - by rewrite Stat_missing.
Qed.

Lemma clearFile_ok path w : plain_file w path = true →
  clearFile path w = (None, set_files (delete (norm path) (files w)) w).
Proof.
  intros Hp. unfold clearFile. rewrite bind_run, fileExists_ok by done. cbn [fst snd].
  unfold plain_file in Hp. destruct (files w !! norm path) as [n|] eqn:E; simpl.
  - by erewrite Remove_ok by done.
  - by rewrite delete_id, set_files_id.
Qed.

Lemma run_dir_spec w : run_dir w = true →
  files w !! norm "/run/runmqserver" = Some Directory
  ∧ plain_file w readyFile = true ∧ plain_file w readyToSyncFile = true.
Proof. unfold run_dir. rewrite !andb_true_iff, bool_decide_eq_true. tauto. Qed.

Lemma Clear_ok w : run_dir w = true →
  Clear w = (None, set_files (delete (norm readyToSyncFile) (delete (norm readyFile) (files w))) w).
Proof.
  intros (_ & H1 & H2)%run_dir_spec. unfold Clear. rewrite check_run, clearFile_ok by done. cbn [fst snd].
  rewrite check_run, clearFile_ok; [done|]. unfold plain_file in *. simpl.
  by rewrite lookup_delete_ne by discriminate.
Qed.

Lemma signal_writable w path : run_dir w = true → path = readyFile ∨ path = readyToSyncFile → writable w path.
Proof.
  intros (Hd & H1 & H2)%run_dir_spec Hp. unfold writable.
  assert (has_parent w (norm path) = true) as Hpar.
  { destruct Hp as [->| ->]; unfold has_parent; simpl; by apply bool_decide_eq_true. }
  assert (plain_file w path = true) as Hf by by destruct Hp as [->| ->].
  unfold plain_file in Hf. destruct (files w !! norm path) as [[d| |]|]; try done; eauto.
Qed.

Definition cleared (w : world) : world :=
  set_files (delete (norm readyToSyncFile) (delete (norm readyFile) (files w))) w.
Definition marked (w : world) : world := set_files (<[norm readyFile := File "1"]> (files w)) w.

Lemma cleared_missing w : files (cleared w) !! norm readyFile = None ∧ files (cleared w) !! norm readyToSyncFile = None.
Proof. split; simpl; [by rewrite lookup_delete_ne, lookup_delete_eq by discriminate|apply lookup_delete_eq]. Qed.

Lemma cleared_run_dir w : run_dir w = true → run_dir (cleared w) = true.
Proof.
  intros (Hd & _)%run_dir_spec. destruct (cleared_missing w) as [E1 E2].
  unfold run_dir, plain_file. rewrite E1, E2, bool_decide_true; [done|].
  simpl. by rewrite !lookup_delete_ne by discriminate.
Qed.

Lemma marked_run_dir w : run_dir w = true → run_dir (marked w) = true.
Proof.
  intros (Hd & H1 & H2)%run_dir_spec. unfold run_dir, plain_file in *. cbn [marked set_files files].
  rewrite lookup_insert_eq, !lookup_insert_ne, Hd by discriminate. exact H2.
Qed.

Lemma cleared_marked w : cleared (marked (cleared w)) = cleared w.
Proof.
  destruct (cleared_missing w) as [E1 E2]. unfold cleared at 1, marked. cbn [set_files files].
  rewrite set_files_set, delete_insert_id by done. rewrite (delete_id _ _ E2). apply set_files_id.
Qed.

Lemma Check_run w : run_dir w = true → Check_ w = (Ok (bool_decide (is_Some (files w !! norm readyFile))), w).
Proof. intros (_ & H1 & _)%run_dir_spec. unfold Check_. by rewrite bind_run, fileExists_ok. Qed.

(** After [Clear] the queue manager is not ready, after [Set] it is, and
    after another [Clear] it is not; no other file changes. *)
Lemma ready_cycle w : run_dir w = true →
  ∃ w1 w2, Clear w = (None, w1) ∧ Check_ w1 = (Ok false, w1)
    ∧ Set_ w1 = (None, w2) ∧ Check_ w2 = (Ok true, w2) ∧ Clear w2 = (None, w1)
    ∧ ∀ p, p ≠ norm readyFile → p ≠ norm readyToSyncFile → files w1 !! p = files w !! p.
Proof.
  intros Hw. exists (cleared w), (marked (cleared w)). pose proof (cleared_run_dir w Hw) as Hw1.
  pose proof (marked_run_dir _ Hw1) as Hw2. split_and!.
  - by apply Clear_ok.
  - rewrite Check_run by done. by rewrite (proj1 (cleared_missing w)).
  - apply WriteFile_ok, signal_writable; auto.
  - rewrite Check_run by done. unfold marked. cbn [set_files files]. by rewrite lookup_insert_eq.
  - rewrite Clear_ok by done. f_equal. apply cleared_marked.
  - intros p Hp1 Hp2. simpl. by rewrite !lookup_delete_ne.
Qed.

(** The time [t] is stamped as the start of the synchronisation. *)
Definition stamped (w : world) (t : Z) : Prop := files w !! norm readyToSyncFile = Some (File (Itoa t)).

Lemma SetReadyToSync_first w : run_dir w = true → files w !! norm readyToSyncFile = None →
  SetReadyToSync w = (None, set_files (<[norm readyToSyncFile := File (Itoa (clock w))]> (files w)) w).
Proof.
  intros Hw E. pose proof (run_dir_spec w Hw) as (_ & _ & H2). unfold SetReadyToSync.
  rewrite bind_run, fileExists_ok, E by done. cbn [fst snd]. rewrite bool_decide_false by (by intros [? ?]).
  rewrite bind_run. cbn [gets fst snd]. apply WriteFile_ok, signal_writable; auto.
Qed.

Lemma stamped_plain w t : stamped w t → plain_file w readyToSyncFile = true.
Proof. unfold stamped, plain_file. by intros ->. Qed.

Lemma SetReadyToSync_again w t : stamped w t → SetReadyToSync w = (None, w).
Proof.
  intros Hs. unfold SetReadyToSync. rewrite bind_run, fileExists_ok by by eapply stamped_plain.
  unfold stamped in Hs. by rewrite Hs.
Qed.

Lemma start_time w t : stamped w t → min_int64 <= t <= max_int64 → GetReadyToSyncStartTime w = (Ok (true, t), w).
Proof.
  intros Hs Ht. unfold GetReadyToSyncStartTime. rewrite bind_run, fileExists_ok by by eapply stamped_plain.
  unfold stamped in Hs. rewrite Hs. cbn [fst snd]. rewrite bool_decide_true by done.
  rewrite bind_run. erewrite ReadFile_ok by done. cbn. by rewrite Atoi_Itoa.
Qed.

(** Times a clock shows. *)
Definition a_time (t : Z) : bool := (0 <=? t) && (t <=? max_int64).

Lemma expired_run w t : stamped w t → a_time t = true → a_time (clock w) = true →
  env w !! "MQ_NATIVE_HA_IN_SYNC_TIMEOUT" = None →
  hasInSyncTimePeriodExpired w = (Ok (5 <=? clock w - t), w).
Proof.
  unfold a_time. rewrite !andb_true_iff, !Z.leb_le. intros Hs Ht Hc He.
  unfold hasInSyncTimePeriodExpired. rewrite bind_run. unfold Getenv, gets. cbn [fst snd]. rewrite He.
  change (in_sync_timeout (default "" None)) with (Ok 5). cbn iota.
  rewrite bind_run, (start_time w t) by (done || (unfold min_int64; lia)). cbn [fst snd]. rewrite bind_run. cbn.
  rewrite int64_id; [done|]. unfold min_int64, max_int64 in *. lia.
Qed.

End files.

(** ** The probes *)

(** [dspmq] answers [out] to these arguments, and changes nothing. *)
Definition dspmq_prints `{OS} (args : list string) (out : string) : Prop :=
  ∀ w, exec "dspmq" args w = ((out, 0, None), w).

Lemma name_of_env `{OS} w c n : env w !! "MQ_QMGR_NAME" = Some (String c n) →
  Name.GetQueueManagerName w = (Ok (String c n), w).
Proof. intros E. unfold Name.GetQueueManagerName, LookupEnv, gets. by rewrite bind_run, E. Qed.

Lemma any_ready_status out : status_of out ≠ StatusUnknown → any_ready out = true.
Proof.
  unfold status_of, any_ready, readyStrings. simpl.
  destruct (Contains out "(RUNNING)"), (Contains out "(RUNNING AS STANDBY)"), (Contains out "(REPLICA)"),
    (Contains out "(RECOVERY GROUP LEADER)"), (Contains out "(STARTING)"); simpl; done.
Qed.

Lemma status_not_replica out : status_of out ≠ StatusReplicaQM.
Proof. unfold status_of. by repeat case_match. Qed.

(** The code [chkmqready] exits with. *)
Definition ready_code (set : bool) (out : string) (portOpen : bool) : Z :=
  if negb set then 1 else
  match status_of out with
  | StatusActiveQM => if portOpen then 0 else 1
  | StatusRecoveryQM => 0
  | StatusStandbyQM => 10
  | _ => 1
  end.

Lemma chkmqready_code `{Faultless} dial close w c n out : run_dir w = true →
  env w !! "MQ_QMGR_NAME" = Some (String c n) → dspmq_prints ["-n"; "-m"; String c n] out →
  (chkmqready dial close w).1
  = ready_code (bool_decide (is_Some (files w !! norm readyFile))) out
      (bool_decide ((dial "127.0.0.1:1414" w).1 = None)).
Proof.
  intros Hw En Hd. unfold chkmqready, ready_code. rewrite bind_run, Check_run by done. cbn [fst snd].
  destruct (bool_decide (is_Some _)); simpl; [|done].
  rewrite bind_run, (name_of_env w c n) by done. cbn [fst snd]. rewrite bind_run. unfold Status.
  rewrite bind_run, RunContext_run, Hd. cbn. destruct (status_of out) eqn:Es; try done.
  - rewrite bind_run. unfold checkPort. rewrite bind_run. destruct (dial _ w) as [[e|] w1]; simpl; [done|].
    rewrite bind_run. by destruct (close _ w1) as [[e|] w2].
  - by apply status_not_replica in Es.
Qed.

(** C33. The probes agree: [chkmqready] exits with 0 (ready), 10 (standby) or 1; with
    0 or 10 only after the ready signal is set, with 0 for an active queue manager
    only when its listener answers, and whenever it does not exit with 1,
    [chkmqhealthy] exits with 0 on the same [dspmq] output. *)
Theorem probes_agree `{Faultless} dial close w c n out : run_dir w = true →
  env w !! "MQ_QMGR_NAME" = Some (String c n) → dspmq_prints ["-n"; "-m"; String c n] out →
  let code := (chkmqready dial close w).1 in
  In code [0; 1; 10]
  ∧ (code ≠ 1 → is_Some (files w !! norm readyFile) ∧ (chkmqhealthy w).1 = 0)
  ∧ (code = 0 → status_of out = StatusActiveQM → (dial "127.0.0.1:1414" w).1 = None).
Proof.
  intros Hw En Hd. cbv zeta. rewrite (chkmqready_code dial close w c n out) by done. unfold ready_code.
  assert ((chkmqhealthy w).1 = if any_ready out then 0 else 1) as Hh.
  { unfold chkmqhealthy, queueManagerHealthy. rewrite fmap_run, bind_run, (name_of_env w c n) by done. cbn [fst snd].
    rewrite bind_run. rewrite Hd. cbn. by destruct (any_ready out). }
  rewrite Hh. pose proof (any_ready_status out) as Ha. case_bool_decide; simpl.
  2: { split_and!; [tauto|lia|lia]. }
  destruct (status_of out) eqn:Es; try case_bool_decide; (split_and!; [tauto|intros ?|intros ? ?]);
    try rewrite Ha; done || lia.
Qed.

Definition running : OS := {|
  fault _ _ := None;
  exec name args w := (("QMNAME(qm1) STATUS(RUNNING) INSYNC(NO)", 0, None), w);
  LookPath name := name;
  hostname := Ok "mq0";
  getwd := "/" |}.

#[export] Instance running_faultless : Faultless (H := running).
Proof. done. Qed.

Definition probe_world : world :=
  world_of [("MQ_QMGR_NAME", "qm1"); ("MQ_NATIVE_HA", "true")]
    [("/run/runmqserver", Directory); ("/run/runmqserver/ready", File "1")].

Lemma probes_agree_witness : (chkmqhealthy (H := running) probe_world).1 = 0.
Proof.
  destruct (probes_agree (H := running) (λ _, mret None) (λ _, mret None) probe_world "q" "m1"
    "QMNAME(qm1) STATUS(RUNNING) INSYNC(NO)") as (_ & Hh & _); [reflexivity|reflexivity|intros w; reflexivity|].
  apply Hh. vm_compute. discriminate.
Defined.

(** ** Native HA: the in-sync time period *)

(** A Native HA queue manager that is up and not yet in sync. *)
Definition nha_env (w : world) (c : ascii) (n : string) : Prop :=
  env w !! "MQ_QMGR_NAME" = Some (String c n) ∧ env w !! "MQ_NATIVE_HA" = Some "true"
  ∧ env w !! "MQ_NATIVE_HA_IN_SYNC_TIMEOUT" = None.

Definition nha_args (c : ascii) (n : string) : list string := ["-n"; "-o"; "nativeha"; "-m"; String c n].

Lemma started_nha `{OS} w c n out : nha_env w c n → dspmq_prints (nha_args c n) out →
  Contains out "INSYNC(YES)" = false → any_ready out = true →
  queueManagerStarted w = (err ← SetReadyToSync;
    match err with Some e => mret (Err e) | None => hasInSyncTimePeriodExpired end) w.
Proof.
  intros (En & Eh & _) Hd Hi Hr. unfold queueManagerStarted. rewrite bind_run, (name_of_env w c n) by done.
  cbn [fst snd]. rewrite bind_run. unfold Getenv, gets. cbn [fst snd]. rewrite Eh. simpl.
  unfold nativeHAStarted. rewrite bind_run. unfold isInSyncWithReplicas. rewrite bind_run, Hd. cbn [fst snd].
  cbv beta iota. rewrite Hi, Hr. done.
Qed.

Lemma started_stamped `{Faultless} w c n out t : nha_env w c n → dspmq_prints (nha_args c n) out →
  Contains out "INSYNC(YES)" = false → any_ready out = true → stamped w t →
  a_time t = true → a_time (clock w) = true →
  chkmqstarted w = (if 5 <=? clock w - t then 0 else 1, w).
Proof.
  intros He Hd Hi Hr Hs Ht Hc. unfold chkmqstarted. rewrite fmap_run, (started_nha w c n out) by done.
  rewrite bind_run, (SetReadyToSync_again w t) by done. cbn [fst snd].
  rewrite (expired_run w t) by (done || apply He). simpl. by destruct (5 <=? _).
Qed.

(** C36. A Native HA queue manager that is up but never in sync is reported as not
    started first, and from five seconds later on as started: the time of the
    first probe is kept in a file that later probes do not change. *)
Theorem nha_started_in_time `{Faultless} w c n out : run_dir w = true → nha_env w c n →
  files w !! norm readyToSyncFile = None → dspmq_prints (nha_args c n) out →
  Contains out "INSYNC(YES)" = false → any_ready out = true → a_time (clock w) = true →
  ∃ w1, chkmqstarted w = (1, w1) ∧
    ∀ t, clock w <= t → a_time t = true →
      chkmqstarted (set_clock t w1) = (if 5 <=? t - clock w then 0 else 1, set_clock t w1).
Proof.
  intros Hw He Ef Hd Hi Hr Hc.
  exists (set_files (<[norm readyToSyncFile := File (Itoa (clock w))]> (files w)) w).
  set (w1 := set_files _ w). assert (stamped w1 (clock w)) as Hs by apply lookup_insert_eq. split.
  - unfold chkmqstarted. rewrite fmap_run, (started_nha w c n out) by done.
    rewrite bind_run, SetReadyToSync_first by done. cbn [fst snd]. fold w1.
    rewrite (expired_run w1 (clock w)) by (done || apply He). simpl. by rewrite Z.sub_diag.
  - intros t Ht Ha. by rewrite (started_stamped _ c n out (clock w)).
Qed.

Lemma nha_started_in_time_witness :
  ∃ w1, chkmqstarted (H := running) probe_world = (1, w1)
    ∧ chkmqstarted (H := running) (set_clock 4 w1) = (1, set_clock 4 w1)
    ∧ chkmqstarted (H := running) (set_clock 5 w1) = (0, set_clock 5 w1).
Proof.
  destruct (nha_started_in_time (H := running) probe_world "q" "m1"
    "QMNAME(qm1) STATUS(RUNNING) INSYNC(NO)") as (w1 & E & Ht);
    [reflexivity|repeat split; reflexivity|reflexivity|intros w; reflexivity|reflexivity..|].
  exists w1. split; [exact E|]. split; apply Ht; vm_compute; (reflexivity || discriminate).
Defined.

Lemma ready_cycle_witness : ∃ w1, Clear probe_world = (None, w1) ∧ Check_ w1 = (Ok false, w1).
Proof. destruct (ready_cycle probe_world) as (w1 & w2 & E & E' & _); [reflexivity|]. eauto. Defined.

End Ready.
