(* ===== verification/Signals.v ===== *)
(** * The signal handler of the main process (cmd/runmqserver/signals.go)

    The container's main process is the parent of every orphan: it reaps zombies,
    and stops the queue manager on SIGTERM.  The goroutine of [signalHandler], the
    goroutine that stops the queue manager, the main goroutine and the kernel are
    interleaved: a run is a list of events, [next] is the step of one event where it
    is enabled.  A buffered channel of capacity 1 is a boolean. *)
From S2P Require Import Prelude.

Module Signals.

(** ** Children and [Wait4(-1, WNOHANG)] *)

Record children := Children {
  alive : list nat;             (* running processes *)
  zombies : list nat;           (* ended, not reaped *)
  reaped : list nat }.

Inductive wait_result := Pid (p : nat) | NoneYet | ECHILD.

Definition Wait4 (c : children) : wait_result * children :=
  match zombies c with
  | p :: zs => (Pid p, Children (alive c) zs (reaped c ++ [p]))
  | [] => (match alive c with [] => ECHILD | _ => NoneYet end, c)
  end.

(** The loop of [reapZombies]; [false] when the fuel runs out. *)
Fixpoint reapLoop (fuel : nat) (c : children) : bool * children :=
  match fuel with
  | O => (false, c)
  | S fuel =>
      match Wait4 c with
      | (Pid _, c) => reapLoop fuel c
      | (_, c) => (true, c)
      end
  end.

Definition reapZombies (c : children) : children := (reapLoop (S (length (zombies c))) c).2.

(** ** The state *)

Inductive job := startReaping | reapNow.

(** Where the handler's goroutine is. *)
Inductive location :=
| Select           (* the outer select *)
| StopReceived     (* a first stop signal was taken from the channel *)
| Draining         (* the inner select: control jobs until the startup is over *)
| Returned.

(** The goroutine that stops the queue manager. *)
Inductive stopper := NotStarted | Stopping | Stopped.

Record state := State {
  pc : location;
  stopTriggered : bool;
  stopSignals : bool;          (* a stop signal is in the channel *)
  reapSignals : bool;
  notifyStop : bool;           (* [signal.Notify(stopSignals, ...)] is in force *)
  notifyReap : bool;
  startupDone : bool;          (* the startup context is cancelled *)
  shutdownDone : bool;         (* [shutdownCtx] is cancelled *)
  controlClosed : bool;
  stopQM : stopper;
  metricsStopped : bool;
  procs : children }.

#[export] Instance location_eq_dec : EqDecision location.
Proof. solve_decision. Defined.
#[export] Instance stopper_eq_dec : EqDecision stopper.
Proof. solve_decision. Defined.

(** When [signalHandler] returns. *)
Definition start (c : children) : state :=
  State Select false false false true false false false false NotStarted false c.

(** ** Steps *)

Inductive event :=
(** the kernel: a stop signal arrives, a child is forked, a child ends *)
| StopSignal
| Fork (p : nat)
| Exit (p : nat)
(** the main goroutine: a job is sent (and received, the channel has no buffer),
    the startup context is cancelled *)
| Send (j : job)
| StartupDone
(** the goroutine that stops the queue manager is finished *)
| QueueManagerStopped
(** the handler: the cases of its selects *)
| TakeStop
| EndStopNotify
| SeeStartupDone
| SeeShutdown
| TakeReap.

Definition set_pc (l : location) (s : state) : state :=
  State l (stopTriggered s) (stopSignals s) (reapSignals s) (notifyStop s) (notifyReap s) (startupDone s)
    (shutdownDone s) (controlClosed s) (stopQM s) (metricsStopped s) (procs s).
Definition set_procs (c : children) (s : state) : state :=
  State (pc s) (stopTriggered s) (stopSignals s) (reapSignals s) (notifyStop s) (notifyReap s) (startupDone s)
    (shutdownDone s) (controlClosed s) (stopQM s) (metricsStopped s) c.

(** A signal that nothing listens for, or that finds its channel full, is lost. *)
Definition deliver_stop (s : state) : state :=
  State (pc s) (stopTriggered s) (stopSignals s || notifyStop s) (reapSignals s) (notifyStop s) (notifyReap s)
    (startupDone s) (shutdownDone s) (controlClosed s) (stopQM s) (metricsStopped s) (procs s).
Definition deliver_child (s : state) : state :=
  State (pc s) (stopTriggered s) (stopSignals s) (reapSignals s || notifyReap s) (notifyStop s) (notifyReap s)
    (startupDone s) (shutdownDone s) (controlClosed s) (stopQM s) (metricsStopped s) (procs s).

Definition processControlSignal (j : job) (s : state) : state :=
  match j with
  | startReaping =>
      State (pc s) (stopTriggered s) (stopSignals s) (reapSignals s) (notifyStop s) true (startupDone s)
        (shutdownDone s) (controlClosed s) (stopQM s) (metricsStopped s) (procs s)
  | reapNow => set_procs (reapZombies (procs s)) s
  end.

Definition remove_one (p : nat) (l : list nat) : list nat := filter (λ q, q ≠ p) l.

Definition next (e : event) (s : state) : option state :=
  match e, pc s with
  | StopSignal, _ => Some (deliver_stop s)
  | Fork p, _ =>
      let c := procs s in
      if bool_decide (p ∈ alive c ++ zombies c ++ reaped c) then None
      else Some (set_procs (Children (alive c ++ [p]) (zombies c) (reaped c)) s)
  | Exit p, _ =>
      let c := procs s in
      if bool_decide (p ∈ alive c)
      then Some (deliver_child (set_procs (Children (remove_one p (alive c)) (zombies c ++ [p]) (reaped c)) s))
      else None
  | Send j, (Select | Draining) => if startupDone s then None else Some (processControlSignal j s)
  | StartupDone, _ =>
      Some (State (pc s) (stopTriggered s) (stopSignals s) (reapSignals s) (notifyStop s) (notifyReap s) true
        (shutdownDone s) (controlClosed s) (stopQM s) (metricsStopped s) (procs s))
  | QueueManagerStopped, _ =>
      match stopQM s with
      | Stopping =>
          Some (State (pc s) (stopTriggered s) (stopSignals s) (reapSignals s) (notifyStop s) (notifyReap s)
            (startupDone s) true (controlClosed s) Stopped (metricsStopped s) (procs s))
      | _ => None
      end
  | TakeStop, Select =>
      if stopSignals s then
        Some (State (if stopTriggered s then Select else StopReceived) (stopTriggered s) false (reapSignals s)
          (notifyStop s) (notifyReap s) (startupDone s) (shutdownDone s) (controlClosed s) (stopQM s)
          (metricsStopped s) (procs s))
      else None
  | EndStopNotify, StopReceived =>
      Some (State Draining true (stopSignals s) (reapSignals s) false (notifyReap s) (startupDone s)
        (shutdownDone s) (controlClosed s) (stopQM s) (metricsStopped s) (procs s))
  | SeeStartupDone, Draining =>
      if startupDone s then
        Some (State Select (stopTriggered s) (stopSignals s) (reapSignals s) (notifyStop s) (notifyReap s)
          (startupDone s) (shutdownDone s) (controlClosed s) Stopping true (procs s))
      else None
  | SeeShutdown, Select =>
      if shutdownDone s then
        Some (State Returned (stopTriggered s) (stopSignals s) (reapSignals s) (notifyStop s) false (startupDone s)
          (shutdownDone s) true (stopQM s) (metricsStopped s) (reapZombies (procs s)))
      else None
  | TakeReap, Select =>
      if reapSignals s then
        Some (State (pc s) (stopTriggered s) (stopSignals s) false (notifyStop s) (notifyReap s) (startupDone s)
          (shutdownDone s) (controlClosed s) (stopQM s) (metricsStopped s) (reapZombies (procs s)))
      else None
  | _, _ => None
  end.

(** A run: every event enabled where it happens. *)
Fixpoint run (es : list event) (s : state) : option state :=
  match es with
  | [] => Some s
  | e :: es => s' ← next e s; run es s'
  end.

Inductive reachable (c : children) : state → Prop :=
| reach_start : reachable c (start c)
| reach_step e s s' : reachable c s → next e s = Some s' → reachable c s'.

(** ** Reaping *)

Lemma reapLoop_ok c fuel : (length (zombies c) < fuel)%nat →
  reapLoop fuel c = (true, Children (alive c) [] (reaped c ++ zombies c)).
Proof.
  destruct c as [a z r]. simpl. revert r fuel. induction z as [|p z IH]; intros r [|fuel] Hf; simpl in *; try lia.
  - rewrite app_nil_r. unfold Wait4. simpl. by destruct a.
  - unfold Wait4. simpl. rewrite IH by lia. by rewrite <- app_assoc.
Qed.

Lemma reapZombies_eq c : reapZombies c = Children (alive c) [] (reaped c ++ zombies c).
Proof. unfold reapZombies. by rewrite reapLoop_ok by lia. Qed.

(** ** Runs and reachable states *)

Lemma run_app es es' s : run (es ++ es') s = (s' ← run es s; run es' s').
Proof.
  revert s. induction es as [|e es IH]; intros s; simpl; [done|]. destruct (next e s) as [s'|]; simpl; [apply IH|done].
Qed.

Lemma run_snoc es e s s' : run (es ++ [e]) s = Some s' ↔ ∃ s1, run es s = Some s1 ∧ next e s1 = Some s'.
Proof.
  rewrite run_app. destruct (run es s) as [s1|]; simpl; [|split; [done|by intros (? & ? & _)]].
  split.
  - destruct (next e s1) eqn:E; [|done]. intros [= <-]. eauto.
  - by intros (s2 & [= <-] & ->).
Qed.

Lemma run_reachable c es s : run es (start c) = Some s → reachable c s.
Proof.
  revert s. induction es as [|e es IH] using rev_ind; intros s.
  - intros [= <-]. constructor.
  - intros (s1 & E1 & E2)%run_snoc. econstructor; eauto.
Qed.

(** One step: the event, where the handler was, and what each test gave. *)
Ltac step_cases H :=
  unfold next in H; repeat case_match; simplify_eq; simpl in *.

(** ** The invariant of the control state *)

(** What each location of the handler and each stage of the stop imply. *)
Definition inv (s : state) : bool :=
  let st := stopTriggered s in
  match pc s with
  | Select => match stopQM s with NotStarted => negb st | _ => st end
  | StopReceived => negb st && match stopQM s with NotStarted => true | _ => false end
  | Draining => st && match stopQM s with NotStarted => true | _ => false end
  | Returned => st && match stopQM s with Stopped => true | _ => false end
  end
  && eqb (notifyStop s) (negb st)
  && eqb (metricsStopped s) (match stopQM s with NotStarted => false | _ => true end)
  && implb (metricsStopped s) (startupDone s)
  && eqb (shutdownDone s) (match stopQM s with Stopped => true | _ => false end)
  && eqb (controlClosed s) (match pc s with Returned => true | _ => false end).

(** The locations and stages that go together, with the other flags determined. *)
Ltac inv_cases I :=
  match type of I with
  | inv ?s = true =>
      destruct s as [[] st ss rs ns nr sd shd cc [] ms pr]; unfold inv in I; simpl in I;
      rewrite ?andb_true_iff, ?negb_true_iff in I;
      destruct_and?; try done;
      repeat match goal with H : eqb _ _ = true |- _ => apply eqb_prop in H end;
      subst; simpl in *; subst
  end.

Lemma next_inv e s s' : inv s = true → next e s = Some s' → inv s' = true.
Proof.
  intros I E. inv_cases I; destruct e; simpl in E; try done; repeat (case_match; try done);
    simplify_eq; try match goal with j : job |- _ => destruct j end; try done; by destruct sd.
Qed.

Lemma reachable_inv c s : reachable c s → inv s = true.
Proof. induction 1 as [|e s s' _ IH E]; [done|]. by eapply next_inv. Qed.

Lemma run_inv c es s : run es (start c) = Some s → inv s = true.
Proof. intros E. eapply reachable_inv, run_reachable, E. Qed.

(** ** Stop signals *)

Definition starts_stop (e : event) : bool := match e with SeeStartupDone => true | _ => false end.

Definition stop_count (es : list event) : nat := length (List.filter starts_stop es).

Lemma stop_count_snoc es e : stop_count (es ++ [e]) = (stop_count es + if starts_stop e then 1 else 0)%nat.
Proof. unfold stop_count. rewrite List.filter_app, length_app. simpl. by destruct (starts_stop e). Qed.

(** A step changes the stage of the stop only by [SeeStartupDone] and [QueueManagerStopped]. *)
Lemma next_stage e s s' : inv s = true → next e s = Some s' →
  (if starts_stop e then stopQM s = NotStarted ∧ stopQM s' = Stopping
   else stopQM s = NotStarted ↔ stopQM s' = NotStarted).
Proof.
  intros I E. inv_cases I; destruct e; simpl in E; try done; repeat (case_match; try done);
    simplify_eq; try match goal with j : job |- _ => destruct j end; done.
Qed.

Lemma stop_count_run c es s : run es (start c) = Some s →
  stop_count es = match stopQM s with NotStarted => 0%nat | _ => 1%nat end.
Proof.
  revert s. induction es as [|e es IH] using rev_ind; intros s; [by intros [= <-]|].
  intros (s1 & E1 & E2)%run_snoc. pose proof (next_stage e s1 s (run_inv _ _ _ E1) E2) as Hs.
  rewrite stop_count_snoc, (IH _ E1). destruct (starts_stop e).
  - by destruct Hs as [-> ->].
  - destruct (stopQM s1), (stopQM s); destruct Hs as [H1 H2]; try done; exfalso; naive_solver.
Qed.

(** A stop signal that has arrived is in the channel, or has been taken. *)
Lemma stop_pending c es s : run es (start c) = Some s → In StopSignal es →
  stopSignals s = true ∨ pc s = StopReceived ∨ stopTriggered s = true.
Proof.
  revert s. induction es as [|e es IH] using rev_ind; intros s; [done|].
  intros (s1 & E1 & E2)%run_snoc [Hin|[->|[]]]%in_app_iff; pose proof (run_inv _ _ _ E1) as I.
  - specialize (IH _ E1 Hin). inv_cases I; destruct e; simpl in E2; try done; repeat (case_match; try done);
      simplify_eq; try match goal with j : job |- _ => destruct j end; simpl in *; try (by auto);
      destruct IH as [->|[?|?]]; auto.
  - inv_cases I; simpl in E2; simplify_eq; simpl; rewrite ?orb_true_r; auto.
Qed.

(** Only a stop signal makes the handler stop anything. *)
Lemma stop_signalled c es s : run es (start c) = Some s →
  stopSignals s = true ∨ pc s = StopReceived ∨ stopTriggered s = true → In StopSignal es.
Proof.
  revert s. induction es as [|e es IH] using rev_ind; intros s; [intros [= <-]; naive_solver|].
  intros (s1 & E1 & E2)%run_snoc Hs. apply in_app_iff. destruct e; try (right; by left); left; apply (IH s1 E1);
    pose proof (run_inv _ _ _ E1) as I; inv_cases I; simpl in E2; repeat (case_match; try done);
    simplify_eq; try match goal with j : job |- _ => destruct j end; simpl in *; auto.
Qed.

(** The handler can take a step by itself. *)
Definition handler_enabled (s : state) : bool :=
  existsb (λ e, match next e s with Some _ => true | None => false end)
    [TakeStop; EndStopNotify; SeeStartupDone; SeeShutdown; TakeReap].

Lemma idle_select s : inv s = true → handler_enabled s = false → startupDone s = true →
  pc s = Select ∧ stopSignals s = false ∧ reapSignals s = false ∧ stopQM s ≠ Stopped ∨ pc s = Returned.
Proof.
  intros I Hh Hd. inv_cases I; unfold handler_enabled in Hh; simpl in Hh; try done; auto; left;
    destruct ss, rs; done.
Qed.

(** ** Reaping along a run *)

(** [p] ends, in [es], after the handler was told to listen for its end. *)
Definition ended_after_listening (p : nat) (es : list event) : Prop :=
  ∃ es1 es2, es = es1 ++ Send startReaping :: es2 ∧ In (Exit p) es2.

Lemma ended_snoc p es e : ended_after_listening p (es ++ [e]) →
  ended_after_listening p es ∨ e = Exit p ∧ In (Send startReaping) es.
Proof.
  intros (es1 & es2 & E & Hin). destruct es2 as [|e' es2 _] using rev_ind; [done|].
  rewrite app_comm_cons, app_assoc in E. apply app_inj_tail in E as [-> ->].
  apply in_app_iff in Hin as [Hin|[->|[]]].
  - left. by exists es1, es2.
  - right. split; [done|]. apply in_app_iff. right. by left.
Qed.

Lemma listening c es s : run es (start c) = Some s → In (Send startReaping) es →
  notifyReap s = true ∨ pc s = Returned.
Proof.
  revert s. induction es as [|e es IH] using rev_ind; intros s; [done|].
  intros (s1 & E1 & E2)%run_snoc [Hin|[->|[]]]%in_app_iff.
  - specialize (IH _ E1 Hin). destruct s1, e; simpl in *; repeat (case_match; try done); simplify_eq;
      try match goal with j : job |- _ => destruct j end; simpl in *; auto; destruct IH as [->|?]; auto; done.
  - left. destruct s1 as [[]]; simpl in E2; try done; case_match; by simplify_eq.
Qed.

Lemma next_procs e s s' p : next e s = Some s' → p ∈ zombies (procs s) ++ reaped (procs s) ∨ e = Exit p →
  p ∈ zombies (procs s') ++ reaped (procs s').
Proof.
  destruct s as [l st ss rs ns nr sd shd cc sq ms [a z r]]. intros E Hp.
  destruct e; simpl in E; repeat (case_match; try done); simplify_eq;
    try match goal with j : job |- _ => destruct j end; simpl in *;
    rewrite ?reapZombies_eq; simpl; (destruct Hp as [Hp|[= ->]]); try done; set_solver.
Qed.

Lemma ended_known c es s p : run es (start c) = Some s → In (Exit p) es →
  p ∈ zombies (procs s) ++ reaped (procs s).
Proof.
  revert s. induction es as [|e es IH] using rev_ind; intros s; [done|].
  intros (s1 & E1 & E2)%run_snoc [Hin|[->|[]]]%in_app_iff; eapply next_procs; eauto.
Qed.

Lemma next_reaped e s s' : next e s = Some s' →
  ∃ l, reaped (procs s') = reaped (procs s) ++ l
    ∧ (reapSignals s = true → reapSignals s' = false → l = zombies (procs s) ∧ zombies (procs s') = []).
Proof.
  destruct s as [l st ss rs ns nr sd shd cc sq ms [a z r]]. intros E.
  destruct e; simpl in E; repeat (case_match; try done); simplify_eq;
    try match goal with j : job |- _ => destruct j end; simpl in *; rewrite ?reapZombies_eq; simpl;
    (eexists; split; [first [reflexivity | symmetry; apply app_nil_r] | intros; simplify_eq/=; done]).
Qed.

Lemma ended_reaped c es s p : run es (start c) = Some s → ended_after_listening p es →
  p ∈ reaped (procs s) ∨ reapSignals s = true ∨ pc s = Returned.
Proof.
  revert s. induction es as [|e es IH] using rev_ind; intros s E He.
  { destruct He as (es1 & es2 & He & _). by destruct es1. }
  pose proof E as (s1 & E1 & E2)%run_snoc. apply ended_snoc in He as [He|[-> Hl]].
  - destruct (next_reaped e s1 s E2) as (l & Hr & Hrs). rewrite Hr, elem_of_app.
    destruct (IH s1 E1 He) as [?|[Hs|Hret]]; [auto| |].
    + destruct (reapSignals s) eqn:Hs'; [auto|]. destruct (Hrs Hs eq_refl) as [-> _].
      assert (p ∈ zombies (procs s1) ++ reaped (procs s1)) as Hk.
      { eapply ended_known; [done|]. destruct He as (es1 & es2 & -> & Hin). apply in_app_iff. right. by right. }
      apply elem_of_app in Hk. tauto.
    + right. right. destruct s1 as [[]]; try done. destruct e; simpl in E2; repeat (case_match; try done); by simplify_eq.
  - destruct (listening _ _ _ E1 Hl) as [Hn|Hret].
    + right. left. simpl in E2. case_match; [|done]. simplify_eq. simpl. by rewrite Hn, orb_true_r.
    + right. right. simpl in E2. case_match; [|done]. by simplify_eq.
Qed.

(** ** The properties *)

(** C8. Stopping the queue manager starts at most once, and only after a stop signal
    and after the main goroutine has ended its startup; in any run where a stop
    signal has arrived and the startup is over, when the handler has nothing left to
    do the stop has been started, and once the queue manager has stopped the handler
    has returned and closed the control channel. *)
Theorem stop_honoured c es s : run es (start c) = Some s →
  stop_count es = match stopQM s with NotStarted => 0%nat | _ => 1%nat end
  ∧ (stopQM s ≠ NotStarted → startupDone s = true ∧ stopTriggered s = true)
  ∧ (In StopSignal es → startupDone s = true → handler_enabled s = false →
       stopQM s ≠ NotStarted ∧ (stopQM s = Stopped → pc s = Returned ∧ controlClosed s = true)).
Proof.
  intros E. pose proof (run_inv _ _ _ E) as I. split; [by eapply stop_count_run|]. split.
  - intros Hs. by inv_cases I.
  - intros Hin Hd Hh. pose proof (stop_pending _ _ _ E Hin) as Hp.
    pose proof (idle_select s I Hh Hd) as Hi. inv_cases I; simpl in *;
      destruct Hi as [(? & ? & ? & ?)|?]; try done; destruct Hp as [?|[?|?]]; try congruence; split; try done; congruence.
Qed.

(** A stop during the startup, to the end. *)
Definition shutdown_run : list event :=
  [Send startReaping; StopSignal; TakeStop; EndStopNotify; Send reapNow; StartupDone; SeeStartupDone;
   QueueManagerStopped; SeeShutdown].

Lemma stop_honoured_witness :
  ∃ s, run shutdown_run (start (Children [7%nat] [] [])) = Some s ∧ pc s = Returned ∧ controlClosed s = true.
Proof.
  destruct (run shutdown_run (start (Children [7%nat] [] []))) as [s|] eqn:E; [|vm_compute in E; discriminate].
  exists s. split; [reflexivity|]. destruct (stop_honoured _ _ _ E) as (_ & _ & H).
  vm_compute in E. injection E as <-. apply H; vm_compute; auto.
Defined.

(** C7. No SIGCHLD is missed: a child that ends after the handler was told to
    listen is reaped as soon as the handler has no signal left to take, and when the
    handler returns there is no zombie left. *)
Theorem children_reaped c es s : run es (start c) = Some s →
  (∀ p, ended_after_listening p es → handler_enabled s = false → pc s = Select → p ∈ reaped (procs s))
  ∧ (∀ s', next SeeShutdown s = Some s' → pc s' = Returned ∧ zombies (procs s') = []
       ∧ ∀ p, In (Exit p) es → p ∈ reaped (procs s')).
Proof.
  intros E. split.
  - intros p Hp Hh Hs. destruct (ended_reaped _ _ _ _ E Hp) as [?|[Hr|?]]; [done| |congruence].
    destruct s as [[]]; try done. unfold handler_enabled in Hh. simpl in *. subst. 
    by rewrite !orb_true_r in Hh.
  - intros s' E'. assert (procs s' = reapZombies (procs s) ∧ pc s' = Returned) as [Ep Epc].
    { destruct s as [[]]; simpl in E'; try done; case_match; try done. by simplify_eq. }
    rewrite Ep, reapZombies_eq. split_and!; [done|done|]. intros p Hin. simpl.
    pose proof (ended_known _ _ _ p E Hin) as Hk. apply elem_of_app in Hk. apply elem_of_app. tauto.
Qed.

Lemma children_reaped_witness :
  ∃ s, run [Send startReaping; Exit 7; Exit 8; TakeReap] (start (Children [7; 8]%nat [] [])) = Some s
    ∧ 7%nat ∈ reaped (procs s).
Proof.
  destruct (run [Send startReaping; Exit 7; Exit 8; TakeReap] (start (Children [7; 8]%nat [] [])))
    as [s|] eqn:E; [|vm_compute in E; discriminate].
  exists s. split; [reflexivity|]. destruct (children_reaped _ _ _ E) as [H _].
  vm_compute in E. injection E as <-. apply H; [|reflexivity..].
  exists [], [Exit 7; Exit 8; TakeReap]. split; [reflexivity|]. left. reflexivity.
Defined.

End Signals.
