(* ===== verification/Json.v ===== *)
(** * encoding/json, as far as the program uses it

    Unmarshalling into a [map[string]interface{}] and marshalling such a map.  Both
    work on runes: a byte that is not UTF-8 decodes as U+FFFD, as Go replaces it in
    a string, and elsewhere is a syntax error either way.  A number is kept as its
    literal; what depends on its value as a float64 is in the class [Floats]. *)
From S2P Require Import Prelude Utf8 GoStrings.

Open Scope Z_scope.

Inductive json :=
| JNull
| JBool (b : bool)
| JNum (lit : string)
| JStr (s : string)
| JArr (l : list json)
| JObj (kvs : list (string * json)).

(** A Go map: keys are distinct, the order says nothing. *)
Definition object : Type := list (string * json).

Fixpoint obj_get (k : string) (o : object) : option json :=
  match o with
  | [] => None
  | (k', v) :: o => if k =s k' then Some v else obj_get k o
  end.

Fixpoint obj_set (k : string) (v : json) (o : object) : object :=
  match o with
  | [] => [(k, v)]
  | (k', v') :: o => if k =s k' then (k, v) :: o else (k', v') :: obj_set k v o
  end.

(** float64 values of number literals. *)
Class Floats := {
  float_ok : string → bool;       (* the literal is in the range of float64 *)
  float_zero : string → bool;
  float_v : string → string }.    (* [fmt] with the verb [%v] *)

(** ** Scanning *)

Definition ws (r : Z) : bool := (r =? 32) || (r =? 9) || (r =? 13) || (r =? 10).
Definition skip_ws : list Z → list Z := drop_while ws.

Definition hex (r : Z) : option Z :=
  if (48 <=? r) && (r <=? 57) then Some (r - 48)
  else if (97 <=? r) && (r <=? 102) then Some (r - 87)
  else if (65 <=? r) && (r <=? 70) then Some (r - 55)
  else None.

Definition hex4 (a b c d : Z) : option Z :=
  a ← hex a; b ← hex b; c ← hex c; d ← hex d; Some (((a * 16 + b) * 16 + c) * 16 + d).

(** [utf16.DecodeRune] *)
Definition surrogates (hi lo : Z) : option Z :=
  if (55296 <=? hi) && (hi <? 56320) && (56320 <=? lo) && (lo <? 57344)
  then Some ((hi - 55296) * 1024 + (lo - 56320) + 65536) else None.

Definition is_surrogate (r : Z) : bool := (55296 <=? r) && (r <? 57344).

Definition simple_escape (r : Z) : option Z :=
  if (r =? 34) || (r =? 92) || (r =? 47) then Some r
  else if r =? 98 then Some 8 else if r =? 102 then Some 12 else if r =? 110 then Some 10
  else if r =? 114 then Some 13 else if r =? 116 then Some 9 else None.

(** [\uXXXX] at the start of the text. *)
Definition getu4 (rs : list Z) : option (Z * list Z) :=
  match rs with
  | x :: y :: a :: b :: c :: d :: rest =>
      if (x =? 92) && (y =? 117) then u ← hex4 a b c d; Some (u, rest) else None
  | _ => None
  end.

(** A string, after its opening quote: its runes, and the text after it. *)
Fixpoint pstr (rs : list Z) : option (list Z * list Z) :=
  match rs with
  | [] => None
  | c :: rs =>
      if c =? 34 then Some ([], rs)
      else if c =? 92 then
        match rs with
        | e :: rs =>
            if e =? 117 then
              match rs with
              | a1 :: a2 :: a3 :: a4 :: rs =>
                  u ← hex4 a1 a2 a3 a4;
                  if is_surrogate u then
                    match rs with
                    | x :: y :: b1 :: b2 :: b3 :: b4 :: rs' =>
                        match (if (x =? 92) && (y =? 117) then v ← hex4 b1 b2 b3 b4; surrogates u v else None) with
                        | Some r => '(s, rest) ← pstr rs'; Some (r :: s, rest)
                        | None => '(s, rest) ← pstr rs; Some (RuneError :: s, rest)
                        end
                    | _ => '(s, rest) ← pstr rs; Some (RuneError :: s, rest)
                    end
                  else '(s, rest) ← pstr rs; Some (u :: s, rest)
              | _ => None
              end
            else
              r ← simple_escape e; '(s, rest) ← pstr rs; Some (r :: s, rest)
        | [] => None
        end
      else if c <? 32 then None
      else '(s, rest) ← pstr rs; Some (c :: s, rest)
  end.

(** ** Numbers *)

Definition is_dig (r : Z) : bool := (48 <=? r) && (r <=? 57).

(** One or more digits. *)
Definition digits1 (rs : list Z) : option (list Z * list Z) :=
  match take_while is_dig rs with [] => None | ds => Some (ds, drop_while is_dig rs) end.

Definition pint (rs : list Z) : option (list Z * list Z) :=
  match rs with
  | 48 :: rest => Some ([48], rest)
  | _ => digits1 rs
  end.

Definition pfrac (rs : list Z) : option (list Z * list Z) :=
  match rs with
  | 46 :: rest => '(ds, rest) ← digits1 rest; Some (46 :: ds, rest)
  | _ => Some ([], rs)
  end.

Definition pexp (rs : list Z) : option (list Z * list Z) :=
  match rs with
  | e :: rest =>
      if (e =? 101) || (e =? 69) then
        match rest with
        | s :: rest' =>
            if (s =? 43) || (s =? 45) then '(ds, rest) ← digits1 rest'; Some (e :: s :: ds, rest)
            else '(ds, rest) ← digits1 rest; Some (e :: ds, rest)
        | [] => None
        end
      else Some ([], rs)
  | [] => Some ([], rs)
  end.

Definition pnum (rs : list Z) : option (list Z * list Z) :=
  let '(sign, rs) := match rs with 45 :: rest => ([45], rest) | _ => ([], rs) end in
  '(i, rs) ← pint rs; '(f, rs) ← pfrac rs; '(e, rs) ← pexp rs;
  Some (sign ++ i ++ f ++ e, rs).

(** ** Values *)

Fixpoint expect (word rs : list Z) : option (list Z) :=
  match word, rs with
  | [], _ => Some rs
  | w :: word, r :: rs => if w =? r then expect word rs else None
  | _ :: _, [] => None
  end.

Definition maxNestingDepth : Z := 10000.

Section values.
Context `{Floats}.

(** [pval] reads a value, [pelems] the elements of an array up to its bracket,
    [pmembers] the members of an object up to its brace. *)
Fixpoint pval (fuel : nat) (depth : Z) (rs : list Z) {struct fuel} : option (json * list Z) :=
  match fuel with
  | O => None
  | S fuel =>
      match skip_ws rs with
      | [] => None
      | c :: rs =>
          if c =? 34 then '(s, rest) ← pstr rs; Some (JStr (encode s), rest)
          else if c =? 116 then rest ← expect (runes "rue") rs; Some (JBool true, rest)
          else if c =? 102 then rest ← expect (runes "alse") rs; Some (JBool false, rest)
          else if c =? 110 then rest ← expect (runes "ull") rs; Some (JNull, rest)
          else if c =? 91 then
            if maxNestingDepth <=? depth then None else
            match skip_ws rs with
            | 93 :: rest => Some (JArr [], rest)
            | rs => '(l, rest) ← pelems fuel (depth + 1) rs; Some (JArr l, rest)
            end
          else if c =? 123 then
            if maxNestingDepth <=? depth then None else
            match skip_ws rs with
            | 125 :: rest => Some (JObj [], rest)
            | rs => '(o, rest) ← pmembers fuel (depth + 1) [] rs; Some (JObj o, rest)
            end
          else
            '(lit, rest) ← pnum (c :: rs);
            let lit := encode lit in
            if float_ok lit then Some (JNum lit, rest) else None
      end
  end
with pelems (fuel : nat) (depth : Z) (rs : list Z) {struct fuel} : option (list json * list Z) :=
  match fuel with
  | O => None
  | S fuel =>
      '(v, rs) ← pval fuel depth rs;
      match skip_ws rs with
      | 93 :: rest => Some ([v], rest)
      | 44 :: rest => '(l, rest) ← pelems fuel depth rest; Some (v :: l, rest)
      | _ => None
      end
  end
with pmembers (fuel : nat) (depth : Z) (o : object) (rs : list Z) {struct fuel} : option (object * list Z) :=
  match fuel with
  | O => None
  | S fuel =>
      match skip_ws rs with
      | 34 :: rs =>
          '(k, rs) ← pstr rs;
          match skip_ws rs with
          | 58 :: rs =>
              '(v, rs) ← pval fuel depth rs;
              let o := obj_set (encode k) v o in
              match skip_ws rs with
              | 125 :: rest => Some (o, rest)
              | 44 :: rest => pmembers fuel depth o rest
              | _ => None
              end
          | _ => None
          end
      | _ => None
      end
  end.

(** [json.Unmarshal] into a map: [null] leaves the nil map, another kind of value is
    an error. *)
Definition Unmarshal (text : string) : option object :=
  let rs := map rune (decode text) in
  '(v, rest) ← pval (2 * length rs + 2) 0 rs;
  match skip_ws rest, v with
  | [], JObj o => Some o
  | [], JNull => Some []
  | _, _ => None
  end.
End values.

(** ** Marshalling *)


(** [json.Marshal] escapes what HTML would mistake, and the two line separators of
    JavaScript. *)
Definition quote_rune (r : Z) : list Z :=
  if (r =? 34) || (r =? 92) then [92; r]
  else if r =? 8 then [92; 98] else if r =? 12 then [92; 102]
  else if r =? 10 then [92; 110] else if r =? 13 then [92; 114] else if r =? 9 then [92; 116]
  else if (r <? 32) || (r =? 60) || (r =? 62) || (r =? 38) then [92; 117; 48; 48; hex_digit (r / 16); hex_digit (r mod 16)]
  else if (r =? 8232) || (r =? 8233) then [92; 117; 50; 48; 50; hex_digit (r mod 16)]
  else [r].

(** A byte that is not UTF-8 is written as an escape of U+FFFD. *)
Definition quote_gorune (x : gorune) : list Z :=
  if (rune x =? RuneError) && negb (raw x =s encode_rune RuneError)
  then runes "\ufffd" else quote_rune (rune x).

Definition quote (s : string) : list Z := 34 :: concat (map quote_gorune (decode s)) ++ [34].

(** The members of an object: each name with the text of its value. *)
Definition member (kv : string * list Z) : list Z := quote kv.1 ++ 58 :: kv.2.

Fixpoint members (kvs : list (string * list Z)) : list Z :=
  match kvs with
  | [] => [125]
  | [kv] => member kv ++ [125]
  | kv :: kvs => member kv ++ 44 :: members kvs
  end.

Definition string_member (kv : string * string) : string * list Z := (kv.1, quote kv.2).

(** [json.Marshal] of a map from strings to strings, its keys in order. *)
Definition Marshal (kvs : list (string * string)) : string := encode (123 :: members (map string_member kvs)).

(** A field of a struct: a string, or an integer. *)
Inductive field := FStr (s : string) | FInt (z : Z).
Definition field_text (v : field) : list Z := match v with FStr s => quote s | FInt z => runes (Itoa z) end.

(** [json.Marshal] of a struct, its fields in the order of their declaration. *)
Definition MarshalStruct (fs : list (string * field)) : string :=
  encode (123 :: members (map (λ kv, (kv.1, field_text kv.2)) fs)).

(** ** Reading back what was written *)

Lemma hex_of_digit d : 0 <= d < 16 → hex (hex_digit d) = Some d.
Proof.
  intros Hd. assert (In d [0;1;2;3;4;5;6;7;8;9;10;11;12;13;14;15]) as Hin by (simpl; lia).
  simpl in Hin. by repeat destruct Hin as [<-|Hin].
Qed.

Lemma pstr_plain c rs : 32 <= c → c ≠ 34 → c ≠ 92 →
  pstr (c :: rs) = ('(s, rest) ← pstr rs; Some (c :: s, rest)).
Proof.
  intros H1 H2 H3. cbn [pstr]. rewrite (proj2 (Z.eqb_neq c 34)), (proj2 (Z.eqb_neq c 92)) by done.
  by rewrite (proj2 (Z.ltb_ge c 32)).
Qed.

Lemma pstr_u a b c d u rs : hex4 a b c d = Some u → is_surrogate u = false →
  pstr (92 :: 117 :: a :: b :: c :: d :: rs) = ('(s, rest) ← pstr rs; Some (u :: s, rest)).
Proof. intros Hu Hs. cbn [pstr]. cbn [Z.eqb Pos.eqb]. rewrite Hu. cbn [mbind option_bind]. by rewrite Hs. Qed.

Lemma pstr_escape e r rs : simple_escape e = Some r → e ≠ 117 →
  pstr (92 :: e :: rs) = ('(s, rest) ← pstr rs; Some (r :: s, rest)).
Proof. intros He Hu. cbn [pstr]. cbn [Z.eqb Pos.eqb]. rewrite (proj2 (Z.eqb_neq e 117)) by done. by rewrite He. Qed.

Lemma hex4_low r : 0 <= r < 256 → hex4 48 48 (hex_digit (r / 16)) (hex_digit (r mod 16)) = Some r.
Proof.
  intros Hr. unfold hex4. rewrite !hex_of_digit by (split; [apply Z.div_pos || apply Z.mod_pos_bound|
    apply Z.div_lt_upper_bound || apply Z.mod_pos_bound]; lia).
  change (hex 48) with (Some 0). simpl. f_equal. pose proof (Z.div_mod r 16). lia.
Qed.

Lemma pstr_rune r rs : scalar r = true →
  pstr (quote_rune r ++ rs) = ('(s, rest) ← pstr rs; Some (r :: s, rest)).
Proof.
  intros Hr. pose proof (scalar_spec r Hr) as Hr'. unfold quote_rune.
  destruct (Z.eqb_spec r 34) as [->|?]; [done|]. destruct (Z.eqb_spec r 92) as [->|?]; [done|]. simpl orb.
  do 5 (match goal with |- context [?a =? ?b] => destruct (Z.eqb_spec a b) as [->|?] end; [done|]).
  destruct ((r <? 32) || (r =? 60) || (r =? 62) || (r =? 38)) eqn:Elow.
  - assert (0 <= r < 63) by (rewrite !orb_true_iff, Z.ltb_lt, !Z.eqb_eq in Elow; lia).
    cbn [app]. apply pstr_u; [apply hex4_low; lia|]. unfold is_surrogate. by rewrite (proj2 (Z.leb_gt _ _)) by lia.
  - destruct ((r =? 8232) || (r =? 8233)) eqn:Els.
    + rewrite orb_true_iff, !Z.eqb_eq in Els. by destruct Els as [->| ->].
    + rewrite !orb_false_iff, Z.ltb_ge in Elow. apply pstr_plain; lia.
Qed.

(** What [encoding/json] keeps of a string: each byte that is not UTF-8 becomes U+FFFD. *)
Definition sanitized (s : string) : string := encode (map rune (decode s)).


Lemma in_range_spec lo hi c : in_range lo hi c = true → lo <= byteZ c <= hi.
Proof. unfold in_range. by intros [?%Z.leb_le ?%Z.leb_le]%andb_true_iff. Qed.

Lemma scalar_intro r : 0 <= r < 55296 ∨ 57344 <= r <= 1114111 → scalar r = true.
Proof. intros [?|?]; unfold scalar; zbool; rewrite ?orb_true_r; done. Qed.

Lemma decode_first_scalar c t : scalar (rune (decode_first c t)) = true.
Proof.
  pose proof (byteZ_range c). unfold decode_first.
  destruct (Z.ltb_spec (byteZ c) 128); [apply scalar_intro; simpl; lia|].
  destruct ((194 <=? byteZ c) && _) eqn:E2; [|destruct ((224 <=? byteZ c) && _) eqn:E3;
    [|destruct ((240 <=? byteZ c) && _) eqn:E4; [|done]]].
  - apply andb_true_iff in E2 as [?%Z.leb_le ?%Z.leb_le]. destruct t as [|c1 t]; [done|].
    destruct (is_cont c1) eqn:E; [|done]. apply in_range_spec in E. apply scalar_intro; simpl; unfold rune2; lia.
  - apply andb_true_iff in E3 as [?%Z.leb_le ?%Z.leb_le]. destruct t as [|c1 [|c2 t]]; [done..|].
    destruct (second3 _ c1 && is_cont c2) eqn:E; [|done]. apply andb_true_iff in E as [E' E%in_range_spec].
    apply scalar_intro; simpl; unfold rune3, second3 in *.
    destruct (Z.eqb_spec (byteZ c) 224); [|destruct (Z.eqb_spec (byteZ c) 237)];
      apply in_range_spec in E'; lia.
  - apply andb_true_iff in E4 as [?%Z.leb_le ?%Z.leb_le]. destruct t as [|c1 [|c2 [|c3 t]]]; [done..|].
    destruct (second4 _ c1 && is_cont c2 && is_cont c3) eqn:E; [|done].
    apply andb_true_iff in E as [[E' F2%in_range_spec]%andb_true_iff F3%in_range_spec].
    apply scalar_intro; simpl; unfold rune4, second4 in *.
    destruct (Z.eqb_spec (byteZ c) 240); [|destruct (Z.eqb_spec (byteZ c) 244)];
      apply in_range_spec in E'; lia.
Qed.

Lemma decode_scalar s : Forall (λ x, scalar (rune x) = true) (decode s).
Proof.
  unfold decode. generalize 0%nat as n. induction s as [|c s IH]; intros n; simpl; [done|].
  destruct n; [|apply IH]. constructor; [apply decode_first_scalar|apply IH].
Qed.

Lemma pstr_gorune x rs : scalar (rune x) = true →
  pstr (quote_gorune x ++ rs) = ('(s, rest) ← pstr rs; Some (rune x :: s, rest)).
Proof.
  intros Hx. unfold quote_gorune. destruct ((rune x =? RuneError) && _) eqn:E; [|by apply pstr_rune].
  apply andb_true_iff in E as [->%Z.eqb_eq _].
  change (runes "\ufffd") with [92; 117; 102; 102; 102; 100]. by apply pstr_u.
Qed.

Lemma pstr_goruneS l rest : Forall (λ x, scalar (rune x) = true) l →
  pstr (concat (map quote_gorune l) ++ 34 :: rest) = Some (map rune l, rest).
Proof.
  induction 1 as [|x l Hx _ IH]; [done|]. cbn [map concat]. rewrite <- app_assoc, pstr_gorune, IH by done. done.
Qed.

Lemma quote_app s rest : quote s ++ rest = 34 :: concat (map quote_gorune (decode s)) ++ 34 :: rest.
Proof. unfold quote. cbn [app]. by rewrite <- app_assoc. Qed.

Lemma pstr_quote s rest :
  pstr (concat (map quote_gorune (decode s)) ++ 34 :: rest) = Some (map rune (decode s), rest).
Proof. apply pstr_goruneS, decode_scalar. Qed.

(** ** Objects of strings *)

Definition string_object (kvs : list (string * string)) : object :=
  foldl (λ o kv, obj_set (sanitized kv.1) (JStr (sanitized kv.2)) o) [] kvs.

Section roundtrip.
Context `{Floats}.

Lemma skip_ws_solid c rs : ws c = false → skip_ws (c :: rs) = c :: rs.
Proof. unfold skip_ws. simpl. by intros ->. Qed.

Lemma pval_quote fuel d s rest : pval (S fuel) d (quote s ++ rest) = Some (JStr (sanitized s), rest).
Proof.
  rewrite quote_app. cbn [pval]. rewrite skip_ws_solid by done. cbn [Z.eqb Pos.eqb].
  by rewrite pstr_quote.
Qed.

Lemma pmembers_S fuel d o rs : pmembers (S fuel) d o rs
  = match skip_ws rs with
    | 34 :: rs =>
        '(k, rs) ← pstr rs;
        match skip_ws rs with
        | 58 :: rs =>
            '(v, rs) ← pval fuel d rs;
            match skip_ws rs with
            | 125 :: rest => Some (obj_set (encode k) v o, rest)
            | 44 :: rest => pmembers fuel d (obj_set (encode k) v o) rest
            | _ => None
            end
        | _ => None
        end
    | _ => None
    end.
Proof. done. Qed.

(** A text that reads as a value, in front of a comma or the closing brace. *)
Definition reads (text : list Z) (v : json) : Prop := ∀ fuel d c rest, c = 44 ∨ c = 125 →
  pval (S fuel) d (text ++ c :: rest) = Some (v, c :: rest).

Lemma reads_quote s : reads (quote s) (JStr (sanitized s)).
Proof. intros fuel d c rest _. apply pval_quote. Qed.

Lemma pmembers_step fuel d o k text v c rest : reads text v → c = 44 ∨ c = 125 →
  pmembers (S (S fuel)) d o (quote k ++ 58 :: text ++ c :: rest)
  = if c =? 125 then Some (obj_set (sanitized k) v o, rest) else pmembers (S fuel) d (obj_set (sanitized k) v o) rest.
Proof.
  intros Hv Hc. rewrite quote_app, pmembers_S, skip_ws_solid by done. cbv iota beta. rewrite pstr_quote.
  cbn [mbind option_bind]. rewrite skip_ws_solid by done. cbv iota beta. rewrite Hv by done. cbn [mbind option_bind].
  by destruct Hc as [->| ->]; rewrite skip_ws_solid by done.
Qed.

(** The object of members with the values they read as. *)
Definition object_of (kvs : list (string * (list Z * json))) (o : object) : object :=
  foldl (λ o kv, obj_set (sanitized kv.1) kv.2.2 o) o kvs.

Lemma pmembers_ok kvs o fuel d : kvs ≠ [] → (length kvs < fuel)%nat → Forall (λ kv, reads kv.2.1 kv.2.2) kvs →
  pmembers fuel d o (members (map (λ kv, (kv.1, kv.2.1)) kvs)) = Some (object_of kvs o, []).
Proof.
  revert o fuel. induction kvs as [|[k [text v]] kvs IH]; intros o fuel Hne Hf Hr; [done|].
  apply Forall_cons in Hr as [Hv Hr]. destruct fuel as [|[|fuel]]; simpl in Hf; [lia..|].
  assert (members (map (λ kv, (kv.1, kv.2.1)) ((k, (text, v)) :: kvs)) = quote k ++ 58 :: text ++
    match kvs with [] => [125] | _ => 44 :: members (map (λ kv, (kv.1, kv.2.1)) kvs) end) as ->.
  { cbn [map]. destruct kvs; unfold members at 1; fold members; unfold member; cbn [fst snd map]; by rewrite <- app_assoc. }
  destruct kvs as [|kv kvs].
  - rewrite (pmembers_step _ _ _ _ _ _ _ _ Hv) by auto. done.
  - rewrite (pmembers_step _ _ _ _ _ _ _ _ Hv) by auto. cbn [Z.eqb Pos.eqb]. rewrite IH by (done || lia). done.
Qed.

End roundtrip.

(** Every rune of the text is a scalar, and none is a control character. *)
Definition printable_rune (r : Z) : bool := scalar r && (32 <=? r).

Lemma hex_digit_printable d : 0 <= d < 16 → printable_rune (hex_digit d) = true.
Proof.
  intros Hd. unfold hex_digit. destruct (Z.ltb_spec d 10); unfold printable_rune; rewrite scalar_intro by lia;
    apply Z.leb_le; lia.
Qed.

Lemma quote_rune_printable r : scalar r = true → Forall (λ r, printable_rune r = true) (quote_rune r).
Proof.
  intros Hr. pose proof (scalar_spec r Hr) as Hr'. unfold quote_rune.
  assert (∀ d, 0 <= d < 16 → printable_rune (hex_digit d) = true) as Hd by apply hex_digit_printable.
  destruct ((r =? 34) || (r =? 92)) eqn:E1; [rewrite orb_true_iff, !Z.eqb_eq in E1; destruct E1 as [->| ->]; by repeat constructor|].
  do 5 (match goal with |- context [?a =? ?b] => destruct (Z.eqb_spec a b) as [->|?] end; [by repeat constructor|]).
  destruct ((r <? 32) || (r =? 60) || (r =? 62) || (r =? 38)) eqn:E2.
  - assert (0 <= r < 63) by (rewrite !orb_true_iff, Z.ltb_lt, !Z.eqb_eq in E2; lia).
    repeat (constructor; [done|]). constructor; [apply Hd; split; [apply Z.div_pos|apply Z.div_lt_upper_bound]; lia|].
    constructor; [apply Hd, Z.mod_pos_bound; lia|constructor].
  - destruct ((r =? 8232) || (r =? 8233)) eqn:E3.
    + repeat (constructor; [done|]). constructor; [apply Hd, Z.mod_pos_bound; lia|constructor].
    + constructor; [|constructor]. unfold printable_rune. rewrite Hr. simpl. apply Z.leb_le.
      rewrite !orb_false_iff, Z.ltb_ge in E2. lia.
Qed.

Lemma quote_printable s : Forall (λ r, printable_rune r = true) (quote s).
Proof.
  unfold quote. constructor; [done|]. apply Forall_app; split; [|by repeat constructor].
  pose proof (decode_scalar s) as Hs. induction Hs as [|x l Hx _ IH]; [constructor|].
  cbn [map concat]. apply Forall_app; split; [|done]. unfold quote_gorune.
  destruct (_ && _); [by repeat constructor|by apply quote_rune_printable].
Qed.

Lemma members_printable kvs : Forall (λ kv, Forall (λ r, printable_rune r = true) kv.2) kvs →
  Forall (λ r, printable_rune r = true) (123 :: members kvs).
Proof.
  intros Hv. constructor; [done|]. induction Hv as [|[k v] kvs Hkv Hv IH]; [by repeat constructor|].
  assert (Forall (λ r, printable_rune r = true) (member (k, v))) as Hm.
  { unfold member. apply Forall_app; split; [apply quote_printable|]. by constructor. }
  destruct kvs as [|kv kvs].
  - apply Forall_app; split; [done|by repeat constructor].
  - apply Forall_app; split; [done|by constructor].
Qed.

Lemma string_members_printable kvs : Forall (λ r, printable_rune r = true) (123 :: members (map string_member kvs)).
Proof. apply members_printable, Forall_map, Forall_true. intros kv. apply quote_printable. Qed.

Lemma printable_scalar l : Forall (λ r, printable_rune r = true) l → Forall (λ r, scalar r = true) l.
Proof. intros Hl. eapply Forall_impl; [done|]. by intros r [? _]%andb_true_iff. Qed.

Lemma rune_runes_of l : map rune (runes_of l) = l.
Proof. unfold runes_of. rewrite map_map. apply map_id. Qed.

Lemma length_members kvs : (length kvs ≤ length (members kvs))%nat.
Proof.
  induction kvs as [|x [|y l] IH]; [simpl; lia|cbn [members]; rewrite length_app; simpl; lia|].
  change (members (x :: y :: l)) with (member x ++ 44 :: members (y :: l)).
  rewrite length_app. cbn [length] in *. lia.
Qed.

(** Reading an object of members whose texts read as values. *)
Lemma Unmarshal_members `{Floats} kvs : Forall (λ kv, reads kv.2.1 kv.2.2) kvs →
  Forall (λ kv, Forall (λ r, printable_rune r = true) kv.2.1) kvs →
  Unmarshal (encode (123 :: members (map (λ kv, (kv.1, kv.2.1)) kvs))) = Some (object_of kvs []).
Proof.
  intros Hr Hp. unfold Unmarshal.
  rewrite decode_encode_nil by by apply printable_scalar, members_printable, Forall_map.
  rewrite rune_runes_of. destruct kvs as [|kv kvs]; [done|]. set (ms := members _).
  assert (length (kv :: kvs) < 2 * length (123%Z :: ms) + 1)%nat as Hlen.
  { pose proof (length_members (map (λ kv, (kv.1, kv.2.1)) (kv :: kvs))) as Hm. rewrite length_map in Hm. fold ms in Hm.
    cbn [length] in *. lia. }
  replace (2 * length (123%Z :: ms) + 2)%nat with (S (2 * length (123%Z :: ms) + 1)) by lia.
  revert Hlen. generalize (2 * length (123%Z :: ms) + 1)%nat as fuel. intros fuel Hlen.
  cbn [pval]. rewrite skip_ws_solid by done. cbn [Z.eqb Pos.eqb Z.leb Z.compare maxNestingDepth].
  assert (∃ rs, ms = 34 :: rs) as [rs Ers].
  { unfold ms. cbn [map members]. destruct (map _ kvs); unfold member, quote; eexists; done. }
  rewrite Ers, skip_ws_solid, <- Ers by done. cbv iota beta. unfold ms. by rewrite pmembers_ok.
Qed.

(** Reading a marshalled map of strings gives the map back, up to the bytes of keys
    and values that are not UTF-8. *)
Lemma Unmarshal_Marshal `{Floats} kvs : Unmarshal (Marshal kvs) = Some (string_object kvs).
Proof.
  pose proof (Unmarshal_members (map (λ kv, (kv.1, (quote kv.2, JStr (sanitized kv.2)))) kvs)) as Hu.
  rewrite map_map in Hu. cbn [fst snd] in Hu. unfold Marshal.
  change (λ x : string * string, (x.1, quote x.2)) with string_member in Hu. rewrite Hu.
  - f_equal. unfold object_of, string_object. generalize (@nil (string * json)). clear Hu.
    induction kvs as [|kv kvs IH]; intros o; [done|apply IH].
  - apply Forall_map, Forall_true. intros kv. apply reads_quote.
  - apply Forall_map, Forall_true. intros kv. apply quote_printable.
Qed.
