(* ===== verification/Diagnostics.v ===== *)
(** * Diagnostics (cmd/runmqserver/logging.go: logDiagnostics and what it calls)

    With DEBUG set: the owners and permissions of MQ's directories, and the summary of the
    first-failure data.  What [stat] says of a file, and the names of users and groups, are the
    class [Metadata]. *)
From S2P Require Import Prelude Utf8 GoStrings Paths Os.

Open Scope Z_scope.

(** The fields of [fs.FileInfo] and [syscall.Stat_t] that are logged: the mode and the time
    of change as text. *)
Record meta := Meta { Mode : string; Nlink : Z; Uid : Z; Gid : Z; Size : Z; ModTime : string }.

Class Metadata := {
  stat_meta : list string → meta;    (* of the file itself *)
  LookupId : string → option string;
  LookupGroupId : string → option string }.

Module Diagnostics.
Section diagnostics.
Context `{OS} `{Metadata}.

Definition getDebug : M bool :=
  debug ← Getenv "DEBUG"; mret ((debug =s "true") || (debug =s "1")).

(** [info] is of the file [fileName], a link perhaps; [stat] of the file it leads to. *)
Definition logFilePermission (path fileName : string) (info stat : meta) : M unit :=
  let fileOwner := default (Itoa (Uid stat)) (LookupId (Itoa (Uid stat))) in
  let fileGroup := default (Itoa (Gid stat)) (LookupGroupId (Itoa (Gid stat))) in
  log DEBUG (path +:+ ":  " +:+ Mode info +:+ " " +:+ Itoa (Nlink stat) +:+ " " +:+ fileOwner +:+ " " +:+ fileGroup
    +:+ " " +:+ Itoa (Size info) +:+ " " +:+ ModTime info +:+ " " +:+ fileName).

(** The path a symbolic link leads to. *)
Definition resolve (w : world) (p : list string) : list string :=
  match files w !! p with Some (Link t) => norm t | _ => p end.

(** An entry of a directory. *)
Definition logEntry (path name : string) : M unit :=
  let p := norm (JoinPath [path; name]) in
  match fault "lstat" p with
  | Some e => log DEBUG (path +:+ ": error retrieving info for " +:+ name +:+ ": " +:+ Error_ e)
  | None =>
      let childPath := CleanPath [path; name] in
      s ← Stat childPath;
      match s with
      | Err _ => log DEBUG (path +:+ ": unable to retrieve " +:+ name +:+ " information")
      | Ok _ => c ← gets (λ w, resolve w (norm childPath)); logFilePermission path name (stat_meta p) (stat_meta c)
      end
  end.

Definition logPathPermissions (path : string) : M unit :=
  fileInfo ← Stat path;
  match fileInfo with
  | Err e => log DEBUG (path +:+ ": error retrieving info: " +:+ Error_ e)
  | Ok Directory =>
      entries ← ReadDir path;
      match entries with
      | Err e => log DEBUG (path +:+ ": error reading directory: " +:+ Error_ e)
      | Ok entries => each (logEntry path) entries
      end
  | Ok _ => p ← gets (λ w, resolve w (norm path)); logFilePermission path (Base path) (stat_meta p) (stat_meta p)
  end.

Definition logFDCSummary : M unit :=
  '(output, _, err) ← exec "/opt/mqm/bin/ffstsummary" [];
  match err with
  | Some e => log DEBUG ("FDC Summary Error: " +:+ Error_ e)
  | None => if negb (output =s "") then log DEBUG ("FDC summary: " +:+ output) else mret tt
  end.

Definition diagnosticPaths : list string :=
  ["/mnt/"; "/mnt/mqm"; "/mnt/mqm/data"; "/mnt/mqm-log/log"; "/mnt/mqm-data/qmgrs"; "/var/mqm"; "/var/mqm/errors";
   "/etc/mqm"; "/run"].

Definition logDiagnostics : M unit :=
  debug ← getDebug;
  if debug : bool then
    _ ← log DEBUG "--- Start Diagnostics ---";
    _ ← each logPathPermissions diagnosticPaths;
    _ ← logFDCSummary;
    log DEBUG "---  End Diagnostics  ---"
  else mret tt.

End diagnostics.

#[export] Instance no_metadata : Metadata := {|
  stat_meta _ := Meta "-rw-rw----" 1 1001 0 0 "Jan  1 00:00"; LookupId _ := None; LookupGroupId _ := None |}.

End Diagnostics.
