(* ===== verification/Logger.v ===== *)
(** * The logger (pkg/logger/logger.go) and its writers (pkg/syncwriter/syncwriter.go)

    A log call formats one entry as text or JSON and writes it through a
    [SyncWriter], which gives whole messages to the stream.  The formatted time
    stamp is an argument; a message is given with its arguments interpolated. *)
From S2P Require Import Prelude Utf8 GoStrings Os Json.

Open Scope Z_scope.

Module Logger.

Definition lf : string := s1 "010".

Record Logger := Fields {
  debug : bool; json : bool; processName : string; pid : string;
  serverName : string; host : string; userName : string }.

(** The program's name and process number and the current user are arguments; a user that is not known
    is the empty string. *)
Definition NewLogger `{OS} (arg0 : string) (getpid : Z) (current : res string) (debug json : bool)
    (serverName : string) : res Logger :=
  host ← hostname;
  Ok (Fields debug json arg0 (Itoa getpid) serverName host (match current with Ok u => u | Err _ => "" end)).

Definition debugLevel : string := "DEBUG".
Definition infoLevel : string := "INFO".
Definition errorLevel : string := "ERROR".

(** The map [entry], in the order [json.Marshal] writes its keys. *)
Definition entry (l : Logger) (now level msg : string) : list (string * string) :=
  [("host", host l); ("ibm_datetime", now); ("ibm_processId", pid l); ("ibm_processName", processName l);
   ("ibm_serverName", serverName l); ("ibm_userName", userName l); ("loglevel", level); ("message", msg);
   ("type", "mq_containerlog")].

Fixpoint get (k : string) (e : list (string * string)) : string :=
  match e with [] => "" | (k', v) :: e => if k =s k' then v else get k e end.

Definition format (l : Logger) (e : list (string * string)) : string :=
  if json l then Marshal e else get "ibm_datetime" e +:+ " " +:+ get "message" e +:+ lf.

(** What one call writes to the stream. *)
Definition log (l : Logger) (now level msg : string) : string :=
  let s := format l (entry l now level msg) in
  if json l then s +:+ lf else s.

Definition Debug (l : Logger) (now msg : string) : string :=
  if debug l then
    if json l then log l now debugLevel msg else log l now debugLevel ("DEBUG: " +:+ msg)
  else "".
Definition Print (l : Logger) (now msg : string) : string := log l now infoLevel msg.

(** With a format: [msg] is what [fmt.Sprintf] makes of it.  The prefix of [Debugf] is put before the format. *)
Definition Debugf (l : Logger) (now msg : string) : string :=
  if debug l then
    if json l then log l now debugLevel msg else log l now debugLevel ("DEBUG: " +:+ msg)
  else "".
Definition Printf (l : Logger) (now msg : string) : string := log l now infoLevel msg.
Definition Errorf (l : Logger) (now msg : string) : string := log l now errorLevel msg.

Definition Println (l : Logger) (now msg : string) : string := Print l now msg.
Definition PrintString (l : Logger) (now msg : string) : string := log l now infoLevel msg.
Definition Error (l : Logger) (now msg : string) : string := log l now errorLevel msg.
Definition Fatalf (l : Logger) (now msg : string) : string := log l now "FATAL" msg.

(** ** JSON entries are single lines that read back as the entry *)

Lemma sanitized_valid s : valid_utf8 s = true → sanitized s = s.
Proof.
  intros (l & Hl & ->)%valid_utf8_runes. unfold sanitized. rewrite decode_encode_nil by done.
  by rewrite rune_runes_of.
Qed.

(** A line feed in a text of scalars is the rune 10. *)
Lemma encode_rune_no_lf r : scalar r = true → r ≠ 10 → no_byte "010" (encode_rune r) = true.
Proof.
  intros Hr Hn. pose proof (scalar_spec r Hr) as Hr'. unfold encode_rune. rewrite Hr.
  assert (∀ z, 0 <= z < 256 → z ≠ 10 → (byte_of z =b "010") = false) as Hb.
  { intros z Hz Hne. apply Ascii.eqb_neq. intros E. apply (f_equal byteZ) in E.
    rewrite byteZ_of in E by done. by change (byteZ "010") with 10 in E. }
  destruct (Z.ltb_spec r 128); [|destruct (Z.ltb_spec r 2048); [|destruct (Z.ltb_spec r 65536)]];
    cbn [no_byte s1 s2 s3 s4]; rewrite !Hb; try done; zdiv.
Qed.

Lemma encode_no_lf l : Forall (λ r, scalar r = true) l → Forall (λ r, r ≠ 10) l → no_byte "010" (encode l) = true.
Proof.
  intros Hl Hn. induction Hl as [|r l Hr _ IH]; [done|]. apply Forall_cons in Hn as [Hrn Hn].
  rewrite encode_cons, no_byte_all, all_bytes_app, <- !no_byte_all, encode_rune_no_lf, IH by done. done.
Qed.

(** ** The properties *)



End Logger.

(** ** Synchronised writers *)

Module SyncWriter.

(** *** [For]: one writer per stream *)

Inductive stream := Stdout | Stderr | Other (n : nat).

#[export] Instance stream_eq_dec : EqDecision stream.
Proof. solve_decision. Defined.

Inductive mutex := sharedStdoutStderrLock | Own (n : nat).

#[export] Instance mutex_eq_dec : EqDecision mutex.
Proof. solve_decision. Defined.

Record syncWriter := SyncWriter { output : stream; writeLock : mutex }.

(** [syncWriters], and how many locks have been made. *)
Record registry := Registry { syncWriters : list (stream * syncWriter); locks : nat }.

Fixpoint find (w : stream) (l : list (stream * syncWriter)) : option syncWriter :=
  match l with [] => None | (w', s) :: l => if decide (w = w') then Some s else find w l end.

Definition new_lock (w : stream) (n : nat) : mutex * nat :=
  match w with Other _ => (Own n, S n) | _ => (sharedStdoutStderrLock, n) end.

Definition For (w : stream) (r : registry) : syncWriter * registry :=
  match find w (syncWriters r) with
  | Some writer => (writer, r)
  | None =>
      let writer := SyncWriter w (new_lock w (locks r)).1 in
      (writer, Registry ((w, writer) :: syncWriters r) (new_lock w (locks r)).2)
  end.

Fixpoint Fors (ws : list stream) (r : registry) : registry :=
  match ws with [] => r | w :: ws => Fors ws (For w r).2 end.

(** *** [Write]: the whole message, or an error *)

(** [answers]: what the underlying writer does at each call, how many bytes it takes
    and whether it reports an error.  The result: bytes written, error, the stream. *)
Fixpoint Write (answers : list (nat * bool)) (p out : string) (bytesWritten : nat) : option (nat * bool * string) :=
  match p with
  | "" => Some (bytesWritten, false, out)
  | _ =>
      match answers with
      | [] => None
      | (n, err) :: answers =>
          let n := Nat.min n (String.length p) in
          if err then Some ((bytesWritten + n)%nat, true, out +:+ take_bytes n p)
          else Write answers (drop_bytes n p) (out +:+ take_bytes n p) (bytesWritten + n)
      end
  end.

Lemma take_drop_bytes n s : take_bytes n s +:+ drop_bytes n s = s.
Proof.
  revert n. induction s as [|c s IH]; intros [|n]; simpl; rewrite ?sapp_nil_l; try done.
  rewrite sapp_cons. by rewrite IH.
Qed.

Lemma length_take_bytes n s : (n ≤ String.length s)%nat → String.length (take_bytes n s) = n.
Proof.
  revert n. induction s as [|c s IH]; intros [|n] Hn; simpl in *; try done; try lia. by rewrite IH by lia.
Qed.

(** However the stream splits them, the bytes it is given are a prefix of the
    message, as many as are reported, and all of it unless an error is reported. *)
Lemma write_prefix answers p out n err out' : Write answers p out 0 = Some (n, err, out') →
  ∃ sent rest, p = sent +:+ rest ∧ out' = out +:+ sent ∧ n = String.length sent ∧ (err = false → rest = "").
Proof.
  assert (∀ k, Write answers p out k = Some (n, err, out') →
    ∃ sent rest, p = sent +:+ rest ∧ out' = out +:+ sent ∧ n = (k + String.length sent)%nat ∧ (err = false → rest = "")) as Hg.
  2: { intros E. by apply (Hg 0%nat). }
  revert p out. induction answers as [|[m e] answers IH]; intros p out k; destruct p as [|c p]; simpl; try done.
  1,2: intros [= <- <- <-]; exists "", ""; rewrite !sapp_nil_r; simpl; split_and!; (done || lia).
  set (q := String c p). set (j := Nat.min m (S (String.length p))).
  assert (String.length (take_bytes j q) = j) as Hj by (apply length_take_bytes; simpl; lia).
  destruct e.
  - intros [= <- <- <-]. exists (take_bytes j q), (drop_bytes j q).
    rewrite take_drop_bytes, Hj. done.
  - intros E. apply IH in E as (sent & rest & E & -> & -> & Hr).
    exists (take_bytes j q +:+ sent), rest. rewrite !sapp_assoc, <- E, take_drop_bytes, slength_app, Hj.
    split_and!; [done|done|lia|done].
Qed.

Example write_split : ∃ sent rest, "hello" = sent +:+ rest ∧ "hello" = "" +:+ sent ∧ 5%nat = String.length sent
  ∧ (false = false → rest = "").
Proof. apply (write_prefix [(2, false); (9, false)]%nat "hello" "" 5 false "hello"). reflexivity. Qed.

(** *** Writers that share a lock *)

(** A goroutine has the lock, with the part of its message not yet written; the
    messages are in the order the lock was taken. *)
Record state := State {
  held : option (nat * string); out : string; messages : list (nat * string) }.

Inductive step : state → state → Prop :=
| step_lock t m s : held s = None → step s (State (Some (t, m)) (out s) (messages s ++ [(t, m)]))
| step_write t p s n : held s = Some (t, p) →
    step s (State (Some (t, drop_bytes n p)) (out s +:+ take_bytes n p) (messages s))
| step_unlock t s : held s = Some (t, "") → step s (State None (out s) (messages s)).

Definition whole (s : state) : string := sconcat (messages s).*2.

Lemma step_whole s s' : step s s' →
  whole s = out s +:+ match held s with Some (_, p) => p | None => "" end →
  whole s' = out s' +:+ match held s' with Some (_, p) => p | None => "" end.
Proof.
  unfold whole. intros [t m s0 Hh|t p s0 n Hh|t s0 Hh] E; rewrite Hh in E; simpl in *.
  - rewrite fmap_app, sconcat_app, E, sapp_nil_r. f_equal. apply sconcat_singleton.
  - by rewrite E, sapp_assoc, take_drop_bytes.
  - done.
Qed.

Lemma rtc_whole s s' : rtc step s s' →
  whole s = out s +:+ match held s with Some (_, p) => p | None => "" end →
  whole s' = out s' +:+ match held s' with Some (_, p) => p | None => "" end.
Proof. induction 1 as [|s1 s2 s3 H1 _ IH]; [done|]. intros E. by eapply IH, step_whole. Qed.

(** *** The registry gives one lock per stream, and one to both standard streams *)

(** A registered writer is for its stream; its lock is the shared one for the
    standard streams, and one of its own otherwise. *)
Record registered (r : registry) : Prop := {
  reg_output : ∀ w s, find w (syncWriters r) = Some s → output s = w;
  reg_lock : ∀ w s, find w (syncWriters r) = Some s →
    match w with
    | Other _ => ∃ n, writeLock s = Own n ∧ (n < locks r)%nat
    | _ => writeLock s = sharedStdoutStderrLock
    end;
  reg_separate : ∀ w w' s s', find w (syncWriters r) = Some s → find w' (syncWriters r) = Some s' →
    writeLock s = writeLock s' → writeLock s ≠ sharedStdoutStderrLock → w = w' }.

Lemma find_new w w' s l : find w' ((w, s) :: l) = if decide (w' = w) then Some s else find w' l.
Proof. done. Qed.

Lemma For_found w r : find w (syncWriters (For w r).2) = Some (For w r).1.
Proof.
  unfold For. destruct (find w (syncWriters r)) as [s|] eqn:E; [done|].
  cbn [fst snd syncWriters]. by rewrite find_new, decide_True.
Qed.

Lemma For_keeps w w' r s : find w' (syncWriters r) = Some s → find w' (syncWriters (For w r).2) = Some s.
Proof.
  intros E. unfold For. destruct (find w (syncWriters r)) eqn:Ew; [done|].
  cbn [fst snd syncWriters]. rewrite find_new, decide_False; [done|]. intros ->. by rewrite E in Ew.
Qed.

Lemma new_lock_fresh w w' s r : registered r → find w' (syncWriters r) = Some s →
  writeLock s = (new_lock w (locks r)).1 → writeLock s = sharedStdoutStderrLock.
Proof.
  intros [_ Hl _] E. apply Hl in E. destruct w'; try done. destruct E as (k & -> & Hk).
  destruct w; simpl; try done. intros [= ->]. lia.
Qed.

Lemma For_registered w r : registered r → registered (For w r).2.
Proof.
  intros Hr. pose proof Hr as [Ho Hl Hs]. unfold For. destruct (find w (syncWriters r)) eqn:E; [done|].
  split; cbn [snd syncWriters locks].
  - intros w' s. rewrite find_new. case_decide; [by intros [= <-]|]. apply Ho.
  - intros w' s. rewrite find_new. case_decide as Hw.
    + intros [= <-]. subst w'. destruct w; simpl; eauto.
    + intros E'. apply Hl in E'. destruct w'; try done. destruct E' as (m & -> & Hm).
      exists m. split; [done|]. destruct w; simpl; lia.
  - intros w1 w2 s1 s2. rewrite !find_new. case_decide as H1; case_decide as H2; subst; try done.
    + intros [= <-] E2 Heq Hne. simpl in *. destruct Hne. rewrite Heq. by eapply new_lock_fresh.
    + intros E1 [= <-] Heq Hne. simpl in *. destruct Hne. by eapply new_lock_fresh.
    + apply Hs.
Qed.

Lemma Fors_registered ws r : registered r → registered (Fors ws r).
Proof. revert r. induction ws as [|w ws IH]; intros r Hr; [done|]. by apply IH, For_registered. Qed.

Lemma Fors_keeps ws w r s : find w (syncWriters r) = Some s → find w (syncWriters (Fors ws r)) = Some s.
Proof. revert r. induction ws as [|w' ws IH]; intros r E; [done|]. by apply IH, For_keeps. Qed.

(** Calls of [For] for the same stream give the same writer, whatever calls come
    between; the two standard streams have the same lock, and two other streams
    different ones. *)
Lemma writers_shared ws ws' w w' :
  let r := Fors ws (Registry [] 0) in
  let s := (For w r).1 in let s' := (For w' (Fors ws' (For w r).2)).1 in
  (w = w' → s = s')
  ∧ (w ∈ [Stdout; Stderr] → w' ∈ [Stdout; Stderr] → writeLock s = writeLock s')
  ∧ (w ∉ [Stdout; Stderr] → w ≠ w' → writeLock s ≠ writeLock s').
Proof.
  intros r s s'. set (r1 := Fors ws' (For w r).2).
  assert (registered r1) as H1.
  { apply Fors_registered, For_registered, Fors_registered. by split. }
  pose proof (For_registered w' r1 H1) as [_ Hl Hs].
  assert (find w (syncWriters (For w' r1).2) = Some s) as Es.
  { apply For_keeps, Fors_keeps, For_found. }
  assert (find w' (syncWriters (For w' r1).2) = Some s') as Es' by apply For_found.
  clearbody s s' r1. clear r. split; [|split].
  - intros <-. rewrite Es in Es'. by simplify_eq.
  - intros Hw Hw'. apply Hl in Es, Es'. apply list_elem_of_In in Hw, Hw'. simpl in Hw, Hw'.
    destruct Hw as [<-|[<-|[]]], Hw' as [<-|[<-|[]]]; congruence.
  - intros Hw Hne Heq. apply Hne. eapply Hs; [done..|]. apply Hl in Es.
    destruct w; [set_solver..|]. by destruct Es as (n' & -> & _).
Qed.



End SyncWriter.
