(* ===== verification/ConsoleLog.v ===== *)
(** * The console log (cmd/runmqserver/logging.go)

    What the main process mirrors from MQ's log files to the console: the
    configuration by environment variables, the text form of a JSON message, and
    the functions that mirror one line.  [None] is a run-time panic.  Parameters:
    what depends on float64 and Unicode tables ([Floats], [Fmt]), the time stamp
    of the clock. *)
From S2P Require Import Prelude Utf8 GoStrings Paths Os Json Diagnostics.

Open Scope Z_scope.

Definition lf : string := s1 "010".

(** What [fmt] prints beyond the basic verbs: float64 with [%#v], and Unicode's
    printable runes above ASCII. *)
Class Fmt := {
  float_sharp : string → string;
  IsPrint : Z → bool;
  timestamp : Z → string;
  (** the text of the error of [json.Unmarshal] *)
  json_error : string → string }.

Definition Print (msg : string) : M unit := log RAW msg.

Module ConsoleLog.

(** ** [fmt] on the values of a JSON object *)

Section fmt.
Context `{Floats, Fmt}.

Definition bool_v (b : bool) : string := if b then "true" else "false".

Definition key_le (x y : string * string) : Prop := String.le x.1 y.1.
#[export] Instance key_le_dec : RelDecision key_le.
Proof. intros x y. unfold key_le. apply _. Defined.

Definition map_text (kvs : list (string * string)) : string :=
  "map[" +:+ Join (map (λ kv, kv.1 +:+ ":" +:+ kv.2) (merge_sort key_le kvs)) " " +:+ "]".

(** [%v] *)
Fixpoint fmt_v (j : json) : string :=
  match j with
  | JNull => "<nil>"
  | JBool b => bool_v b
  | JNum n => float_v n
  | JStr s => s
  | JArr l => "[" +:+ Join (map fmt_v l) " " +:+ "]"
  | JObj o => map_text (map (λ kv, (kv.1, fmt_v kv.2)) o)
  end.

(** [%s] of an element, and of an argument, which can be nil. *)
Fixpoint fmt_s (j : json) : string :=
  match j with
  | JNull => "<nil>"
  | JBool b => "%!s(bool=" +:+ bool_v b +:+ ")"
  | JNum n => "%!s(float64=" +:+ float_v n +:+ ")"
  | JStr s => s
  | JArr l => "[" +:+ Join (map fmt_s l) " " +:+ "]"
  | JObj o => map_text (map (λ kv, (kv.1, fmt_s kv.2)) o)
  end.
Definition arg_s (j : option json) : string :=
  match j with None | Some JNull => "%!s(<nil>)" | Some j => fmt_s j end.

(** [strconv.Quote] *)
Definition Quote : string → string := QuoteWith IsPrint.

(** [%#v] *)
Fixpoint fmt_sharp (j : json) : string :=
  match j with
  | JNull => "interface {}(nil)"
  | JBool b => bool_v b
  | JNum n => float_sharp n
  | JStr s => Quote s
  | JArr l => "[]interface {}{" +:+ Join (map fmt_sharp l) ", " +:+ "}"
  | JObj o =>
      "map[string]interface {}{"
      +:+ Join (map (λ kv, Quote kv.1 +:+ ":" +:+ kv.2) (merge_sort key_le (map (λ kv, (kv.1, fmt_sharp kv.2)) o))) ", "
      +:+ "}"
  end.
Definition arg_sharp (j : json) : string := match j with JNull => "<nil>" | j => fmt_sharp j end.

(** [%-13s] *)
Fixpoint spaces (n : nat) : string := match n with O => "" | S n => String " " (spaces n) end.
Definition pad13 (s : string) : string := s +:+ spaces (13 - length (decode s)).

(** Type assertions to [string] and [float64] *)
Definition as_string (j : json) : option string := match j with JStr s => Some s | _ => None end.
Definition as_float (j : json) : option string := match j with JNum n => Some n | _ => None end.

(** ** [formatBasic] *)

(** [for k, v := range obj], in some order. *)
Fixpoint inserts_of (o : object) : option (list string) :=
  match o with
  | [] => Some []
  | (k, v) :: o =>
      if HasPrefix k "ibm_commentInsert" then
        l ← inserts_of o; Some ((Replace k "ibm_comment" "Comment" (Some 1%nat) +:+ "(" +:+ fmt_v v +:+ ")") :: l)
      else if HasPrefix k "ibm_arithInsert" then
        n ← as_float v;
        l ← inserts_of o;
        Some (if negb (float_zero n)
              then (Replace k "ibm_arith" "Arith" (Some 1%nat) +:+ "(" +:+ fmt_v v +:+ ")") :: l else l)
      else inserts_of o
  end.

Definition checkFields : list string :=
  ["ibm_audit_eventName"; "ibm_audit_eventSequenceNumber"; "ibm_audit_outcome"; "ibm_audit_reason.reasonCode";
   "ibm_audit_reason.reasonType"; "ibm_audit_observer.id"; "ibm_audit_observer.name";
   "ibm_audit_initiator.host.address"; "ibm_audit_initiator.host.agent"; "ibm_audit_target.id";
   "ibm_audit_target.host.address"; "ibm_audit_target.credential.token"; "ibm_audit_target.method";
   "ibm_audit_target.name"; "ibm_audit_target.jmx.mbean.action"; "ibm_audit_target.jmx.mbean.name";
   "ibm_audit_target.session"; "ibm_audit_eventTime"].

Definition audit_field (obj : object) (field : string) : string :=
  match obj_get field obj with
  | None => ""
  | Some fieldVal => " " +:+ TrimPrefix field "ibm_audit_" +:+ "=" +:+ arg_sharp fieldVal
  end.

Definition liberty_audit (obj : object) (timestamp : string) : string :=
  timestamp +:+ " AUDIT:" +:+ sconcat (map (audit_field obj) checkFields) +:+ lf.

Definition trace_level (logLevelTmp : string) : option string :=
  if logLevelTmp =s "AUDIT" then Some "A" else if logLevelTmp =s "INFO" then Some "I"
  else if logLevelTmp =s "EVENT" then Some "1" else if logLevelTmp =s "ENTRY" then Some ">"
  else if logLevelTmp =s "EXIT" then Some "<" else if logLevelTmp =s "FINE" then Some "1"
  else if logLevelTmp =s "FINER" then Some "2" else if logLevelTmp =s "FINEST" then Some "3"
  else match logLevelTmp with "" => None | String c _ => Some (encode_rune (byteZ c)) end.

(** A field that is nil or missing is the empty string. *)
Definition field_or_empty (obj : object) (k : string) : option string :=
  match obj_get k obj with None | Some JNull => Some "" | Some j => as_string j end.

Definition last_element (s : string) : string := List.last (Split s ".") "".
Definition first13 (s : string) : string := if 13 <? Z.of_nat (String.length s) then take_bytes 13 s else s.

(** The class name is cut when the module's short name is longer than 13 bytes, which
    it no longer is; [None] is a slice out of range. *)
Definition short_class (srtModuleName ibmClassName : string) : option string :=
  let srtIbmClassName := last_element ibmClassName in
  if 13 <? Z.of_nat (String.length srtModuleName) then
    if Z.of_nat (String.length srtIbmClassName) <? 13 then None else Some (take_bytes 13 srtIbmClassName)
  else Some srtIbmClassName.

(** The trace line; [Some None] when no format applies. *)
Definition liberty_trace (obj : object) (timeStamp : string) : option (option string) :=
  match obj_get "loglevel" obj with
  | None | Some JNull => Some None
  | Some lvl =>
      threadID ← field_or_empty obj "ibm_threadId";
      logLevelTmp ← as_string lvl;
      logLevel ← trace_level logLevelTmp;
      mod_ ← field_or_empty obj "module";
      let srtModuleName := first13 (last_element mod_) in
      ibmClassName ← field_or_empty obj "ibm_className";
      srtIbmClassName ← short_class srtModuleName ibmClassName;
      ibmMethodName ← field_or_empty obj "ibm_methodName";
      message ← field_or_empty obj "message";
      let start := timeStamp +:+ " " +:+ threadID +:+ " " in
      let module_level := pad13 srtModuleName +:+ " " +:+ logLevel +:+ " " in
      Some (
        if (logLevel =s "A") || (logLevel =s "I") then
          Some (start +:+ module_level +:+ ibmClassName +:+ " " +:+ ibmMethodName +:+ " " +:+ message +:+ lf)
        else if logLevelTmp =s "EVENT" then Some (start +:+ module_level +:+ message +:+ lf)
        else if (logLevel =s ">") || (logLevel =s "<") then
          Some (start +:+ module_level +:+ ibmMethodName +:+ " " +:+ message +:+ lf)
        else if (logLevelTmp =s "FINE") || (logLevel =s "2") || (logLevel =s "3") then
          Some (start +:+ pad13 srtIbmClassName +:+ " " +:+ logLevel +:+ " " +:+ ibmClassName +:+ " "
                +:+ ibmMethodName +:+ " " +:+ message +:+ lf)
        else None)
  end.

(** [sort.Strings] *)
Definition sorted (l : list string) : list string := merge_sort String.le l.

(** The message after the escape of its line feeds. *)
Definition escaped (obj : object) : option object :=
  match obj_get "message" obj with
  | None => Some obj
  | Some m => m ← as_string m; Some (obj_set "message" (JStr (ReplaceAll m lf "\n")) obj)
  end.

Definition formatBasic (obj : object) : option string :=
  inserts ← inserts_of obj;
  match sorted inserts with
  | (_ :: _) as inserts =>
      Some (arg_s (obj_get "ibm_datetime" obj) +:+ " " +:+ arg_s (obj_get "message" obj)
            +:+ " [" +:+ Join inserts ", " +:+ "]" +:+ lf)
  | [] =>
      d ← obj_get "ibm_datetime" obj; d ← as_string d;
      let timeStamp := Replace d "+0000" "Z" (Some 1%nat) in
      obj ← escaped (obj_set "ibm_datetime" (JStr timeStamp) obj);
      let plain := timeStamp +:+ " " +:+ arg_s (obj_get "message" obj) +:+ lf in
      match obj_get "type" obj with
      | Some (JStr t) =>
          if t =s "liberty_audit" then Some (liberty_audit obj timeStamp)
          else if t =s "liberty_trace" then
            l ← liberty_trace obj timeStamp;
            Some (default plain l)
          else Some plain
      | _ => Some plain
      end
  end.
End fmt.

(** ** Configuration *)

Section config.
Context `{OS}.

Definition getLogFormat : M string :=
  f ← Getenv "MQ_LOGGING_CONSOLE_FORMAT";
  let logFormat := ToLower (TrimSpace f) in
  logFormat ← (if logFormat =s "" then f ← Getenv "LOG_FORMAT"; mret (ToLower (TrimSpace f)) else mret logFormat);
  mret (if negb (logFormat =s "") && ((logFormat =s "basic") || (logFormat =s "json")) then logFormat else "basic").

Definition getMQLogConsoleSource : M string :=
  s ← Getenv "MQ_LOGGING_CONSOLE_SOURCE"; mret (ToLower (TrimSpace s)).

(** The loop over the sources; [retValue] is what it has found so far. *)
Fixpoint valid_sources (srcs : list string) (retValue : bool) : bool :=
  match srcs with
  | [] => retValue
  | src :: srcs =>
      let src := TrimSpace src in
      if (src =s "qmgr") || (src =s "web") || (src =s "mqsc") || (src =s "") then valid_sources srcs true
      else false
  end.

Definition isLogConsoleSourceValid : M bool :=
  mqLogSource ← getMQLogConsoleSource;
  mret (if mqLogSource =s "" then true else valid_sources (Split mqLogSource ",") false).

Definition replaced_message : string :=
  "Environment variable MQ_ENABLE_EMBEDDED_WEB_SERVER_LOG has now been replaced. Use MQ_LOGGING_CONSOLE_SOURCE instead.".

Fixpoint source_loop (source : string) (logSrcArr : list string) : M bool :=
  match logSrcArr with
  | [] => mret false
  | arr :: logSrcArr =>
      let arr := TrimSpace arr in
      if arr =s "qmgr" then if source =s "qmgr" then mret true else source_loop source logSrcArr
      else if arr =s "web" then
        if source =s "web" then
          old ← Getenv "MQ_ENABLE_EMBEDDED_WEB_SERVER_LOG";
          _ ← (if negb (old =s "") then log INFO replaced_message else mret tt);
          mret true
        else source_loop source logSrcArr
      else if arr =s "mqsc" then if source =s "mqsc" then mret true else source_loop source logSrcArr
      else source_loop source logSrcArr
  end.

Definition checkLogSourceForMirroring (source : string) : M bool :=
  logsrcs ← getMQLogConsoleSource;
  if logsrcs =s "" then mret ((source =s "qmgr") || (source =s "web"))
  else source_loop source (Split logsrcs ",").

Definition canMQSCLogBeMirroredToConsole (message : string) : bool :=
  (0 <? Z.of_nat (String.length message))
  && negb (HasPrefix (TrimSpace message) ": *") && negb (TrimSpace message =s ":").

(** The regular expression [AMQ[0-9]+E:], at the start of the text and anywhere in it. *)
Fixpoint digits_then (suffix : string) (seen : bool) (s : string) : bool :=
  (seen && HasPrefix s suffix)
  || match s with String c s => is_digit c && digits_then suffix true s | "" => false end.

Definition amq_here (s : string) : bool :=
  match s with
  | String "A" (String "M" (String "Q" s)) => digits_then "E:" false s
  | _ => false
  end.

Fixpoint amq_error (s : string) : bool :=
  amq_here s || match s with String _ s => amq_error s | "" => false end.

Definition determineMQSCLogLevel (message : string) : string :=
  if amq_error message then "ERROR" else "INFO".

Definition isExcludedMsgIdPresent (msg : string) (envExcludeIds : list string) : bool :=
  existsb (λ id, negb (id =s "") && Contains msg (TrimSpace id)) envExcludeIds.

(** ** Mirroring one line *)

Context `{Floats, Fmt}.

Definition processLogMessage (msg : string) : option object := Unmarshal msg.

(** [None] when the message has no host. *)
Definition filterQMLogMessage (obj : object) : M (option bool) :=
  mi ← Getenv "MQ_MULTI_INSTANCE";
  match hostname with
  | Ok h =>
      if mi =s "true"
      then mret (j ← obj_get "host" obj; host ← as_string j; Some (negb (Contains host h)))
      else mret (Some false)
  | Err _ => mret (Some false)
  end.

Definition is_json (msg : string) : bool := HasPrefix msg "{".

Definition excluded (msg : string) : M bool :=
  ids ← Getenv "MQ_LOGGING_CONSOLE_EXCLUDE_ID"; mret (isExcludedMsgIdPresent msg (Split (ToUpper ids) ",")).

(** Both closures: [pretty] is what is printed for a JSON message, [other] what is done
    for another line.  The result says whether the line counts as mirrored. *)
Definition mirrorFunc (pretty : object → option (M unit)) (failed : M unit) (other : M unit)
    (msg : string) (isQMLog : bool) : M (option bool) :=
  x ← excluded msg;
  if (x : bool) then mret (Some false) else
  if is_json msg then
    match processLogMessage msg with
    | None => _ ← failed; mret (Some true)
    | Some obj =>
        f ← (if isQMLog then filterQMLogMessage obj else mret (Some false));
        match f with
        | None => mret None
        | Some true => mret (Some false)
        | Some false => match pretty obj with
                        | None => mret None
                        | Some p => _ ← p; mret (Some true)
                        end
        end
    end
  else
    m ← checkLogSourceForMirroring "mqsc";
    _ ← (if (m : bool) && canMQSCLogBeMirroredToConsole msg then other else mret tt);
    mret (Some true).

(** A field of the JSON line for MQSC output: nothing is escaped in the value. *)
Definition json_field (k v : string) : string := dquote +:+ k +:+ dquote +:+ ":" +:+ dquote +:+ v +:+ dquote.

Definition mqsc_json_line (stamp msg : string) : string :=
  "{" +:+ json_field "ibm_datetime" stamp +:+ "," +:+ json_field "type" "mqsc_log" +:+ ","
  +:+ json_field "loglevel" (determineMQSCLogLevel (TrimSpace msg)) +:+ "," +:+ json_field "message" (TrimSpace msg) +:+ "}".

Definition getTimeStamp : M string := gets (λ w, timestamp (clock w)).

Definition mirrorJson (msg : string) (isQMLog : bool) : M (option bool) :=
  mirrorFunc (λ _, Some (Print (msg +:+ lf)))
    (log INFO ("Failed to unmarshall JSON in log message - " +:+ msg))
    (stamp ← getTimeStamp; Print (mqsc_json_line stamp msg +:+ lf)) msg isQMLog.

Definition mirrorBasic (msg : string) (isQMLog : bool) : M (option bool) :=
  mirrorFunc (λ obj, Print <$> formatBasic obj)
    (log INFO ("Failed to unmarshall JSON in log message - " +:+ json_error msg))
    (log INFO (TrimSpace msg)) msg isQMLog.

(** [configureLogger] gives the mirror function for the format, or an error. *)
Inductive mirror := MirrorJson | MirrorBasic.

Definition configureLogger : M (res mirror) :=
  f ← getLogFormat;
  mret (match hostname with
        | Err e => Err e
        | Ok _ =>
            if f =s "json" then Ok MirrorJson
            else if f =s "basic" then Ok MirrorBasic
            else Err (Errorf ("invalid value for LOG_FORMAT: " +:+ f))
        end).

Definition mirror_line (m : mirror) : string → bool → M (option bool) :=
  match m with MirrorJson => mirrorJson | MirrorBasic => mirrorBasic end.

(** ** The termination log *)

Definition terminationLog : string := "/run/termination-log".

Definition logTermination `{Metadata} (collectDiagOnFail : bool) (msg : string) : M unit :=
  _ ← log DEBUG ("Writing termination message: " +:+ msg);
  err ← WriteFile terminationLog msg;
  _ ← match err with Some e => log DEBUG (Error_ e) | None => mret tt end;
  _ ← log ERROR msg;
  if collectDiagOnFail then Diagnostics.logDiagnostics else mret tt.

End config.
(** ** Configuration: what the environment variables select *)

Section config_proofs.
Context `{OS}.

Lemma getLogFormat_run w : ∃ f, getLogFormat w = (f, w) ∧ (f = "basic" ∨ f = "json").
Proof.
  unfold getLogFormat, Getenv, gets. rewrite bind_run. cbn [fst snd].
  match goal with |- context [(if ?b then _ else _) ≫= _] => destruct b end; rewrite bind_run; cbn [fst snd];
    (eexists; split; [reflexivity|]); repeat match goal with |- context [?a =s ?b] => destruct (String.eqb_spec a b) end;
    simpl; auto.
Qed.

Definition source_env (w : world) : string :=
  ToLower (TrimSpace (default "" (env w !! "MQ_LOGGING_CONSOLE_SOURCE"))).

Lemma getMQLogConsoleSource_run w : getMQLogConsoleSource w = (source_env w, w).
Proof. done. Qed.

Definition sources : list string := ["qmgr"; "web"; "mqsc"].

Lemma source_loop_result source l w : In source sources →
  (source_loop source l w).1 = existsb (String.eqb source) (map TrimSpace l).
Proof.
  intros Hs. induction l as [|arr l IH]; [done|]. cbn [source_loop map existsb].
  generalize (TrimSpace arr) as a. intros a. rewrite <- IH.
  destruct (String.eqb_spec a "qmgr") as [->|]; [|destruct (String.eqb_spec a "web") as [->|];
    [|destruct (String.eqb_spec a "mqsc") as [->|]]].
  - destruct Hs as [<-|[<-|[<-|[]]]]; done.
  - destruct Hs as [<-|[<-|[<-|[]]]]; try done. cbn [String.eqb]. cbn. rewrite bind_run. cbn [fst snd].
    rewrite bind_run. done.
  - destruct Hs as [<-|[<-|[<-|[]]]]; done.
  - rewrite (proj2 (String.eqb_neq source a)); [done|]. intros <-. destruct Hs as [<-|[<-|[<-|[]]]]; done.
Qed.

(** For each of the three sources, a log is mirrored exactly when the variable
    MQ_LOGGING_CONSOLE_SOURCE names it between commas, with any case and any white
    space around it, or when the variable is blank and the source is not mqsc; the
    variable is valid exactly when it names nothing but sources. *)
Lemma sources_selected w source : In source sources →
  (checkLogSourceForMirroring source w).1
    = (if source_env w =s "" then negb (source =s "mqsc")
       else existsb (String.eqb source) (map TrimSpace (Split (source_env w) ",")))
  ∧ (isLogConsoleSourceValid w).1
    = forallb (λ s, existsb (String.eqb s) ("" :: sources)) (map TrimSpace (Split (source_env w) ",")).
Proof.
  intros Hs. split.
  - unfold checkLogSourceForMirroring. rewrite bind_run, getMQLogConsoleSource_run. cbn [fst snd].
    destruct (source_env w =s ""); [|by apply source_loop_result].
    destruct Hs as [<-|[<-|[<-|[]]]]; done.
  - unfold isLogConsoleSourceValid. rewrite bind_run, getMQLogConsoleSource_run. cbn [fst snd].
    destruct (String.eqb_spec (source_env w) "") as [->|_]; [done|].
    assert (∀ b l, valid_sources l b = match l with [] => b | _ =>
      forallb (λ s, existsb (String.eqb s) ("" :: sources)) (map TrimSpace l) end) as Hv.
    { intros b l. revert b. induction l as [|x l IH]; intros b; [done|].
      cbn [valid_sources map forallb existsb sources]. rewrite orb_false_r, IH.
      destruct (TrimSpace x =s "qmgr"), (TrimSpace x =s "web"), (TrimSpace x =s "mqsc"), (TrimSpace x =s "");
        simpl; by destruct l. }
    cbn [mret M_ret fst]. rewrite Hv.
    pose proof (Split_ne (source_env w) ","). by destruct (Split (source_env w) ",").
Qed.

End config_proofs.

(** ** Exclusion of message identifiers *)

Section mirror_proofs.
Context `{OS, Floats, Fmt}.

Definition exclude_ids (w : world) : list string :=
  Split (ToUpper (default "" (env w !! "MQ_LOGGING_CONSOLE_EXCLUDE_ID"))) ",".

Lemma excluded_run msg w : excluded msg w = (isExcludedMsgIdPresent msg (exclude_ids w), w).
Proof. done. Qed.

Lemma isExcluded_spec msg ids : isExcludedMsgIdPresent msg ids = true ↔
  ∃ id, In id ids ∧ id ≠ "" ∧ Contains msg (TrimSpace id) = true.
Proof.
  unfold isExcludedMsgIdPresent. rewrite existsb_exists. split.
  - intros (id & Hin & [Hne Hc]%andb_true_iff). exists id. split; [done|]. split; [|done].
    apply negb_true_iff, String.eqb_neq in Hne. done.
  - intros (id & Hin & Hne & Hc). exists id. split; [done|]. apply andb_true_iff. split; [|done].
    by apply negb_true_iff, String.eqb_neq.
Qed.

(** A JSON line that is not filtered, in either format. *)
Lemma mirror_shown m msg o w : isExcludedMsgIdPresent msg (exclude_ids w) = false → is_json msg = true →
  Unmarshal msg = Some o →
  mirror_line m msg false w =
    match m with
    | MirrorJson => (Some true, set_console (console w ++ [(RAW, msg +:+ lf)]) w)
    | MirrorBasic => match formatBasic o with
                     | Some text => (Some true, set_console (console w ++ [(RAW, text)]) w)
                     | None => (None, w)
                     end
    end.
Proof.
  intros Hx Hj Ho. assert (∀ pretty failed other,
    mirrorFunc pretty failed other msg false w
    = match pretty o with None => (None, w) | Some p => (Some true, (p w).2) end) as Hm.
  { intros pretty failed other. unfold mirrorFunc. rewrite bind_run, excluded_run. cbn [fst snd]. rewrite Hx, Hj.
    unfold processLogMessage. rewrite Ho, bind_ret. destruct (pretty o); [|done]. by rewrite bind_run. }
  destruct m; unfold mirror_line, mirrorJson, mirrorBasic; rewrite Hm; [done|].
  by destruct (formatBasic o).
Qed.


(** A blank entry in the list, between two commas, excludes every line. *)
Lemma blank_id_excludes_all m msg isQMLog w : In " " (exclude_ids w) →
  mirror_line m msg isQMLog w = (Some false, w).
Proof.
  intros Hin. assert (isExcludedMsgIdPresent msg (exclude_ids w) = true) as Hx.
  { apply isExcluded_spec. exists " ". split; [done|]. split; [done|]. by destruct msg. }
  destruct m; unfold mirror_line, mirrorJson, mirrorBasic, mirrorFunc;
    rewrite bind_run, excluded_run; cbn [fst snd]; by rewrite Hx.
Qed.

(** ** The order of a map does not matter *)

Lemma obj_get_set k k' v o : obj_get k (obj_set k' v o) = if k =s k' then Some v else obj_get k o.
Proof.
  induction o as [|[k2 v2] o IH]; simpl; [done|].
  destruct (String.eqb_spec k' k2) as [->|Hne]; simpl.
  - destruct (k =s k2); done.
  - destruct (String.eqb_spec k k2) as [->|]; [|done]. by rewrite (proj2 (String.eqb_neq k2 k')).
Qed.

Lemma obj_get_In k v o : NoDup o.*1 → In (k, v) o ↔ obj_get k o = Some v.
Proof.
  induction o as [|[k2 v2] o IH]; simpl; [done|]. intros [Hn Hd]%NoDup_cons. rewrite IH by done.
  destruct (String.eqb_spec k k2) as [->|Hne].
  - split; [|intros [= ->]; auto]. intros [[= ->]|Ho]; [done|]. exfalso. apply Hn.
    apply IH, list_elem_of_In in Ho; [|done]. by apply (list_elem_of_fmap_2 fst) in Ho.
  - split; [|auto]. intros [[= -> ->]|?]; done.
Qed.

Lemma obj_get_perm o o' k : NoDup o.*1 → o ≡ₚ o' → obj_get k o = obj_get k o'.
Proof.
  intros Hd Hp. assert (NoDup o'.*1) as Hd' by by rewrite <- Hp.
  destruct (obj_get k o) as [v|] eqn:E.
  - apply obj_get_In in E; [|done]. symmetry. apply obj_get_In; [done|].
    apply list_elem_of_In. rewrite <- Hp. by apply list_elem_of_In.
  - destruct (obj_get k o') as [v|] eqn:E'; [|done]. apply obj_get_In in E'; [|done].
    assert (In (k, v) o) as Ho by (apply list_elem_of_In; rewrite Hp; by apply list_elem_of_In).
    apply obj_get_In in Ho; [|done]. congruence.
Qed.

(** Which inserts there are, each on its own. *)
Definition insert_of (kv : string * json) : option (list string) := inserts_of [kv].

Lemma inserts_of_cons kv o : inserts_of (kv :: o) = (l ← insert_of kv; k ← inserts_of o; Some (l ++ k)).
Proof.
  destruct kv as [k v]. unfold insert_of. cbn [inserts_of]. destruct (HasPrefix k _).
  { simpl. by destruct (inserts_of o). }
  destruct (HasPrefix k _); [|simpl; by destruct (inserts_of o)].
  destruct (as_float v) as [n|]; simpl; [|done]. destruct (inserts_of o); [|done]. by destruct (negb _).
Qed.

Lemma inserts_of_perm o o' : o ≡ₚ o' →
  match inserts_of o, inserts_of o' with
  | Some l, Some l' => l ≡ₚ l'
  | None, None => True
  | _, _ => False
  end.
Proof.
  induction 1 as [|kv o o' _ IH|kv kv' o|o1 o2 o3 _ IH1 _ IH2]; [constructor|..].
  - rewrite !inserts_of_cons. destruct (insert_of kv); simpl; [|done].
    destruct (inserts_of o), (inserts_of o'); simpl; try done. by rewrite IH.
  - rewrite !inserts_of_cons. destruct (insert_of kv) as [l1|], (insert_of kv') as [l2|]; simpl; try done;
      destruct (inserts_of o); simpl; try done. rewrite !app_assoc. by rewrite (Permutation_app_comm l1 l2).
  - destruct (inserts_of o1), (inserts_of o2), (inserts_of o3); try done. by etrans.
Qed.

Lemma sorted_perm l l' : l ≡ₚ l' → sorted l = sorted l'.
Proof.
  intros Hp. unfold sorted. apply (Sorted_unique String.le).
  - apply Sorted_merge_sort; apply _.
  - apply Sorted_merge_sort; apply _.
  - by rewrite !merge_sort_Permutation.
Qed.

(** Objects with the same fields. *)
Definition same (o o' : object) : Prop := ∀ k, obj_get k o = obj_get k o'.

Lemma same_set k v o o' : same o o' → same (obj_set k v o) (obj_set k v o').
Proof. intros Hs k'. by rewrite !obj_get_set, Hs. Qed.

Lemma escaped_same o o' : same o o' →
  match escaped o, escaped o' with Some e, Some e' => same e e' | None, None => True | _, _ => False end.
Proof.
  intros Hs. unfold escaped. rewrite <- (Hs "message"). destruct (obj_get "message" o) as [m|]; [|done].
  destruct (as_string m); simpl; [|done]. by apply same_set.
Qed.

Lemma liberty_same o o' t : same o o' → liberty_audit o t = liberty_audit o' t ∧ liberty_trace o t = liberty_trace o' t.
Proof.
  intros Hs. split.
  - unfold liberty_audit. do 3 f_equal. f_equal. apply map_ext. intros f. unfold audit_field. by rewrite Hs.
  - unfold liberty_trace, field_or_empty. by rewrite !Hs.
Qed.

(** The text of a JSON message does not depend on the order in which Go visits the
    fields of its map. *)
Lemma format_order o o' : NoDup o.*1 → o ≡ₚ o' → formatBasic o = formatBasic o'.
Proof.
  intros Hd Hp. assert (same o o') as Hs by (intros k; by apply obj_get_perm).
  pose proof (inserts_of_perm o o' Hp) as Hi. unfold formatBasic.
  destruct (inserts_of o) as [l|], (inserts_of o') as [l'|]; try done; simpl.
  rewrite <- (sorted_perm l l' Hi). rewrite <- !Hs. destruct (sorted l); [|done].
  destruct (obj_get "ibm_datetime" o) as [d|]; simpl; [|done]. destruct (as_string d) as [ds|]; simpl; [|done].
  set (t := Replace ds _ _ _). pose proof (escaped_same _ _ (same_set "ibm_datetime" (JStr t) _ _ Hs)) as He.
  destruct (escaped _) as [e|], (escaped _) as [e'|]; try done. simpl.
  destruct (liberty_same e e' t He) as [-> ->]. by rewrite !He.
Qed.

(** ** One line per message *)

Lemma replace_no_lf new n skip s : no_byte "010" new = true → n = None →
  no_byte "010" (replace_from skip lf new n s) = true.
Proof.
  intros Hn ->. revert skip. induction s as [|c s IH]; intros skip; [done|]. cbn [replace_from].
  destruct skip; [|apply IH]. rewrite andb_true_r. destruct (HasPrefix (String c s) lf) eqn:E.
  - simpl. rewrite no_byte_all, all_bytes_app, <- !no_byte_all, Hn. apply IH.
  - cbn [no_byte]. rewrite IH, andb_true_r. apply negb_true_iff. destruct (Ascii.eqb_spec c "010") as [->|]; [|done].
    pose proof (HasPrefix_app lf s) as E'. change (lf +:+ s) with (String "010" s) in E'. congruence.
Qed.

Lemma replace_keeps c old new n skip s : no_byte c new = true → no_byte c s = true →
  no_byte c (replace_from skip old new n s) = true.
Proof.
  intros Hn. revert skip n. induction s as [|d s IH]; intros skip n; [done|]. cbn [no_byte].
  intros [Hd Hs]%andb_true_iff. cbn [replace_from]. destruct skip; [|by apply IH].
  destruct (HasPrefix _ _ && _).
  - rewrite no_byte_all, all_bytes_app, <- !no_byte_all, Hn. by apply IH.
  - cbn [no_byte]. by rewrite Hd, IH.
Qed.

(** A message without inserts and of no Liberty type is one line of text, its line
    feeds escaped, after its time stamp with the zone +0000 written Z. *)
Lemma format_one_line o d m t : inserts_of o = Some [] →
  obj_get "ibm_datetime" o = Some (JStr d) → obj_get "message" o = Some (JStr m) →
  obj_get "type" o = Some (JStr t) → t ≠ "liberty_audit" → t ≠ "liberty_trace" → no_byte "010" d = true →
  ∃ text, formatBasic o = Some (text +:+ lf) ∧ no_byte "010" text = true
    ∧ text = Replace d "+0000" "Z" (Some 1%nat) +:+ " " +:+ ReplaceAll m lf "\n".
Proof.
  intros Hi Hd Hm Ht Ht1 Ht2 Hn. eexists. split; [|split; [|reflexivity]].
  - unfold formatBasic. rewrite Hi. cbn [mbind option_bind]. change (sorted []) with (@nil string). cbv iota.
    rewrite Hd. cbn [mbind option_bind as_string]. unfold escaped. rewrite obj_get_set. cbn [String.eqb Ascii.eqb Bool.eqb].
    rewrite Hm. cbn [mbind option_bind as_string]. rewrite !obj_get_set. cbn [String.eqb Ascii.eqb Bool.eqb].
    rewrite Ht. rewrite (proj2 (String.eqb_neq t _) Ht1), (proj2 (String.eqb_neq t _) Ht2).
    unfold arg_s. cbn [fmt_s]. by rewrite !sapp_assoc.
  - rewrite no_byte_all, !all_bytes_app, <- !no_byte_all.
    rewrite !andb_true_iff. split; [by apply replace_keeps|]. split; [done|]. by apply replace_no_lf.
Qed.

(** ** MQSC output *)

Lemma digits_then_spec suf seen s : digits_then suf seen s = true ↔
  ∃ ds b, s = ds +:+ suf +:+ b ∧ all_bytes is_digit ds = true ∧ (seen = false → ds ≠ "").
Proof.
  revert seen. induction s as [|c s IH]; intros seen; cbn [digits_then]; rewrite orb_true_iff, andb_true_iff.
  - rewrite HasPrefix_spec. split.
    + intros [[-> (t & E)]|?]; [|done]. exists "", t. by rewrite sapp_nil_l.
    + intros (ds & b & E & Hds & Hne). left. destruct ds as [|d ds]; [|by rewrite sapp_cons in E].
      split; [|by exists b]. destruct seen; [done|]. by destruct (Hne eq_refl).
  - rewrite andb_true_iff, HasPrefix_spec, IH. split.
    + intros [[-> (t & E)]|[Hc (ds & b & -> & Hds & _)]].
      * exists "", t. by rewrite sapp_nil_l.
      * exists (String c ds), b. rewrite sapp_cons. simpl. by rewrite Hc, Hds.
    + intros (ds & b & E & Hds & Hne). destruct ds as [|d ds].
      * left. split; [|by exists b]. destruct seen; [done|]. by destruct (Hne eq_refl).
      * right. rewrite sapp_cons in E. injection E as <- ->. simpl in Hds. apply andb_true_iff in Hds as [? ?].
        split; [done|]. exists ds, b. done.
Qed.

Lemma amq_here_spec s : amq_here s = true ↔
  ∃ ds b, s = "AMQ" +:+ ds +:+ "E:" +:+ b ∧ all_bytes is_digit ds = true ∧ ds ≠ "".
Proof.
  split.
  - intros Hq. assert (∃ t, s = "AMQ" +:+ t ∧ digits_then "E:" false t = true) as (t & -> & Ht).
    { unfold amq_here in Hq. repeat (case_match; try done). subst. eexists. split; [reflexivity|done]. }
    apply digits_then_spec in Ht as (ds & b & -> & Hds & Hne). exists ds, b. auto.
  - intros (ds & b & -> & Hds & Hne). change ("AMQ" +:+ ?x) with (String "A" (String "M" (String "Q" x))).
    apply digits_then_spec. eauto.
Qed.

(** A line of MQSC output has level ERROR exactly when it contains the identifier
    of an error message: AMQ, one or more digits, E and a colon. *)
Lemma mqsc_level msg : determineMQSCLogLevel msg = "ERROR" ↔
  ∃ a ds b, msg = a +:+ "AMQ" +:+ ds +:+ "E:" +:+ b ∧ all_bytes is_digit ds = true ∧ ds ≠ "".
Proof.
  unfold determineMQSCLogLevel. assert (amq_error msg = true ↔
    ∃ a ds b, msg = a +:+ "AMQ" +:+ ds +:+ "E:" +:+ b ∧ all_bytes is_digit ds = true ∧ ds ≠ "") as <-.
  2: { by destruct (amq_error msg). }
  induction msg as [|c s IH]; cbn [amq_error]; rewrite orb_true_iff, amq_here_spec.
  - split.
    + intros [(ds & b & E & ?)|?]; done.
    + intros (a & ds & b & E & ?). by destruct a.
  - rewrite IH. split.
    + intros [(ds & b & -> & ?)|(a & ds & b & -> & ?)]; [by exists "", ds, b|].
      exists (String c a), ds, b. by rewrite sapp_cons.
    + intros (a & ds & b & E & ?). destruct a as [|d a]; [left; by exists ds, b|].
      right. rewrite sapp_cons in E. injection E as <- ->. by exists a, ds, b.
Qed.

(** Text that JSON writes as it is: printable ASCII without quotes, backslashes and
    what [json.Marshal] escapes for HTML. *)
Definition plain_byte (c : ascii) : bool :=
  let z := byteZ c in
  (32 <=? z) && (z <? 127) && negb ((z =? 34) || (z =? 92) || (z =? 60) || (z =? 62) || (z =? 38)).

Lemma quote_plain_byte c t : plain_byte c = true →
  decode (String c t) = GoRune (byteZ c) (s1 c) :: decode t ∧ quote_rune (byteZ c) = [byteZ c].
Proof.
  unfold plain_byte. rewrite !andb_true_iff, negb_true_iff, !orb_false_iff, Z.leb_le, Z.ltb_lt, !Z.eqb_neq.
  intros [[Hlo Hhi] Hne]. split.
  - change (String c t) with (s1 c +:+ t). pose proof (decode1 (byteZ c) t) as E.
    rewrite byte_of_byteZ in E. apply E. lia.
  - unfold quote_rune. zbool. done.
Qed.

Lemma encode_quote s : all_bytes plain_byte s = true → encode (quote s) = dquote +:+ s +:+ dquote.
Proof.
  intros Hs. unfold quote. rewrite encode_cons, encode_app. f_equal. f_equal.
  induction s as [|c s IH]; [done|]. apply andb_true_iff in Hs as [Hc Hs].
  destruct (quote_plain_byte c s Hc) as [-> Hq]. cbn [map concat]. rewrite encode_app, IH by done.
  unfold quote_gorune. cbn [rune raw]. assert (byteZ c < 127) as Hlt.
  { unfold plain_byte in Hc. rewrite !andb_true_iff, Z.ltb_lt in Hc. lia. }
  rewrite (proj2 (Z.eqb_neq _ RuneError)) by (unfold RuneError; lia). cbn [andb]. rewrite Hq, encode_one.
  pose proof (byteZ_range c). unfold encode_rune. rewrite scalar_intro by lia. rewrite (proj2 (Z.ltb_lt _ _)) by lia.
  by rewrite byte_of_byteZ.
Qed.

Lemma json_field_member k v : all_bytes plain_byte k = true → all_bytes plain_byte v = true →
  encode (member (k, quote v)) = json_field k v.
Proof.
  intros Hk Hv. unfold member, json_field. cbn [fst snd]. rewrite encode_app, encode_cons, !encode_quote by done.
  by rewrite !sapp_assoc.
Qed.

(** In JSON format a line of MQSC output becomes an object with that line as its
    message when the line is printable ASCII without quotes, backslashes and angle
    brackets; with a quote in it, as in a DESCR attribute, what is written need not be JSON. *)
Lemma mqsc_line stamp msg : all_bytes plain_byte stamp = true → all_bytes plain_byte (TrimSpace msg) = true →
  Unmarshal (mqsc_json_line stamp msg)
  = Some [("ibm_datetime", JStr stamp); ("type", JStr "mqsc_log");
          ("loglevel", JStr (determineMQSCLogLevel (TrimSpace msg))); ("message", JStr (TrimSpace msg))].
Proof.
  intros Hs Hm. set (lvl := determineMQSCLogLevel (TrimSpace msg)).
  assert (all_bytes plain_byte lvl = true) as Hl by (unfold lvl, determineMQSCLogLevel; by destruct (amq_error _)).
  set (kvs := [("ibm_datetime", stamp); ("type", "mqsc_log"); ("loglevel", lvl); ("message", TrimSpace msg)]).
  assert (mqsc_json_line stamp msg = Marshal kvs) as ->.
  { unfold Marshal, kvs, string_member. cbn [map members fst snd]. rewrite encode_cons, !encode_app, !encode_cons, !encode_app, !encode_cons,
      !encode_app, !encode_cons, !encode_app, !json_field_member by done. done. }
  rewrite Unmarshal_Marshal.
  assert (∀ s, all_bytes plain_byte s = true → sanitized s = s) as Hsan.
  { intros s Hp. assert (all_bytes is_ascii s = true) as Ha.
    { eapply all_bytes_impl; [|done]. unfold plain_byte, is_ascii. intros c.
      rewrite !andb_true_iff, !Z.ltb_lt. lia. }
    destruct (encode_runes s Ha) as [E HF]. unfold sanitized. rewrite <- E at 1.
    by rewrite decode_encode_nil, rune_runes_of. }
  unfold string_object, kvs. cbn [foldl fst snd]. rewrite !Hsan by done. done.
Qed.

End mirror_proofs.

(** ** Concrete runs *)

(** Numbers that print as their literals, and no printable runes above ASCII. *)
#[export] Instance simple_floats : Floats := {|
  float_ok _ := true; float_zero := String.eqb "0"; float_v s := s |}.
#[export] Instance simple_fmt : Fmt := {| float_sharp s := s; IsPrint _ := false; timestamp _ := "2025-01-01T00:00:00.000Z";
  json_error _ := "unexpected end of JSON input" |}.

(** A quote in MQSC output is not escaped: the line is not JSON. *)
Lemma mqsc_quote_not_json :
  Unmarshal (mqsc_json_line "2025-01-01T00:00:00.000Z" ("1 : DEFINE QLOCAL(A) DESCR('" +:+ dquote +:+ "x" +:+ dquote +:+ "')"))
  = None.
Proof. vm_compute. reflexivity. Qed.

(** A message with an insert keeps its line feeds. *)
Lemma insert_keeps_line_feed :
  formatBasic [("ibm_datetime", JStr "t"); ("message", JStr ("a" +:+ lf +:+ "b")); ("ibm_commentInsert1", JStr "x")]
  = Some ("t a" +:+ lf +:+ "b [CommentInsert1(x)]" +:+ lf).
Proof. vm_compute. reflexivity. Qed.

Definition msg1 : object :=
  [("ibm_datetime", JStr "2025-01-01T00:00:00.000+0000"); ("message", JStr ("AMQ5051I: a" +:+ lf +:+ "b"));
   ("type", JStr "mq_log")].

Lemma format_one_line_witness :
  ∃ text, formatBasic msg1 = Some (text +:+ lf) ∧ no_byte "010" text = true
    ∧ text = "2025-01-01T00:00:00.000Z AMQ5051I: a\nb".
Proof.
  apply (format_one_line msg1 "2025-01-01T00:00:00.000+0000" ("AMQ5051I: a" +:+ lf +:+ "b") "mq_log");
    (reflexivity || discriminate).
Defined.

Example format_reversed : formatBasic msg1 = formatBasic (rev msg1).
Proof.
  apply format_order.
  - apply (bool_decide_unpack _). vm_compute. exact I.
  - apply Permutation_rev.
Qed.

Lemma sources_selected_witness :
  (checkLogSourceForMirroring "web" (world_of [("MQ_LOGGING_CONSOLE_SOURCE", " qmgr, WEB")] [])).1 = true.
Proof.
  destruct (sources_selected (world_of [("MQ_LOGGING_CONSOLE_SOURCE", " qmgr, WEB")] []) "web") as [E _].
  - right. left. reflexivity.
  - rewrite E. vm_compute. reflexivity.
Defined.


Lemma mqsc_line_witness :
  Unmarshal (mqsc_json_line "2025-01-01T00:00:00.000Z" " 1 : DEFINE QLOCAL(A)")
  = Some [("ibm_datetime", JStr "2025-01-01T00:00:00.000Z"); ("type", JStr "mqsc_log");
          ("loglevel", JStr (determineMQSCLogLevel "1 : DEFINE QLOCAL(A)")); ("message", JStr "1 : DEFINE QLOCAL(A)")].
Proof. apply (mqsc_line "2025-01-01T00:00:00.000Z" " 1 : DEFINE QLOCAL(A)"); vm_compute; reflexivity. Defined.

(** The format is always one of the two: configuring the logger fails only when the
    host name cannot be read. *)
Lemma configureLogger_ok `{OS} w h : hostname = Ok h → ∃ m, configureLogger w = (Ok m, w).
Proof.
  intros Hh. unfold configureLogger. destruct (getLogFormat_run w) as (f & E & Hf). rewrite bind_run, E, Hh.
  cbn [fst snd]. destruct Hf as [->| ->]; eexists; done.
Qed.

End ConsoleLog.
