(* ===== verification/Mirror.v ===== *)
(** * Mirroring a log file to the console (cmd/runmqserver/mirror.go)

    [mirrorLog] tails a file that another process appends to and rotates.  The
    goroutine is a state machine: [reader] is one of its steps, between any two of
    which the other process can append a line, rename the file away, create a new
    one, and the context can be cancelled; or the system refuses the call of the step ([refused]).
    Files are inodes numbered in the order of their creation; a file handle is an inode and an
    offset.  Not modelled: the sleep between two rounds, a read that fails after it gave something, and failures of
    Stat, Seek and Close on the open file. *)
From S2P Require Import Prelude Utf8 GoStrings Bufio Paths Os.

Open Scope Z_scope.

Module Mirror.

(** ** Reading what is there *)

(** The bytes before the first line that is too long, with their line feeds. *)
Fixpoint bytes_before_long (ls : list string) : Z :=
  match ls with
  | [] => 0
  | l :: ls =>
      if MaxScanTokenSize <=? Z.of_nat (String.length l) then 0
      else Z.of_nat (String.length l) + 1 + bytes_before_long ls
  end.

(** [mirrorAvailableMessages]: the lines [bufio.Scanner] gives from the offset on, and
    the offset after: the end of the file, or when a line is too long the end of the
    scanner's full buffer. *)
Definition mirrorAvailableMessages (content : string) (offset : Z) : list string * Z :=
  let text := drop_bytes (Z.to_nat offset) content in
  let '(ts, tooLong) := ScanLines text in
  (ts, if tooLong then offset + bytes_before_long (Split text "010") + MaxScanTokenSize
       else Z.max offset (Z.of_nat (String.length content))).

(** ** The goroutine *)

Inductive location :=
| WaitFirst        (* the file did not exist: waitForFile *)
| OpenFirst        (* OpenFile *)
| Scan             (* top of the loop: mirrorAvailableMessages *)
| WaitFile         (* waitForFile *)
| Drain            (* rotation seen: mirrorAvailableMessages on the old file, Close *)
| Reopen           (* OpenFile *)
| ScanNew          (* mirrorAvailableMessages on the new file *)
| Decide           (* the select at the bottom *)
| Returned
| Failed.          (* an error was sent to errorChannel *)

#[export] Instance location_eq_dec : EqDecision location.
Proof. solve_decision. Defined.

Record state := State {
  inodes : list string;        (* content, by inode *)
  path : option nat;           (* the inode the path names *)
  cancelled : bool;
  pc : location;
  f : nat; offset : Z;         (* the open file *)
  fi : nat;                    (* the file the loop takes for the current one *)
  newFI : nat;
  closing : bool;
  mirrored : list string;      (* the lines given to the mirror function *)
  errorChannel : list error }.

Definition content (s : state) (i : nat) : string := default "" (inodes s !! i).

Definition set_pc (l : location) (s : state) : state :=
  State (inodes s) (path s) (cancelled s) l (f s) (offset s) (fi s) (newFI s) (closing s) (mirrored s) (errorChannel s).

(** Mirror what is available, and go on at [l]. *)
Definition scan (l : location) (s : state) : state :=
  let '(ts, o) := mirrorAvailableMessages (content s (f s)) (offset s) in
  State (inodes s) (path s) (cancelled s) l (f s) o (fi s) (newFI s) (closing s) (mirrored s ++ ts) (errorChannel s).

(** [mirrorLog] up to the start of the goroutine, and its steps before the loop when
    the file is there: the whole file or what is written from now on. *)
Definition start (inodes : list string) (path : option nat) (fromStart : bool) : state :=
  match path with
  | None => State inodes None false WaitFirst 0 0 0 0 false [] []
  | Some i =>
      let size := Z.of_nat (String.length (default "" (inodes !! i))) in
      State inodes path false Scan i (if fromStart then 0 else size) i i false [] []
  end.

(** [errorChannel <- err; return]: the channel has room for the one error. *)
Definition fail (e : error) (s : state) : state :=
  State (inodes s) (path s) (cancelled s) Failed (f s) (offset s) (fi s) (newFI s) (closing s) (mirrored s) (errorChannel s ++ [e]).

Section goroutine.
Context (name : string).    (* the path of the file *)

Definition missing (op : string) : error := PathError op name ENOENT.

(** One step of the goroutine. *)
Definition reader (s : state) : state :=
  match pc s with
  | WaitFirst =>
      match path s with
      | None => if cancelled s then fail (missing "stat") s else s
      | Some _ => set_pc OpenFirst s
      end
  | OpenFirst =>
      match path s with
      | None => fail (missing "open") s
      | Some i => State (inodes s) (path s) (cancelled s) Scan i 0 i (newFI s) (closing s) (mirrored s) (errorChannel s)
      end
  | Scan => scan WaitFile s
  | WaitFile =>
      match path s with
      | None => if cancelled s then fail (missing "stat") s else s
      | Some i =>
          State (inodes s) (path s) (cancelled s) (if decide (fi s = i) then Decide else Drain)
            (f s) (offset s) (fi s) i (closing s) (mirrored s) (errorChannel s)
      end
  | Drain => scan Reopen s
  | Reopen =>
      match path s with
      | None => fail (missing "open") s
      | Some i =>
          State (inodes s) (path s) (cancelled s) ScanNew i 0 (newFI s) (newFI s) (closing s) (mirrored s) (errorChannel s)
      end
  | ScanNew => scan Decide s
  | Decide =>
      if cancelled s then
        if closing s then set_pc Returned s
        else State (inodes s) (path s) (cancelled s) Scan (f s) (offset s) (fi s) (newFI s) true (mirrored s) (errorChannel s)
      else set_pc Scan s
  | Returned | Failed => s
  end.

(** A step whose system call is refused with an error.  A read is refused before it has given anything, and
    the error is logged. *)
Definition refused (e : error) (s : state) : option state :=
  match pc s with
  | WaitFirst | WaitFile =>
      Some (if cancelled s then fail e s
            else if IsNotExist e then s
            else fail (Errorf ("mirror: unable to get info on file " +:+ name)) s)
  | OpenFirst | Reopen => Some (fail e s)
  | Scan => Some (set_pc WaitFile s)
  | Drain => Some (set_pc Reopen s)
  | ScanNew => Some (set_pc Decide s)
  | Decide | Returned | Failed => None
  end.

(** ** The system and the other process *)

Inductive event := Read | Refuse (e : error) | AppendLine (l : string) | Rename | Create | Cancel.

Definition next (e : event) (s : state) : option state :=
  match e with
  | Read => Some (reader s)
  | Refuse e => refused e s
  | AppendLine l =>
      i ← path s;
      Some (State (alter (λ c, c +:+ l +:+ lf) i (inodes s)) (path s) (cancelled s) (pc s) (f s) (offset s)
              (fi s) (newFI s) (closing s) (mirrored s) (errorChannel s))
  | Rename =>
      _ ← path s;
      Some (State (inodes s) None (cancelled s) (pc s) (f s) (offset s) (fi s) (newFI s) (closing s) (mirrored s) (errorChannel s))
  | Create =>
      match path s with
      | Some _ => None
      | None =>
          Some (State (inodes s ++ [""]) (Some (length (inodes s))) (cancelled s) (pc s) (f s) (offset s)
                  (fi s) (newFI s) (closing s) (mirrored s) (errorChannel s))
      end
  | Cancel =>
      Some (State (inodes s) (path s) true (pc s) (f s) (offset s) (fi s) (newFI s) (closing s) (mirrored s) (errorChannel s))
  end.

Fixpoint run (es : list event) (s : state) : option state :=
  match es with
  | [] => Some s
  | e :: es => s' ← next e s; run es s'
  end.

(** A rotation that comes after the goroutine has reopened the file for the one before; and the rest of the old file
    can be read. *)
Definition timely (e : event) (s : state) : bool :=
  match e with
  | Rename => bool_decide (path s = Some (f s)) && bool_decide (fi s = f s)
              && match pc s with WaitFirst | OpenFirst | Drain | Reopen => false | _ => true end
  | Refuse _ => match pc s with Drain => false | _ => true end
  | _ => true
  end.

Fixpoint timely_run (es : list event) (s : state) : option state :=
  match es with
  | [] => Some s
  | e :: es => if timely e s then s' ← next e s; timely_run es s' else None
  end.

Lemma available_text ls k : Forall line_ok ls → (k ≤ length ls)%nat →
  mirrorAvailableMessages (text ls) (Z.of_nat (String.length (text (take k ls))))
  = (drop k ls, Z.of_nat (String.length (text ls))).
Proof.
  intros Hls Hk. unfold mirrorAvailableMessages. rewrite Nat2Z.id.
  assert (text ls = text (take k ls) +:+ text (drop k ls)) as E by (by rewrite <- lines_text_app, take_drop).
  rewrite E at 1. rewrite drop_bytes_app, ScanLines_text by by apply Forall_drop.
  f_equal. rewrite E, slength_app. lia.
Qed.

(** ** The invariant *)

(** The lines in the goroutine's file. *)
Definition wr_f (s : state) (wr : list (list string)) : list string := default [] (wr !! f s).

(** Where the open file is among the files, at each location. *)
Definition place (s : state) (wr : list (list string)) (k : nat) : Prop :=
  match pc s with
  | WaitFirst => f s = 0%nat ∧ k = 0%nat
      ∧ (path s = None ∧ wr = [] ∨ path s = Some 0%nat ∧ length wr = 1%nat)
  | OpenFirst => f s = 0%nat ∧ k = 0%nat ∧ path s = Some 0%nat ∧ length wr = 1%nat
  | Drain => fi s = f s ∧ newFI s = S (f s) ∧ path s = Some (S (f s)) ∧ length wr = S (S (f s))
  | Reopen => fi s = f s ∧ newFI s = S (f s) ∧ path s = Some (S (f s)) ∧ length wr = S (S (f s))
      ∧ k = length (wr_f s wr)
  | Returned | Failed => True
  | _ => fi s = f s ∧ ((path s = Some (f s) ∨ path s = None) ∧ length wr = S (f s)
                       ∨ path s = Some (S (f s)) ∧ length wr = S (S (f s)))
  end.

(** [wr]: the lines of each file; [k]: how many of the open file have been read; [L]:
    the lines written since the start, after those skipped. *)
Record inv (skipped L : list string) (s : state) (wr : list (list string)) (k : nat) : Prop := {
  inv_inodes : inodes s = map text wr;
  inv_ok : Forall (Forall line_ok) wr;
  inv_all : skipped ++ L = concat wr;
  inv_mirrored : skipped ++ mirrored s = concat (take (f s) wr) ++ take k (wr_f s wr);
  inv_offset : offset s = Z.of_nat (String.length (text (take k (wr_f s wr))));
  inv_k : (k ≤ length (wr_f s wr))%nat;
  inv_last : ∀ i, path s = Some i → S i = length wr;
  inv_f : (f s < length wr)%nat ∨ f s = 0%nat ∧ wr = [];
  inv_place : place s wr k }.

Lemma content_text s wr : inodes s = map text wr → content s (f s) = text (wr_f s wr).
Proof.
  intros E. unfold content, wr_f. rewrite E, list_lookup_fmap. by destruct (wr !! f s).
Qed.

Lemma wr_f_ok s wr : Forall (Forall line_ok) wr → Forall line_ok (wr_f s wr).
Proof.
  intros Hw. unfold wr_f. destruct (wr !! f s) as [ls|] eqn:E; simpl; [|done].
  rewrite Forall_forall in Hw. apply Hw. by apply list_elem_of_lookup_2 in E.
Qed.

(** Reading what is available: all lines of the open file are mirrored. *)
Lemma scan_inv skipped L s wr k l : inv skipped L s wr k → (pc s ≠ WaitFirst) →
  place (scan l s) wr (length (wr_f s wr)) →
  inv skipped L (scan l s) wr (length (wr_f s wr)).
Proof.
  intros [E Hok Hall Hm Ho Hk Hl Hf Hp] Hpc.
  assert (scan l s = State (inodes s) (path s) (cancelled s) l (f s)
    (Z.of_nat (String.length (text (wr_f s wr)))) (fi s) (newFI s) (closing s)
    (mirrored s ++ drop k (wr_f s wr)) (errorChannel s)) as ->.
  { unfold scan. rewrite (content_text s wr E), Ho, available_text; [done|by apply wr_f_ok|done]. }
  intros Hplace. split; simpl; try done.
  - unfold wr_f. simpl. fold (wr_f s wr). rewrite app_assoc, Hm, <- app_assoc, take_drop. by rewrite firstn_all.
  - unfold wr_f. simpl. fold (wr_f s wr). by rewrite firstn_all.
Qed.

(** The location matters for the place only, and errors for nothing. *)
Lemma inv_move skipped L s s' wr k : inv skipped L s wr k → place s' wr k →
  inodes s' = inodes s → path s' = path s → f s' = f s → offset s' = offset s → mirrored s' = mirrored s →
  inv skipped L s' wr k.
Proof.
  intros [E Hok Hall Hm Ho Hk Hl Hf Hp] Hp' Ei Ep Ef Eo Em. unfold wr_f in *.
  split; unfold wr_f; rewrite ?Ei, ?Ep, ?Ef, ?Eo, ?Em; done.
Qed.

Lemma inv_fail skipped L e s wr k : inv skipped L s wr k → inv skipped L (fail e s) wr k.
Proof. intros Hi. by eapply inv_move. Qed.

(** The reader's step keeps the invariant. *)
Lemma reader_inv skipped L s wr k : inv skipped L s wr k → ∃ k', inv skipped L (reader s) wr k'.
Proof.
  intros Hi. pose proof Hi as [E Hok Hall Hm Ho Hk Hl Hf Hp]. unfold reader, place in *.
  destruct (pc s) eqn:Epc.
  - destruct Hp as (Ef & -> & [[Ep ->]|[Ep Hlen]]); rewrite Ep.
    + exists 0%nat. destruct (cancelled s); [by apply inv_fail|done].
    + exists 0%nat. eapply inv_move; [done| |done..]. unfold place. simpl. auto.
  - destruct Hp as (Ef & -> & Ep & Hlen). rewrite Ep. exists 0%nat. split; simpl; try done.
    + rewrite Hm, Ef. done.
    + lia.
    + intros i [= <-]. done.
    + left. lia.
    + unfold place. simpl. split; [done|]. left. split; [by left|lia].
  - exists (length (wr_f s wr)). eapply scan_inv; [done|congruence|].
    unfold place, scan. by destruct (mirrorAvailableMessages _ _).
  - destruct (path s) as [i|] eqn:Ep; exists k.
    + split; simpl; try done. unfold place. simpl. destruct Hp as (Ei & [[[Ep'|?] Hlen]|[Ep' Hlen]]); try done;
        simplify_eq.
      * rewrite decide_True by congruence. split; [done|]. left. auto.
      * rewrite decide_False by lia. auto.
    + destruct (cancelled s); [by apply inv_fail|done].
  - exists (length (wr_f s wr)). eapply scan_inv; [done|congruence|].
    unfold place, scan. destruct (mirrorAvailableMessages _ _). simpl. unfold wr_f. simpl. tauto.
  - destruct Hp as (Ei & En & Ep & Hlen & ->). rewrite Ep. exists 0%nat. split; simpl; try done.
    + rewrite Hm, firstn_all. unfold wr_f.
      destruct (lookup_lt_is_Some_2 wr (f s)) as [ls Els]; [lia|]. rewrite Els. simpl.
      erewrite (take_S_r wr) by done. rewrite concat_app. simpl. by rewrite !app_nil_r.
    + lia.
    + intros i [= <-]. lia.
    + left. lia.
    + unfold place. simpl. split; [done|]. left. auto.
  - exists (length (wr_f s wr)). eapply scan_inv; [done|congruence|].
    unfold place, scan. by destruct (mirrorAvailableMessages _ _).
  - exists k. destruct (cancelled s); [destruct (closing s)|]; split; simpl; done.
  - by exists k.
  - by exists k.
Qed.

Lemma refused_inv skipped L e s s' wr k : inv skipped L s wr k → pc s ≠ Drain → refused e s = Some s' →
  inv skipped L s' wr k.
Proof.
  intros Hi Hd. pose proof (inv_place _ _ _ _ _ Hi) as Hp. unfold refused, place in *. intros Er.
  destruct (pc s); simplify_eq; repeat case_match; simplify_eq; try done; try (by apply inv_fail);
    (eapply inv_move; [done| |done..]); exact Hp.
Qed.

(** The lines a run adds. *)
Definition appended (es : list event) : list string :=
  omap (λ e, match e with AppendLine l => Some l | _ => None end) es.

Lemma concat_alter_last {A} (wr : list (list A)) i l : S i = length wr →
  concat (alter (λ ls, ls ++ [l]) i wr) = concat wr ++ [l].
Proof.
  intros Hl. destruct wr as [|w wr _] using rev_ind; [done|]. rewrite length_app in Hl. simpl in Hl.
  replace i with (length wr + 0)%nat by lia. rewrite alter_app_r. simpl.
  rewrite !concat_app. simpl. by rewrite !app_nil_r, app_assoc.
Qed.

Lemma wr_alter (wr : list (list string)) j i l :
  ∃ tail, default [] (alter (λ ls, ls ++ [l]) i wr !! j) = default [] (wr !! j) ++ tail
    ∧ (j ≠ i → tail = []).
Proof.
  destruct (decide (i = j)) as [->|Hne].
  - rewrite list_lookup_alter_eq. destruct (wr !! j) as [ls|]; simpl; [|by exists []].
    by exists [l].
  - exists []. rewrite list_lookup_alter_ne by done. by rewrite app_nil_r.
Qed.

(** A line is appended to the last file. *)
Lemma append_inv skipped L s wr k l i : inv skipped L s wr k → path s = Some i → line_ok l →
  inv skipped (L ++ [l])
    (State (alter (λ c, c +:+ l +:+ lf) i (inodes s)) (Some i) (cancelled s) (pc s) (f s) (offset s)
       (fi s) (newFI s) (closing s) (mirrored s) (errorChannel s)) (alter (λ ls, ls ++ [l]) i wr) k.
Proof.
  intros [E Hok Hall Hm Ho Hk Hl Hf Hp] Ep Hlok. pose proof (Hl i Ep) as Hlen.
  assert (f s ≤ i)%nat as Hfi by (destruct Hf as [?|[-> ?]]; lia).
  destruct (wr_alter wr (f s) i l) as (tail & Etail & Hne).
  assert (wr_f s (alter (λ ls, ls ++ [l]) i wr) = wr_f s wr ++ tail) as Ewr by done.
  split; unfold wr_f in *; simpl.
  - rewrite E. symmetry. apply list_fmap_alter. apply Forall_forall. intros ls _. apply text_snoc.
  - apply Forall_alter; [done|]. intros ls _ Hls. apply Forall_app; auto.
  - rewrite concat_alter_last by done. by rewrite app_assoc, Hall.
  - rewrite Hm, Etail, take_app_le by done. by rewrite take_alter_ge.
  - rewrite Etail, take_app_le by done. exact Ho.
  - rewrite Etail, length_app. lia.
  - intros j [= <-]. by rewrite length_alter.
  - rewrite length_alter. destruct Hf as [?|[_ ->]]; [by left|done].
  - unfold place in *. rewrite Ep in Hp. simpl. rewrite length_alter. destruct (pc s); try done.
    + destruct Hp as (? & ? & [[? _]|?]); [done|]. auto.
    + destruct Hp as (? & ? & Ei & Hlen' & ?). unfold wr_f in *. simpl in *.
      rewrite Etail, Hne, app_nil_r by (simplify_eq; lia). auto.
Qed.

(** A new file is there, empty. *)
Lemma create_inv skipped L s wr k : inv skipped L s wr k → path s = None →
  inv skipped L
    (State (inodes s ++ [""]) (Some (length (inodes s))) (cancelled s) (pc s) (f s) (offset s)
       (fi s) (newFI s) (closing s) (mirrored s) (errorChannel s)) (wr ++ [[]]) k.
Proof.
  intros [E Hok Hall Hm Ho Hk Hl Hf Hp] Ep.
  assert (default [] ((wr ++ [[]]) !! f s) = wr_f s wr) as Ewr.
  { unfold wr_f. destruct Hf as [?|[-> ->]]; [|done]. by rewrite lookup_app_l. }
  assert (f s ≤ length wr)%nat as Hle by (destruct Hf as [?|[-> ->]]; simpl; lia).
  assert (length (inodes s) = length wr) as Elen by (rewrite E; apply length_map).
  split; simpl; try rewrite Ewr; try done.
  - rewrite E, map_app. done.
  - apply Forall_app; split; [done|by repeat constructor].
  - rewrite concat_app. simpl. by rewrite app_nil_r.
  - unfold wr_f at 1. simpl. rewrite Ewr. by rewrite take_app_le.
  - unfold wr_f. simpl. by rewrite Ewr.
  - unfold wr_f. simpl. by rewrite Ewr.
  - intros i [= <-]. rewrite length_app. simpl. lia.
  - left. rewrite length_app. simpl. lia.
  - unfold place in *. simpl. rewrite length_app, Elen. rewrite Ep in Hp. simpl.
    destruct (pc s); try done;
      try (destruct Hp as [? [[_ ?]|[? _]]]; [|done]; split; [done|]; right; split; [f_equal|]; lia).
    + destruct Hp as (? & ? & [[_ ->]|[? _]]); [|done]. auto.
    + by destruct Hp as (_ & _ & ? & _).
    + by destruct Hp as (_ & _ & ? & _).
    + by destruct Hp as (_ & _ & ? & _).
Qed.

(** The lines of the files after an event. *)
Definition files_after (e : event) (s : state) (wr : list (list string)) : list (list string) :=
  match e, path s with
  | AppendLine l, Some i => alter (λ ls, ls ++ [l]) i wr
  | Create, None => wr ++ [[]]
  | _, _ => wr
  end.

Lemma mirror_next_inv skipped L e s s' wr k : inv skipped L s wr k → timely e s = true → next e s = Some s' →
  (∀ l, e = AppendLine l → line_ok l) →
  ∃ k', inv skipped (L ++ appended [e]) s' (files_after e s wr) k'.
Proof.
  unfold files_after. intros Hi Ht En Hlok. pose proof Hi as [E Hok Hall Hm Ho Hk Hl Hf Hp].
  destruct e as [|e|l| | |]; simpl in En; unfold appended; cbn [omap list_omap]; rewrite ?app_nil_r.
  - injection En as <-. destruct (reader_inv _ _ _ _ _ Hi) as [k' Hk']. by exists k'.
  - exists k. eapply refused_inv; [done| |done]. intros Ed. cbn [timely] in Ht. by rewrite Ed in Ht.
  - destruct (path s) as [i|] eqn:Ep; simpl in En; [|done]. injection En as <-.
    exists k. apply append_inv; auto.
  - destruct (path s) as [i|] eqn:Ep; simpl in En; [|done]. injection En as <-.
    cbn [timely] in Ht. rewrite !andb_true_iff, !bool_decide_eq_true in Ht. destruct Ht as [[Ep' Ef] Hpc].
    exists k. split; simpl; try done. unfold place in *. simpl.
    destruct (pc s); try done; (split; [done|]); left; destruct Hp as [_ [[_ ?]|[? ?]]]; auto; simplify_eq; lia.
  - destruct (path s) as [i|] eqn:Ep; [done|]. injection En as <-. exists k.
    by apply create_inv.
  - injection En as <-. exists k. split; done.
Qed.

(** The goroutine returns only after the context is cancelled; it fails with one error, which it has sent. *)
Definition honest (s : state) : Prop :=
  match pc s with
  | Failed => length (errorChannel s) = 1%nat
  | Returned => cancelled s = true ∧ errorChannel s = []
  | _ => errorChannel s = []
  end.

Lemma fail_honest e s : errorChannel s = [] → honest (fail e s).
Proof. intros He. unfold honest, fail. simpl. by rewrite He. Qed.

Lemma honest_length s : honest s → (length (errorChannel s) ≤ 1)%nat.
Proof. unfold honest. destruct (pc s); intros Hh; [..|apply proj2 in Hh|]; rewrite Hh; simpl; lia. Qed.

Lemma scan_honest l s : l ∈ [WaitFile; Reopen; Decide] → errorChannel s = [] → honest (scan l s).
Proof.
  intros Hl He. unfold scan. destruct (mirrorAvailableMessages _ _). unfold honest. simpl.
  apply list_elem_of_In in Hl. simpl in Hl. by destruct Hl as [<-|[<-|[<-|[]]]].
Qed.

Lemma reader_honest s : honest s → honest (reader s).
Proof.
  intros Hh. pose proof Hh as Hh'. unfold honest in Hh'. unfold reader. destruct (pc s) eqn:Epc; try done.
  - destruct (path s); [done|]. destruct (cancelled s); [by apply fail_honest|done].
  - destruct (path s); [done|]. by apply fail_honest.
  - apply scan_honest; [set_solver|done].
  - destruct (path s); [unfold honest; simpl; by case_decide|]. destruct (cancelled s); [by apply fail_honest|done].
  - apply scan_honest; [set_solver|done].
  - destruct (path s); [done|]. by apply fail_honest.
  - apply scan_honest; [set_solver|done].
  - unfold honest. destruct (cancelled s) eqn:Ec; [destruct (closing s)|]; simpl; auto.
Qed.

Lemma refused_honest e s s' : honest s → refused e s = Some s' → honest s'.
Proof.
  intros Hh Er. pose proof Hh as Hh'. unfold honest in Hh'. unfold refused in Er.
  destruct (pc s) eqn:Epc; simplify_eq; repeat case_match; simplify_eq; try done; by apply fail_honest.
Qed.

Lemma next_honest e s s' : honest s → next e s = Some s' → honest s'.
Proof.
  intros Hh En. destruct e; simpl in En; simplify_eq.
  - by apply reader_honest.
  - by eapply refused_honest.
  - destruct (path s); by simplify_eq/=.
  - destruct (path s); by simplify_eq/=.
  - destruct (path s); by simplify_eq/=.
  - revert Hh. unfold honest. simpl. by destruct (pc s); [..|intros [_ ?]|].
Qed.

(** A step of the goroutine that the system does not refuse. *)
Definition granted (e : event) : Prop := match e with Refuse _ => False | _ => True end.

(** Without a refusal it ends only after the context is cancelled. *)
Definition live (s : state) : bool :=
  cancelled s || match pc s with Returned | Failed => false | _ => true end.

Lemma reader_env s : cancelled (reader s) = cancelled s ∧ path (reader s) = path s.
Proof.
  unfold reader, scan. destruct (pc s); try done; try (by destruct (mirrorAvailableMessages _ _));
    destruct (path s) eqn:?, (cancelled s) eqn:?, (closing s); simpl; split; congruence.
Qed.

Lemma reader_live skipped L s wr k : inv skipped L s wr k → live s = true → live (reader s) = true.
Proof.
  intros Hi. pose proof (inv_place _ _ _ _ _ Hi) as Hp. unfold live. rewrite (proj1 (reader_env s)).
  destruct (cancelled s) eqn:Ec; [done|]. unfold reader, scan, place in *. rewrite Ec. simpl.
  destruct (pc s) eqn:Epc; try done; intros _; try (by destruct (mirrorAvailableMessages _ _)).
  - destruct (path s); [done|by rewrite Epc].
  - destruct Hp as (_ & _ & -> & _). done.
  - destruct (path s) as [i|]; [simpl; by destruct (decide _)|by rewrite Epc].
  - destruct Hp as (_ & _ & -> & _). done.
Qed.

Lemma next_live skipped L e s s' wr k : granted e → inv skipped L s wr k → live s = true → next e s = Some s' → live s' = true.
Proof.
  intros Hg Hi Hlv En. destruct e; simpl in Hg, En; repeat (case_match; try done); simplify_eq/=; try done;
    try (destruct (path s); simplify_eq/=; done). by eapply reader_live.
Qed.

Lemma timely_run_inv skipped L es s s' wr k : inv skipped L s wr k → honest s →
  timely_run es s = Some s' → Forall line_ok (appended es) →
  ∃ wr' k', inv skipped (L ++ appended es) s' wr' k' ∧ honest s' ∧ (Forall granted es → live s = true → live s' = true).
Proof.
  revert L s wr k. induction es as [|e es IH]; intros L s wr k Hi Hh; cbn [timely_run].
  { intros [= <-] _. rewrite app_nil_r. exists wr, k. auto. }
  destruct (timely e s) eqn:Ht; [|done]. destruct (next e s) as [s1|] eqn:En; simpl; [|done]. intros Er Hok.
  assert (appended (e :: es) = appended [e] ++ appended es) as Ea by (unfold appended; by destruct e).
  change (Forall line_ok (appended (e :: es))) in Hok.
  change (∃ wr' k', inv skipped (L ++ appended (e :: es)) s' wr' k' ∧ honest s' ∧ (Forall granted (e :: es) → live s = true → live s' = true)).
  rewrite Ea in Hok |- *. apply Forall_app in Hok as [Hok1 Hok2].
  destruct (mirror_next_inv _ _ _ _ _ _ _ Hi Ht En) as (k1 & Hi1).
  { intros l ->. by apply Forall_cons in Hok1 as [? _]. }
  destruct (IH _ _ _ _ Hi1 (next_honest _ _ _ Hh En) Er Hok2) as (wr' & k' & Hi' & Hh' & Hlv).
  exists wr', k'. rewrite app_assoc. split_and!; [done|done|]. intros [Hg Hgs]%Forall_cons Hl. eauto using next_live.
Qed.

(** ** What has been mirrored *)

Lemma mirrored_prefix skipped L s wr k : inv skipped L s wr k → ∃ rest, L = mirrored s ++ rest.
Proof.
  intros [E Hok Hall Hm Ho Hk Hl Hf Hp].
  assert (∃ rest, concat wr = (skipped ++ mirrored s) ++ rest) as [rest Er].
  { rewrite Hm. destruct Hf as [Hlt|[-> ->]].
    - destruct (lookup_lt_is_Some_2 _ _ Hlt) as [ls Els].
      exists (drop k (wr_f s wr) ++ concat (drop (S (f s)) wr)).
      rewrite <- app_assoc, (app_assoc (take k _)), take_drop, <- (take_drop (f s) wr) at 1.
      rewrite concat_app. f_equal. unfold wr_f. rewrite Els. by erewrite drop_S by done.
    - exists []. unfold wr_f. simpl. by destruct k. }
  exists rest. rewrite <- app_assoc, <- Hall in Er. by apply app_inv_head in Er.
Qed.

Lemma mirrored_all skipped L s wr k : inv skipped L s wr k → length wr = S (f s) → k = length (wr_f s wr) →
  mirrored s = L.
Proof.
  intros [E Hok Hall Hm Ho Hk Hl Hf Hp] Hlen ->. rewrite firstn_all in Hm.
  assert (concat wr = concat (take (f s) wr) ++ wr_f s wr) as Ec.
  { destruct (lookup_lt_is_Some_2 wr (f s)) as [ls Els]; [lia|]. unfold wr_f. rewrite Els.
    rewrite <- (take_drop (f s) wr) at 1. rewrite concat_app. f_equal. simpl. erewrite drop_S by done.
    rewrite drop_ge by lia. simpl. apply app_nil_r. }
  rewrite <- Ec, <- Hall in Hm. by apply app_inv_head in Hm.
Qed.

(** ** Catching up *)

Fixpoint reads (n : nat) (s : state) : state := match n with O => s | S n => reads n (reader s) end.

(** At most [n] steps of the goroutine mirror everything. *)
Definition within (L : list string) (n : nat) (s : state) : Prop :=
  ∃ m, (m ≤ n)%nat ∧ mirrored (reads m s) = L.

Lemma within_step L n s : within L n (reader s) → within L (S n) s.
Proof. intros (m & Hm & E). exists (S m). split; [lia|done]. Qed.

Lemma within_le L n n' s : within L n s → (n ≤ n')%nat → within L n' s.
Proof. intros (m & Hm & E) Hn. exists m. split; [lia|done]. Qed.

(** The states the chain goes through: not cancelled, and the file is there. *)
Record good (skipped L : list string) (s : state) (wr : list (list string)) (k : nat) : Prop := {
  good_inv : inv skipped L s wr k;
  good_cancelled : cancelled s = false;
  good_path : is_Some (path s) }.

Lemma good_reader skipped L s wr k : good skipped L s wr k → ∃ k', good skipped L (reader s) wr k'.
Proof.
  intros [Hi Hc Hp]. destruct (reader_inv _ _ _ _ _ Hi) as [k' Hi']. exists k'.
  destruct (reader_env s) as [Ec Ep]. split; [done|congruence|by rewrite Ep].
Qed.

Lemma scan_place s l : pc (scan l s) = l ∧ f (scan l s) = f s ∧ fi (scan l s) = fi s ∧ newFI (scan l s) = newFI s.
Proof. unfold scan. by destruct (mirrorAvailableMessages _ _). Qed.

Lemma within_scan skipped L s wr k : good skipped L s wr k → pc s = Scan ∨ pc s = ScanNew →
  length wr = S (f s) → within L 1 s.
Proof.
  intros [Hi Hc Hp] Hpc Hlen. exists 1%nat. split; [lia|]. simpl.
  pose proof (inv_place _ _ _ _ _ Hi) as Hpl. unfold place in Hpl.
  assert (inv skipped L (reader s) wr (length (wr_f s wr))) as Hi'.
  { unfold reader. destruct Hpc as [E|E]; rewrite E in *; (eapply scan_inv; [done|congruence|]);
      unfold place, scan; by destruct (mirrorAvailableMessages _ _). }
  assert (f (reader s) = f s) as Ef.
  { unfold reader. destruct Hpc as [-> | ->]; apply scan_place. }
  apply (mirrored_all _ _ _ _ _ Hi'); unfold wr_f; by rewrite Ef.
Qed.

Lemma within_reopen skipped L s wr k : good skipped L s wr k → pc s = Reopen → within L 2 s.
Proof.
  intros Hg E. destruct (good_reader _ _ _ _ _ Hg) as [k' Hg']. apply within_step.
  pose proof (inv_place _ _ _ _ _ (good_inv _ _ _ _ _ Hg)) as Hp. unfold place in Hp. rewrite E in Hp.
  destruct Hp as (_ & _ & Ep & Hlen & _).
  eapply within_scan; [done|..]; unfold reader; rewrite E, Ep; [by right|exact Hlen].
Qed.

Lemma within_drain skipped L s wr k : good skipped L s wr k → pc s = Drain → within L 3 s.
Proof.
  intros Hg E. destruct (good_reader _ _ _ _ _ Hg) as [k' Hg']. apply within_step.
  eapply within_reopen; [done|]. unfold reader. rewrite E. apply scan_place.
Qed.

(** At the places of the loop where no rotation is being dealt with. *)
Lemma place_loop skipped L s wr k : good skipped L s wr k →
  pc s ∈ [Scan; WaitFile; ScanNew; Decide] →
  fi s = f s ∧ (path s = Some (f s) ∧ length wr = S (f s) ∨ path s = Some (S (f s)) ∧ length wr = S (S (f s))).
Proof.
  intros [Hi _ [i Ep]] Hpc. pose proof (inv_place _ _ _ _ _ Hi) as Hp. unfold place in Hp. rewrite Ep in *.
  apply list_elem_of_In in Hpc. simpl in Hpc.
  destruct Hpc as [E|[E|[E|[E|[]]]]]; rewrite <- E in Hp; destruct Hp as [? [[[?|?] ?]|?]]; try done; auto.
Qed.

Lemma within_decide_last skipped L s wr k : good skipped L s wr k → pc s = Decide → length wr = S (f s) → within L 2 s.
Proof.
  intros Hg E Hlen. destruct (good_reader _ _ _ _ _ Hg) as [k' Hg']. apply within_step.
  eapply within_scan; [done|..]; unfold reader; rewrite E, (good_cancelled _ _ _ _ _ Hg); [by left|done].
Qed.

Lemma within_wait skipped L s wr k : good skipped L s wr k → pc s = WaitFile → within L 4 s.
Proof.
  intros Hg E. destruct (good_reader _ _ _ _ _ Hg) as [k' Hg']. apply within_step.
  destruct (place_loop _ _ _ _ _ Hg) as [Ef [[Ep Hlen]|[Ep Hlen]]]; [rewrite E; set_solver| |].
  - eapply within_le; [eapply within_decide_last; [done|..]|lia]; unfold reader; rewrite E, Ep; simpl; [|done].
    by rewrite decide_True.
  - eapply within_drain; [done|]. unfold reader. rewrite E, Ep. simpl. rewrite decide_False by lia. done.
Qed.

Lemma within_top skipped L s wr k : good skipped L s wr k → pc s = Scan → within L 5 s.
Proof.
  intros Hg E. destruct (place_loop _ _ _ _ _ Hg) as [Ef [[Ep Hlen]|[Ep Hlen]]]; [rewrite E; set_solver| |].
  - eapply within_le; [eapply within_scan; eauto|lia].
  - destruct (good_reader _ _ _ _ _ Hg) as [k' Hg']. apply within_step.
    eapply within_wait; [done|]. unfold reader. rewrite E. apply scan_place.
Qed.

Lemma within_open skipped L s wr k : good skipped L s wr k → pc s = OpenFirst → within L 6 s.
Proof.
  intros Hg E. destruct (good_reader _ _ _ _ _ Hg) as [k' Hg']. destruct (good_path _ _ _ _ _ Hg) as [i Ep].
  apply within_step. eapply within_top; [done|]. unfold reader. by rewrite E, Ep.
Qed.

Lemma within_any skipped L s wr k : good skipped L s wr k → honest s → errorChannel s = [] → within L 7 s.
Proof.
  intros Hg Hh He. pose proof (good_cancelled _ _ _ _ _ Hg) as Hc. unfold honest in Hh. rewrite Hc, He in Hh.
  destruct (good_path _ _ _ _ _ Hg) as [i Ep].
  destruct (good_reader _ _ _ _ _ Hg) as [k' Hg']. destruct (good_reader _ _ _ _ _ Hg') as [k2 Hg2].
  destruct (pc s) eqn:E; try done.
  - apply within_step. eapply within_open; [done|]. unfold reader. by rewrite E, Ep.
  - eapply within_le; [by eapply within_open|lia].
  - eapply within_le; [by eapply within_top|lia].
  - eapply within_le; [by eapply within_wait|lia].
  - eapply within_le; [by eapply within_drain|lia].
  - eapply within_le; [by eapply within_reopen|lia].
  - apply within_step, within_step. eapply within_top; [done|].
    assert (pc (reader s) = Decide) as Ed by (unfold reader; rewrite E; apply scan_place).
    unfold reader at 1. rewrite Ed, (proj1 (reader_env s)), Hc. done.
  - eapply within_le; [apply within_step; eapply within_top; [done|]|lia]. unfold reader. by rewrite E, Hc.
  - by destruct Hh.
Qed.

(** ** The properties *)

(** The start on a missing file, or on a file of whole lines; the lines to mirror. *)
Definition begin (ls : option (list string)) (fromStart : bool) : state :=
  match ls with None => start [] None fromStart | Some ls => start [text ls] (Some 0%nat) fromStart end.
Definition wanted (ls : option (list string)) (fromStart : bool) : list string :=
  match ls with Some ls => if fromStart then ls else [] | None => [] end.

Lemma begin_inv ls fromStart : Forall line_ok (default [] ls) →
  ∃ skipped wr k, inv skipped (wanted ls fromStart) (begin ls fromStart) wr k
    ∧ honest (begin ls fromStart) ∧ live (begin ls fromStart) = true.
Proof.
  destruct ls as [ls|]; simpl; intros Hok.
  - exists (if fromStart then [] else ls), [ls], (if fromStart then 0%nat else length ls). split; [|done].
    split; simpl; try done; unfold wr_f; simpl.
    + by repeat constructor.
    + destruct fromStart; simpl; by rewrite ?app_nil_r.
    + destruct fromStart; simpl; [done|]. by rewrite firstn_all, app_nil_r.
    + destruct fromStart; [done|]. by rewrite firstn_all.
    + destruct fromStart; lia.
    + intros i [= <-]. done.
    + left. lia.
    + unfold place. simpl. auto.
  - exists [], [], 0%nat. split; [|done]. split; simpl; try done.
    + by right.
    + unfold place. simpl. auto.
Qed.

Lemma lines_ok ls : forallb line_okb ls = true → Forall line_ok ls.
Proof.
  rewrite forallb_forall, Forall_forall. intros H l Hl. apply line_okb_spec, H. by apply list_elem_of_In.
Qed.

(** C9. Under appends of whole lines and timely rotations, however these and refusals of the system come
    between the steps of the goroutine, the lines mirrored are at any moment a prefix of the lines to mirror followed by
    the lines appended, each once and in order.  While no error was sent, the context is not cancelled and the
    file is there, seven more steps of the goroutine at most mirror every line.  At most one error is ever sent, so that
    sending does not block, and none while nothing is refused and the context is not cancelled. *)
Theorem mirrored_in_order ls fromStart es s :
  forallb line_okb (default [] ls) = true → forallb line_okb (appended es) = true →
  timely_run es (begin ls fromStart) = Some s →
  (∃ rest, wanted ls fromStart ++ appended es = mirrored s ++ rest)
  ∧ (errorChannel s = [] → cancelled s = false → is_Some (path s) → within (wanted ls fromStart ++ appended es) 7 s)
  ∧ (length (errorChannel s) ≤ 1)%nat
  ∧ (Forall granted es → cancelled s = false → errorChannel s = []).
Proof.
  intros Hls%lines_ok Hes%lines_ok Hr. destruct (begin_inv ls fromStart Hls) as (skipped & wr & k & Hi & Hh & Hb).
  destruct (timely_run_inv _ _ _ _ _ _ _ Hi Hh Hr Hes) as (wr' & k' & Hi' & Hh' & Hlv).
  split; [by eapply mirrored_prefix|]. split; [intros He Hc Hp; by eapply within_any|].
  split; [by apply honest_length|]. intros Hg Hc. specialize (Hlv Hg Hb). unfold live in Hlv. rewrite Hc in Hlv.
  unfold honest in Hh'. by destruct (pc s).
Qed.

End goroutine.

Definition errorLog : string := "/var/mqm/errors/AMQERR01.json".

(** A rotation with lines before and after it, seen by the goroutine half way, and a read that is refused. *)
Definition rotation : list event :=
  [AppendLine "one"; Refuse (PathError "read" errorLog (Errno "input/output error")); Read; Read; Read; Rename; Read; Create;
   AppendLine "two"; Read; Read].

Lemma mirrored_in_order_witness :
  ∃ s, timely_run errorLog rotation (begin (Some ["zero"]) true) = Some s
    ∧ within errorLog ["zero"; "one"; "two"] 7 s.
Proof.
  destruct (timely_run errorLog rotation (begin (Some ["zero"]) true)) as [s|] eqn:E; [|vm_compute in E; discriminate].
  exists s. split; [reflexivity|].
  destruct (mirrored_in_order errorLog (Some ["zero"]) true rotation s eq_refl eq_refl E) as (_ & H & _).
  vm_compute in E. injection E as <-. apply H; [reflexivity|reflexivity|]. eexists. reflexivity.
Defined.

(** A second rotation between the detection of the first and the reopening: a line is
    lost, and the lines of the third file are mirrored twice. *)
Lemma untimely_rotation_duplicates :
  ∃ s, run errorLog [Read; Rename; Create; AppendLine "two"; Read; Rename; Create; AppendLine "three";
            Read; Read; Read; Read; Read; Read; Read; Read; Read] (begin (Some ["one"]) true) = Some s
    ∧ mirrored s = ["one"; "three"; "three"].
Proof. eexists. split; vm_compute; reflexivity. Qed.

(** When the rest of the old file cannot be read, its lines are lost. *)
Lemma refused_drain_loses :
  ∃ s, run errorLog [Read; AppendLine "two"; Rename; Create; AppendLine "three"; Read;
                     Refuse (PathError "read" errorLog (Errno "input/output error")); Read; Read] (begin (Some ["one"]) true) = Some s
    ∧ mirrored s = ["one"; "three"] ∧ errorChannel s = [].
Proof. eexists. split_and!; vm_compute; reflexivity. Qed.

(** A line that is read before its line feed is there is mirrored in two parts. *)
Lemma partial_line_split :
  mirrorAvailableMessages "par" 0 = (["par"], 3) ∧ mirrorAvailableMessages ("partial" +:+ lf) 3 = (["tial"], 8).
Proof. split; vm_compute; reflexivity. Qed.

End Mirror.
