(* ===== verification/MirrorEnd.v ===== *)
(** * The end of a log mirror (cmd/runmqserver/mirror.go, the select at the bottom of the loop of mirrorLog)

    When runmqserver ends it cancels the context of the mirrors and waits for them.  The goroutine goes
    through its loop once more after it has seen that, so that nothing is missed: [sweep] is what this last pass
    has done at each location.  [remaining] bounds the steps that are left. *)
From S2P Require Import Prelude Utf8 GoStrings Bufio Paths Os Mirror.

Module MirrorEnd.
Import Mirror.

Definition ended (s : state) : bool := match pc s with Returned | Failed => true | _ => false end.

(** Steps of the goroutine itself. *)
Definition own (e : event) : bool := match e with Read | Refuse _ => true | _ => false end.
Definition own_steps (es : list event) : nat := length (List.filter own es).

(** ** It ends *)

(** The steps to the end of a pass through the loop. *)
Definition to_go (l : location) : nat :=
  match l with
  | WaitFirst => 8 | OpenFirst => 7 | Scan => 6 | WaitFile => 5 | Drain => 4 | Reopen => 3 | ScanNew => 2 | Decide => 1
  | Returned | Failed => 0
  end.

Definition remaining (s : state) : nat := if ended s then 0 else to_go (pc s) + if closing s then 0 else 6.

Lemma remaining_le s : (remaining s ≤ 14)%nat.
Proof. unfold remaining. destruct (ended s); [lia|]. destruct (pc s), (closing s); simpl; lia. Qed.

Lemma remaining_ended s : remaining s = 0%nat → ended s = true.
Proof. unfold remaining, ended. destruct (pc s); done || (simpl; lia). Qed.

Section goroutine.
Context (name : string).

(** A step of the goroutine brings the end nearer, whether or not the system refuses it. *)
Lemma own_step e s s' : own e = true → cancelled s = true → next name e s = Some s' → ended s = false →
  (remaining s' < remaining s)%nat.
Proof.
  intros Ho Hc En He. destruct s as [ino pa can l f0 off fi0 nfi clo mir ech]. simpl in Hc. subst can.
  destruct e; try done; simpl in En; unfold reader, refused, scan in En; unfold remaining, ended in *; simpl in *;
    destruct l; try done; repeat case_match; simplify_eq/=; lia.
Qed.

Lemma ended_step e s s' : ended s = true → next name e s = Some s' → ended s' = true.
Proof.
  intros He En. destruct s as [ino pa can l f0 off fi0 nfi clo mir ech]. unfold ended in *.
  destruct e; simpl in En; unfold reader, refused in En; simpl in *; destruct l; try done;
    repeat case_match; simplify_eq/=; try done; destruct pa; by simplify_eq/=.
Qed.

Lemma other_step e s s' : own e = false → next name e s = Some s' →
  pc s' = pc s ∧ closing s' = closing s ∧ f s' = f s ∧ mirrored s' = mirrored s ∧ errorChannel s' = errorChannel s.
Proof. intros Ho En. destruct e; try done; simpl in En; destruct (path s); by simplify_eq/=. Qed.

Lemma cancelled_step e s s' : cancelled s = true → next name e s = Some s' → cancelled s' = true.
Proof.
  intros Hc En. destruct e; simpl in En.
  - injection En as <-. by rewrite (proj1 (reader_env name s)).
  - unfold refused in En. destruct (pc s); simplify_eq; repeat case_match; by simplify_eq/=.
  - destruct (path s); by simplify_eq/=.
  - destruct (path s); by simplify_eq/=.
  - destruct (path s); by simplify_eq/=.
  - by simplify_eq/=.
Qed.

(** After the cancellation the goroutine ends with its fourteenth step at the latest. *)
Lemma cancelled_ends es s s' : run name es s = Some s' → cancelled s = true →
  ended s' = true ∨ (own_steps es + remaining s' ≤ remaining s)%nat.
Proof.
  revert s. induction es as [|e es IH]; intros s Hr Hc; simpl in Hr; [injection Hr as <-; right; by simpl|].
  destruct (next name e s) as [s1|] eqn:En; simpl in Hr; [|done].
  destruct (ended s) eqn:He.
  { left. clear IH Hc. assert (ended s1 = true) as H1 by by eapply ended_step. clear En He.
    revert s1 H1 Hr. induction es as [|e' es IH]; intros s1 H1 Hr; simpl in Hr; [by injection Hr as <-|].
    destruct (next name e' s1) as [s2|] eqn:E2; simpl in Hr; [|done]. eapply IH, Hr. by eapply ended_step. }
  destruct (IH s1 Hr (cancelled_step _ _ _ Hc En)) as [Hd|Hd]; [by left|right].
  unfold own_steps in *. cbn [List.filter]. destruct (own e) eqn:Ho.
  - pose proof (own_step _ _ _ Ho Hc En He). simpl. lia.
  - destruct (other_step _ _ _ Ho En) as (Hpc & Hcl & _). unfold remaining, ended in Hd |- *. rewrite Hpc, Hcl in Hd. lia.
Qed.

(** ** The last pass *)

(** What was there when the context was cancelled, after what was skipped, is mirrored. *)
Definition drained (skipped N : list string) (s : state) : Prop := (skipped ++ N) `prefix_of` (skipped ++ mirrored s).

(** In the pass after the cancellation was seen: what has been read, or is still to be. *)
Definition sweep (skipped N : list string) (s : state) (wr : list (list string)) : Prop :=
  closing s = true →
  match pc s with
  | WaitFile => drained skipped N s ∨ length wr = S (S (f s))
  | ScanNew => (skipped ++ N) `prefix_of` concat (take (S (f s)) wr)
  | Decide | Returned => drained skipped N s
  | _ => True
  end.

Lemma scan_drains skipped L N s wr k l : inv skipped L s wr k → pc s ≠ WaitFirst → (f s < length wr)%nat →
  (skipped ++ N) `prefix_of` concat (take (S (f s)) wr) → drained skipped N (scan l s).
Proof.
  intros Hi Hpc Hlt Hc. unfold drained.
  assert (skipped ++ mirrored (scan l s) = concat (take (S (f s)) wr)) as ->; [|done].
  pose proof Hi as [E Hok _ Hm Ho Hk _ _ _]. unfold scan. rewrite (content_text s wr E), Ho, available_text; [|by apply wr_f_ok|done].
  cbn [mirrored]. rewrite app_assoc, Hm, <- app_assoc, take_drop. unfold wr_f.
  destruct (lookup_lt_is_Some_2 wr (f s) Hlt) as [ls Els]. rewrite Els, (take_S_r _ _ _ Els), concat_app. simpl. by rewrite app_nil_r.
Qed.

Lemma all_covered skipped L N s wr k n : inv skipped L s wr k → N `prefix_of` L → length wr = n →
  (skipped ++ N) `prefix_of` concat (take n wr).
Proof. intros Hi HN <-. rewrite firstn_all, <- (inv_all _ _ _ _ _ Hi). by apply prefix_app. Qed.

Lemma fail_sweep skipped N e s wr : sweep skipped N (fail e s) wr.
Proof. by intros _. Qed.

Lemma reader_sweep skipped L N s wr k : inv skipped L s wr k → N `prefix_of` L → sweep skipped N s wr →
  sweep skipped N (reader name s) wr.
Proof.
  intros Hi HN Hs. pose proof (inv_place _ _ _ _ _ Hi) as Hp. unfold reader. unfold sweep, place in *.
  destruct (pc s) eqn:Epc.
  - destruct (path s); [done|]. destruct (cancelled s); [apply fail_sweep|by rewrite Epc].
  - destruct (path s); [done|apply fail_sweep].
  - destruct (scan_place s WaitFile) as (-> & -> & _). intros _. destruct Hp as [_ [[_ Hlen]|[_ Hlen]]]; [left|by right].
    eapply scan_drains; [done|congruence|lia|]. by eapply all_covered.
  - destruct (path s) as [i|]; [|destruct (cancelled s); [apply fail_sweep|by rewrite Epc]].
    cbn [closing pc]. intros Hc. destruct (decide (fi s = i)) as [Ei|Ei]; [|done].
    destruct (Hs Hc) as [Hd|Hlen]; [done|]. destruct Hp as (Ef & [[_ ?]|[[= ?] _]]); lia.
  - destruct (scan_place s Reopen) as (-> & _). done.
  - destruct Hp as (_ & _ & -> & Hlen & _). intros _. cbn [pc f]. by eapply all_covered.
  - destruct (scan_place s Decide) as (-> & _). intros Hc. assert (closing s = true) as Hc'.
    { revert Hc. unfold scan. by destruct (mirrorAvailableMessages _ _). }
    eapply scan_drains; [done|congruence| |by apply Hs]. destruct Hp as [_ [[_ ?]|[_ ?]]]; lia.
  - destruct (cancelled s); [|done]. destruct (closing s) eqn:Hc; [|done]. intros _. exact (Hs eq_refl).
  - rewrite Epc. exact Hs.
  - by rewrite Epc.
Qed.

(** Files only grow. *)
Lemma take_alter_prefix (wr : list (list string)) n i l : S i = length wr →
  concat (take n wr) `prefix_of` concat (take n (alter (λ ls, ls ++ [l]) i wr)).
Proof.
  intros Hi. destruct (decide (n ≤ i)%nat) as [Hn|Hn]; [by rewrite take_alter_ge|].
  rewrite !take_ge by (rewrite ?length_alter; lia). rewrite concat_alter_last by done. by apply prefix_app_r.
Qed.

Lemma files_after_grow skipped L e s wr k n : inv skipped L s wr k →
  concat (take n wr) `prefix_of` concat (take n (files_after e s wr)).
Proof.
  intros Hi. unfold files_after. destruct e; try done; destruct (path s) as [i|] eqn:Ep; try done.
  - apply take_alter_prefix. by eapply inv_last.
  - rewrite take_app, concat_app. by apply prefix_app_r.
Qed.

Lemma next_sweep skipped L N e s s' wr k : inv skipped L s wr k → N `prefix_of` L → granted e →
  next name e s = Some s' → sweep skipped N s wr → sweep skipped N s' (files_after e s wr).
Proof.
  intros Hi HN Hg En Hs. destruct (own e) eqn:Ho.
  { destruct e; try done. injection En as <-. by eapply reader_sweep. }
  destruct (other_step _ _ _ Ho En) as (Hpc & Hcl & Hf & Hm & _). unfold sweep, drained in *. rewrite Hpc, Hcl, Hf, Hm.
  intros Hc. specialize (Hs Hc). pose proof (inv_place _ _ _ _ _ Hi) as Hp. unfold place in Hp. destruct (pc s); try done.
  - destruct Hs as [Hs|Hlen]; [by left|right]. destruct Hp as [_ [[_ ?]|[Ep _]]]; [lia|].
    unfold files_after. rewrite Ep. destruct e; try done. by rewrite length_alter.
  - etrans; [exact Hs|]. by eapply files_after_grow.
Qed.

(** The flag is set only after the cancellation, and the goroutine returns only with the flag set. *)
Definition flagged (s : state) : Prop :=
  (closing s = true → cancelled s = true) ∧ (pc s = Returned → closing s = true).

Lemma next_flagged e s s' : flagged s → next name e s = Some s' → flagged s'.
Proof.
  intros [H1 H2] En. destruct s as [ino pa can l f0 off fi0 nfi clo mir ech]. unfold flagged in *.
  destruct e; simpl in En; unfold reader, refused, scan in En; simpl in *; destruct l; try done;
    repeat case_match; simplify_eq/=; try done; try (destruct pa; simplify_eq/=); split; auto; done.
Qed.

Lemma drain_run skipped L N es s s' wr k : inv skipped L s wr k → N `prefix_of` L → sweep skipped N s wr → flagged s →
  timely_run name es s = Some s' → Forall line_ok (appended es) → Forall granted es →
  pc s' = Returned → drained skipped N s'.
Proof.
  revert L s wr k. induction es as [|e es IH]; intros L s wr k Hi HN Hs Hf; cbn [timely_run].
  { intros [= <-] _ _ Hpc. unfold sweep in Hs. rewrite Hpc in Hs. by apply Hs, Hf. }
  destruct (timely e s) eqn:Ht; [|done]. destruct (next name e s) as [s1|] eqn:En; simpl; [|done].
  intros Er Hok [Hg Hgs]%Forall_cons.
  assert (appended (e :: es) = appended [e] ++ appended es) as Ea by (unfold appended; by destruct e).
  change (Forall line_ok (appended (e :: es))) in Hok. rewrite Ea in Hok. apply Forall_app in Hok as [Hok1 Hok2].
  destruct (mirror_next_inv name _ _ _ _ _ _ _ Hi Ht En) as [k1 Hi1].
  { intros l ->. by apply Forall_cons in Hok1 as [? _]. }
  eapply (IH _ _ _ _ Hi1); [by apply prefix_app_r| | |done..].
  - by eapply next_sweep.
  - by eapply next_flagged.
Qed.

(** While the file is there nothing fails that the system does not refuse. *)
Definition sound (s : state) : Prop := is_Some (path s) ∧ pc s ≠ Failed.

Lemma next_sound e s s' : sound s → granted e → e ≠ Rename → next name e s = Some s' → sound s'.
Proof.
  intros [[i Ep] Hpc] Hg Hr En. unfold sound. destruct e; try done; simpl in En; rewrite ?Ep in En; simplify_eq/=.
  - rewrite (proj2 (reader_env name s)), Ep. split; [by eexists|]. unfold reader. rewrite Ep.
    destruct (pc s) eqn:E; try done; try (rewrite (proj1 (scan_place s _)); done).
    + simpl. by destruct (decide _).
    + destruct (cancelled s); [by destruct (closing s)|done].
    + congruence.
  - split; [by eexists|done].
  - split; [by rewrite ?Ep; eexists|done].
Qed.

Lemma run_sound es s s' : sound s → Forall granted es → Rename ∉ es → run name es s = Some s' → sound s'.
Proof.
  revert s. induction es as [|e es IH]; intros s Hs Hg Hr E; simpl in E; [by injection E as <-|].
  apply Forall_cons in Hg as [Hg Hgs]. apply not_elem_of_cons in Hr as [Hr Hrs].
  destruct (next name e s) as [s1|] eqn:En; simpl in E; [|done]. eapply IH, E; [|done..]. eapply next_sound; eauto.
Qed.

Lemma timely_run_run es s s' : timely_run name es s = Some s' → run name es s = Some s'.
Proof.
  revert s. induction es as [|e es IH]; intros s; simpl; [done|].
  destruct (timely e s); [|done]. destruct (next name e s) as [s1|]; simpl; [apply IH|done].
Qed.

Lemma run_flagged es s s' : flagged s → run name es s = Some s' → flagged s'.
Proof.
  revert s. induction es as [|e es IH]; intros s Hf; simpl; [by intros [= <-]|].
  destruct (next name e s) as [s1|] eqn:En; simpl; [|done]. apply IH. by eapply next_flagged.
Qed.

(** C12. When the context is cancelled, the goroutine ends with its fourteenth step after that at the latest, whatever
    else happens; and if it returns, every line written before the cancellation was mirrored, in order: what is
    still to be read when the container stops is not lost.  It can fail instead only where the file is renamed away
    in between, or an error was sent before. *)
Theorem cancelled_drains ls fromStart es1 s1 es2 s :
  forallb line_okb (default [] ls) = true → forallb line_okb (appended (es1 ++ es2)) = true →
  timely_run name es1 (begin ls fromStart) = Some s1 → cancelled s1 = false →
  timely_run name (Cancel :: es2) s1 = Some s → Forall granted es2 →
  (pc s = Returned → (wanted ls fromStart ++ appended es1) `prefix_of` mirrored s)
  ∧ (14 ≤ own_steps es2 → ended s = true)%nat
  ∧ (14 ≤ own_steps es2 → errorChannel s1 = [] → is_Some (path s1) → Rename ∉ es2 → pc s = Returned)%nat.
Proof.
  intros Hls%lines_ok Hes%lines_ok Hr1 Hc1 Hr2 Hg. unfold appended in Hes. rewrite omap_app in Hes.
  apply Forall_app in Hes as [Hes1 Hes2].
  destruct (begin_inv ls fromStart Hls) as (skipped & wr & k & Hi & Hh & _).
  destruct (timely_run_inv name _ _ _ _ _ _ _ Hi Hh Hr1 Hes1) as (wr1 & k1 & Hi1 & Hh1 & _).
  assert (flagged s1) as Hf1.
  { eapply run_flagged; [|by apply timely_run_run]. by destruct ls. }
  set (s2 := State (inodes s1) (path s1) true (pc s1) (f s1) (offset s1) (fi s1) (newFI s1) (closing s1) (mirrored s1) (errorChannel s1)).
  assert (run name es2 s2 = Some s) as Hr by by apply timely_run_run.
  assert (14 ≤ own_steps es2 → ended s = true)%nat as He.
  { intros Hn. destruct (cancelled_ends es2 s2 s Hr eq_refl) as [?|Hle]; [done|]. pose proof (remaining_le s2).
    apply remaining_ended. lia. }
  split; [|split; [exact He|]].
  - intros Hpc. eapply (drain_run skipped _ _ (Cancel :: es2)) in Hr2; [|exact Hi1|reflexivity| |exact Hf1|exact Hes2|by constructor|done].
    + unfold drained in Hr2. by apply prefix_app_inv in Hr2.
    + intros Hcl. apply Hf1 in Hcl. congruence.
  - intros Hn He1 Hp Hren. specialize (He Hn). destruct (run_sound es2 s2 s) as [_ Hnf]; [|done..|].
    + split; [exact Hp|]. cbn. intros Hpc. unfold honest in Hh1. rewrite Hpc, He1 in Hh1. done.
    + unfold ended in He. by destruct (pc s).
Qed.

End goroutine.

(** A line is written before the cancellation, the file is rotated after it. *)
Definition last_lines : list event :=
  [Read; Read; Rename; Create; AppendLine "late"; Read; Read; Read; Read; Read; Read; Read; Read; Read; Read; Read; Read].

Lemma cancelled_drains_witness :
  ∃ s1 s, timely_run errorLog [Read; Read; AppendLine "one"] (begin (Some ["zero"]) true) = Some s1
    ∧ timely_run errorLog (Cancel :: last_lines) s1 = Some s ∧ ended s = true
    ∧ ["zero"; "one"] `prefix_of` mirrored s.
Proof.
  destruct (timely_run errorLog [Read; Read; AppendLine "one"] (begin (Some ["zero"]) true)) as [s1|] eqn:E1; [|vm_compute in E1; discriminate].
  destruct (timely_run errorLog (Cancel :: last_lines) s1) as [s|] eqn:E; [|vm_compute in E1; injection E1 as <-; vm_compute in E; discriminate].
  exists s1, s. split; [reflexivity|]. split; [exact E|].
  destruct (cancelled_drains errorLog (Some ["zero"]) true [Read; Read; AppendLine "one"] s1 last_lines s eq_refl eq_refl E1) as (Hd & He & _).
  - vm_compute in E1. injection E1 as <-. reflexivity.
  - exact E.
  - repeat constructor.
  - split; [apply He; vm_compute; lia|]. apply Hd. vm_compute in E1. injection E1 as <-. vm_compute in E. injection E as <-. reflexivity.
Defined.

End MirrorEnd.
