(* ===== verification/Sensitive.v ===== *)
(** * Sensitive buffers (internal/sensitive/sensitive.go)

    Memory blocks and the slice of one object.  The Go runtime chooses the size of a
    block that [append] allocates: that is the parameter [grow].  A garbage collection
    runs the finalizer, which is [Clear] too.  [None] is a run-time panic. *)
From S2P Require Import Prelude Utf8.

Local Open Scope nat_scope.

Notation bytes := (list ascii).
Definition zero : ascii := "000"%char.

(** The memory blocks; the length of a block is the capacity of a slice of it. *)
Notation heap := (gmap nat (list ascii)).


(** [meta]: a slice from the start of a block. *)
Record meta := Meta { blk : nat; len : nat }.

Definition block (h : heap) (s : meta) : bytes := default [] (h !! blk s).

Definition String_ (h : heap) (s : meta) : bytes := take (len s) (block h s).

Definition Len (s : meta) : nat := len s.

Definition zeroMeta (h : heap) (s : meta) : heap :=
  <[blk s := replicate (len s) zero ++ drop (len s) (block h s)]> h.

Definition Clear (h : heap) (s : meta) : heap := zeroMeta h s.

Class Runtime := {
  grow : nat → nat → nat;
  grow_enough cap need : need ≤ grow cap need }.

Section sensitive.
Context `{Runtime}.

(** [append(s.buf, b...)] *)
Definition append (h : heap) (s : meta) (b : bytes) : heap * meta :=
  let d := block h s in
  let need := len s + length b in
  if decide (need ≤ length d)
  then (<[blk s := take (len s) d ++ b ++ drop need d]> h, Meta (blk s) need)
  else
    let n := fresh (dom h) in
    (<[n := take (len s) d ++ b ++ replicate (grow (length d) need - need) zero]> h, Meta n need).

(** The address of the first byte of an empty buffer cannot be taken. *)
Definition Write (h : heap) (s : meta) (b : bytes) : option (heap * meta) :=
  if decide (len s = 0) then None else
  let '(h', newBuf) := append h s b in
  if decide (blk newBuf ≠ blk s)
  then Some (zeroMeta h' s, newBuf)
  else Some (h', newBuf).

Definition Append (h : heap) (s other : meta) : option (heap * meta) := Write h s (String_ h other).

Fixpoint writes (h : heap) (s : meta) (bs : list bytes) : option (heap * meta) :=
  match bs with
  | [] => Some (h, s)
  | b :: bs => '(h, s) ← Write h s b; writes h s bs
  end.

(** ** What is left in memory *)

Definition zeros (d : bytes) : Prop := Forall (eq zero) d.

(** The slice lies in its block, which is zero behind it. *)
Definition owned (h : heap) (s : meta) : Prop :=
  len s ≤ length (block h s) ∧ zeros (drop (len s) (block h s)) ∧ is_Some (h !! blk s).

Lemma zeros_replicate n : zeros (replicate n zero).
Proof. by apply Forall_replicate. Qed.

Lemma block_insert h s d : block (<[blk s := d]> h) s = d.
Proof. unfold block. by rewrite lookup_insert_eq. Qed.

Lemma block_at h x n d : block (<[x := d]> h) (Meta x n) = d.
Proof. unfold block. cbn [blk]. by rewrite lookup_insert_eq. Qed.

(** After a clear the block has nothing. *)
Lemma Clear_zeros h s : owned h s → zeros (block (Clear h s) s).
Proof. intros (_ & Hz & _). unfold Clear, zeroMeta. rewrite block_insert. apply Forall_app; split; [apply zeros_replicate|done]. Qed.

Lemma Clear_ne h s b : b ≠ blk s → Clear h s !! b = h !! b.
Proof. intros Hb. unfold Clear, zeroMeta. by rewrite lookup_insert_ne. Qed.

(** One write: the text grows, and no block other than the new one gets anything but zeros. *)
Lemma Write_step h s b : owned h s → len s ≠ 0 → ∃ h' s', Write h s b = Some (h', s')
  ∧ owned h' s' ∧ len s' = len s + length b ∧ String_ h' s' = String_ h s ++ b
  ∧ (∀ x d, h' !! x = Some d → x ≠ blk s' → zeros d ∨ x ≠ blk s ∧ h !! x = Some d)
  ∧ (blk s' = blk s ∨ h !! blk s' = None).
Proof.
  intros (Hl & Hz & Hs) Hn. unfold Write, append. rewrite decide_False by done.
  assert (Hlen : length (take (len s) (block h s)) = len s) by (rewrite length_take; lia).
  case_decide as Hcap; cbn [blk].
  - rewrite decide_False by auto. do 2 eexists; split; [done|]. unfold owned, String_. cbn [len].
    rewrite !block_at. cbn [blk].
    rewrite (assoc_L (++)), take_app_length', drop_app_length' by (rewrite length_app, Hlen; done).
    split_and!; [..|by left]; try done.
    + rewrite !length_app, length_drop, Hlen. lia.
    + rewrite <- drop_drop. by apply Forall_drop.
    + rewrite lookup_insert_eq. eauto.
    + intros x d Hx Hne. rewrite lookup_insert_ne in Hx by done. auto.
  - set (n := fresh (dom h)). assert (Hf : h !! n = None) by (apply not_elem_of_dom, is_fresh).
    assert (n ≠ blk s) by (intros E; rewrite <- E, Hf in Hs; by destruct Hs).
    rewrite decide_True by done. do 2 eexists; split; [done|].
    set (new := take _ _ ++ _). set (h' := <[n := new]> h).
    assert (Hb : block (zeroMeta h' s) (Meta n (len s + length b)) = new).
    { unfold block, zeroMeta, h'. cbn [blk]. by rewrite lookup_insert_ne, lookup_insert_eq by done. }
    unfold owned, String_. rewrite Hb. unfold new. cbn [len blk].
    rewrite (assoc_L (++)), take_app_length', drop_app_length' by (rewrite length_app, Hlen; done).
    split_and!; [..|by right]; try done.
    + rewrite !length_app, Hlen. lia.
    + apply zeros_replicate.
    + unfold zeroMeta, h'. rewrite lookup_insert_ne, lookup_insert_eq by done. eauto.
    + intros x d Hx Hne. destruct (decide (x = blk s)) as [->|Hxs].
      * left. unfold zeroMeta in Hx. rewrite lookup_insert_eq in Hx. simplify_eq.
        apply Forall_app; split; [apply zeros_replicate|]. unfold block, h'. by rewrite lookup_insert_ne.
      * right. unfold zeroMeta, h' in Hx. by rewrite !lookup_insert_ne in Hx.
Qed.

(** C31. Whatever is written to a buffer that is not empty: it holds all that was written, and once it is
    cleared (or collected) no memory block has a trace of it: every block is zero, or
    was there before and is not changed. *)
Theorem sensitive_zeroed h s bs : owned h s → len s ≠ 0 → ∃ h' s', writes h s bs = Some (h', s')
  ∧ String_ h' s' = String_ h s ++ concat bs
  ∧ (∀ x d, Clear h' s' !! x = Some d → zeros d ∨ x ≠ blk s ∧ h !! x = Some d).
Proof.
  revert h s. induction bs as [|b bs IH]; intros h s Ho Hn.
  - exists h, s. simpl. rewrite app_nil_r. split_and!; [done..|]. intros x d.
    destruct (decide (x = blk s)) as [->|Hx]; [|rewrite Clear_ne by done; auto].
    pose proof (Clear_zeros h s Ho) as Hz. unfold block in Hz. intros E. rewrite E in Hz. by left.
  - destruct (Write_step h s b Ho Hn) as (h1 & s1 & E & Ho1 & Hl1 & Ht1 & Hm1 & Hs1).
    destruct (IH h1 s1 Ho1 ltac:(lia)) as (h2 & s2 & E2 & Ht2 & Hm2).
    exists h2, s2. cbn [writes concat]. rewrite E. cbn. split_and!; [done|by rewrite Ht2, Ht1, (assoc_L (++))|].
    intros x d Hd. destruct (Hm2 x d Hd) as [Hz|[Hx1 Hx]]; [by left|]. by apply Hm1.
Qed.

End sensitive.

Program Instance doubling : Runtime := {| grow cap need := Nat.max (2 * cap) need |}.
Next Obligation. simpl. lia. Qed.

Definition heap0 : heap := {[ 0 := String.list_ascii_of_string "key"; 1 := String.list_ascii_of_string "other" ]}.

Lemma sensitive_zeroed_witness : ∃ h' s',
  writes heap0 (Meta 0 3) [String.list_ascii_of_string "+123"; String.list_ascii_of_string "45"] = Some (h', s')
  ∧ String_ h' s' = String.list_ascii_of_string "key+12345" ∧ Clear h' s' !! 0 = Some [zero; zero; zero].
Proof.
  destruct (sensitive_zeroed heap0 (Meta 0 3) [String.list_ascii_of_string "+123"; String.list_ascii_of_string "45"])
    as (h' & s' & E & Ht & _).
  - split_and!; [vm_compute; lia|by vm_compute; constructor|eexists; reflexivity].
  - done.
  - exists h', s'. split_and!; [done|by rewrite Ht|]. vm_compute in E. by simplify_eq.
Defined.
