(* ===== verification/Support.v ===== *)
(** * Supporting packages

    internal/fips (whether FIPS cryptography is on), internal/copy and
    internal/mqtemplate (writing files), internal/securityutility and
    internal/simpleauth (encoding of the user passwords).  The template engine is a
    parameter: what it writes for a template text and the data, and its error. *)
From S2P Require Import Prelude Utf8 GoStrings Paths Os.

Open Scope Z_scope.

(** ** internal/fips *)

Module Fips.

Definition FIPS_ENABLED_OFF : Z := 0.
Definition FIPS_ENABLED_ON : Z := 1.
Definition FIPS_ENABLED_PLATFORM : Z := 1.
Definition FIPS_ENABLED_ENV_VAR : Z := 2.

Section fips.
Context `{OS}.

Definition invalid_value (v : string) : string :=
  "Invalid value '" +:+ v +:+ "' was specified for MQ_ENABLE_FIPS. The value has been ignored." +:+ s1 "010".

(** The new value of the variable [FIPSEnabledType]; [logs] says whether there is a logger. *)
Definition ProcessFIPSType (logs : bool) : M Z :=
  '(out, _, err) ← Run "sysctl" ["crypto.fips_enabled"];
  let FIPSEnabledType : Z :=
    match err with
    | None => if Contains out "crypto.fips_enabled = 1" then FIPS_ENABLED_PLATFORM else FIPS_ENABLED_OFF
    | Some _ => FIPS_ENABLED_OFF
    end in
  fipsOverride ← LookupEnv "MQ_ENABLE_FIPS";
  match fipsOverride with
  | None => mret FIPSEnabledType
  | Some v =>
      if EqualFold v "false" || EqualFold v "0" then mret FIPS_ENABLED_OFF
      else if EqualFold v "true" || EqualFold v "1" then
        mret (if negb (FIPSEnabledType =? FIPS_ENABLED_PLATFORM) then FIPS_ENABLED_ENV_VAR else FIPSEnabledType)
      else if EqualFold v "auto" then mret FIPSEnabledType
      else
        _ ← (if logs then log INFO (invalid_value v) else mret tt);
        mret FIPSEnabledType
  end.
End fips.

Definition IsFIPSEnabled (FIPSEnabledType : Z) : bool := FIPS_ENABLED_OFF <? FIPSEnabledType.

Definition PostInit (FIPSEnabledType : Z) : M unit :=
  let message :=
    if FIPSEnabledType =? FIPS_ENABLED_PLATFORM then
      "FIPS cryptography is enabled. FIPS cryptography setting on the host is 'true'."
    else if FIPSEnabledType =? FIPS_ENABLED_ENV_VAR then
      "FIPS cryptography is enabled. FIPS cryptography setting on the host is 'false'."
    else "FIPS cryptography is not enabled." in
  log INFO message.

(** What the host says, and what the variable asks for. *)
Definition host_fips `{OS} (w : world) : bool :=
  let '((out, _, err), _) := exec "sysctl" ["crypto.fips_enabled"] w in
  match err with None => Contains out "crypto.fips_enabled = 1" | Some _ => false end.

Inductive wish := Off | On | Host.
Definition wish_of (v : option string) : wish :=
  match v with
  | None => Host
  | Some v => if EqualFold v "false" || EqualFold v "0" then Off
              else if EqualFold v "true" || EqualFold v "1" then On else Host
  end.

Ltac decided := cbn; split; [|split; [intros ?|intros [? ?]]]; done.

(** FIPS is on exactly when MQ_ENABLE_FIPS asks for it, or does not decide and the
    host has it on; the type says platform exactly when it is on and the host has it on. *)
Lemma fips_decision `{OS} logs w : (∀ n a w, env (exec n a w).2 = env w) →
  let t := (ProcessFIPSType logs w).1 in
  let host := host_fips w in
  let on := match wish_of (env w !! "MQ_ENABLE_FIPS") with Off => false | On => true | Host => host end in
  IsFIPSEnabled t = on ∧ (t = FIPS_ENABLED_PLATFORM ↔ on = true ∧ host = true).
Proof.
  intros Henv. unfold ProcessFIPSType, host_fips. rewrite bind_run, Run_run.
  specialize (Henv "sysctl" ["crypto.fips_enabled"] w).
  destruct (exec "sysctl" ["crypto.fips_enabled"] w) as [[[out rc] err] w1]. cbn [fst snd] in *.
  rewrite bind_run. unfold LookupEnv, gets. cbn [fst snd]. rewrite Henv.
  set (host := match err with None => Contains out "crypto.fips_enabled = 1" | Some _ => false end).
  set (ty := match match err with Some e => _ | None => _ end with None => _ | Some _ => _ end).
  assert (ty = if host then FIPS_ENABLED_PLATFORM else FIPS_ENABLED_OFF) as -> by (unfold ty, host; by destruct err).
  clearbody host. unfold wish_of. destruct (env w !! "MQ_ENABLE_FIPS") as [v|]; simpl.
  - destruct (_ || _); [by destruct host; decided|]. destruct (_ || _); [by destruct host; decided|].
    destruct (EqualFold v "auto"); [by destruct host; decided|]. rewrite bind_run. by destruct logs, host; decided.
  - by destruct host; decided.
Qed.

Definition fips_host : OS := {|
  fault _ _ := None;
  exec name _ w := ((if name =s "sysctl" then "crypto.fips_enabled = 1" else "", 0, None), w);
  LookPath name := name;
  hostname := Ok "mq0";
  getwd := "/" |}.

Lemma fips_decision_witness :
  IsFIPSEnabled (ProcessFIPSType (H := fips_host) true (world_of [("MQ_ENABLE_FIPS", "FALSE")] [])).1 = false
  ∧ IsFIPSEnabled (ProcessFIPSType (H := fips_host) true (world_of [("MQ_ENABLE_FIPS", "maybe")] [])).1 = true.
Proof.
  split; (etransitivity; [apply (fips_decision (H := fips_host)); reflexivity|vm_compute; reflexivity]).
Defined.

End Fips.

(** ** internal/copy and internal/mqtemplate *)

Module Files.

Section files.
Context `{OS}.

(** [CopyFileMode]: the destination is opened without truncation. *)
Definition CopyFileMode (src dest : string) : M (option error) :=
  let failed (path : string) := "failed to open " +:+ path +:+ " for copy" in
  match CheckFileSource getwd src with
  | Some msg => mret (Some (Errorf (failed src +:+ ": " +:+ msg)))
  | None =>
      in_ ← Open src;
      match in_ with
      | Err e => mret (Some (Wrap (failed src) e))
      | Ok n =>
          let '(data, rerr) := match n with File d => (d, None) | _ => ("", Some (PathError "read" src EISDIR)) end in
          out ← write_with "open" dest (λ old, overwrite old data);
          match out with
          | Err e => mret (Some (Wrap (failed dest) e))
          | Ok _ => mret rerr
          end
      end
  end.

Definition CopyFile (src dest : string) : M (option error) := CopyFileMode src dest.

(** [template.Execute]: the text it writes, and its error. *)
Context {data : Type} (execute : string → data → string * option error) (parse : string → option error).

(** The directory of the destination is made when it is missing. *)
Definition makeDir (dir : string) : M (option error) :=
  d ← Stat dir;
  match d with
  | Ok _ => mret None
  | Err e =>
      if IsNotExist e then
        err ← MkdirAll dir;
        match err with
        | Some e => _ ← log ERROR (Error_ e); mret (Some e)
        | None => mret None
        end
      else mret (Some e)
  end.

(** An error of [OpenFile] is not looked at: writing to the nil file then fails, if
    anything is written. *)
Definition ProcessTemplateFile (templateFile destFile : string) (d : data) : M (option error) :=
  t ← ReadFile templateFile;
  match (match t with Err e => Some e | Ok text => parse text end), t with
  | Some e, _ => _ ← log ERROR (Error_ e); mret (Some e)
  | None, Err e => mret (Some e)
  | None, Ok text =>
      try makeDir (Dir destFile) ;;
      let '(out, err) := execute text d in
      f ← write_with "open" destFile (λ old, overwrite old out);
      let err := match f with
                 | Ok _ => err
                 | Err _ => if out =s "" then err else Some (Errorf "invalid argument")
                 end in
      match err with
      | Some e => _ ← log ERROR (Error_ e); mret (Some e)
      | None => mret None
      end
  end.

End files.

Lemma drop_bytes_length n s : String.length (drop_bytes n s) = (String.length s - n)%nat.
Proof.
  revert n. induction s as [|c s IH]; intros [|n]; simpl; auto.
Qed.

(** A copy reads back as the source when the destination was not longer before;
    otherwise the end of the old content stays behind the copied data. *)
Lemma copy_file `{Faultless} src dest w data old :
  CheckFileSource getwd src = None → files w !! norm src = Some (File data) →
  files w !! norm dest = Some (File old) →
  ∃ w', CopyFile src dest w = (None, w')
    ∧ files w' !! norm dest = Some (File (data +:+ drop_bytes (String.length data) old))
    ∧ (String.length old ≤ String.length data → files w' !! norm dest = Some (File data))%nat.
Proof.
  intros Hc Hs Hd. unfold CopyFile, CopyFileMode. rewrite Hc.
  rewrite bind_run. erewrite Open_ok by (unfold follow; by rewrite Hs). cbn [fst snd].
  rewrite bind_run. erewrite write_existing by done. cbn [fst snd].
  eexists; split; [done|]. simpl. rewrite lookup_insert_eq. split; [done|]. intros Hle.
  unfold overwrite. assert (drop_bytes (String.length data) old = "") as ->.
  { apply slength_zero. rewrite drop_bytes_length. lia. }
  by rewrite sapp_nil_r.
Qed.

Example copy_leaves_end :
  ∃ w', CopyFile "/a/src" "/a/dest" (world_of [] [("/a/src", File "new"); ("/a/dest", File "longer")]) = (None, w')
    ∧ files w' !! norm "/a/dest" = Some (File "newger").
Proof.
  destruct (copy_file "/a/src" "/a/dest" (world_of [] [("/a/src", File "new"); ("/a/dest", File "longer")])
    "new" "longer") as (w' & E & Ed & _); [vm_compute; reflexivity..|]. eauto.
Qed.

End Files.

(** ** internal/securityutility and internal/simpleauth *)

Module SimpleAuth.

Definition adminEnv : string := "MQ_ADMIN_PASSWORD".
Definition adminSecureEnv : string := "MQ_ADMIN_PASSWORD_SECURE".
Definition appEnv : string := "MQ_APP_PASSWORD".
Definition appSecureEnv : string := "MQ_APP_PASSWORD_SECURE".
Definition useHtpEnv : string := "MQ_CONNAUTH_USE_HTP".
Definition appSecretPath : string := "/run/secrets/mqAppPassword".
Definition adminSecretPath : string := "/run/secrets/mqAdminPassword".

(** Set to something other than white space. *)
Definition nonblank (v : option string) : bool :=
  match v with Some v => negb (TrimSpace v =s "") | None => false end.

Definition IsEnabled : M bool := gets (λ w,
  match env w !! useHtpEnv with
  | Some enableHtPwd =>
      EqualFold enableHtPwd "true"
      && (nonblank (env w !! adminEnv) || nonblank (env w !! appEnv) || nonblank (env w !! appSecureEnv)
          || nonblank (env w !! adminSecureEnv))
  | None => false
  end).

Section auth.
Context `{OS}.

Definition script : string :=
  "source setmqenv -s;/opt/mqm/web/bin/server; /opt/mqm/web/bin/securityUtility encode --encoding=aes ".

(** The last line with the marker. *)
Definition encoded_line (out : string) : string :=
  TrimSpace (foldl (λ enc line, if Contains line "{aes}" then line else enc) "" (Split out "010")).

Definition EncodeSecrets (secret : string) : M (res string) :=
  s ← Stat "/opt/mqm/web/bin/securityUtility";
  match (match s with Err e => if IsNotExist e then Some e else None | Ok _ => None end) with
  | Some e => mret (Err e)
  | None =>
      if 256 <? Z.of_nat (String.length secret)
      then mret (Err (Errorf ("length of password is greater than the maximum length of 256 characters, length of password is "
                              +:+ Itoa (Z.of_nat (String.length secret)))))
      else
        '(out, _, err) ← exec_env "JAVA_HOME" "/opt/mqm/java/jre64/jre" "/bin/sh" ["-c"; script +:+ secret];
        mret (match err with Some e => Err e | None => Ok (encoded_line out) end)
  end.

Definition readMQSecrets (secretName : string) : M (res string) :=
  passwordBuf ← ReadFile (Clean secretName);
  match passwordBuf with
  | Err e => mret (Err e)
  | Ok password =>
      if 256 <? Z.of_nat (String.length password)
      then mret (Err (Errorf ("the length of the password cannot be more than 256 characters, length of the password was "
                              +:+ Itoa (Z.of_nat (String.length password)))))
      else EncodeSecrets password
  end.

(** [os.Setenv] and the message of its error, in the user's lower case. *)
Definition setPassword (secureEnv user p : string) : M (option error) :=
  e ← Setenv secureEnv p;
  mret ((λ e, Wrapped ("setting encoded " +:+ ToLower user +:+ " user password to environment variable failed with error ") e "")
        <$> e).

(** One of the two users: the variable, the variable for the encoded password, the
    secret's file, and the deprecation message. *)
Definition checkPassword (pwdEnv secureEnv secretPath user : string) (pwd : option string) : M (option error) :=
  if nonblank pwd then
    encoded ← EncodeSecrets (default "" pwd);
    match encoded with
    | Err e => mret (Some (Wrapped ("encoding " +:+ user +:+ " password for web server failed with error ") e ""))
    | Ok p =>
        try setPassword secureEnv user p ;;
        _ ← log INFO ("Environment variable " +:+ pwdEnv +:+ " is deprecated, use secrets to set the passwords");
        mret None
    end
  else
    s ← Stat secretPath;
    match s with
    | Err _ => mret None
    | Ok _ =>
        encoded ← readMQSecrets secretPath;
        match encoded with
        | Err e =>
            mret (Some (Wrapped ("encoding mq" +:+ user +:+ "Password secret for web server failed with error ") e ""))
        | Ok p => if negb (p =s "") then setPassword secureEnv user p else mret None
        end
    end.

(** Both variables are read before anything else. *)
Definition CheckForPasswords : M (option error) :=
  adminPassword ← LookupEnv adminEnv;
  appPassword ← LookupEnv appEnv;
  try checkPassword adminEnv adminSecureEnv adminSecretPath "Admin" adminPassword ;;
  checkPassword appEnv appSecureEnv appSecretPath "App" appPassword.

End auth.
End SimpleAuth.
