(* ===== verification/Keystore.v ===== *)
(** * Keystores (internal/keystore/keystore.go)

    Key stores are files that the commands of the GSKit manage.  The commands are the
    parameter [exec] of the class [OS]; what the code does itself is the order of
    the commands, the files it removes, and reading the labels a command lists. *)
From S2P Require Import Prelude Utf8 GoStrings Bufio Paths Os.

Open Scope Z_scope.

Module Keystore.

(** The password is the text of its sensitive buffer. *)
Record KeyStore := {
  Filename : string;
  Password : string;
  keyStoreType : string;
  command : string;
  fipsEnabled : bool }.

(** The flag of the package fips is an argument. *)
Definition NewJKSKeyStore (fips : bool) (filename password : string) : KeyStore :=
  Build_KeyStore filename password "jks" "/opt/mqm/bin/runmqckm" fips.
Definition NewCMSKeyStore (fips : bool) (filename password : string) : KeyStore :=
  Build_KeyStore filename password "cms" "/opt/mqm/bin/runmqakm" fips.
Definition NewPKCS12KeyStore (fips : bool) (filename password : string) : KeyStore :=
  Build_KeyStore filename password "p12" "/opt/mqm/bin/runmqakm" fips.

Definition IsFIPSEnabled (ks : KeyStore) : bool := fipsEnabled ks.
Definition getFipsEnabledFlag (ks : KeyStore) : string := if fipsEnabled ks then "-fips" else "-fips false".

(** The file name with another extension. *)
Definition sibling (ks : KeyStore) (ext : string) : string :=
  take_bytes (String.length (Filename ks) - String.length (Ext (Filename ks))) (Filename ks) +:+ ext.

Definition dq : string := s1 "034".

Section operations.
Context `{OS}.

Definition fileExists (filePath : string) : M bool :=
  s ← Stat filePath; mret (match s with Ok _ => true | Err _ => false end).

(** The error of a command that failed, with its name and its output. *)
Definition command_error (cmd what out : string) (e : error) : error :=
  Wrapped ("error running " +:+ dq +:+ cmd +:+ " " +:+ what +:+ dq +:+ ": ") e (" " +:+ out).

Definition run_err (cmd what : string) (args : list string) : M (option error) :=
  '(out, _, err) ← Run cmd args;
  mret (command_error cmd what out <$> err).

(** The files of an older CMS key store. *)
Definition removeStale (ks : KeyStore) : M (option error) :=
  if keyStoreType ks =s "cms" then
    try Remove (sibling ks ".sth") ;;
    try Remove (sibling ks ".rdb") ;;
    Remove (sibling ks ".crl")
  else mret None.

Definition createNew (ks : KeyStore) : M (option error) :=
  run_err (command ks) "-keydb -create"
    ["-keydb"; "-create"; getFipsEnabledFlag ks; "-type"; keyStoreType ks; "-db"; Filename ks;
     "-pw"; Password ks; "-stash"].

Definition Create (ks : KeyStore) : M (option error) :=
  s ← Stat (Filename ks);
  match s with
  | Ok _ => try removeStale ks ;; try Remove (Filename ks) ;; createNew ks
  | Err e => if negb (IsNotExist e) then mret (Some e) else createNew ks
  end.

(** The error of the command shadows the one of [Stat], which is then returned. *)
Definition CreateStash (ks : KeyStore) : M (option error) :=
  s ← Stat (sibling ks ".sth");
  match s with
  | Ok _ => mret None
  | Err e =>
      if IsNotExist e then
        try run_err (command ks) "-keydb -stashpw"
              ["-keydb"; getFipsEnabledFlag ks; "-stashpw"; "-type"; keyStoreType ks; "-db"; Filename ks;
               "-pw"; Password ks] ;;
        mret (Some e)
      else mret (Some e)
  end.

Definition Import (ks : KeyStore) (inputFile password : string) : M (option error) :=
  run_err (command ks) "-cert -import"
    ["-cert"; "-import"; getFipsEnabledFlag ks; "-file"; inputFile; "-pw"; password;
     "-target"; Filename ks; "-target_pw"; Password ks; "-target_type"; keyStoreType ks].

Definition CreateSelfSignedCertificate (ks : KeyStore) (label dn hostname : string) : M (option error) :=
  run_err (command ks) "-cert -create"
    ["-cert"; "-create"; getFipsEnabledFlag ks; "-db"; Filename ks; "-pw"; Password ks; "-label"; label;
     "-dn"; dn; "-san_dnsname"; hostname; "-size 2048 -sig_alg sha512 -eku serverAuth"].

Definition addArgs (ks : KeyStore) (inputFile : string) : list string :=
  ["-cert"; "-add"; getFipsEnabledFlag ks; "-db"; Filename ks; "-type"; keyStoreType ks;
   "-pw"; Password ks; "-file"; inputFile].

Definition Add (ks : KeyStore) (inputFile label : string) : M (option error) :=
  run_err (command ks) "-cert -add" (addArgs ks inputFile ++ ["-label"; label]).

Definition AddNoLabel (ks : KeyStore) (inputFile : string) : M (option error) :=
  run_err (command ks) "-cert -add" (addArgs ks inputFile).

(** The labels of the lines with one of the markers. *)
Definition label_of (markers : list string) (cut s : string) : option string :=
  if existsb (HasPrefix s) markers then Some (TrimSpace (TrimLeft s cut)) else None.

Definition listArgs (ks : KeyStore) : list string :=
  ["-cert"; "-list"; getFipsEnabledFlag ks; "-type"; keyStoreType ks; "-db"; Filename ks; "-pw"; Password ks].

Definition listLabels (markers : list string) (cut : string) (ks : KeyStore) : M (res (list string)) :=
  '(out, _, err) ← Run (command ks) (listArgs ks);
  mret (match err with
        | Some e => Err (command_error (command ks) "-cert -list" out e)
        | None =>
            let '(ls, tooLong) := ScanLines out in
            if tooLong then Err (Errorf "bufio.Scanner: token too long") else Ok (omap (label_of markers cut) ls)
        end).

Definition GetCertificateLabels : KeyStore → M (res (list string)) := listLabels ["-"; "*-"] "-*".
Definition ListAllCertificates : KeyStore → M (res (list string)) := listLabels ["-"; "*-"; "!"] "-*!".

Definition renameArgs (ks : KeyStore) (from to : string) : list string :=
  ["-cert"; "-rename"; "-db"; Filename ks; "-pw"; Password ks; "-label"; from; "-new_label"; to].

(** A command of a GSKit, which needs its libraries. *)
Definition run_gskit (gskitLib gskitCommand what : string) (args : list string) : M (option error) :=
  '(out, _, err) ← exec_env "LD_LIBRARY_PATH" gskitLib gskitCommand args;
  mret (command_error gskitCommand what out <$> err).

Definition RenameCertificate (ks : KeyStore) (from to : string) : M (option error) :=
  if command ks =s "/opt/mqm/bin/runmqakm" then
    gskit9 ← fileExists "/opt/mqm/gskit9";
    if gskit9 : bool then
      run_gskit "/opt/mqm/gskit9/lib64/:/opt/mqm/gskit9/lib" "/opt/mqm/gskit9/bin/gsk9certutil_64" "-cert -rename"
        (renameArgs ks from to) else
    gskit8 ← fileExists "/opt/mqm/gskit8";
    if gskit8 : bool then
      run_gskit "/opt/mqm/gskit8/lib64/:/opt/mqm/gskit8/lib" "/opt/mqm/gskit8/bin/gsk8capicmd_64" "-cert -rename"
        (renameArgs ks from to) else
    mret (Some (Errorf "error finding gskit installation"))
  else run_err (command ks) "-cert -rename" (renameArgs ks from to).

End operations.

(** ** The labels of a listing *)

(** A label as a listing shows it: ASCII text, no line break, without white space at its ends. *)
Definition ends_solid (l : list Z) : bool :=
  match l with [] => true | r :: _ => negb (IsSpace r) && negb (IsSpace (List.last l 0)) end.
Definition label_text (s : string) : bool :=
  all_bytes is_ascii s && ends_solid (runes s) && no_byte "010" s && no_byte "013" s.

(** One line of a listing: the marker, a tab and the label. *)
Definition entry (markers : list string) (e : string * string) : Prop :=
  e.1 ∈ markers ∧ label_text e.2 = true ∧ Z.of_nat (String.length e.2) < MaxScanTokenSize - 3.
Definition entry_line (e : string * string) : string := e.1 +:+ String "009" e.2.

Lemma trim_runes_ends p a l b : Forall (λ x, p (rune x) = true) a → Forall (λ x, p (rune x) = true) b →
  (∀ x, head l = Some x → p (rune x) = false) → (∀ x, list.last l = Some x → p (rune x) = false) →
  trim_runes p (a ++ l ++ b) = l.
Proof.
  intros Ha Hb Hh Ht. unfold trim_runes. rewrite drop_while_app_all by done.
  destruct l as [|x l].
  - simpl. unfold trim_end. rewrite <- (app_nil_r b), drop_while_app_all by done. done.
  - rewrite drop_while_id by (intros y k [= <- <-]; by apply Hh).
    unfold trim_end. rewrite rev_app_distr, drop_while_app_all by by apply Forall_rev.
    rewrite drop_while_id, rev_involutive; [done|]. intros y k E. apply Ht.
    rewrite <- (rev_involutive (x :: l)), E. cbn [rev]. by rewrite last_snoc.
Qed.

Lemma TrimSpace_label s : label_text s = true → TrimSpace (String "009" s) = s.
Proof.
  unfold label_text. intros [[[Ha He]%andb_true_iff _]%andb_true_iff _]%andb_true_iff.
  assert (all_bytes is_ascii (String "009" s) = true) as Hall by done.
  destruct (encode_runes _ Hall) as [E HF]. rewrite <- E. unfold TrimSpace, TrimFunc.
  rewrite decode_encode_nil by done. change (runes (String "009" s)) with ([9] ++ runes s).
  unfold runes_of. rewrite map_app. fold (runes_of (runes s)).
  rewrite <- (app_nil_r (runes_of (runes s))) at 1. rewrite trim_runes_ends.
  - destruct (encode_runes s Ha) as [Es _]. rewrite <- Es at 2. unfold raws, runes_of, encode. by rewrite map_map.
  - by repeat constructor.
  - done.
  - intros x. destruct (runes s) as [|r l]; [done|]. intros [= <-]. simpl in He |- *.
    by apply andb_true_iff in He as [?%negb_true_iff _].
  - intros x. unfold runes_of. rewrite fmap_last. intros (r & Hr & ->)%fmap_Some.
    apply last_Some in Hr as [k Hk]. rewrite Hk in He. cbn [rune]. destruct (k ++ [r]) as [|y m] eqn:Em; [by destruct k|].
    cbn [ends_solid] in He. rewrite <- Em, List.last_last in He. by apply andb_true_iff in He as [_ ?%negb_true_iff].
Qed.

Definition all_markers : list string := ["-"; "*-"; "!"].

Lemma marker_cases k : k ∈ all_markers → k = "-" ∨ k = "*-" ∨ k = "!".
Proof. unfold all_markers. set_solver. Qed.

Lemma entry_line_ok e : entry all_markers e → line_ok (entry_line e).
Proof.
  destruct e as [k s]. intros (Hk & Hs & Hl). cbn [fst snd] in *. unfold label_text in Hs.
  apply andb_true_iff in Hs as [[_ Hn]%andb_true_iff Hr].
  assert (no_byte "013" (entry_line (k, s)) = true) as Hcr.
  { unfold entry_line. cbn [fst snd]. rewrite no_byte_all in *. rewrite all_bytes_app. cbn [all_bytes]. rewrite Hr.
    by destruct (marker_cases k Hk) as [->|[->| ->]]. }
  split_and!; [|by apply HasSuffix_no_byte|].
  - unfold entry_line. cbn [fst snd]. rewrite no_byte_all in *. rewrite all_bytes_app. cbn [all_bytes]. rewrite Hn.
    by destruct (marker_cases k Hk) as [->|[->| ->]].
  - unfold entry_line. cbn [fst snd]. rewrite slength_app. cbn [String.length]. 
    destruct (marker_cases k Hk) as [->|[->| ->]]; cbn [String.length]; lia.
Qed.

Lemma label_of_entry e : entry all_markers e →
  label_of all_markers "-*!" (entry_line e) = Some e.2
  ∧ label_of ["-"; "*-"] "-*" (entry_line e) = if e.1 =s "!" then None else Some e.2.
Proof.
  destruct e as [k s]. intros (Hk & Hs & _). unfold label_of, entry_line. cbn [fst snd] in *.
  destruct (marker_cases k Hk) as [->|[->| ->]]; simpl; by rewrite ?TrimSpace_label.
Qed.

(** C15. The labels of the lines of a listing that have a marker are returned, in their order and
    as they are; the ones marked as trusted only by [ListAllCertificates]. *)
Theorem labels_listed `{OS} ks header es rc w w1 :
  Forall line_ok header → Forall (λ l, existsb (HasPrefix l) all_markers = false) header →
  Forall (entry all_markers) es →
  exec (command ks) (listArgs ks) w = ((text (header ++ map entry_line es), rc, None), w1) →
  ListAllCertificates ks w = (Ok es.*2, w1)
  ∧ GetCertificateLabels ks w = (Ok (filter (λ e, e.1 ≠ "!") es).*2, w1).
Proof.
  intros Hh Hm He Hx. unfold ListAllCertificates, GetCertificateLabels, listLabels.
  change ["-"; "*-"; "!"] with all_markers. rewrite !bind_run, Run_run, Hx. cbn [fst snd]. rewrite ScanLines_text.
  2:{ apply Forall_app; split; [done|]. apply Forall_fmap. eapply Forall_impl; [done|]. apply entry_line_ok. }
  assert (∀ m c, (∀ x, x ∈ m → x ∈ all_markers) → omap (label_of m c) header = []) as Hhead.
  { intros m c Hmc. clear -Hm Hmc. induction Hm as [|l ls Hl _ IH]; [done|]. cbn.
    assert (existsb (HasPrefix l) m = false) as E.
    { apply not_true_is_false. intros (x & Hx & Hp)%existsb_exists. apply not_true_iff_false in Hl. apply Hl.
      apply existsb_exists. exists x. split; [|done]. apply list_elem_of_In, Hmc, list_elem_of_In, Hx. }
    unfold label_of. by rewrite E. }
  rewrite !omap_app, !Hhead by (unfold all_markers; set_solver). cbn [app].
  unfold mret, M_ret. split; do 2 f_equal.
  - clear -He. induction He as [|e es Hentry _ IH]; [done|]. cbn [map omap list_omap]. rewrite (proj1 (label_of_entry e Hentry)), IH. done.
  - clear -He. induction He as [|e es Hentry _ IH]; [done|]. cbn [map omap list_omap].
    rewrite (proj2 (label_of_entry e Hentry)). destruct (String.eqb_spec (e.1) "!") as [E|E].
    + rewrite filter_cons_False by auto. exact IH.
    + rewrite filter_cons_True, IH by done. done.
Qed.

Definition listing : string :=
  text (["Certificates found"; "* default, - personal, ! trusted, # secret key"]
        ++ map entry_line [("!", "CN=Root CA,O=Org"); ("*-", "default key"); ("-", "other")]).

Definition gskit : OS := {|
  fault _ _ := None;
  exec _ _ w := ((listing, 0, None), w);
  LookPath name := name;
  hostname := Ok "mq0";
  getwd := "/" |}.

Lemma labels_listed_witness :
  ListAllCertificates (H := gskit) (NewCMSKeyStore false "/run/key.kdb" "pw") (world_of [] [])
    = (Ok ["CN=Root CA,O=Org"; "default key"; "other"], world_of [] [])
  ∧ GetCertificateLabels (H := gskit) (NewCMSKeyStore false "/run/key.kdb" "pw") (world_of [] [])
    = (Ok ["default key"; "other"], world_of [] []).
Proof.
  apply (labels_listed (H := gskit) (NewCMSKeyStore false "/run/key.kdb" "pw")
    ["Certificates found"; "* default, - personal, ! trusted, # secret key"]
    [("!", "CN=Root CA,O=Org"); ("*-", "default key"); ("-", "other")] 0); [..|reflexivity].
  - repeat constructor.
  - by repeat constructor.
  - repeat (apply Forall_cons; split; [by split_and!; [unfold all_markers; set_solver|vm_compute..]|]). constructor.
Defined.

(** [CreateStash] reports the missing stash file after it has made one. *)
Lemma create_stash_reports `{Faultless} ks w out rc w1 :
  files w !! norm (sibling ks ".sth") = None →
  (∀ args, exec (command ks) args w = ((out, rc, None), w1)) →
  CreateStash ks w = (Some (PathError "stat" (sibling ks ".sth") ENOENT), w1).
Proof.
  intros Hn Hx. unfold CreateStash. rewrite bind_run, Stat_missing by done. cbn [fst snd IsNotExist].
  rewrite check_run. unfold run_err. by rewrite bind_run, Run_run, Hx.
Qed.

(** An older key store and its three companions are removed before the new one is
    made; when one of them is missing, nothing is made and the key store stays. *)
Lemma create_refreshes `{Faultless} ks w d d1 d2 d3 : keyStoreType ks = "cms" →
  NoDup [norm (Filename ks); norm (sibling ks ".sth"); norm (sibling ks ".rdb"); norm (sibling ks ".crl")] →
  files w !! norm (Filename ks) = Some (File d) → files w !! norm (sibling ks ".sth") = Some (File d1) →
  files w !! norm (sibling ks ".rdb") = Some (File d2) → files w !! norm (sibling ks ".crl") = Some (File d3) →
  Create ks w = createNew ks (set_files
    (delete (norm (Filename ks)) (delete (norm (sibling ks ".crl")) (delete (norm (sibling ks ".rdb"))
       (delete (norm (sibling ks ".sth")) (files w))))) w).
Proof.
  intros Hc Hnd Hf H1 H2 H3. rewrite !NoDup_cons in Hnd. destruct Hnd as (N1 & N2 & N3 & _ & _).
  repeat match goal with N : _ ∉ _ :: _ |- _ => apply not_elem_of_cons in N as [? N] end.
  unfold Create. rewrite bind_run. erewrite Stat_ok by done. cbn [fst snd].
  unfold removeStale. rewrite Hc, String.eqb_refl, !check_run.
  rewrite (Remove_ok _ _ _ H1). cbn [fst snd].
  rewrite ?check_run, (Remove_ok _ _ (File d2)) by (cbn; by rewrite lookup_delete_ne). cbn [fst snd].
  rewrite ?check_run, (Remove_ok _ _ (File d3)) by (cbn; by rewrite !lookup_delete_ne). cbn [fst snd].
  rewrite ?check_run, (Remove_ok _ _ (File d)) by (cbn; by rewrite !lookup_delete_ne). done.
Qed.

Lemma create_stale_missing `{Faultless} ks w d : keyStoreType ks = "cms" →
  files w !! norm (Filename ks) = Some (File d) → files w !! norm (sibling ks ".sth") = None →
  Create ks w = (Some (PathError "remove" (sibling ks ".sth") ENOENT), w).
Proof.
  intros Hc Hf Hn. unfold Create. rewrite bind_run. erewrite Stat_ok by done. cbn [fst snd].
  unfold removeStale. rewrite Hc, String.eqb_refl, !check_run.
  assert (Remove (sibling ks ".sth") w = (Some (PathError "remove" (sibling ks ".sth") ENOENT), w)) as ->; [|done].
  unfold Remove. rewrite guarded_ok. unfold fmap, M_fmap. by rewrite Hn.
Qed.

End Keystore.
