(* ===== verification/Tls.v ===== *)
(** * Certificates and keys of the queue manager (internal/tls)

    From the directories with mounted keys and certificates to the key stores: what is
    read, which certificates are known already, what is imported and under which
    label.  The formats (PEM, X.509, PKCS#8, PKCS#12), the hash and the source of random bytes
    are the class [Crypto]; the key store commands are [exec]. *)
From S2P Require Import Prelude Utf8 GoStrings Bufio Paths Os Support Keystore.
Import Keystore.

Open Scope Z_scope.

Module Tls.

(** Packages crypto, encoding/pem and go-pkcs12. *)
Class Crypto := {
  pemBlock : Type;
  certificate : Type;
  privateKey : Type;
  (** [pem.Decode]: the first block, and what follows it. *)
  pem_decode : string → option pemBlock * string;
  pem_encode : pemBlock → res string;
  ParseCertificate : pemBlock → res certificate;
  Raw : certificate → string;
  Subject : certificate → string;
  (** SHA-512 in hexadecimal *)
  sha512_hex : string → string;
  ParsePKCS1PrivateKey : pemBlock → res privateKey;
  ParsePKCS8PrivateKey : pemBlock → res privateKey;
  (** the method [Equal], whether the type has it, and whether its values can be map keys *)
  key_Equal : privateKey → privateKey → bool;
  comparable : privateKey → bool;
  hashable : privateKey → bool;
  p12_Encode : privateKey → certificate → list certificate → string → res string;
  rand_Read : nat → M (list Z) }.

(** [pem.Decode] makes progress. *)
Class PemShrinks `{Crypto} : Prop :=
  pem_shrinks : ∀ s b r, pem_decode s = (Some b, r) → (String.length r < String.length s)%nat.

Definition cmsKeystoreName : string := "key.kdb".
Definition p12TruststoreName : string := "trust.p12".
Definition keystoreDirDefault : string := "/run/runmqserver/tls/".
Definition keystoreDirHA : string := "/run/runmqserver/ha/tls/".
Definition keyDirDefault : string := "/etc/mqm/pki/keys".
Definition keyDirHA : string := "/etc/mqm/ha/pki/keys".
Definition keyDirGroupHA : string := "/etc/mqm/groupha/pki/keys".
Definition trustDirDefault : string := "/etc/mqm/pki/trust".
Definition trustDirGroupHA : string := "/etc/mqm/groupha/pki/trust".

Record privateKeyInfo := { keySetName : string; directory : string; filename : string }.

(** [Keystore] is [None] for the nil pointer; the lookup is a map whose keys are
    distinct pointers, here in the order of insertion. *)
Record KeyStoreData `{Crypto} := MkData {
  Keystore : option KeyStore;
  Password : string;
  TrustedCerts : list pemBlock;
  KnownFingerPrints : list string;
  KeyLabels : list string;
  keyLabelLookup : list (privateKey * privateKeyInfo) }.

Record TLSStore `{Crypto} := MkStore { cms : KeyStoreData; p12 : KeyStoreData }.

(** ** Steps on the two stores

    A step returns, fails with an error that every caller passes on, or panics. *)
Inductive out (A : Type) := Ret (a : A) | Fail (e : error) | Panic.
Arguments Ret {A} a.
Arguments Fail {A} e.
Arguments Panic {A}.

Definition T `{Crypto} (A : Type) : Type := TLSStore → world → (out A * TLSStore) * world.

Section monad.
Context `{Crypto}.

#[global] Instance T_ret : MRet T := λ A a t w, (Ret a, t, w).
#[global] Instance T_bind : MBind T := λ A B f m t w,
  match m t w with
  | (Ret a, t, w) => f a t w
  | (Fail e, t, w) => (Fail e, t, w)
  | (Panic, t, w) => (Panic, t, w)
  end.

Definition fail {A} (e : error) : T A := λ t w, (Fail e, t, w).
Definition panic {A} : T A := λ t w, (Panic, t, w).
Definition lift {A} (m : M A) : T A := λ t w, let '(a, w) := m w in (Ret a, t, w).

(** [if err != nil { return fmt.Errorf(...) }] *)
Definition lift_res {A} (wrap : error → error) (m : M (res A)) : T A := λ t w,
  match m w with (Ok a, w) => (Ret a, t, w) | (Err e, w) => (Fail (wrap e), t, w) end.
Definition lift_err (wrap : error → error) (m : M (option error)) : T unit := λ t w,
  match m w with (None, w) => (Ret tt, t, w) | (Some e, w) => (Fail (wrap e), t, w) end.

(** The two stores, of which a function gets a pointer to one. *)
Inductive which := CMS | P12.
Definition data (k : which) (t : TLSStore) : KeyStoreData := match k with CMS => cms t | P12 => p12 t end.
Definition set_data (k : which) (d : KeyStoreData) (t : TLSStore) : TLSStore :=
  match k with CMS => MkStore _ d (p12 t) | P12 => MkStore _ (cms t) d end.
Definition get (k : which) : T KeyStoreData := λ t w, (Ret (data k t), t, w).
Definition put (k : which) (d : KeyStoreData) : T unit := λ t w, (Ret tt, set_data k d t, w).

(** The key store, whose methods panic on the nil pointer. *)
Definition store (k : which) : T KeyStore :=
  d ← get k; match Keystore d with Some s => mret s | None => panic end.

Fixpoint T_each {A} (f : A → T unit) (l : list A) : T unit :=
  match l with
  | [] => mret tt
  | x :: l => _ ← f x; T_each f l
  end.

(** A loop with local variables. *)
Fixpoint T_fold {A B} (f : B → A → T B) (b : B) (l : list A) : T B :=
  match l with
  | [] => mret b
  | x :: l => b ← f b x; T_fold f b l
  end.
End monad.

(** ** Known certificates *)

Section certificates.
Context `{OS} `{Crypto}.

Definition getCertificateFingerprint (b : pemBlock) : res string :=
  match ParseCertificate b with
  | Err e => Err (Wrap "Failed to parse x509 certificate" e)
  | Ok c => Ok (sha512_hex (Raw c))
  end.

(** What [addToKnownCertificates] does to the data once it has the fingerprint. *)
Definition add_known (fp : string) (b : pemBlock) (addToKeystore : bool) (d : KeyStoreData) : KeyStoreData :=
  if existsb (String.eqb fp) (KnownFingerPrints d) then d
  else MkData _ (Keystore d) (Password d) (if addToKeystore then TrustedCerts d ++ [b] else TrustedCerts d)
         (KnownFingerPrints d ++ [fp]) (KeyLabels d) (keyLabelLookup d).

Definition addToKnownCertificates (b : pemBlock) (k : which) (addToKeystore : bool) (wrap : error → error) : T bool :=
  fp ← lift_res wrap (mret (getCertificateFingerprint b));
  d ← get k;
  _ ← put k (add_known fp b addToKeystore d);
  mret (negb (existsb (String.eqb fp) (KnownFingerPrints d))).

(** The loops [for string(file) != ""] over the blocks of a file; the length of the
    file is enough fuel since a block is not empty. *)
Fixpoint pem_blocks_go (fuel : nat) (file : string) : list pemBlock :=
  match fuel with
  | O => []
  | S fuel =>
      if file =s "" then [] else
      match pem_decode file with
      | (Some b, file) => b :: pem_blocks_go fuel file
      | (None, _) => []
      end
  end.
Definition pem_blocks (file : string) : list pemBlock := pem_blocks_go (String.length file) file.

(** The message of the callers: "to known certificates", or "to know certificates" for a trust directory. *)
Definition known_err (know : string) (k : which) (_ : error) : error :=
  Errorf ("Failed to add to " +:+ know +:+ " certificates for " +:+ match k with CMS => "CMS Keystore" | P12 => "PKCS#12 Truststore" end).

(** The CMS keystore knows the certificate, and the PKCS#12 truststore trusts it, if there is one. *)
Definition trust (know : string) (b : pemBlock) : T unit :=
  d ← get P12;
  match Keystore d with
  | Some _ => _ ← addToKnownCertificates b P12 true (known_err know P12); mret tt
  | None => mret tt
  end.

(** One trust certificate of [processTrustCertificates]. *)
Definition trustCertificate (b : pemBlock) : T unit :=
  _ ← addToKnownCertificates b CMS true (known_err "know" CMS);
  trust "know" b.

(** One intermediate certificate of [processCertificates]; the state is the list of the CA
    certificates and the number of new ones. *)
Definition intermediate (path : string) (st : list certificate * Z) (b : pemBlock) : T (list certificate * Z) :=
  isNew ← addToKnownCertificates b CMS false (known_err "known" CMS);
  _ ← trust "known" b;
  c ← lift_res (Wrap ("Failed to parse CA certificate " +:+ path)) (mret (ParseCertificate b));
  mret (st.1 ++ [c], if isNew : bool then st.2 + 1 else st.2).

(** [keys, _ := os.ReadDir(...)] *)
Definition listDir (dir : string) : M (list string) :=
  l ← ReadDir dir; mret (match l with Ok l => l | Err _ => [] end).

(** Whether a directory of sets has a key or a certificate. *)
Fixpoint haveIn (keyDir : string) (sets : list string) : M bool :=
  match sets with
  | [] => mret false
  | set :: sets =>
      keys ← listDir (CleanPath [keyDir; set]);
      if existsb (λ key, HasSuffix key ".key" || HasSuffix key ".crt") keys
      then mret true else haveIn keyDir sets
  end.
Definition haveKeysAndCerts (keyDir : string) : M bool := sets ← listDir keyDir; haveIn keyDir sets.

(** ** The private key and the certificates of a set *)

(** One file of the set: the state is the key, the prefix of its name and where it was found. *)
Definition privateKeyFile (keyDir set : string) (st : option privateKey * string * privateKeyInfo) (key : string)
  : T (option privateKey * string * privateKeyInfo) :=
  if HasSuffix key ".key" then
    let path := CleanPath [keyDir; set; key] in
    file ← lift_res (Wrap ("Failed to read private key " +:+ path)) (ReadFile path);
    match (pem_decode file).1 with
    | None => fail (Errorf ("Failed to decode private key " +:+ path +:+ ": pem.Decode returned nil"))
    | Some block =>
        k ← match ParsePKCS1PrivateKey block with
            | Ok k => mret k
            | Err _ => lift_res (Wrap ("Failed to parse private key " +:+ path)) (mret (ParsePKCS8PrivateKey block))
            end;
        mret (Some k, take_bytes (String.length key - String.length (Ext key)) key,
              Build_privateKeyInfo set (JoinPath [keyDir; set]) key)
    end
  else mret st.

(** The key of an earlier set that is equal. *)
Definition previous (k : option privateKey) (l : list (privateKey * privateKeyInfo)) : option privateKeyInfo :=
  match k with
  | Some k => snd <$> List.find (λ p, key_Equal p.1 k) l
  | None => None
  end.

Definition remember (k : privateKey) (i : privateKeyInfo) (d : KeyStoreData) : KeyStoreData :=
  MkData _ (Keystore d) (Password d) (TrustedCerts d) (KnownFingerPrints d) (KeyLabels d) (keyLabelLookup d ++ [(k, i)]).

(** The key, the prefix, and the label and directory of an earlier set with the same key.  A key whose type
    cannot be a map key is a panic. *)
Definition processPrivateKey (keyDir set : string) (keys : list string)
  : T (option privateKey * string * string * string) :=
  '(key, keyPrefix, pkInfo) ← T_fold (privateKeyFile keyDir set) (None, "", Build_privateKeyInfo "" "" "") keys;
  d ← get CMS;
  match previous key (keyLabelLookup d) with
  | Some p => mret (key, keyPrefix, keySetName p, directory p)
  | None =>
      match key with
      | Some k =>
          if negb (comparable k) then fail (Errorf "failed to cast private key to comparable type")
          else if negb (hashable k) then panic
          else _ ← put CMS (remember k pkInfo d); mret (Some k, keyPrefix, "", "")
      | None => fail (Errorf "failed to cast private key to comparable type")
      end
  end.

(** One file of the set: the state is the public certificate, the CA certificates and
    the number of certificates that are new. *)
Definition certificateFile (keyDir set keyPrefix : string) (st : option certificate * (list certificate * Z)) (key : string)
  : T (option certificate * (list certificate * Z)) :=
  let path := CleanPath [keyDir; set; key] in
  let '(public, ca) := st in
  if HasPrefix key keyPrefix && HasSuffix key ".crt" then
    file ← lift_res (Wrap ("Failed to read public certificate " +:+ path)) (ReadFile path);
    match pem_decode file with
    | (None, _) => fail (Errorf ("Failed to decode public certificate " +:+ path +:+ ": pem.Decode returned nil"))
    | (Some block, file) =>
        c ← lift_res (Wrap ("Failed to parse public certificate " +:+ path)) (mret (ParseCertificate block));
        newCert ← addToKnownCertificates block CMS false (known_err "known" CMS);
        ca ← T_fold (intermediate path) (ca.1, if newCert : bool then ca.2 + 1 else ca.2) (pem_blocks file);
        mret (Some c, ca)
    end
  else if HasSuffix key ".crt" then
    file ← lift_res (Wrap ("Failed to read CA certificate " +:+ path)) (ReadFile path);
    ca ← T_fold (intermediate path) ca (pem_blocks file);
    mret (public, ca)
  else mret st.

Definition processCertificates (keyDir set keyPrefix : string) (keys : list string)
  : T (option certificate * list certificate * bool) :=
  '(public, (ca, newPublicCount)) ← T_fold (certificateFile keyDir set keyPrefix) (None, ([], 0)) keys;
  mret (public, ca, 0 <? newPublicCount).

Definition sameSubject (personal : certificate) (ca : certificate) : bool :=
  EqualFold (Subject personal) (Subject ca).

(** [strings.Trim] with an empty cutset. *)
Definition validateCertificates (personal : certificate) (ca : list certificate) : M (option error) :=
  v ← LookupEnv "MQ_ENABLE_CERT_VALIDATION";
  if match v with Some v => EqualFold (Trim v "") "false" | None => false end then mret None else
  mret (if existsb (sameSubject personal) ca
        then Some (Errorf "Error: The Subject DN of the Issuer Certificate and the Queue Manager are same")
        else None).

Definition set_labels (l : list string) (d : KeyStoreData) : KeyStoreData :=
  MkData _ (Keystore d) (Password d) (TrustedCerts d) (KnownFingerPrints d) l (keyLabelLookup d).

(** The first label that is not one of the key store's own labels is renamed. *)
Definition relabelCertificate (newLabel : string) : T unit :=
  ks ← store CMS;
  allLabels ← lift_res (Wrap "Failed to get list of all certificate labels from CMS Keystore") (GetCertificateLabels ks);
  d ← get CMS;
  match List.find (λ l, negb (existsb (String.eqb (Trim l dq)) (KeyLabels d))) allLabels with
  | Some label =>
      _ ← lift_err id (RenameCertificate ks (Trim label dq) newLabel);
      put CMS (set_labels (KeyLabels d ++ [newLabel]) d)
  | None => fail (Errorf ("Failed to relabel certificate for " +:+ newLabel +:+ " in CMS keystore"))
  end.

(** ** A directory of key sets *)

Definition truststoreLabel : string :=
  take_bytes (String.length p12TruststoreName - String.length (Ext p12TruststoreName)) p12TruststoreName.

(** The set in PKCS#12 form is imported under its name. *)
Definition importKeySet (keystoreDir set : string) (k : privateKey) (public : certificate) (ca : list certificate) : T unit :=
  d ← get CMS;
  file ← lift_res (Wrap ("Failed to encode PKCS#12 Keystore " +:+ set +:+ ".p12"))
    (mret (p12_Encode k public ca (Password d)));
  let keystorePath := CleanPath [keystoreDir; set +:+ ".p12"] in
  _ ← lift_err (Wrap ("Failed to write PKCS#12 Keystore " +:+ keystorePath)) (WriteFile keystorePath file);
  ks ← store CMS;
  _ ← lift_err (Wrap ("Failed to import keys from " +:+ keystorePath +:+ " into CMS Keystore"))
    (Import ks keystorePath (Password d));
  relabelCertificate set.

(** One set; the state is the label of the first set. *)
Definition processKeySet (keystoreDir keyDir keyLabel set : string) : T string :=
  keys ← lift (listDir (CleanPath [keyDir; set]));
  if set =s truststoreLabel then fail (Errorf ("key label cannot be set to the Truststore name: " +:+ set)) else
  '(key, keyPrefix, previousLabel, previousDirectory) ← processPrivateKey keyDir set keys;
  match key with
  | None => mret keyLabel
  | Some k =>
      '(public, ca, newPublicCerts) ← processCertificates keyDir set keyPrefix keys;
      if negb (previousLabel =s "") && negb newPublicCerts then
        _ ← lift (log INFO ("No new keys found while processing '" +:+ JoinPath [keyDir; set] +:+ "' (duplicate of '"
              +:+ previousDirectory +:+ "'); skip loading directory"));
        mret (if keyLabel =s "" then previousLabel else keyLabel)
      else
        match public with
        | None => fail (Errorf ("Failed to find public certificate in directory " +:+ keyDir))
        | Some public =>
            _ ← lift_err id (validateCertificates public ca);
            _ ← importKeySet keystoreDir set k public ca;
            mret (if keyLabel =s "" then set else keyLabel)
        end
  end.

Definition processKeys (keystoreDir keyDir : string) : T string :=
  keyList ← lift (listDir keyDir);
  T_fold (processKeySet keystoreDir keyDir) "" keyList.

(** ** Trust certificates *)

Definition trustFile (trustDir set key : string) : T unit :=
  if HasSuffix key ".crt" then
    let path := CleanPath [trustDir; set; key] in
    file ← lift_res (Wrap ("Failed to read file " +:+ path)) (ReadFile path);
    T_each trustCertificate (pem_blocks file)
  else mret tt.

Definition trustSet (trustDir set : string) : T unit :=
  keys ← lift (listDir (CleanPath [trustDir; set]));
  T_each (trustFile trustDir set) keys.

(** Create the file and append the blocks one by one.  A block that does not fit into the buffer of
    [bufio.NewWriter] is written while it is encoded. *)
Definition bufferSize : Z := 4096.

Fixpoint writeBlocks (file : string) (i : Z) (l : list pemBlock) : M (option error) :=
  match l with
  | [] => mret None
  | b :: l =>
      let encodeFailed (e : error) := Wrap ("Failed to encode certificate number " +:+ Itoa i) e in
      match pem_encode b with
      | Err e => mret (Some (encodeFailed e))
      | Ok s =>
          r ← write_with "write" file (λ old, old +:+ s);
          match r with
          | Err e =>
              mret (Some (if bufferSize <? Z.of_nat (String.length s) then encodeFailed e
                          else Wrap ("Failed to write certificate to file " +:+ file) e))
          | Ok _ => writeBlocks file (i + 1) l
          end
      end
  end.

Definition writeCertificatesToFile (file : string) (l : list pemBlock) : M (option error) :=
  c ← write_with "open" file (λ _, "");
  match c with
  | Err e => mret (Some (Wrap ("Failed to create file " +:+ file) e))
  | Ok _ => writeBlocks file 0 l
  end.

Definition removeOld (file : string) : M (option error) :=
  s ← Stat file;
  match s with
  | Ok _ => e ← Remove file; mret (Wrap ("Failed to remove file " +:+ file) <$> e)
  | Err _ => mret None
  end.

(** Rename the certificates of the truststore to [Trust0], [Trust1], ... *)
Fixpoint renameAll (ks : KeyStore) (i : Z) (l : list string) : M (option error) :=
  match l with
  | [] => mret None
  | c :: l =>
      let certificate := TrimSpace (Trim c dq) in
      let newLabel := "Trust" +:+ Itoa i in
      e ← RenameCertificate ks certificate newLabel;
      match e with
      | Some e =>
          mret (Some (Wrap ("Failed to rename certificate " +:+ certificate +:+ " to " +:+ newLabel
                            +:+ " in PKCS#12 Truststore") e))
      | None => renameAll ks (i + 1) l
      end
  end.

Definition addCertificatesToTruststore : T unit :=
  d ← get P12;
  let file := CleanPath ["/tmp"; "trust.pem"] in
  _ ← lift_err id (removeOld file);
  _ ← lift_err id (writeCertificatesToFile file (TrustedCerts d));
  ks ← store P12;
  _ ← lift_err (Wrap "Failed to add certificates to PKCS#12 Truststore") (AddNoLabel ks file);
  all ← lift_res (Wrap "Failed to get any certificates from PKCS#12 Truststore") (ListAllCertificates ks);
  match all with
  | [] => fail (Errorf "Failed to get any certificates from PKCS#12 Truststore: <nil>")
  | _ => lift_err id (renameAll ks 0 all)
  end.

Definition addCertificatesToCMSKeystore : T unit :=
  d ← get CMS;
  let file := CleanPath ["/tmp"; "cmsTrust.pem"] in
  _ ← lift_err id (removeOld file);
  _ ← lift_err id (writeCertificatesToFile file (TrustedCerts d));
  ks ← store CMS;
  lift_err (Wrap "Failed to add certificates to CMS keystore") (AddNoLabel ks file).

Definition none {A} (l : list A) : bool := match l with [] => true | _ => false end.

Definition processTrustCertificates (trustDir : string) : T unit :=
  trustList ← lift (listDir trustDir);
  _ ← T_each (trustSet trustDir) trustList;
  d ← get P12;
  _ ← (if match Keystore d with Some _ => negb (none (TrustedCerts d)) | None => false end
       then addCertificatesToTruststore else mret tt);
  d ← get CMS;
  if negb (none (TrustedCerts d)) then addCertificatesToCMSKeystore else mret tt.

(** ** The key stores *)

Definition validChars : string := "ABCDEFGHIJKLMNOPQRSTUVWXYZabcdefghijklmnopqrstuvwxyz0123456789".

Definition passwordChar (b : Z) : ascii :=
  default "000"%char (String.get (Z.to_nat (b mod Z.of_nat (String.length validChars))) validChars).

Definition generateRandomPassword : M string :=
  bytes ← rand_Read 12;
  mret (String.string_of_list_ascii (map passwordChar bytes)).

Definition emptyData (pw : string) : KeyStoreData := MkData _ None pw [] [] [] [].

Definition with_store (ks : KeyStore) (d : KeyStoreData) : KeyStoreData :=
  MkData _ (Some ks) (Password d) (TrustedCerts d) (KnownFingerPrints d) (KeyLabels d) (keyLabelLookup d).

(** The store, and the error if one could not be made. *)
Definition generateAllKeystores (fips : bool) (keystoreDir : string) (createCMSKeystore p12TruststoreRequired : bool)
  : M (TLSStore * option error) :=
  pw ← generateRandomPassword;
  let c := emptyData pw in
  let p := emptyData pw in
  err ← MkdirAll keystoreDir;
  match err with
  | Some e => mret (MkStore _ c p, Some (Wrap "Failed to create Keystore directory" e))
  | None =>
      '(c, err) ← (if createCMSKeystore then
             let ks := NewCMSKeyStore fips (CleanPath [keystoreDir; cmsKeystoreName]) pw in
             e ← Create ks; mret (with_store ks c, Wrap "Failed to create CMS Keystore" <$> e)
           else mret (c, None));
      match err with
      | Some e => mret (MkStore _ c p, Some e)
      | None =>
          if p12TruststoreRequired then
            let ks := NewPKCS12KeyStore fips (CleanPath [keystoreDir; p12TruststoreName]) pw in
            e ← Create ks;
            mret (MkStore _ c (with_store ks p), Wrap "Failed to create PKCS#12 Truststore" <$> e)
          else mret (MkStore _ c p, None)
      end
  end.

Fixpoint anyKeysAndCerts (dirs : list string) : M bool :=
  match dirs with
  | [] => mret false
  | d :: dirs => h ← haveKeysAndCerts d; if h : bool then mret true else anyKeysAndCerts dirs
  end.

(** The labels of the key directories, one for each, empty without a key store. *)
Definition keyLabelsOf (keystoreDir : string) (keyDirs : list string) : T (list string) :=
  d ← get CMS;
  match Keystore d with
  | Some _ => T_fold (λ labels dir, l ← processKeys keystoreDir dir; mret (labels ++ [l])) [] keyDirs
  | None => mret (map (λ _, "") keyDirs)
  end.

Definition configureTLSKeystores (fips : bool) (keystoreDir : string) (keyDirs trustDirs : list string)
  (p12TruststoreRequired : bool) : M (out (list string) * TLSStore) :=
  cmsKeystoreRequired ← anyKeysAndCerts (keyDirs ++ trustDirs);
  '(t, err) ← generateAllKeystores fips keystoreDir cmsKeystoreRequired p12TruststoreRequired;
  match err with
  | Some e => mret (Fail e, t)
  | None => (keyLabels ← keyLabelsOf keystoreDir keyDirs; _ ← T_each processTrustCertificates trustDirs; mret keyLabels : T _) t
  end.

Definition ConfigureDefaultTLSKeystores (fips : bool) : M (out string * TLSStore) :=
  '(r, t) ← configureTLSKeystores fips keystoreDirDefault [keyDirDefault] [trustDirDefault] true;
  mret (match r with
        | Ret l => Ret (default "" (head l))
        | Fail e => Fail e
        | Panic => Panic
        end, t).

Definition ConfigureHATLSKeystore (fips : bool) : M (out (string * string) * TLSStore) :=
  '(r, t) ← configureTLSKeystores fips keystoreDirHA [keyDirHA; keyDirGroupHA] [trustDirGroupHA] false;
  mret (match r with
        | Ret [a; b] => Ret (a, b)
        | Ret l => Fail (Errorf ("incorrect number of certificate labels returned (expected 2, got "
                                  +:+ Itoa (Z.of_nat (length l)) +:+ ")"))
        | Fail e => Fail e
        | Panic => Panic
        end, t).

(** ** Configuration files *)

Context (execute : string → list (string * string) → string * option error) (parse : string → option error).

Definition configureTLSDev : M (option error) :=
  dev ← Getenv "MQ_DEV";
  if dev =s "true"
  then Files.ProcessTemplateFile execute parse "/etc/mqm/20-dev-tls.mqsc.tpl" "/run/20-dev-tls.mqsc" []
  else mret None.

Definition ConfigureTLS (keyLabel : string) (cmsKeystore : KeyStoreData) (devMode : bool) : M (option error) :=
  '(sslKeyRing, fipsEnabled) ←
    match Keystore cmsKeystore with
    | Some ks =>
        if keyLabel =s "" then mret ("", "NO") else
        certList ← ListAllCertificates ks;
        mret (match certList with Ok (_ :: _) => TrimSuffix (Filename ks) ".kdb" | _ => "" end,
              if IsFIPSEnabled ks then "YES" else "NO")
    | None => mret ("", "NO")
    end;
  try Files.ProcessTemplateFile execute parse "/etc/mqm/15-tls.mqsc.tpl" "/run/15-tls.mqsc"
        [("SSLKeyR", sslKeyRing); ("CertificateLabel", keyLabel); ("SSLFips", fipsEnabled)] ;;
  if devMode && negb (keyLabel =s "") then configureTLSDev else mret None.

(** internal/tls/tls_web.go *)
Definition webKeystoreDefault : string := "default.p12".

Definition ConfigureWebTLS (keyLabel webKeystore : string) (p12Truststore : KeyStoreData) : M (option error) :=
  gen ← Getenv "MQ_GENERATE_CERTIFICATE_HOSTNAME";
  if (keyLabel =s "") && (gen =s "") then mret None else
  let webTruststoreRef := if none (TrustedCerts p12Truststore) then "MQWebKeyStore" else "MQWebTrustStore" in
  encrypted ← SimpleAuth.EncodeSecrets (Password p12Truststore);
  encryptedPassword ←
    match encrypted with
    | Ok p => mret p
    | Err e => _ ← log INFO ("Password encoding for Web Keystore failed with error " +:+ Error_ e); mret ""
    end;
  Files.ProcessTemplateFile execute parse
    "/etc/mqm/web/installations/Installation1/servers/mqweb/tls.xml.tpl" "/run/tls.xml"
    [("password", encryptedPassword); ("webKeystore", webKeystore); ("webTruststoreRef", webTruststoreRef)].

(** The name of the key store; [None] when the truststore is the nil pointer. *)
Definition ConfigureWebKeystore (fips : bool) (p12Truststore : KeyStoreData) (keyLabel : string) : M (option (res string)) :=
  let webKeystore := if keyLabel =s "" then webKeystoreDefault else keyLabel +:+ ".p12" in
  let webKeystoreFile := CleanPath [keystoreDirDefault; webKeystore] in
  err ← (if keyLabel =s "" then
           genHostName ← Getenv "MQ_GENERATE_CERTIFICATE_HOSTNAME";
           let ks := NewPKCS12KeyStore fips webKeystoreFile (Password p12Truststore) in
           e ← Create ks;
           match e with
           | Some e => mret (Some (Wrap ("failed to create Web Keystore " +:+ webKeystoreFile) e))
           | None =>
               e ← CreateSelfSignedCertificate ks "default" ("CN=" +:+ genHostName) genHostName;
               mret (Wrap ("failed to generate certificate in Web Keystore " +:+ webKeystoreFile +:+ " with DN of 'CN="
                           +:+ genHostName +:+ "'") <$> e)
           end
         else
           s ← Stat webKeystoreFile;
           mret (Wrap ("failed to find existing Web Keystore " +:+ webKeystoreFile) <$> err_of s));
  match err with
  | Some e => mret (Some (Err e))
  | None =>
      match Keystore p12Truststore with
      | None => mret None
      | Some ks =>
          s ← Stat (Filename ks);
          mret (Some (match s with
                      | Err e => Err (Wrap ("failed to find existing Web Truststore " +:+ Filename ks) e)
                      | Ok _ => Ok webKeystore
                      end))
      end
  end.

End certificates.

(** ** Running steps *)

Section laws.
Context `{OS} `{Crypto}.

Lemma bind_Ret {A B} (m : T A) (f : A → T B) t w b t' w' : (m ≫= f) t w = (Ret b, t', w') →
  ∃ a t1 w1, m t w = (Ret a, t1, w1) ∧ f a t1 w1 = (Ret b, t', w').
Proof.
  unfold mbind, T_bind. destruct (m t w) as [[[a|e|] t1] w1]; [|done..]. eauto.
Qed.

Lemma lift_res_Ret {A} wrap (m : M (res A)) t w a t' w' : lift_res wrap m t w = (Ret a, t', w') →
  m w = (Ok a, w') ∧ t' = t.
Proof. unfold lift_res. destruct (m w) as [[x|e] w1]; [|done]. by intros [= -> -> ->]. Qed.

Lemma ReadDir_world path w : (ReadDir path w).2 = w.
Proof.
  unfold ReadDir, guarded. destruct (fault _ _); [done|]. by destruct (follow w _) as [[]|].
Qed.

Lemma ReadFile_world path w : (ReadFile path w).2 = w.
Proof.
  unfold ReadFile, guarded. destruct (fault _ _); [done|]. by destruct (follow w _) as [[]|].
Qed.

(** The names in a directory, empty when it cannot be read. *)
Definition names (w : world) (dir : string) : list string := (listDir dir w).1.

Lemma listDir_run dir w : listDir dir w = (names w dir, w).
Proof.
  unfold names, listDir. rewrite bind_run. pose proof (ReadDir_world dir w) as E.
  destruct (ReadDir dir w) as [r w1]. cbn [fst snd] in *. by subst.
Qed.

(** A loop that keeps an invariant and makes progress along a preorder establishes
    for each element what its step establishes, when that is stable. *)
Lemma T_each_spec {A} (I : TLSStore → Prop) (R : TLSStore → TLSStore → Prop) (D : A → world → TLSStore → Prop)
    (f : A → T unit) (l : list A) :
  (∀ t, R t t) → (∀ t1 t2 t3, R t1 t2 → R t2 t3 → R t1 t3) →
  (∀ x w t t', D x w t → R t t' → D x w t') →
  (∀ x t w t' w', I t → f x t w = (Ret tt, t', w') → w' = w ∧ I t' ∧ R t t' ∧ D x w t') →
  ∀ t w t' w', I t → T_each f l t w = (Ret tt, t', w') → w' = w ∧ I t' ∧ R t t' ∧ Forall (λ x, D x w t') l.
Proof.
  intros Hrefl Htrans Hmono Hf. induction l as [|x l IH]; intros t w t' w' HI; cbn [T_each].
  - intros [= <- <-]. auto.
  - intros ([] & t1 & w1 & E1 & E2)%bind_Ret. destruct (Hf _ _ _ _ _ HI E1) as (-> & HI1 & HR1 & HD1).
    destruct (IH _ _ _ _ HI1 E2) as (-> & HI2 & HR2 & HD2). split_and!; eauto.
Qed.

(** ** Known certificates *)

(** The fingerprints are distinct, and the trusted certificates are distinct and known. *)
Record wf (d : KeyStoreData) : Prop := {
  wf_known : NoDup (KnownFingerPrints d);
  wf_trusted : NoDup (map getCertificateFingerprint (TrustedCerts d));
  wf_subset : Forall (λ b, ∃ fp, getCertificateFingerprint b = Ok fp ∧ fp ∈ KnownFingerPrints d) (TrustedCerts d) }.

Definition wf_store (t : TLSStore) : Prop := wf (cms t) ∧ wf (p12 t).

Definition grows_data (d d' : KeyStoreData) : Prop :=
  Keystore d' = Keystore d ∧ KnownFingerPrints d ⊆ KnownFingerPrints d'.
Definition grows (t t' : TLSStore) : Prop := grows_data (cms t) (cms t') ∧ grows_data (p12 t) (p12 t').

Lemma grows_refl t : grows t t.
Proof. by repeat split. Qed.

Lemma grows_trans t1 t2 t3 : grows t1 t2 → grows t2 t3 → grows t1 t3.
Proof.
  intros [[E1 S1] [E2 S2]] [[E3 S3] [E4 S4]].
  repeat split; [by rewrite E3|by etrans|by rewrite E4|by etrans].
Qed.

Lemma existsb_known fp l : existsb (String.eqb fp) l = true ↔ fp ∈ l.
Proof.
  rewrite existsb_exists. split.
  - intros (x & Hx & ->%String.eqb_eq). by apply list_elem_of_In.
  - intros Hx. exists fp. split; [by apply list_elem_of_In|]. apply String.eqb_refl.
Qed.

Lemma add_known_spec fp b trusted d : wf d → getCertificateFingerprint b = Ok fp →
  wf (add_known fp b trusted d) ∧ grows_data d (add_known fp b trusted d)
  ∧ fp ∈ KnownFingerPrints (add_known fp b trusted d).
Proof.
  intros [Hk Ht Hs] Hfp. unfold add_known. destruct (existsb (String.eqb fp) _) eqn:E.
  - apply existsb_known in E. by repeat split.
  - assert (fp ∉ KnownFingerPrints d) as Hn by (intros Hx%existsb_known; congruence).
    assert (Forall (λ b, ∃ fp0, getCertificateFingerprint b = Ok fp0 ∧ fp0 ∈ KnownFingerPrints d ++ [fp]) (TrustedCerts d)) as Hs'.
    { eapply Forall_impl; [done|]. intros x (fp' & ? & ?). exists fp'. split; [done|]. apply elem_of_app. by left. }
    split_and!; [|split; [done|cbn [KnownFingerPrints]; set_solver]|cbn [KnownFingerPrints]; set_solver].
    split; cbn [KnownFingerPrints TrustedCerts].
    + apply NoDup_app. split_and!; [done|set_solver|apply NoDup_singleton].
    + destruct trusted; [|done]. rewrite map_app. cbn [map]. apply NoDup_app. split_and!; [done| |apply NoDup_singleton].
      intros x Hx. rewrite list_elem_of_singleton, Hfp. intros ->.
      apply list_elem_of_fmap in Hx as (c & Hc & Hin). rewrite Forall_forall in Hs.
      destruct (Hs c Hin) as (fp' & E' & Hin'). congruence.
    + destruct trusted; [|done]. apply Forall_app. split; [done|]. repeat constructor. exists fp. split; [done|]. set_solver.
Qed.

Lemma add_spec k b trusted wrap t w r t' w' : wf_store t →
  addToKnownCertificates b k trusted wrap t w = (Ret r, t', w') →
  w' = w ∧ wf_store t' ∧ grows t t'
  ∧ ∃ fp, getCertificateFingerprint b = Ok fp ∧ fp ∈ KnownFingerPrints (data k t').
Proof.
  intros [Hc Hp]. unfold addToKnownCertificates. intros (fp & t1 & w1 & [E ->]%lift_res_Ret & E2)%bind_Ret.
  injection E as Hfp <-. cbn in E2. injection E2 as <- <- <-.
  destruct (add_known_spec fp b trusted (data k t)) as (Hwf & Hg & Hin); [by destruct k|done|].
  split; [done|]. split; [destruct k; by split|]. split; [|exists fp; split; [done|by destruct k]].
  destruct k; split; [exact Hg|by split|by split|exact Hg].
Qed.

(** A certificate is known where it has to be. *)
Definition known (b : pemBlock) (t : TLSStore) : Prop :=
  ∃ fp, getCertificateFingerprint b = Ok fp ∧ fp ∈ KnownFingerPrints (cms t)
    ∧ (is_Some (Keystore (p12 t)) → fp ∈ KnownFingerPrints (p12 t)).

Lemma known_grows b t t' : known b t → grows t t' → known b t'.
Proof.
  intros (fp & E & Hc & Hp) [[E1 S1] [E2 S2]]. exists fp. split_and!; [done|set_solver|]. rewrite E2. set_solver.
Qed.

Lemma trustCertificate_spec b t w t' w' : wf_store t → trustCertificate b t w = (Ret tt, t', w') →
  w' = w ∧ wf_store t' ∧ grows t t' ∧ known b t'.
Proof.
  intros Hwf. unfold trustCertificate. intros (r & t1 & w1 & E1 & E2)%bind_Ret.
  destruct (add_spec _ _ _ _ _ _ _ _ _ Hwf E1) as (-> & Hwf1 & Hg1 & fp & Hfp & Hin). unfold trust in E2.
  apply bind_Ret in E2 as (d & t2 & w2 & [= <- <- <-] & E3). cbn [data] in E3.
  destruct (Keystore (p12 t1)) as [ks|] eqn:Eks.
  - apply bind_Ret in E3 as (r2 & t2 & w2 & E3 & [= <- <-]).
    destruct (add_spec _ _ _ _ _ _ _ _ _ Hwf1 E3) as (-> & Hwf2 & Hg2 & fp' & Hfp' & Hin2). simplify_eq.
    rewrite Hfp in Hfp'. injection Hfp' as <-. split_and!; [done..|by eapply grows_trans|].
    exists fp. split_and!; [done| |done]. destruct Hg2 as [[_ S] _]. set_solver.
  - injection E3 as <- <-. split_and!; [done..|]. exists fp. split_and!; [done..|]. rewrite Eks. by intros [].
Qed.

(** The certificates of a file, of a set and of a directory. *)
Definition known_file (trustDir set key : string) (w : world) (t : TLSStore) : Prop :=
  HasSuffix key ".crt" = true → ∃ file, ReadFile (CleanPath [trustDir; set; key]) w = (Ok file, w)
    ∧ Forall (λ b, known b t) (pem_blocks file).
Definition known_set (trustDir set : string) (w : world) (t : TLSStore) : Prop :=
  Forall (λ key, known_file trustDir set key w t) (names w (CleanPath [trustDir; set])).

Lemma known_file_grows trustDir set key w t t' : known_file trustDir set key w t → grows t t' → known_file trustDir set key w t'.
Proof.
  intros Hk Hg Hs. destruct (Hk Hs) as (file & E & Hb). exists file. split; [done|].
  eapply Forall_impl; [done|]. intros b Hb'. exact (known_grows b t t' Hb' Hg).
Qed.

Lemma trustFile_spec trustDir set key t w t' w' : wf_store t → trustFile trustDir set key t w = (Ret tt, t', w') →
  w' = w ∧ wf_store t' ∧ grows t t' ∧ known_file trustDir set key w t'.
Proof.
  intros Hwf. unfold trustFile, known_file. destruct (HasSuffix key ".crt").
  - intros (file & t1 & w1 & [E ->]%lift_res_Ret & E2)%bind_Ret.
    assert (w1 = w) as -> by (pose proof (ReadFile_world (CleanPath [trustDir; set; key]) w) as Hw; by rewrite E in Hw).
    eapply (T_each_spec wf_store grows (λ b _, known b)) in E2 as (-> & Hwf' & Hg & Hk);
      eauto using grows_refl, grows_trans, known_grows, trustCertificate_spec.
    split_and!; [done..|]. intros _. eauto.
  - intros [= <- <-]. by split_and!; auto using grows_refl.
Qed.

Lemma trustSet_spec trustDir set t w t' w' : wf_store t → trustSet trustDir set t w = (Ret tt, t', w') →
  w' = w ∧ wf_store t' ∧ grows t t' ∧ known_set trustDir set w t'.
Proof.
  intros Hwf. unfold trustSet. intros (keys & t1 & w1 & E1 & E2)%bind_Ret. unfold lift in E1.
  rewrite listDir_run in E1. injection E1 as <- <- <-.
  eapply (T_each_spec wf_store grows (known_file trustDir set)) in E2 as (-> & Hwf' & Hg & Hk);
    eauto using grows_refl, grows_trans, known_file_grows, trustFile_spec.
Qed.

(** Steps that only use the key store do not change what is known. *)
Definition keeps {A} (m : T A) : Prop := ∀ t w a t' w', m t w = (Ret a, t', w') → t' = t.

Lemma keeps_bind {A B} (m : T A) (f : A → T B) : keeps m → (∀ a, keeps (f a)) → keeps (m ≫= f).
Proof.
  intros Hm Hf t w b t' w' (a & t1 & w1 & E1 & E2)%bind_Ret.
  rewrite (Hf _ _ _ _ _ _ E2). by rewrite (Hm _ _ _ _ _ E1).
Qed.

Lemma keeps_err wrap m : keeps (lift_err wrap m).
Proof. intros t w a t' w'. unfold lift_err. destruct (m w) as [[e|] w1]; [done|]. by intros [= _ <- _]. Qed.

Lemma keeps_res {A} wrap (m : M (res A)) : keeps (lift_res wrap m).
Proof. by intros t w a t' w' [_ ->]%lift_res_Ret. Qed.

Lemma keeps_store k : keeps (store k).
Proof.
  intros t w a t' w'. unfold store. intros (d & t1 & w1 & [= <- <- <-] & E)%bind_Ret.
  destruct (Keystore (data k t)); [by injection E|done].
Qed.

Lemma keeps_get k : keeps (get k).
Proof. by intros t w a t' w' [= _ <- _]. Qed.

Lemma keeps_truststore : keeps addCertificatesToTruststore.
Proof.
  unfold addCertificatesToTruststore.
  repeat first [apply keeps_get | apply keeps_store | apply keeps_err | apply keeps_res | apply keeps_bind; [|intros ?]].
  match goal with |- keeps (match ?l with [] => _ | _ => _ end) => destruct l end; [by intros ?|apply keeps_err].
Qed.

Lemma keeps_cms : keeps addCertificatesToCMSKeystore.
Proof.
  unfold addCertificatesToCMSKeystore.
  repeat first [apply keeps_get | apply keeps_store | apply keeps_err | apply keeps_res | apply keeps_bind; [|intros ?]].
Qed.

Lemma keeps_if {A} (b : bool) (m m' : T A) : keeps m → keeps m' → keeps (if b then m else m').
Proof. by destruct b. Qed.

Lemma keeps_ret {A} (a : A) : keeps (mret a).
Proof. by intros t w a' t' w' [= _ <- _]. Qed.

(** C14. After the trust certificates of a directory have been processed without an error, every
    certificate of every .crt file in it is known to the CMS key store, and to the
    truststore if there is one; no certificate is known or trusted twice. *)
Theorem trust_complete trustDir t w t' w' : wf_store t →
  processTrustCertificates trustDir t w = (Ret tt, t', w') →
  wf_store t' ∧ grows t t' ∧ Forall (λ set, known_set trustDir set w t') (names w trustDir).
Proof.
  intros Hwf. unfold processTrustCertificates. intros (sets & t1 & w1 & E1 & E2)%bind_Ret. unfold lift in E1.
  rewrite listDir_run in E1. injection E1 as <- <- <-.
  apply bind_Ret in E2 as ([] & t2 & w2 & E2 & E3).
  eapply (T_each_spec wf_store grows (known_set trustDir)) in E2 as (-> & Hwf' & Hg & Hk);
    eauto using grows_refl, grows_trans, trustSet_spec.
  - assert (t' = t2) as ->; [|done]. revert E3.
    match goal with |- ?m t2 w = _ → _ => assert (keeps m) as Hm end; [|by apply Hm].
    apply keeps_bind; [apply keeps_get|intros d]. apply keeps_bind; [|intros _].
    + apply keeps_if; [apply keeps_truststore|apply keeps_ret].
    + apply keeps_bind; [apply keeps_get|intros d']. apply keeps_if; [apply keeps_cms|apply keeps_ret].
  - intros set w3 t3 t4 Hs Hg'. unfold known_set in *. eapply Forall_impl; [exact Hs|].
    intros key Hkey. exact (known_file_grows _ _ _ _ _ _ Hkey Hg').
Qed.

(** A set of keys without a private key file makes the configuration fail: the branch that
    would skip such a set is not reached. *)
Lemma key_set_needs_key keystoreDir keyDir keyLabel set t w : set ≠ truststoreLabel →
  Forall (λ key, HasSuffix key ".key" = false) (names w (CleanPath [keyDir; set])) →
  processKeySet keystoreDir keyDir keyLabel set t w
    = (Fail (Errorf "failed to cast private key to comparable type"), t, w).
Proof.
  intros Hset Hkeys. unfold processKeySet. unfold mbind at 1, T_bind at 1. unfold lift at 1. rewrite listDir_run.
  destruct (String.eqb_spec set truststoreLabel); [done|]. unfold mbind at 1, T_bind at 1. unfold processPrivateKey.
  assert (∀ st, T_fold (privateKeyFile keyDir set) st (names w (CleanPath [keyDir; set])) t w = (Ret st, t, w)) as E.
  { induction Hkeys as [|key keys Hk _ IH]; intros st; cbn [T_fold]; [done|].
    unfold mbind, T_bind. unfold privateKeyFile at 1. rewrite Hk. cbn. apply IH. }
  unfold mbind at 1, T_bind at 1. by rewrite E.
Qed.

(** A key of a type that cannot be a map key ends the process, as those of Ed25519 do. *)
Lemma unhashable_panics keyDir set keys t w k prefix info :
  T_fold (privateKeyFile keyDir set) (None, "", Build_privateKeyInfo "" "" "") keys t w = (Ret (Some k, prefix, info), t, w) →
  previous (Some k) (keyLabelLookup (cms t)) = None → comparable k = true → hashable k = false →
  processPrivateKey keyDir set keys t w = (Panic, t, w).
Proof.
  intros E Hp Hc Hh. unfold processPrivateKey. unfold mbind at 1, T_bind at 1. rewrite E.
  unfold mbind, T_bind. cbn [get data]. unfold get. cbn [data]. by rewrite Hp, Hc, Hh.
Qed.

(** ** The blocks of a file *)

Lemma pem_blocks_go_enough `{!PemShrinks} n file : (String.length file ≤ n)%nat →
  pem_blocks_go n file = pem_blocks file.
Proof.
  unfold pem_blocks. remember (String.length file) as k eqn:Hk. revert file n Hk.
  induction k as [k IH] using lt_wf_ind. intros file n -> Hn.
  destruct (String.eqb_spec file "") as [->|Hne]; [by destruct n|].
  destruct file as [|c file]; [done|]. destruct n as [|n]; simpl in Hn; [lia|]. cbn [String.length pem_blocks_go].
  destruct (String.eqb_spec (String c file) ""); [done|].
  destruct (pem_decode (String c file)) as [[b|] r] eqn:E; [|done].
  pose proof (pem_shrinks _ _ _ E) as Hr. simpl in Hr. f_equal.
  rewrite (IH (String.length r)) by (done || simpl; lia). symmetry. apply (IH (String.length r)); simpl; lia.
Qed.

Lemma pem_blocks_eq `{!PemShrinks} file : pem_blocks file =
  if file =s "" then [] else
  match pem_decode file with (Some b, file) => b :: pem_blocks file | (None, _) => [] end.
Proof.
  destruct file as [|c file]; [done|]. unfold pem_blocks at 1. cbn [String.length pem_blocks_go].
  destruct (String.eqb_spec (String c file) ""); [done|].
  destruct (pem_decode (String c file)) as [[b|] r] eqn:E; [|done].
  pose proof (pem_shrinks _ _ _ E) as Hr. simpl in Hr. f_equal. apply pem_blocks_go_enough. lia.
Qed.

(** The password of the key stores: as many letters and digits as bytes were read. *)
Definition alphanumeric (c : ascii) : bool :=
  let z := byteZ c in
  ((65 <=? z) && (z <=? 90)) || ((97 <=? z) && (z <=? 122)) || ((48 <=? z) && (z <=? 57)).

Lemma passwordChar_alphanumeric b : alphanumeric (passwordChar b) = true.
Proof.
  unfold passwordChar. assert (0 <= b mod Z.of_nat (String.length validChars) < 62) as Hb by (apply Z.mod_pos_bound; done).
  revert Hb. generalize (b mod Z.of_nat (String.length validChars)). intros z Hz.
  assert (forallb (λ n, alphanumeric (default "000"%char (String.get n validChars))) (seq 0 62) = true) as Hall by done.
  rewrite forallb_forall in Hall. apply Hall, in_seq. lia.
Qed.

Lemma password_get bs i : String.get i (String.string_of_list_ascii (map passwordChar bs)) = passwordChar <$> bs !! i.
Proof. revert i. induction bs as [|b bs IH]; intros [|i]; [done..|]. apply IH. Qed.

(** The bytes that give a character. *)
Definition preimages (c : ascii) : list Z := filter (λ b, passwordChar b = c) (seqZ 0 256).

Lemma preimages_count : forallb (λ c, implb (alphanumeric c) (bool_decide (4 ≤ length (preimages c) ≤ 5)%nat))
  (map ascii_of_nat (seq 0 256)) = true.
Proof. vm_compute. reflexivity. Qed.

(** C27. The password of the key stores: from twelve bytes, twelve letters and digits, each of which
    depends on its own byte only.  Each letter and digit comes from four or five of the 256 values of
    a byte, so none is impossible and none is more than 5/4 as likely as another. *)
Theorem password_bounds bs w w1 : rand_Read 12 w = (bs, w1) → length bs = 12%nat → ∃ pw,
  generateRandomPassword w = (pw, w1) ∧ String.length pw = 12%nat ∧ all_bytes alphanumeric pw = true
  ∧ (∀ i, String.get i pw = passwordChar <$> bs !! i)
  ∧ ∀ c, alphanumeric c = true → (4 ≤ length (preimages c) ≤ 5)%nat.
Proof.
  intros E Hn. eexists. unfold generateRandomPassword. rewrite bind_run, E. split; [done|]. cbn [fst]. split_and!.
  - rewrite <- Hn. clear. induction bs as [|b bs IH]; [done|]. cbn. by f_equal.
  - clear. induction bs as [|b bs IH]; [done|]. cbn [map String.string_of_list_ascii all_bytes].
    by rewrite passwordChar_alphanumeric.
  - apply password_get.
  - intros c Hc. pose proof preimages_count as Hall. rewrite forallb_forall in Hall.
    specialize (Hall c). rewrite Hc in Hall. apply (bool_decide_unpack _). apply Is_true_eq_left, Hall, in_map_iff.
    exists (nat_of_ascii c). split; [apply ascii_nat_embedding|]. apply in_seq. pose proof (nat_ascii_bounded c). lia.
Qed.

End laws.

(** ** A concrete instance

    A PEM block is a line, a certificate is its text, a key is a line [rsa ...] or [ed25519 ...]. *)

Definition line_block (s : string) : option string * string :=
  match Split s "010" with
  | l :: rest => if l =s "" then (None, s) else (Some l, Join rest (s1 "010"))
  | [] => (None, s)
  end.

Definition toy : Crypto := {|
  pemBlock := string;
  certificate := string;
  privateKey := string;
  pem_decode := line_block;
  pem_encode b := Ok (b +:+ s1 "010");
  ParseCertificate b := if HasPrefix b "cert " then Ok b else Err (Errorf "malformed certificate");
  Raw c := c;
  Subject c := drop_bytes 5 c;
  sha512_hex s := s;
  ParsePKCS1PrivateKey b := if HasPrefix b "rsa " then Ok b else Err (Errorf "not PKCS1");
  ParsePKCS8PrivateKey b := if HasPrefix b "ed25519 " then Ok b else Err (Errorf "not PKCS8");
  key_Equal := String.eqb;
  comparable _ := true;
  hashable k := HasPrefix k "rsa ";
  p12_Encode k c ca pw := Ok (k +:+ c);
  rand_Read n w := (repeat 7 n, w) |}.

Definition cms_store : TLSStore (H := toy) :=
  MkStore _ (MkData _ (Some (NewCMSKeyStore false "/run/key.kdb" "pw")) "pw" [] [] [] []) (MkData _ None "pw" [] [] [] []).

Definition trust_files : world := world_of []
  [("/trust", Directory); ("/trust/a", Directory); ("/trust/a/ca.crt", File ("cert A" +:+ s1 "010" +:+ "cert B" +:+ s1 "010"));
   ("/trust/b", Directory); ("/trust/b/ca.crt", File ("cert B" +:+ s1 "010")); ("/tmp", Directory)].

Lemma empty_wf `{Crypto} pw : wf (emptyData pw).
Proof. split; constructor. Qed.

Lemma trust_complete_witness : ∃ t' w',
  processTrustCertificates (H0 := toy) "/trust" cms_store trust_files = (Ret tt, t', w')
  ∧ wf_store t' ∧ TrustedCerts (cms t') = ["cert A"; "cert B"]
  ∧ files w' !! ["tmp"; "cmsTrust.pem"] = Some (File ("cert A" +:+ s1 "010" +:+ "cert B" +:+ s1 "010")).
Proof.
  eexists _, _. split; [vm_compute; reflexivity|]. split.
  - eapply (trust_complete (H0 := toy) "/trust" cms_store trust_files).
    + split; split; constructor.
    + vm_compute. reflexivity.
  - split; reflexivity.
Defined.

Lemma key_set_needs_key_witness :
  processKeySet (H0 := toy) "/run" "/keys" "" "web" cms_store
    (world_of [] [("/keys", Directory); ("/keys/web", Directory); ("/keys/web/tls.crt", File "cert A")])
  = (Fail (Errorf "failed to cast private key to comparable type"), cms_store,
     world_of [] [("/keys", Directory); ("/keys/web", Directory); ("/keys/web/tls.crt", File "cert A")]).
Proof. apply (key_set_needs_key (H0 := toy)); [done|]. vm_compute. repeat constructor. Defined.

Lemma password_bounds_witness : generateRandomPassword (H0 := toy) trust_files = ("HHHHHHHHHHHH", trust_files)
  ∧ all_bytes alphanumeric "HHHHHHHHHHHH" = true.
Proof.
  destruct (password_bounds (H0 := toy) (repeat 7 12) trust_files trust_files) as (pw & E & _ & Ha & _); [reflexivity..|].
  assert (pw = "HHHHHHHHHHHH") as <- by (apply (f_equal fst) in E; symmetry; exact E). split; [exact E|exact Ha].
Defined.

End Tls.
