(* ===== verification/Startup.v ===== *)
(** * Preparing the container (cmd/runmqserver: crtmqvol.go, license.go, process.go, version.go)

    The volumes that are made and cleaned, the license, the check for a second instance and
    the version information. *)
From S2P Require Import Prelude Utf8 GoStrings Paths Os MqVersion.

Open Scope Z_scope.

(** ** Volumes *)

Module Volume.
Section volume.
Context `{OS}.

Definition createVolume (dataPath : string) : M (option error) :=
  s ← Stat dataPath;
  match s with
  | Ok _ => mret None
  | Err e => if IsNotExist e then MkdirAll dataPath else mret (Some e)
  end.

(** A skipped path and its parents, as long as they start with the path to clean; [None]
    when the fuel runs out, as the loop does not end for the path "/". *)
Fixpoint markSkip (fuel : nat) (cleanPath skipPath : string) (acc : list string) : option (list string) :=
  match fuel with
  | O => None
  | S fuel =>
      if negb (skipPath =s ".") && HasPrefix skipPath cleanPath
      then markSkip fuel cleanPath (Dir skipPath) (skipPath :: acc)
      else Some acc
  end.

Fixpoint markAll (cleanPath : string) (skipPaths : list string) (acc : list string) : option (list string) :=
  match skipPaths with
  | [] => Some acc
  | s :: skipPaths => acc ← markSkip (S (String.length s)) cleanPath s acc; markAll cleanPath skipPaths acc
  end.

(** The function called for each path; whether the path is removed and so not entered. *)
Definition visit (skip : list string) (path : string) : M bool :=
  if existsb (String.eqb path) skip then _ ← log DEBUG ("Skipping deletion of: " +:+ path); mret false
  else
    _ ← log DEBUG ("Removing: " +:+ path);
    err ← RemoveAll path;
    match err with
    | Some e => _ ← log INFO ("Warning: volume cleanup could not remove '" +:+ path +:+ "': " +:+ Error_ e); mret false
    | None => mret true
    end.

Definition isDir (path : string) : M bool := gets (λ w, bool_decide (files w !! norm path = Some Directory)).

(** [filepath.WalkDir]; the fuel bounds the depth of the tree. *)
Fixpoint walk (fuel : nat) (skip : list string) (path : string) : M unit :=
  match fuel with
  | O => mret tt
  | S fuel =>
      dir ← isDir path;
      removed ← visit skip path;
      if removed || negb dir then mret tt else
      l ← ReadDir path;
      match l with
      | Err _ => _ ← visit skip path; mret tt
      | Ok names => each (λ name, walk fuel skip (JoinPath [path; name])) names
      end
  end.

(** The depth of the tree. *)
Definition depth (w : world) : nat := list_max (map (λ x, length x.1) (map_to_list (files w))).

Definition cleanVolumeBestEffort (cleanPath : string) (skipPaths : list string) : M (option unit) :=
  match markAll cleanPath skipPaths [cleanPath] with
  | None => mret None
  | Some skip =>
      _ ← log DEBUG ("Begin cleaning path: " +:+ cleanPath);
      d ← gets depth;
      _ ← walk (S d) skip cleanPath;
      _ ← log DEBUG ("Finished cleaning path: " +:+ cleanPath);
      mret (Some tt)
  end.

Definition cleanVolume (cleanPath : string) : M (option error) :=
  dirContents ← ReadDir cleanPath;
  match dirContents with
  | Err e => mret (if negb (IsNotExist e) then Some e else None)
  | Ok names => each_err (λ name, RemoveAll (JoinPath [cleanPath; name])) names
  end.

End volume.

(** *** Trees of files *)

(** Every entry is in directories, and names are plain. *)
Definition tree (f : gmap (list string) node) : Prop :=
  ∀ q, is_Some (f !! q) → Forall (λ c, plain c = true) q
    ∧ ∀ r, r `prefix_of` q → r ≠ q → r ≠ [] → f !! r = Some Directory.

(** The entries that are kept: skipped paths, and their parents up to the root. *)
Definition kept (root : list string) (skips : list (list string)) (q : list string) : bool :=
  bool_decide (q = root) || existsb (below q) skips.

Lemma below_spec p q : below p q = true ↔ p `prefix_of` q.
Proof. unfold below. apply bool_decide_eq_true. Qed.

Lemma below_false p q : below p q = false ↔ ¬ p `prefix_of` q.
Proof. unfold below. apply bool_decide_eq_false. Qed.

Lemma kept_closed root skips a q : kept root skips q = true → root `prefix_of` a → a `prefix_of` q →
  kept root skips a = true.
Proof.
  unfold kept. rewrite !orb_true_iff, !bool_decide_eq_true, !existsb_exists. intros [->|(s & Hs & Hq)] Hr Ha.
  - left. by apply (anti_symm prefix).
  - right. exists s. split; [done|]. rewrite below_spec in *. by etrans.
Qed.

Lemma JoinPath_child a c : Forall (λ c, plain c = true) a → plain c = true → JoinPath [abs_path a; c] = abs_path (a ++ [c]).
Proof.
  intros Ha Hc. assert (c ≠ "") as Hne by (intros ->; discriminate).
  unfold JoinPath. rewrite !filter_cons_True by done. cbn [filter list_filter Join].
  unfold Clean. change (IsAbs (abs_path a +:+ "/" +:+ c)) with true. f_equal. unfold clean_comps.
  change ("/" +:+ c) with (String "/" c). rewrite Split_mid, foldl_app, foldl_abs by done.
  rewrite Split_no_byte by (unfold plain in Hc; by breflect). rewrite clean_plain by by repeat constructor.
  cbn [rev app]. by rewrite app_nil_r, rev_involutive.
Qed.

Lemma children_spec f p c : c ∈ children f p ↔ plain c = true ∧ is_Some (f !! (p ++ [c])).
Proof.
  unfold children. rewrite merge_sort_Permutation, list_elem_of_omap. split.
  - intros (q & Hq & Hc). apply list_elem_of_fmap in Hq as ([q' n] & -> & Hq). apply elem_of_map_to_list in Hq.
    unfold child in Hc. cbn [fst] in Hc. destruct (below p q') eqn:E; [|done]. apply below_spec in E as [r ->].
    rewrite drop_app_length in Hc. destruct r as [|c' [|? ?]]; [done| |done].
    destruct (plain c') eqn:Ec; [|done]. injection Hc as ->. eauto.
  - intros [Hc [n Hn]]. exists (p ++ [c]). split.
    + apply list_elem_of_fmap. exists (p ++ [c], n). split; [done|]. by apply elem_of_map_to_list.
    + unfold child. rewrite (proj2 (below_spec _ _)) by by apply prefix_app_r. by rewrite drop_app_length, Hc.
Qed.

Section laws.
Context `{Faultless}.

Lemma RemoveAll_run path w : RemoveAll path w =
  (None, set_files (filter (λ x, below (norm path) x.1 = false) (files w)) w).
Proof. unfold RemoveAll. rewrite guarded_ok. reflexivity. Qed.

Lemma filter_below (f : gmap (list string) node) p q : filter (λ x : list string * node, below p x.1 = false) f !! q
  = if below p q then None else f !! q.
Proof.
  destruct (below p q) eqn:E.
  - apply map_lookup_filter_None. right. intros x _. cbn. congruence.
  - destruct (f !! q) as [n|] eqn:En.
    + by apply map_lookup_filter_Some.
    + apply map_lookup_filter_None. by left.
Qed.

(** What remains of the tree below a path. *)
Definition pruned (K : list string → bool) (a : list string) (f g : gmap (list string) node) : Prop :=
  ∀ q, g !! q = if below a q && negb (K q) then None else f !! q.

Lemma tree_pruned root skips a f g : root `prefix_of` a → tree f → pruned (kept root skips) a f g → tree g.
Proof.
  intros Ha Hf Hg q Hq. rewrite Hg in Hq. destruct (below a q && negb (kept root skips q)) eqn:E.
  { by destruct Hq. }
  destruct (Hf q Hq) as [Hp Hd]. split; [done|]. intros r Hr Hne Hnn. rewrite Hg.
  destruct (below a r && negb (kept root skips r)) eqn:E2; [|by apply Hd].
  apply andb_true_iff in E2 as [Hb%below_spec Hk%negb_true_iff].
  rewrite (proj2 (below_spec a q)) in E by (by etrans). cbn in E. apply negb_false_iff in E.
  rewrite (kept_closed root skips r q) in Hk; [done|done| |done]. by etrans.
Qed.

Lemma visit_run skip path w : ∃ r w', visit skip path w = (r, w') ∧
  if existsb (String.eqb path) skip then r = false ∧ files w' = files w
  else r = true ∧ files w' = filter (λ x, below (norm path) x.1 = false) (files w).
Proof.
  unfold visit. destruct (existsb (String.eqb path) skip).
  - rewrite bind_run. eauto.
  - rewrite bind_run. cbn [fst snd]. rewrite bind_run, RemoveAll_run. eauto.
Qed.

(** What is below a directory, but the directory, is below one of its entries. *)
Lemma below_entries f a q : tree f → a ≠ [] → is_Some (f !! q) → q ≠ a →
  existsb (λ c, below (a ++ [c]) q) (children f a) = below a q.
Proof.
  intros Ht Ha Hq Hne. apply eq_true_iff_eq. rewrite existsb_exists, below_spec. split.
  - intros (c & _ & Hb%below_spec). etrans; [|done]. by apply prefix_app_r.
  - intros [[|c r] ->]; [by rewrite app_nil_r in Hne|]. exists c. rewrite below_spec.
    destruct (Ht _ Hq) as [Hpc Hd]. apply Forall_app in Hpc as [_ Hpc%Forall_inv].
    split; [|exists r; by rewrite <- app_assoc]. apply list_elem_of_In, children_spec. split; [done|].
    destruct r as [|d r]; [done|]. rewrite Hd; [done| |..].
    + exists (d :: r). by rewrite <- app_assoc.
    + rewrite <- (app_nil_r (a ++ [c])), <- app_assoc. cbn. intros Heq%(inj (a ++.)). discriminate.
    + by destruct a.
Qed.

(** A file has nothing below it. *)
Lemma below_leaf f a q : tree f → a ≠ [] → f !! a ≠ Some Directory → is_Some (f !! q) → below a q = true → q = a.
Proof.
  intros Ht Ha Hd Hq [[|c r] ->]%below_spec; [by rewrite app_nil_r|]. destruct Hd. apply (Ht _ Hq); [by eexists| |done].
  intros Heq. rewrite <- (app_nil_r a) in Heq at 1. apply (inj (a ++.)) in Heq. discriminate.
Qed.

(** Pruning below each of some entries of a directory. *)
Lemma each_prunes root skips a (f : string → M unit) l : root `prefix_of` a → ∀ w,
  (∀ c w', c ∈ l → tree (files w') → (∀ q, is_Some (files w' !! q) → is_Some (files w !! q)) →
     pruned (kept root skips) (a ++ [c]) (files w') (files (f c w').2)) →
  tree (files w) → ∀ q, files (each f l w).2 !! q =
    if existsb (λ c, below (a ++ [c]) q) l && negb (kept root skips q) then None else files w !! q.
Proof.
  intros Hra. induction l as [|c l IH]; intros w Hf Ht q; cbn [each existsb]; [done|].
  pose proof (Hf c w (list_elem_of_here _ _) Ht (λ _ x, x)) as Hpr. rewrite bind_run, IH.
  - rewrite (Hpr q). by destruct (below (a ++ [c]) q), (existsb _ l), (kept root skips q).
  - intros c' w' Hc' Ht' Hs'. apply Hf; [by right|done|]. intros q' Hq'%Hs'. rewrite Hpr in Hq'.
    destruct (_ && _) in Hq'; [by destruct Hq'|done].
  - refine (tree_pruned root skips _ _ _ _ Ht Hpr). by apply prefix_app_r.
Qed.

(** The walk prunes the tree below its path. *)
Lemma walk_prunes root skips skip : root ≠ [] →
  (∀ a, root `prefix_of` a → Forall (λ c, plain c = true) a → existsb (String.eqb (abs_path a)) skip = kept root skips a) →
  ∀ fuel a w, root `prefix_of` a → Forall (λ c, plain c = true) a → tree (files w) →
  (∀ q, is_Some (files w !! q) → a `prefix_of` q → length q < length a + fuel)%nat → (0 < fuel)%nat →
  pruned (kept root skips) a (files w) (files (walk fuel skip (abs_path a) w).2).
Proof.
  intros Hroot Hskip. induction fuel as [|fuel IH]; intros a w Hra Hpa Ht Hfuel Hpos; [lia|]. cbn [walk].
  assert (a ≠ []) as Ha by (intros ->; by apply prefix_nil_inv in Hra).
  rewrite bind_run. unfold isDir, gets. cbn [fst snd]. rewrite bind_run, norm_abs by done.
  destruct (visit_run skip (abs_path a) w) as (r & w1 & E & Hr). rewrite E. cbn [fst snd].
  rewrite Hskip in Hr by done. rewrite norm_abs in Hr by done. destruct (kept root skips a) eqn:Ek; destruct Hr as [-> Hw1]; cbn [orb].
  2:{ intros q. unfold mret, M_ret. cbn [fst snd]. rewrite Hw1, filter_below. destruct (below a q) eqn:Eb; [|done]. cbn [andb].
    assert (kept root skips q = false) as ->; [|done]. apply not_true_is_false. intros Hk.
    apply below_spec in Eb. rewrite (kept_closed root skips a q) in Ek by done. done. }
  destruct (bool_decide (files w !! a = Some Directory)) eqn:Ed; cbn [negb]; intros q.
  - apply bool_decide_eq_true in Ed. rewrite bind_run. unfold ReadDir. rewrite guarded_ok, norm_abs by done.
    unfold follow. rewrite Hw1, Ed. cbn [fst snd]. rewrite (each_prunes root skips a); [|done| |by rewrite Hw1].
    + rewrite Hw1. destruct (kept root skips q) eqn:Ekq; [by rewrite !andb_false_r|]. cbn [negb]. rewrite !andb_true_r.
      destruct (files w !! q) as [n|] eqn:En; [|by destruct (existsb _ _), (below _ _)].
      rewrite below_entries; [done..|by rewrite En|]. intros ->. congruence.
    + intros c w2 [Hc Hin]%children_spec Ht2 Hsub. rewrite JoinPath_child by done. rewrite Hw1 in Hsub.
      assert (length a + 1 < length a + S fuel)%nat as Hlen.
      { specialize (Hfuel _ Hin (prefix_app_r _ _ _ (reflexivity _))). by rewrite length_app in Hfuel. }
      apply IH; [by apply prefix_app_r|apply Forall_app; by repeat constructor|done| |lia].
      intros q' Hq'%Hsub Hp'. rewrite length_app. cbn [length].
      assert (a `prefix_of` q') as Haq by (etrans; [by apply prefix_app_r|done]). specialize (Hfuel q' Hq' Haq). lia.
  - apply bool_decide_eq_false in Ed. unfold mret, M_ret. cbn [snd]. rewrite Hw1.
    destruct (below a q) eqn:Eb; [|done]. destruct (files w !! q) as [n|] eqn:En; [|by destruct (_ && _)].
    assert (q = a) as -> by (apply (below_leaf (files w)); [done..|by rewrite En|done]). by rewrite Ek.
Qed.

(** *** The paths that are skipped *)

Lemma Join_app p q : p ≠ [] → q ≠ [] → Join (p ++ q) "/" = Join p "/" +:+ "/" +:+ Join q "/".
Proof.
  intros Hp Hq. induction p as [|x p IH]; [done|]. destruct p as [|y p].
  - destruct q; [done|]. apply Join_cons.
  - change ((x :: y :: p) ++ q) with (x :: y :: p ++ q). rewrite !Join_cons.
    change (y :: p ++ q) with ((y :: p) ++ q). rewrite IH by done. by rewrite !sapp_assoc.
Qed.

Lemma Dir_abs a c : Forall (λ c, plain c = true) a → plain c = true → Dir (abs_path (a ++ [c])) = abs_path a.
Proof.
  intros Ha Hc. unfold Dir, abs_path at 1. change ("/" +:+ ?x) with (String "/" x). cbn [Split]. rewrite Ascii.eqb_refl.
  rewrite Split_Join_slash; [|by destruct a|apply Forall_app; split; [done|by repeat constructor]].
  change ("" :: a ++ [c]) with (("" :: a) ++ [c]). rewrite rev_app_distr. cbn [rev app].
  destruct a as [|x a]; [done|]. destruct (rev (x :: a) ++ [""]) as [|y l] eqn:E; [by destruct (rev (x :: a))|].
  rewrite <- E, rev_app_distr, rev_involutive. cbn [rev app].
  change ("" :: x :: a) with ([""] ++ x :: a). rewrite Join_app by done. rewrite !sapp_assoc.
  change (Join [""] "/" +:+ "/" +:+ ?x) with ("/" +:+ x). rewrite Clean_abs by apply (HasPrefix_app "/").
  rewrite norm_slash. f_equal. unfold norm, clean_comps. change "/" with (String "/" "") at 1.
  rewrite Split_mid, Split_Join_slash, foldl_app, (clean_plain true [] (x :: a)), app_nil_r by done.
  change (rev (rev (x :: a)) = x :: a). apply rev_involutive.
Qed.

Lemma HasPrefix_below p q : p ≠ [] → p `prefix_of` q → HasPrefix (abs_path q) (abs_path p) = true.
Proof.
  intros Hp [r ->]. apply HasPrefix_spec. destruct r as [|c r].
  - exists "". by rewrite app_nil_r, sapp_nil_r.
  - exists ("/" +:+ Join (c :: r) "/"). unfold abs_path. by rewrite Join_app, sapp_assoc by done.
Qed.

Lemma abs_path_inj a b : Forall (λ c, plain c = true) a → Forall (λ c, plain c = true) b → abs_path a = abs_path b → a = b.
Proof. intros Ha Hb E. rewrite <- (norm_abs a), <- (norm_abs b) by done. by rewrite E. Qed.

Lemma markSkip_ok p s : p ≠ [] → Forall (λ c, plain c = true) p → Forall (λ c, plain c = true) s →
  ∀ fuel acc, (length s < fuel)%nat → ∃ l, markSkip fuel (abs_path p) (abs_path s) acc = Some l ∧
  ∀ a, Forall (λ c, plain c = true) a → p `prefix_of` a → abs_path a ∈ l ↔ abs_path a ∈ acc ∨ a `prefix_of` s.
Proof.
  intros Hne Hp. induction s as [|c s IH] using rev_ind; intros Hs fuel acc Hf; (destruct fuel as [|fuel]; [lia|]); cbn [markSkip].
  - assert (HasPrefix (abs_path []) (abs_path p) = false) as ->.
    { destruct p as [|x p]; [done|]. apply Forall_cons in Hp as [Hx _]. destruct x as [|ch x]; [done|].
      destruct p; done. }
    rewrite andb_false_r. exists acc. split; [done|]. intros a Ha Hpa. split; [by left|].
    intros [?|E%prefix_nil_inv]; [done|]. subst a. by apply prefix_nil_inv in Hpa.
  - apply Forall_app in Hs as [Hs Hc%Forall_inv]. rewrite length_app in Hf. simpl in Hf.
    change (abs_path (s ++ [c]) =s ".") with false. cbn [negb andb].
    destruct (HasPrefix (abs_path (s ++ [c])) (abs_path p)) eqn:E.
    + rewrite Dir_abs by done. destruct (IH Hs fuel (abs_path (s ++ [c]) :: acc) ltac:(lia)) as (l & El & Hl).
      exists l. split; [done|]. intros a Ha Hpa. rewrite Hl by done. rewrite elem_of_cons. split.
      * intros [[Heq|?]|[r ->]]; [|by left|right; exists (r ++ [c]); by rewrite app_assoc].
        right. rewrite (abs_path_inj _ _ Ha (proj2 (Forall_app _ _ _) (conj Hs (Forall_cons_2 _ _ _ Hc (Forall_nil_2 _)))) Heq). done.
      * intros [?|[r Hr]]; [by left; right|]. destruct r as [|y r _] using rev_ind.
        -- left; left. by rewrite Hr, app_nil_r.
        -- right. rewrite app_assoc in Hr. apply app_inj_tail in Hr as [-> _]. by exists r.
    + exists acc. split; [done|]. intros a Ha Hpa. split; [by left|]. intros [?|Hr]; [done|].
      rewrite HasPrefix_below in E; [done|done|]. by etrans.
Qed.

Lemma abs_path_length s : Forall (λ c, plain c = true) s → (length s ≤ String.length (abs_path s))%nat.
Proof.
  intros Hs. unfold abs_path. rewrite slength_app. cut (length s ≤ S (String.length (Join s "/")))%nat; [simpl; lia|].
  induction Hs as [|c s Hc Hs IH]; [simpl; lia|]. destruct s as [|d s]; [simpl; lia|].
  rewrite Join_cons, !slength_app. destruct c; [done|]. simpl in *. lia.
Qed.

Lemma markAll_ok p skips : p ≠ [] → Forall (λ c, plain c = true) p → Forall (Forall (λ c, plain c = true)) skips →
  ∀ acc, ∃ l, markAll (abs_path p) (map abs_path skips) acc = Some l ∧
  ∀ a, Forall (λ c, plain c = true) a → p `prefix_of` a → abs_path a ∈ l ↔ abs_path a ∈ acc ∨ ∃ s, s ∈ skips ∧ a `prefix_of` s.
Proof.
  intros Hne Hp Hs. induction Hs as [|s skips Hs _ IH]; intros acc; cbn [map markAll].
  - exists acc. split; [done|]. intros a _ _. split; [by left|]. intros [?|(? & ?%not_elem_of_nil & _)]; done.
  - pose proof (abs_path_length s Hs) as Hlen.
    destruct (markSkip_ok p s Hne Hp Hs (S (String.length (abs_path s))) acc ltac:(lia)) as (l & E & Hl).
    destruct (IH l) as (l' & E' & Hl'). exists l'. rewrite E. split; [done|].
    intros a Ha Hpa. rewrite Hl', Hl by done. split.
    + intros [[?|?]|(s' & ? & ?)]; [by left|right; exists s|right; exists s']; set_solver.
    + intros [?|(s' & [->|?]%elem_of_cons & ?)]; [by left; left|by left; right|right; eauto].
Qed.

Lemma in_list_max l n : n ∈ l → (n ≤ list_max l)%nat.
Proof.
  intros Hn. pose proof (proj1 (list_max_le l (list_max l)) (le_n _)) as Hall. rewrite Forall_forall in Hall. by apply Hall.
Qed.

Lemma depth_bound w q : is_Some (files w !! q) → (length q ≤ depth w)%nat.
Proof.
  intros [n Hn]. apply in_list_max, list_elem_of_fmap. exists (q, n). split; [done|]. by apply elem_of_map_to_list.
Qed.

(** C17. Cleaning a volume on a file system without faults removes everything below the
    path but the skipped paths and the directories that lead to them, including what is inside a skipped
    path, and nothing else; it ends, with enough depth for the whole tree. *)
Theorem volume_cleaned p skips w : p ≠ [] → Forall (λ c, plain c = true) p →
  Forall (Forall (λ c, plain c = true)) skips → tree (files w) →
  ∃ w', cleanVolumeBestEffort (abs_path p) (map abs_path skips) w = (Some tt, w')
    ∧ ∀ q, files w' !! q = if below p q && negb (kept p skips q) then None else files w !! q.
Proof.
  intros Hne Hp Hs Ht. unfold cleanVolumeBestEffort.
  destruct (markAll_ok p skips Hne Hp Hs [abs_path p]) as (skip & -> & Hskip).
  cbn iota. rewrite bind_run. cbn [fst snd]. rewrite bind_run. unfold gets at 1. cbn [fst snd]. rewrite bind_run.
  eexists. split; [done|]. cbn [fst snd files log modify set_console].
  assert (∀ a, p `prefix_of` a → Forall (λ c, plain c = true) a →
    existsb (String.eqb (abs_path a)) skip = kept p skips a) as Hk.
  { intros a Hpa Ha. apply eq_true_iff_eq. unfold kept. rewrite orb_true_iff, bool_decide_eq_true, !existsb_exists.
    specialize (Hskip a Ha Hpa). rewrite list_elem_of_singleton in Hskip. split.
    - intros (x & Hx & <-%String.eqb_eq). apply list_elem_of_In, Hskip in Hx as [E|(s & Hin & Hpre)].
      + left. by apply abs_path_inj.
      + right. exists s. rewrite below_spec. split; [by apply list_elem_of_In|done].
    - intros E. exists (abs_path a). rewrite String.eqb_refl. split; [|done]. apply list_elem_of_In, Hskip.
      destruct E as [->|(s & Hin & Hb%below_spec)]; [by left|right]. exists s. split; [by apply list_elem_of_In|done]. }
  refine (walk_prunes p skips skip Hne Hk _ p _ _ _ _ _ _); [done|done|done| |lia].
  intros q Hq _. cbn. pose proof (depth_bound w q Hq). unfold depth in *. cbn in *. lia.
Qed.

End laws.

Definition tree_ok (f : gmap (list string) node) : bool :=
  forallb (λ q, forallb plain q && forallb (λ r, bool_decide (r = q) || bool_decide (f !! r = Some Directory)) (ancestors q))
    (map_to_list f).*1.

Lemma ancestors_spec q r : r `prefix_of` q → r ≠ [] → r ∈ ancestors q.
Proof.
  revert r. induction q as [|c q IH]; intros r Hr Hne; [by apply prefix_nil_inv in Hr|].
  destruct r as [|d r]; [done|]. apply prefix_cons_inv_1 in Hr as E. apply prefix_cons_inv_2 in Hr. subst d.
  cbn. destruct r as [|d r]; [by left|]. right. apply list_elem_of_fmap. eexists; split; [done|]. by apply IH.
Qed.

Lemma tree_ok_spec f : tree_ok f = true → tree f.
Proof.
  unfold tree_ok. rewrite forallb_forall. intros Hall q [n Hq].
  destruct (andb_prop _ _ (Hall q (proj1 (list_elem_of_In _ _) (proj2 (list_elem_of_fmap fst (map_to_list f) q)
    (ex_intro _ (q, n) (conj eq_refl (proj2 (elem_of_map_to_list f q n) Hq))))))) as [Hp Ha].
  split; [by apply Forall_forall; intros c Hc; rewrite forallb_forall in Hp; apply Hp, list_elem_of_In|].
  intros r Hr Hne Hnn. rewrite forallb_forall in Ha. specialize (Ha r (proj1 (list_elem_of_In _ _) (ancestors_spec q r Hr Hnn))).
  apply orb_true_iff in Ha as [?%bool_decide_eq_true|?%bool_decide_eq_true]; done.
Qed.

Definition scratch : world := world_of []
  [("/mnt", Directory); ("/mnt/scratch", Directory); ("/mnt/scratch/old", Directory); ("/mnt/scratch/old/a", File "1");
   ("/mnt/scratch/keep", Directory); ("/mnt/scratch/keep/x.ini", File "2"); ("/mnt/scratch/keep/y.ini", File "3"); ("/mnt/z", File "4")].

Lemma volume_cleaned_witness : ∃ w', cleanVolumeBestEffort "/mnt/scratch" ["/mnt/scratch/keep/x.ini"] scratch = (Some tt, w')
  ∧ files w' !! ["mnt"; "scratch"; "keep"; "x.ini"] = Some (File "2")
  ∧ files w' !! ["mnt"; "scratch"; "keep"; "y.ini"] = None ∧ files w' !! ["mnt"; "z"] = Some (File "4").
Proof.
  destruct (volume_cleaned ["mnt"; "scratch"] [["mnt"; "scratch"; "keep"; "x.ini"]] scratch) as (w' & E & Hw).
  - done.
  - by repeat constructor.
  - by repeat constructor.
  - apply tree_ok_spec. vm_compute. reflexivity.
  - exists w'. split; [exact E|]. split; [rewrite Hw; reflexivity|]. split; rewrite Hw; reflexivity.
Defined.

End Volume.

(** ** License *)

Module License.
Section license.
Context `{OS}.

(** In the order of the cases. *)
Definition licenseFiles : list (string * string * string) :=
  [("zh_TW", "", "Chinese_TW.txt"); ("zh", "", "Chinese.txt"); ("cs", "csb", "Czech.txt"); ("fr", "", "French.txt");
   ("de", "", "German.txt"); ("el", "", "Greek.txt"); ("id", "", "Indonesian.txt"); ("it", "", "Italian.txt");
   ("ja", "", "Japanese.txt"); ("ko", "kok", "Korean.txt"); ("lt", "", "Lithuanian.txt"); ("pl", "", "Polish.txt");
   ("pt", "", "Portugese.txt"); ("ru", "", "Russian.txt"); ("sl", "", "Slovenian.txt"); ("es", "", "Spanish.txt");
   ("tr", "", "Turkish.txt")].

(** The prefix of the language, and not the longer prefix of another one. *)
Definition speaks (lang : string) (c : string * string * string) : bool :=
  let '(pre, other, _) := c in HasPrefix lang pre && ((other =s "") || negb (HasPrefix lang other)).

Definition resolveLicenseFile : M string :=
  lang ← LookupEnv "LANG";
  mret (match lang with
        | None => "English.txt"
        | Some lang => match List.find (speaks lang) licenseFiles with Some (_, _, f) => f | None => "English.txt" end
        end).

(** Whether the license is accepted, and the error. *)
Definition checkLicense : M (bool * option error) :=
  lic ← LookupEnv "LICENSE";
  if bool_decide (lic = Some "accept") then mret (true, None)
  else if bool_decide (lic = Some "view") then
    name ← resolveLicenseFile;
    buf ← ReadFile (JoinPath ["/opt/mqm/licenses"; name]);
    match buf with
    | Err e => _ ← log INFO (Error_ e); mret (false, Some e)
    | Ok text => _ ← log INFO text; mret (false, None)
    end
  else
    _ ← log INFO "Error: Set environment variable LICENSE=accept to indicate acceptance of license terms and conditions.";
    _ ← log INFO "License agreements and information can be viewed by setting the environment variable LICENSE=view.  You can also set the LANG environment variable to view the license in a different language.";
    mret (false, Some (Errorf "Set environment variable LICENSE=accept to indicate acceptance of license terms and conditions")).
End license.
End License.

(** ** The process and its version *)

Module Process.
Section process.
Context `{OS}.

(** [filepath.Split] of the name of the executable, which is a parameter. *)
Definition determineExecutable (executable : res string) : res string :=
  match executable with Ok file => Ok (Base file) | Err e => Err e end.

Definition verifyOnlyOne (programName : string) : M (Z * option error) :=
  '(out, _, err) ← Run "pgrep" [programName];
  match err with
  | Some e => _ ← log DEBUG ("Failed to confirm single process: " +:+ Error_ e); mret (1, None)
  | None =>
      let numOfProg := count_byte "010" out in
      mret (numOfProg, if negb (numOfProg =? 1)
        then Some (Errorf ("Expected there to be only 1 instance of " +:+ programName +:+ " but found " +:+ Itoa numOfProg))
        else None)
  end.

Definition verifySingleProcess (executable : res string) : M (option error) :=
  match determineExecutable executable with
  | Err e => mret (Some (Wrapped "Failed to determine name of this program - " e ""))
  | Ok programName =>
      '(_, err) ← verifyOnlyOne programName;
      mret (match err with
            | Some _ => Some (Errorf "You cannot run more than one instance of this program")
            | None => None
            end)
  end.

(** The variables the linker sets. *)
Definition ImageCreated : string := "Not specified".
Definition ImageTag : string := "Not specified".

Definition logDateStamp : M unit := log INFO ("Image created: " +:+ ImageCreated).
Definition logGitRepo : M unit := mret tt.
Definition logGitCommit : M unit := mret tt.
Definition logImageTag : M unit := log INFO ("Image tag: " +:+ ImageTag).

Definition trim_lf (s : string) : string := TrimSuffix s (s1 "010").

(** The messages for an error print the value, not the error. *)
Definition logMQVersion : M unit :=
  v ← MqVersion.Get;
  let mqVersion := match v with Ok v => v | Err _ => "" end in
  _ ← match v with Err _ => log INFO ("Error Getting MQ version: " +:+ trim_lf mqVersion) | Ok _ => mret tt end;
  '(mqBuild, _, err) ← Run "dspmqver" ["-b"; "-f"; "4"];
  _ ← match err with Some _ => log INFO ("Error Getting MQ build: " +:+ trim_lf mqBuild) | None => mret tt end;
  '(mqLicense, _, err) ← Run "dspmqver" ["-b"; "-f"; "8192"];
  _ ← match err with Some _ => log INFO ("Error Getting MQ license: " +:+ trim_lf mqLicense) | None => mret tt end;
  _ ← log INFO ("MQ version: " +:+ trim_lf mqVersion);
  _ ← log INFO ("MQ level: " +:+ trim_lf mqBuild);
  log INFO ("MQ license: " +:+ trim_lf mqLicense).

Definition logVersionInfo : M unit :=
  _ ← logDateStamp; _ ← logGitRepo; _ ← logGitCommit; _ ← logImageTag; logMQVersion.
End process.
End Process.
