(* ===== verification/Runtime.v ===== *)
(** * The container the program runs in (internal/containerruntime, internal/user,
      pkg/containerruntimelogger)

    Facts read from /proc and /etc, and the checks of the volumes.  The capability library,
    the prctl system calls and the user's identity are the class [Kernel].  [None] is a
    run-time panic. *)
From S2P Require Import Prelude Utf8 GoStrings Bufio Paths Os Frame.

Open Scope Z_scope.

Module Runtime.

(** Packages gocapability and golang.org/x/sys/unix. *)
Class Kernel := {
  GOOS : string;
  GOARCH : string;
  (** [capability.List] and [capability.NewPid]: whether a set of the process has a capability. *)
  capability_List : list string;
  capability_NewPid : Z → res (string → string → bool);
  (** whether prctl says EINVAL for PR_GET_SECCOMP and PR_SET_SECCOMP *)
  prctl_get_einval : bool;
  prctl_set_einval : bool;
  (** [Geteuid], [Getgid], [Getgroups] *)
  euid : Z;
  gid : Z;
  groups : res (list Z);
  (** the type code of [Statfs] *)
  statfs_type : string → res Z }.

(** ** internal/containerruntime/amicontained.go *)

Definition ContainerRuntimes : list string :=
  ["docker"; "rkt"; "systemd-nspawn"; "lxc"; "lxc-libvirt"; "openvz"; "kube"; "garden"; "podman"].
Definition RuntimeNotFound : string := "not-found".
Definition RuntimeOpenVZ : string := "openvz".

Definition getContainerRuntime (input : string) : string :=
  if TrimSpace input =s "" then RuntimeNotFound
  else default RuntimeNotFound (List.find (Contains input) ContainerRuntimes).

Definition seccompModes : list (string * string) := [("0", "disabled"); ("1", "strict"); ("2", "filtering")].

(** The text after the first colon: what the regular expression of the status file finds in a line. *)
Fixpoint after_colon (line : string) : option string :=
  match line with
  | "" => None
  | String c rest => if c =b ":" then Some rest else after_colon rest
  end.

Definition deleteEmpty (s : list string) : list string :=
  omap (λ str, if TrimSpace str =s "" then None else Some (TrimSpace str)) s.

Fixpoint findEntry (lines : list string) (find : string) : string :=
  match lines with
  | [] => ""
  | line :: lines =>
      if Contains line find then
        match after_colon line with Some v => TrimSpace v | None => findEntry lines find end
      else findEntry lines find
  end.

Definition getStatusEntry (input find : string) : string := findEntry (deleteEmpty (Split input "010")) find.

Section runtime.
Context `{OS} `{Kernel}.

(** Any error but a missing file counts as existing. *)
Definition fileExists (file : string) : M bool :=
  s ← Stat file; mret (match s with Err e => negb (IsNotExist e) | Ok _ => true end).

Definition readFileString (file : string) : M string :=
  e ← fileExists file;
  if negb e then mret "" else
  b ← ReadFile (Clean file);
  mret (match b with Ok b => TrimSpace b | Err _ => "" end).

Definition cgroupFile (tgid pid : Z) : string :=
  if 0 <? pid then
    if 0 <? tgid then "/proc/" +:+ Itoa tgid +:+ "/task/" +:+ Itoa pid +:+ "/cgroup"
    else "/proc/" +:+ Itoa pid +:+ "/cgroup"
  else "/proc/self/cgroup".

Definition GetContainerRuntime (tgid pid : Z) : M string :=
  a ← readFileString (cgroupFile tgid pid);
  if negb (getContainerRuntime a =s RuntimeNotFound) then mret (getContainerRuntime a) else
  vz ← fileExists "/proc/vz";
  bc ← (if vz : bool then fileExists "/proc/bc" else mret true);
  if vz && negb bc then mret RuntimeOpenVZ else
  a ← Getenv "container";
  if negb (getContainerRuntime a =s RuntimeNotFound) then mret (getContainerRuntime a) else
  a ← readFileString "/run/systemd/container";
  if negb (getContainerRuntime a =s RuntimeNotFound) then mret (getContainerRuntime a) else
  mret RuntimeNotFound.

Definition DetectContainerRuntime : M string := GetContainerRuntime 0 1.

(** The three sets of capabilities, by the name of the set. *)
Definition GetCapabilities (pid : Z) : res (list (string * list string)) :=
  has ← capability_NewPid pid;
  Ok (map (λ set, (set, filter (λ c, has set c = true) capability_List))
    ["EFFECTIVE | PERMITTED | INHERITABLE"; "BOUNDING"; "AMBIENT"]).

Definition GetContainerCapabilities : res (list (string * list string)) := GetCapabilities 1.

Definition getSeccompEnforcingMode (input : string) : string :=
  let mode := getStatusEntry input "Seccomp:" in
  match List.find (λ m, m.1 =s mode) seccompModes with
  | Some m => m.2
  | None => if negb prctl_get_einval && negb prctl_set_einval then "strict" else "disabled"
  end.

Definition GetSeccompEnforcingMode (pid : Z) : M string :=
  s ← readFileString (if 0 <? pid then "/proc/" +:+ Itoa pid +:+ "/status" else "/proc/self/status");
  mret (getSeccompEnforcingMode s).

Definition GetSeccomp : M string := GetSeccompEnforcingMode 1.

(** ** internal/containerruntime/runtime.go *)

(** The first line with the prefix that has a quoted value. *)
Fixpoint prettyName (lines : list string) : string :=
  match lines with
  | [] => "unknown"
  | l :: lines =>
      if HasPrefix l "PRETTY_NAME=" then
        match Split l "034" with _ :: w :: _ => w | _ => prettyName lines end
      else prettyName lines
  end.

Definition GetBaseImage : M (res string) :=
  buf ← ReadFile "/etc/os-release";
  mret (match buf with
        | Err e => Err (Wrap "Failed to read /etc/os-release" e)
        | Ok text => Ok (prettyName (Split text "010"))
        end).

Definition readProc (filename : string) : M (res string) :=
  buf ← ReadFile filename; mret (TrimSpace <$> buf).

Definition GetSecurityAttributes : M string :=
  a ← readProc "/proc/self/attr/current";
  mret (match a with Ok (String c t) => String c t | _ => "none" end).

(** A line with fewer than three fields is a panic. *)
Fixpoint mountLines (lines : list string) (result : gmap string string) : option (gmap string string) :=
  match lines with
  | [] => Some result
  | l :: lines =>
      let parts := Split l " " in
      mountPoint ← parts !! 1%nat;
      fsType ← parts !! 2%nat;
      mountLines lines (if Contains mountPoint "/mnt/mqm" then <[mountPoint := fsType]> result else result)
  end.

Definition GetMounts : M (option (res (gmap string string))) :=
  all ← readProc "/proc/mounts";
  mret (match all with
        | Err _ => Some (Err (Errorf "Couldn't read /proc/mounts"))
        | Ok all => Ok <$> mountLines (Split all "010") ∅
        end).

Definition GetKernelVersion : M (res string) := readProc "/proc/sys/kernel/osrelease".
Definition GetMaxFileHandles : M (res string) := readProc "/proc/sys/fs/file-max".

Definition SupportedFilesystem (fsType : string) : bool := negb (existsb (String.eqb fsType) ["aufs"; "overlayfs"; "tmpfs"]).
Definition ValidMultiInstanceFilesystem (fsType : string) : bool := SupportedFilesystem fsType.

(** ** internal/user *)

Record User := { UID : Z; PrimaryGID : Z; SupplementalGID : list Z }.

Definition GetUser : User * option error :=
  match groups with
  | Err e => (Build_User euid gid [], Some e)
  | Ok g => (Build_User euid gid g, None)
  end.

(** ** pkg/containerruntimelogger *)

(** [fmt.Sprint] of a slice of integers, and the text made of it. *)
Definition sprint_ints (l : list Z) : string := "[" +:+ Join (map Itoa l) " " +:+ "]".
Definition groups_text (l : list Z) : string := Trim (Join (Fields (sprint_ints l)) ",") "[]".

Definition logUser : M unit :=
  let '(u, err) := GetUser in
  match err with
  | Some e => log INFO ("Error: " +:+ Error_ e +:+ s1 "010" +:+ "User:" +:+ s1 "010" +:+ "  uid: " +:+ Itoa (UID u)
      +:+ s1 "010" +:+ "  gid: " +:+ Itoa (PrimaryGID u) +:+ s1 "010" +:+ "  supGid: " +:+ sprint_ints (SupplementalGID u))
  | None =>
      let as_ := "Running as user ID " +:+ Itoa (UID u) +:+ " with primary group " +:+ Itoa (PrimaryGID u) in
      match SupplementalGID u with
      | [] => log INFO as_
      | l => log INFO (as_ +:+ ", and supplementary groups " +:+ groups_text l)
      end
  end.

Definition logCapabilities : M unit :=
  match GetCapabilities 1 with
  | Err e => log ERROR ("Error getting capabilities: " +:+ Error_ e)
  | Ok caps =>
      let shown := filter (λ s, s.2 ≠ []) caps in
      _ ← each (λ s, log INFO ("Capabilities (" +:+ ToLower s.1 +:+ " set): " +:+ Join s.2 ",")) shown;
      match shown with [] => log INFO "Capabilities: none" | _ => mret tt end
  end.

(** The volumes, in the order of the map. *)
Fixpoint checkMounts (l : list (string * string)) : M (option error) :=
  match l with
  | [] => mret None
  | (mountPoint, fsType) :: l =>
      _ ← log INFO ("Detected '" +:+ fsType +:+ "' volume mounted to " +:+ mountPoint);
      if negb (SupportedFilesystem fsType)
      then mret (Some (Errorf (mountPoint +:+ " uses unsupported filesystem type: " +:+ fsType)))
      else checkMounts l
  end.

Definition reqMounts : list string := ["/mnt/mqm"; "/mnt/mqm-log"; "/mnt/mqm-data"].

Fixpoint checkRequired (m : gmap string string) (req : list string) : option error :=
  match req with
  | [] => None
  | mountPoint :: req =>
      match m !! mountPoint with
      | Some fsType =>
          if negb (ValidMultiInstanceFilesystem fsType)
          then Some (Errorf (mountPoint +:+ " uses filesystem type '" +:+ fsType +:+ "' which is invalid for a multi-instance queue manager"))
          else checkRequired m req
      | None => Some (Errorf ("Missing required mount '" +:+ mountPoint +:+ "' for a multi-instance queue manager"))
      end
  end.

(** The facts that are only logged. *)
Definition logFacts : M unit :=
  _ ← log INFO ("CPU architecture: " +:+ GOARCH);
  kv ← GetKernelVersion;
  _ ← match kv with Ok v => log INFO ("Linux kernel version: " +:+ v) | Err _ => mret tt end;
  bi ← GetBaseImage;
  _ ← match bi with Ok v => log INFO ("Base image: " +:+ v) | Err _ => mret tt end;
  _ ← logUser;
  _ ← logCapabilities;
  sc ← GetSeccomp;
  _ ← log INFO ("seccomp enforcing mode: " +:+ sc);
  a ← GetSecurityAttributes;
  log INFO ("Process security attributes: " +:+ a).

(** The checks after the mounts have been read; a failed read leaves the nil map. *)
Definition checkVolumes (m : res (gmap string string)) : M (option error) :=
  try match m with
      | Ok m =>
          if bool_decide (m = ∅)
          then _ ← log INFO "No volume detected. Persistent messages may be lost"; mret None
          else checkMounts (map_to_list m)
      | Err _ => mret None
      end ;;
  multi ← Getenv "MQ_MULTI_INSTANCE";
  if multi =s "true" then
    _ ← log INFO "Multi-instance queue manager: enabled";
    mret (checkRequired (match m with Ok m => m | Err _ => ∅ end) reqMounts)
  else mret None.

Definition LogContainerDetails : M (option (option error)) :=
  if negb (GOOS =s "linux") then mret (Some (Some (Errorf ("Unsupported platform: " +:+ GOOS)))) else
  _ ← logFacts;
  m ← GetMounts;
  match m with
  | None => mret None
  | Some m =>
      err ← checkVolumes m;
      match err with
      | Some e => mret (Some (Some e))
      | None =>
          f ← Getenv "MQ_LOGGING_CONSOLE_FORMAT";
          d ← Getenv "LOG_FORMAT";
          _ ← (if (f =s "") && negb (d =s "")
               then log INFO "Environment variable LOG_FORMAT is deprecated. Use MQ_LOGGING_CONSOLE_FORMAT instead."
               else mret tt);
          mret (Some None)
      end
  end.

End runtime.

(** ** internal/containerruntime/runtime_linux.go *)

Definition fsTypes : list (Z * string) :=
  [(0x61756673, "aufs"); (0xef53, "ext"); (0x6969, "nfs"); (0x65735546, "fuse");
   (0x9123683e, "btrfs"); (0x01021994, "tmpfs"); (0x794c7630, "overlayfs"); (0x58465342, "xfs");
   (0xadf5, "adfs"); (0xadff, "affs"); (0x5346414F, "afs"); (0x0187, "autofs");
   (0x73757245, "coda"); (0x28cd3d45, "cramfs"); (0x453dcd28, "cramfs"); (0x64626720, "debugfs");
   (0x73636673, "securityfs"); (0xf97cff8c, "selinux"); (0x43415d53, "smack"); (0x858458f6, "ramfs");
   (0x958458f6, "hugetlbfs"); (0x73717368, "squashfs"); (0xf15f, "ecryptfs"); (0x414A53, "efs");
   (0xabba1974, "xenfs"); (0x3434, "nilfs"); (0xF2F52010, "f2fs"); (0xf995e849, "hpfs");
   (0x9660, "isofs"); (0x72b6, "jffs2"); (0x6165676C, "pstorefs"); (0xde5e81e4, "efivarfs");
   (0x00c0ffee, "hostfs"); (0x137F, "minix_14"); (0x138F, "minix_30"); (0x2468, "minix2_14");
   (0x2478, "minix2_30"); (0x4d5a, "minix3_60"); (0x4d44, "msdos"); (0x564c, "ncp");
   (0x7461636f, "ocfs2"); (0x9fa1, "openprom"); (0x002f, "qnx4"); (0x68191122, "qnx6");
   (0x6B414653, "afs_fs"); (0x52654973, "reiserfs"); (0x517B, "smb"); (0x27e0eb, "cgroup");
   (0x63677270, "cgroup2"); (0x7655821, "rdtgroup"); (0x57AC6E9D, "stack_end"); (0x74726163, "tracefs");
   (0x01021997, "v9fs"); (0x62646576, "bdevfs"); (0x64646178, "daxfs"); (0x42494e4d, "binfmtfs");
   (0x1cd1, "devpts"); (0xBAD1DEA, "futexfs"); (0x50495045, "pipefs"); (0x9fa0, "proc");
   (0x534F434B, "sockfs"); (0x62656572, "sysfs"); (0x9fa2, "usbdevice"); (0x11307854, "mtd_inode");
   (0x09041934, "anon_inode"); (0x73727279, "btrfs"); (0x6e736673, "nsfs"); (0xcafe4a11, "bpf");
   (0x5a3c69f0, "aafs"); (0x15013346, "udf"); (0x13661366, "balloon_kvm"); (0x58295829, "zsmalloc")].

Definition GetFilesystem `{Kernel} (path : string) : res string :=
  t ← statfs_type path;
  Ok (match List.find (λ e, e.1 =? t) fsTypes with Some e => e.2 | None => "unknown" end).


(** ** The check of the volumes *)

(** A line of /proc/mounts: device, mount point, type, and what follows. *)
Record mount := Mount { device : string; mountPoint : string; fsType : string; options : list string }.

Definition mount_line (m : mount) : string := Join (device m :: mountPoint m :: fsType m :: options m) " ".

(** Fields without white space: the kernel escapes it. *)
Definition field_ok (s : string) : bool := no_byte " " s && no_byte "010" s.
Definition mount_ok (m : mount) : bool := forallb field_ok (device m :: mountPoint m :: fsType m :: options m).

(** The volumes of MQ: of two mounts on one point the later one counts. *)
Definition volumes_of (l : list mount) (r : gmap string string) : gmap string string :=
  foldl (λ r m, if Contains (mountPoint m) "/mnt/mqm" then <[mountPoint m := fsType m]> r else r) r l.

Lemma mountLines_ok l r : Forall (λ m, mount_ok m = true) l → mountLines (map mount_line l) r = Some (volumes_of l r).
Proof.
  intros Hl. revert r. induction Hl as [|m l Hm _ IH]; intros r; [done|]. cbn [map mountLines].
  assert (Split (mount_line m) " " = device m :: mountPoint m :: fsType m :: options m) as ->.
  { apply Split_Join; [done|]. unfold mount_ok in Hm. rewrite forallb_forall in Hm. apply Forall_forall.
    intros x Hx%list_elem_of_In%Hm. by apply andb_true_iff in Hx as [? _]. }
  cbn [lookup list_lookup mbind option_bind]. apply IH.
Qed.

Lemma mount_line_no_lf m : mount_ok m = true → no_byte "010" (mount_line m) = true.
Proof.
  unfold mount_ok, mount_line. generalize (device m :: mountPoint m :: fsType m :: options m).
  induction l as [|x [|y l] IH]; intros Hf; [done|..].
  - cbn in Hf |- *. unfold field_ok in Hf. rewrite !andb_true_iff in Hf. by destruct Hf as [[_ ?] _].
  - rewrite Join_cons. cbn [forallb] in Hf. apply andb_true_iff in Hf as [Hx Hf]. specialize (IH Hf).
    apply andb_true_iff in Hx as [_ Hx]. rewrite !no_byte_all, !all_bytes_app, <- !no_byte_all. by rewrite Hx, IH.
Qed.

(** A container whose volumes MQ can use. *)
Definition usable (m : gmap string string) (multi : bool) : bool :=
  forallb (λ x, SupportedFilesystem x.2) (map_to_list m)
  && (negb multi || forallb (λ p, bool_decide (is_Some (m !! p))) reqMounts).

Section laws.
Context `{Faultless} `{Kernel}.

Lemma checkMounts_run l w : is_Some (checkMounts l w).1 ↔ forallb (λ x, SupportedFilesystem x.2) l = false.
Proof.
  revert w. induction l as [|[p t] l IH]; intros w; cbn [checkMounts forallb snd].
  - split; [by intros [? [=]]|done].
  - rewrite bind_run. cbn [fst snd log modify]. destruct (SupportedFilesystem t); cbn [negb andb]; [apply IH|].
    split; [done|]. intros _. eexists. done.
Qed.

Lemma checkMounts_keeps l : frame (only []) (checkMounts l).
Proof. induction l as [|[p t] l IH]; cbn [checkMounts]; solve_frame. Qed.

Lemma checkRequired_none m req : Forall (λ p, ∀ t, m !! p = Some t → SupportedFilesystem t = true) req →
  (checkRequired m req = None ↔ forallb (λ p, bool_decide (is_Some (m !! p))) req = true).
Proof.
  intros Hs. induction Hs as [|p req Hp _ IH]; [done|]. cbn [checkRequired forallb].
  destruct (m !! p) as [t|] eqn:E; [|rewrite bool_decide_false by (by intros [? [=]]); done].
  unfold ValidMultiInstanceFilesystem. rewrite (Hp t) by done. cbn [negb]. by rewrite bool_decide_true by eauto.
Qed.

Lemma checkVolumes_ok m w :
  (checkVolumes (Ok m) w).1 = None ↔ usable m (default "" (env w !! "MQ_MULTI_INSTANCE") =s "true") = true.
Proof.
  unfold checkVolumes. rewrite check_run.
  assert (∃ e w1, (if bool_decide (m = ∅) then _ ← log INFO "No volume detected. Persistent messages may be lost"; mret None
      else checkMounts (map_to_list m)) w = (e, w1) ∧ env w1 = env w
    ∧ (is_Some e ↔ forallb (λ x, SupportedFilesystem x.2) (map_to_list m) = false)) as (e & w1 & E & He & Hi).
  { case_bool_decide as Hm.
    - subst m. rewrite map_to_list_empty. eexists _, _. split; [done|]. split; [done|]. split; [by intros [? [=]]|done].
    - destruct (checkMounts (map_to_list m) w) as [e w1] eqn:E. exists e, w1. split; [done|].
      pose proof (checkMounts_keeps (map_to_list m) w) as [He _]. pose proof (checkMounts_run (map_to_list m) w) as Hi.
      rewrite E in He, Hi. done. }
  rewrite E. cbn [fst snd]. unfold usable. destruct e as [e|].
  - rewrite (proj1 Hi) by eauto. done.
  - assert (forallb (λ x, SupportedFilesystem x.2) (map_to_list m) = true) as Hall.
    { destruct (forallb _ _); [done|]. by destruct Hi as [_ [? [=]]]. }
    rewrite Hall. cbn [andb]. rewrite bind_run. unfold Getenv, gets. cbn [fst snd]. rewrite He.
    destruct (_ =s "true"); [|done]. rewrite bind_run. cbn [fst snd negb orb]. apply checkRequired_none.
    apply Forall_forall. intros p _ t Ht. rewrite forallb_forall in Hall.
    apply (Hall (p, t)), list_elem_of_In. by apply elem_of_map_to_list.
Qed.

Lemma logFacts_keeps : frame (only []) logFacts.
Proof.
  unfold logFacts, logUser, logCapabilities, GetKernelVersion, GetBaseImage, GetSeccomp, GetSeccompEnforcingMode,
    GetSecurityAttributes, readFileString, fileExists, readProc. solve_frame.
Qed.

(** C24. With /proc/mounts as the kernel writes it, the check of the container returns, without a
    panic, and refuses it exactly when a volume of MQ has an unsupported file system or, for a
    multi-instance queue manager, one of the three volumes is missing. *)
Theorem volumes_checked w l : GOOS = "linux" → Forall (λ m, mount_ok m = true) l → l ≠ [] →
  files w !! norm "/proc/mounts" = Some (File (Join (map mount_line l) (s1 "010") +:+ s1 "010")) →
  TrimSpace (Join (map mount_line l) (s1 "010") +:+ s1 "010") = Join (map mount_line l) (s1 "010") →
  ∃ e, (LogContainerDetails w).1 = Some e
    ∧ (e = None ↔ usable (volumes_of l ∅) (default "" (env w !! "MQ_MULTI_INSTANCE") =s "true") = true).
Proof.
  intros Hos Hl Hne Hf Ht. unfold LogContainerDetails. rewrite Hos, String.eqb_refl. cbn [negb]. rewrite bind_run.
  destruct (logFacts_keeps w) as [He Hfs]. destruct (logFacts w) as [[] w1]. cbn [fst snd] in *. rewrite bind_run.
  assert (GetMounts w1 = (Some (Ok (volumes_of l ∅)), w1)) as ->.
  { unfold GetMounts, readProc. rewrite bind_run, bind_run. rewrite (ReadFile_ok _ _ _ (eq_trans (Hfs _ (not_elem_of_nil _)) Hf)).
    cbn [fst snd mret M_ret fmap res_fmap]. rewrite Ht, Split_Join.
    - by rewrite mountLines_ok.
    - by destruct l.
    - apply Forall_map. eapply Forall_impl; [exact Hl|]. apply mount_line_no_lf. }
  cbn [fst snd]. rewrite bind_run. pose proof (checkVolumes_ok (volumes_of l ∅) w1) as Hc. rewrite He in Hc.
  destruct (checkVolumes (Ok (volumes_of l ∅)) w1) as [[e|] w2]; cbn [fst snd] in *.
  - exists (Some e). split; [done|]. rewrite <- Hc. done.
  - exists None. split; [|by rewrite <- Hc]. do 2 (rewrite bind_run; unfold Getenv at 1, gets; cbn [fst snd]).
    by rewrite bind_run.
Qed.
End laws.

(** A container to evaluate on: the data are on a volume, the logs and the queue managers are not. *)
Definition example_kernel : Kernel := {|
  GOOS := "linux"; GOARCH := "amd64";
  capability_List := ["cap_chown"]; capability_NewPid _ := Ok (λ _ _, false);
  prctl_get_einval := false; prctl_set_einval := false;
  euid := 1001; gid := 0; groups := Ok []; statfs_type _ := Ok 0x58465342 |}.

Definition example_mounts : list mount :=
  [Mount "overlay" "/" "overlay" ["rw"; "0"; "0"]; Mount "/dev/sda1" "/mnt/mqm" "xfs" ["rw,relatime"; "0"; "0"]].

Definition example_world (multi : string) : world := world_of [("MQ_MULTI_INSTANCE", multi)]
  [("/proc/mounts", File (Join (map mount_line example_mounts) (s1 "010") +:+ s1 "010"))].

Lemma volumes_checked_witness :
  ∃ e e', (@LogContainerDetails quiet example_kernel (example_world "false")).1 = Some e ∧ e = None
    ∧ (@LogContainerDetails quiet example_kernel (example_world "true")).1 = Some e' ∧ e' ≠ None.
Proof.
  destruct (@volumes_checked quiet quiet_faultless example_kernel (example_world "false") example_mounts) as (e & He & Hu);
    [reflexivity|repeat (constructor; [reflexivity|]); constructor|discriminate|vm_compute; reflexivity|vm_compute; reflexivity|].
  destruct (@volumes_checked quiet quiet_faultless example_kernel (example_world "true") example_mounts) as (e' & He' & Hu');
    [reflexivity|repeat (constructor; [reflexivity|]); constructor|discriminate|vm_compute; reflexivity|vm_compute; reflexivity|].
  exists e, e'. split; [exact He|]. split; [apply Hu; vm_compute; reflexivity|]. split; [exact He'|].
  intros Hn. apply Hu' in Hn. vm_compute in Hn. discriminate.
Defined.

End Runtime.
