(* ===== verification/Qmgr.v ===== *)
(** * The queue manager's commands (cmd/runmqserver/qmgr.go)

    Creating, starting and stopping the queue manager by the commands of the product, which
    are [exec]; which arguments they get, and how their results are taken. *)
From S2P Require Import Prelude Utf8 GoStrings Paths Os Diagnostics Redact MqVersion Ready Runtime.
Import Runtime.

Open Scope Z_scope.

Module Qmgr.

(** ** Names and directories *)

Definition replaceCharsInQMName (qmname : string) : string :=
  let replacedName := if Contains qmname "." then ReplaceAll qmname "." "!" else qmname in
  if Contains replacedName "/" then ReplaceAll replacedName "/" "&" else replacedName.

Definition getQueueManagerDataDir (mounts : gmap string string) (name : string) : string :=
  if bool_decide (is_Some (mounts !! "/mnt/mqm-data")) then CleanPath ["/mnt/mqm-data/qmgrs"; name]
  else CleanPath ["/var/mqm/qmgrs"; name].

Definition getCreateStandbyQueueManagerArgs (name : string) : list string :=
  ["-s"; "QueueManager"; "-v"; "Name=" +:+ name; "-v"; "Directory=" +:+ name; "-v"; "Prefix=/var/mqm";
   "-v"; "DataPath=/mnt/mqm-data/qmgrs/" +:+ name].

Definition validateLogFilePageSetting (iniFile logFilePages : string) : bool :=
  Contains iniFile ("LogFilePages=" +:+ logFilePages).

Definition formatMQSCOutput (out : string) : string :=
  ReplaceAll (default "" (Redact.Redact out)) (s1 "010") (s1 "010" +:+ s1 "009").

(** ** The service component of qm.ini *)

(** Five consecutive lines with these words: what the regular expression matches, which
    is a multi-line one whose dot does not match a line feed. *)
Definition serviceWords : list string := ["ServiceComponent"; "Service"; "Name"; "Module"; "ComponentDataSize"].

Fixpoint linesContain (lines words : list string) : bool :=
  match words, lines with
  | [], _ => true
  | w :: words, l :: lines => Contains l w && linesContain lines words
  | _, [] => false
  end.

(** The match is replaced by the empty text, which leaves one empty line; [skip] lines
    belong to the match before. *)
Fixpoint removeComponents (skip : nat) (lines : list string) : list string :=
  match lines with
  | [] => []
  | l :: lines' =>
      match skip with
      | S skip => removeComponents skip lines'
      | O => if linesContain lines serviceWords then "" :: removeComponents 4 lines'
             else l :: removeComponents 0 lines'
      end
  end.

Definition removeServiceComponent (qmini : string) : string :=
  Join (removeComponents 0 (Split qmini "010")) (s1 "010").

(** ** Commands *)

(** The system calls on the limit of open files. *)
Record RLimit := { Cur : Z; Max : Z }.
Class Rlimits := {
  Getrlimit : world → res RLimit;
  Setrlimit : RLimit → M (option error) }.

Section commands.
Context `{OS} `{Kernel} `{Metadata} `{Rlimits}.

Definition rc_text (what : string) (rc : Z) (out : string) : string :=
  what +:+ " returned with code: " +:+ Itoa rc +:+ ". Reason: " +:+ out.
(** Some of the formats have two spaces. *)
Definition rc_text2 (what : string) (rc : Z) (out : string) : string :=
  what +:+ " returned with code: " +:+ Itoa rc +:+ ".  Reason: " +:+ out.

(** The symbolic link of mqwebuser.xml is expected. *)
Definition symlink_warning : string :=
  "The filesystem object '/mnt/mqm/data/web/installations/Installation1/servers/mqweb/mqwebuser.xml' is a symbolic link.".

Definition createDirStructure : M (option error) :=
  _ ← Diagnostics.logDiagnostics;
  '(out, rc, err) ← Run "/opt/mqm/bin/crtmqdir" ["-f"; "-a"];
  match err with
  | Some e =>
      if rc =? 10 then
        _ ← (if negb (Join (Fields out) " " =s symlink_warning)
             then log INFO ("Warning creating directory structure: " +:+ out +:+ s1 "010") else mret tt);
        _ ← log INFO "Created directory structure under /var/mqm";
        _ ← Diagnostics.logDiagnostics; mret None
      else
        _ ← log INFO (rc_text "Error creating directory structure: the 'crtmqdir' command" rc out +:+ s1 "010");
        mret (Some e)
  | None => _ ← log INFO "Created directory structure under /var/mqm"; _ ← Diagnostics.logDiagnostics; mret None
  end.

(** An error of [Compare] comes with the value 0, which is not below 0. *)
Definition getCreateQueueManagerArgs (mounts : gmap string string) (name : string) (devMode : bool) : M (list string) :=
  mqVersionCheck ← MqVersion.Compare "9.2.1.0";
  _ ← match mqVersionCheck with Err _ => log INFO "Error comparing MQ versions for oa,rc: 0" | Ok _ => mret tt end;
  let oaVal := if 0 <=? match mqVersionCheck with Ok c => c | Err _ => 0 end then "UserExternal" else "user" in
  nha ← Getenv "MQ_NATIVE_HA";
  host ← Getenv "HOSTNAME";
  pages ← Getenv "MQ_QMGR_LOG_FILE_PAGES";
  _ ← match Atoi pages with
      | None => if pages =s "" then mret tt
                else log INFO ("Error processing MQ_QMGR_LOG_FILE_PAGES, the default value for LogFilePages will be used. Err: "
                               +:+ Error_ (AtoiError "Atoi" pages))
      | Some _ => mret tt
      end;
  mret (["-ii"; "/etc/mqm/"; "-ic"; "/etc/mqm/"; "-q"; "-p"; "1414"]
    ++ (if nha =s "true" then ["-lr"; host] else [])
    ++ (if devMode then ["-oa"; oaVal] else [])
    ++ (if bool_decide (is_Some (mounts !! "/mnt/mqm-log")) then ["-ld"; "/mnt/mqm-log/log"] else [])
    ++ (if bool_decide (is_Some (mounts !! "/mnt/mqm-data")) then ["-md"; "/mnt/mqm-data/qmgrs"] else [])
    ++ (if negb (pages =s "") && bool_decide (is_Some (Atoi pages)) then ["-lf"; pages] else [])
    ++ [name]).

Definition readQMIni (dataDir : string) : M (res string) := ReadFile (CleanPath [dataDir; "qm.ini"]).

(** An existing queue manager: only the setting of the log is compared. *)
Definition existingQueueManager (dataDir name : string) : M (bool * option error) :=
  _ ← log INFO ("Detected existing queue manager " +:+ name);
  lfp ← Getenv "MQ_QMGR_LOG_FILE_PAGES";
  if lfp =s "" then mret (false, None) else
  ini ← readQMIni dataDir;
  match ini with
  | Err e => _ ← log INFO ("Error reading qm.ini : " +:+ Error_ e); mret (false, Some e)
  | Ok ini =>
      _ ← (if negb (validateLogFilePageSetting ini lfp)
           then log INFO "Warning: the value of MQ_QMGR_LOG_FILE_PAGES does not match the value of 'LogFilePages' in the qm.ini. This setting cannot be altered after Queue Manager creation."
           else mret tt);
      mret (false, None)
  end.

(** Whether a queue manager was created; [None] is the panic of [GetMounts]. *)
Definition createQueueManager (name : string) (devMode : bool) : M (option (bool * option error)) :=
  _ ← log INFO ("Creating queue manager " +:+ name);
  mounts ← GetMounts;
  match mounts with
  | None => mret None
  | Some (Err e) => _ ← log INFO "Error getting mounts for queue manager"; mret (Some (false, Some e))
  | Some (Ok mounts) =>
      let dataDir := getQueueManagerDataDir mounts (replaceCharsInQMName name) in
      '(_, _, err) ← Run "dspmqinf" [name];
      match err with
      | None => Some <$> existingQueueManager dataDir name
      | Some _ =>
          ini ← Stat (CleanPath [dataDir; "qm.ini"]);
          match ini with
          | Err _ =>
              args ← getCreateQueueManagerArgs mounts name devMode;
              '(out, rc, err) ← Run "crtmqm" args;
              match err with
              | Some e => _ ← log INFO (rc_text "Error creating queue manager: the 'crtmqm' command" rc out);
                          mret (Some (false, Some e))
              | None => _ ← log INFO "Created queue manager"; mret (Some (true, None))
              end
          | Ok _ =>
              '(out, rc, err) ← Run "addmqinf" (getCreateStandbyQueueManagerArgs name);
              match err with
              | Some e => _ ← log INFO (rc_text "Error creating standby queue manager: the 'addmqinf' command" rc out);
                          mret (Some (false, Some e))
              | None => _ ← log INFO "Created standby queue manager"; mret (Some (true, None))
              end
          end
      end
  end.

Definition updateCommandLevel : M (option error) :=
  level ← LookupEnv "MQ_CMDLEVEL";
  match level with
  | Some (String c l) =>
      let level := String c l in
      _ ← log INFO ("Setting CMDLEVEL to " +:+ level);
      '(out, rc, err) ← Run "strmqm" ["-e"; "CMDLEVEL=" +:+ level];
      match err with
      | Some e => _ ← log INFO (rc_text "Error setting CMDLEVEL for queue manager: the 'strmqm' command" rc out);
                  mret (Some e)
      | None => mret None
      end
  | _ => mret None
  end.

(** The soft limit of open files is set to the hard limit. *)
Definition setNoFileSoftLimitEqualToHardLimit : M (option error) :=
  limit ← gets Getrlimit;
  match limit with
  | Err e => mret (Some e)
  | Ok limit => Setrlimit (Build_RLimit (Max limit) (Max limit))
  end.

(** When it is asked for. *)
Definition raiseFileLimit : M (option error) :=
  soft ← Getenv "MQ_ENABLE_SOFT_FILE_LIMIT_INCREASE";
  if soft =s "true" then setNoFileSoftLimitEqualToHardLimit else mret None.

(** The error is only logged. *)
Definition limitWarning (err : option error) : M unit :=
  match err with
  | Some e => log INFO ("Warning: Unable to increase the soft limit for the number of open files. Err: " +:+ Error_ e)
  | None => mret tt
  end.

Definition startQueueManager (name : string) : M (option error) :=
  err ← raiseFileLimit;
  _ ← limitWarning err;
  _ ← log INFO "Starting queue manager";
  '(out, rc, err) ← Run "strmqm" ["-x"; name];
  match err with
  | Some e =>
      if rc =? 30 then _ ← log INFO "Started standby queue manager"; mret None
      else if rc =? 94 then _ ← log INFO "Started replica queue manager"; mret None
      else _ ← log INFO (rc_text "Error starting queue manager: the 'strmqm' command" rc out); mret (Some e)
  | None => _ ← log INFO "Started queue manager"; mret None
  end.

(** The arguments of endmqm. *)
Definition endArgs (multiInstance isStandby : bool) (period name : string) : list string :=
  if multiInstance then
    if isStandby then ["-x"; name] else ["-s"; "-w"; "-tp"; period; name]
  else ["-w"; "-r"; "-tp"; period; name].

Definition stopQueueManager (name : string) : M (option error) :=
  _ ← log INFO "Stopping queue manager";
  grace ← Getenv "MQ_GRACE_PERIOD";
  _ ← match Atoi grace with
      | None => log INFO ("Error processing MQ_GRACE_PERIOD, the default value for QM Grace Period will be used. Err: "
                           +:+ Error_ (AtoiError "Atoi" grace))
      | Some _ => mret tt
      end;
  let qmGracePeriod := default 30 (Atoi grace) in
  '(status, err) ← Ready.Status name;
  match err with
  | Some e => _ ← log INFO ("Error getting status for queue manager " +:+ name
                          +:+ ". The 'dspmq' command returned reason: " +:+ Error_ e); mret (Some e)
  | None =>
      let isStandby := Ready.StandbyQM status in
      multi ← Getenv "MQ_MULTI_INSTANCE";
      '(out, rc, err) ← Run "endmqm" (endArgs (multi =s "true") isStandby (Itoa qmGracePeriod) name);
      match err with
      | Some e => _ ← log INFO (rc_text2 "Error stopping queue manager: the 'endmqm' command" rc out); mret (Some e)
      | None =>
          _ ← log INFO (if isStandby then "Stopped standby queue manager" else "Stopped queue manager"); mret None
      end
  end.

Definition startMQTrace : M (option error) :=
  _ ← log INFO "Starting MQ trace";
  '(out, rc, err) ← Run "strmqtrc" [];
  match err with
  | Some e => _ ← log INFO (rc_text2 "Error starting MQ trace: the 'strmqtrc' command" rc out); mret (Some e)
  | None => _ ← log INFO "Started MQ trace"; mret None
  end.

Definition endMQTrace : M (option error) :=
  _ ← log INFO "Ending MQ Trace";
  '(out, rc, err) ← Run "endmqtrc" [];
  match err with
  | Some e => _ ← log INFO (rc_text2 "Error ending MQ trace: the 'endmqtrc' command" rc out); mret (Some e)
  | None => _ ← log INFO "Ended MQ trace"; mret None
  end.

Definition isStandbyQueueManager (name : string) : M (res bool) :=
  '(out, rc, err) ← Run "dspmq" ["-n"; "-m"; name];
  match err with
  | Some e => _ ← log INFO (rc_text2 ("Error while getting status for queue manager " +:+ name +:+ ": the 'dspmq' command") rc out);
              mret (Err e)
  | None => mret (Ok (Contains out "(RUNNING AS STANDBY)"))
  end.

(** [None] is the panic of [GetMounts]. *)
Definition updateQMini (qmname : string) : M (option (option error)) :=
  val ← LookupEnv "MQ_CONNAUTH_USE_HTP";
  match val with
  | None => mret (Some None)
  | Some val =>
      match ParseBool (ToLower val) with
      | None => mret (Some (Some (NumError "ParseBool" (ToLower val) false)))
      | Some false => mret (Some None)
      | Some true =>
          _ ← log INFO "Removing existing ServiceComponent configuration";
          mounts ← GetMounts;
          match mounts with
          | None => mret None
          | Some (Err e) => _ ← log INFO "Error getting mounts for queue manager"; mret (Some (Some e))
          | Some (Ok mounts) =>
              let qmgrDir := CleanPath [getQueueManagerDataDir mounts (replaceCharsInQMName qmname); "qm.ini"] in
              ini ← ReadFile qmgrDir;
              match ini with
              | Err e => mret (Some (Some e))
              | Ok ini =>
                  if Contains ini "ServiceComponent:"
                  then Some <$> WriteFile qmgrDir (removeServiceComponent ini)
                  else mret (Some None)
              end
          end
      end
  end.

End commands.

(** ** The service component is removed, and nothing else *)

(** Five lines with the words, in front of other lines. *)
Definition window (lines : list string) : bool := linesContain lines serviceWords.

(** The lines that are left: each window, from the first on, becomes an empty line. *)
Inductive removed : list string → list string → Prop :=
| removed_nil : removed [] []
| removed_keep l ls ls' : window (l :: ls) = false → removed ls ls' → removed (l :: ls) (l :: ls')
| removed_window a b c d e ls ls' : window [a; b; c; d; e] = true → removed ls ls' →
    removed (a :: b :: c :: d :: e :: ls) ("" :: ls').

Lemma window_five a b c d e ls : window (a :: b :: c :: d :: e :: ls) = window [a; b; c; d; e].
Proof. unfold window, serviceWords. cbn [linesContain]. by destruct ls. Qed.

Lemma window_long ls : window ls = true → ∃ a b c d e rest, ls = a :: b :: c :: d :: e :: rest.
Proof.
  unfold window, serviceWords. destruct ls as [|a [|b [|c [|d [|e rest]]]]]; cbn [linesContain]; rewrite ?andb_false_r; try done.
  intros _. by exists a, b, c, d, e, rest.
Qed.

Lemma removeComponents_removed n ls : (length ls ≤ n)%nat → removed ls (removeComponents 0 ls).
Proof.
  revert ls. induction n as [|n IH]; intros [|l ls] Hn; [constructor|simpl in Hn; lia|constructor|]. cbn [removeComponents].
  fold (window (l :: ls)). destruct (window (l :: ls)) eqn:E.
  - destruct (window_long _ E) as (a & b & c & d & e & rest & [= -> ->]). rewrite window_five in E.
    cbn [removeComponents]. constructor; [exact E|]. apply IH. simpl in Hn. lia.
  - constructor; [exact E|]. apply IH. simpl in Hn. lia.
Qed.

(** No window is left, not even across the empty lines. *)
Lemma window_empty_line a k : window (a :: k) = true → ∀ x, x ∈ take 5 (a :: k) → x ≠ "".
Proof.
  intros Hw x Hx ->. destruct (window_long _ Hw) as (a' & b & c & d & e & rest & E). rewrite E in Hw, Hx. cbn [take] in Hx.
  unfold window, serviceWords in Hw. cbn [linesContain] in Hw. rewrite !andb_true_iff in Hw.
  destruct Hw as (H1 & H2 & H3 & H4 & H5 & _). rewrite !elem_of_cons, elem_of_nil in Hx. destruct_or!; subst; done.
Qed.

Lemma window_prefix ls ls' k : take 5 ls' = take 5 ls → window (ls' ++ k) = true → (5 ≤ length ls')%nat → window ls = true.
Proof.
  destruct ls' as [|a [|b [|c [|d [|e ls']]]]]; simpl length; intros Ht Hw Hl; try lia. cbn [take] in Ht.
  destruct ls as [|a' [|b' [|c' [|d' [|e' ls]]]]]; try discriminate. injection Ht as <- <- <- <- <-.
  cbn [app] in Hw. by rewrite window_five in *.
Qed.

(** The first lines that are left, up to an empty line, are the first lines there were. *)
Lemma removed_take ls ls' n : removed ls ls' → "" ∉ take n ls' → take n ls' = take n ls ∧ (length (take n ls') = length (take n ls)).
Proof.
  intros Hr. revert n. induction Hr as [|l ls ls' _ _ IH|]; intros [|n] Hn; try done.
  - cbn [take] in *. apply not_elem_of_cons in Hn as [_ Hn]. destruct (IH n Hn) as [-> _]. done.
  - destruct Hn. by left.
Qed.

Lemma removed_no_window ls ls' : removed ls ls' → ∀ a b, ls' = a ++ b → window b = false.
Proof.
  intros Hr. induction Hr as [|l ls ls' Hw Hr IH|x b c d e ls ls' _ _ IH]; intros p q E.
  - destruct p; [|done]. cbn in E. by subst.
  - destruct p as [|y p]; [|injection E as -> E; by apply (IH p)]. cbn [app] in E. subst q.
    apply not_true_is_false. intros Hq. pose proof (window_empty_line _ _ Hq) as Hne.
    destruct (window_long _ Hq) as (a' & b & c & d & e & rest & Eq).
    destruct (removed_take ls ls' 4 Hr) as [Ht _].
    { intros Hin. apply (Hne ""); [|done]. cbn [take]. by right. }
    enough (window (l :: ls) = true) by congruence. apply (window_prefix (l :: ls) (l :: ls') []).
    + cbn [take]. by f_equal.
    + by rewrite app_nil_r.
    + rewrite Eq. simpl. lia.
  - destruct p as [|y p]; [|injection E as _ E; by apply (IH p)]. cbn [app] in E. subst q.
    apply not_true_is_false. intros Hq. apply (window_empty_line _ _ Hq ""); [by left|done].
Qed.

Lemma removed_same ls : (∀ a b, ls = a ++ b → window b = false) → ∀ ls', removed ls ls' → ls' = ls.
Proof.
  intros Hw ls' Hr. induction Hr as [|l ls ls' _ _ IH|a b c d e ls ls' Hx _ _]; [done|..].
  - f_equal. apply IH. intros p q ->. by apply (Hw (l :: p)).
  - specialize (Hw [] (a :: b :: c :: d :: e :: ls) (reflexivity _)). rewrite window_five in Hw. congruence.
Qed.

Lemma removed_lines (P : string → Prop) ls ls' : P "" → removed ls ls' → Forall P ls → Forall P ls'.
Proof.
  intros H0 Hr. induction Hr as [| |a b c d e ls ls' _ _ IH]; intros Hf; [done|..].
  - apply Forall_cons in Hf as [? ?]. constructor; auto.
  - do 5 (apply Forall_cons in Hf as [_ Hf]). constructor; auto.
Qed.

(** C28. The five lines of each service component of qm.ini are taken out, from the first on, and
    every other line is kept as it is and in order; no component is left, so that doing it again
    changes nothing, and a file without one is not changed. *)
Theorem service_component_removed qmini :
  let out := removeServiceComponent qmini in
  removed (Split qmini "010") (Split out "010")
  ∧ (∀ a b, Split out "010" = a ++ b → window b = false)
  ∧ removeServiceComponent out = out
  ∧ ((∀ a b, Split qmini "010" = a ++ b → window b = false) → out = qmini).
Proof.
  cbn zeta. unfold removeServiceComponent. set (ls := Split qmini "010").
  pose proof (removeComponents_removed _ ls (le_n _)) as Hr. set (ls' := removeComponents 0 ls) in *.
  assert (ls' ≠ []) as Hne.
  { intros E. rewrite E in Hr. inversion Hr as [El| |]. by apply (Split_ne qmini "010"). }
  assert (Split (Join ls' (s1 "010")) "010" = ls') as Hsplit.
  { apply Split_Join; [done|]. apply (removed_lines _ ls); [done|exact Hr|apply Split_no_bytes]. }
  rewrite Hsplit. pose proof (removed_no_window ls ls' Hr) as Hnw. split; [exact Hr|]. split; [exact Hnw|]. split.
  - f_equal. apply (removed_same ls' Hnw). by apply removeComponents_removed with (length ls').
  - intros Hw. rewrite (removed_same ls Hw ls' Hr). apply Join_Split.
Qed.

(** A prefix of the number that is set passes the check of the log file pages. *)
Lemma log_pages_prefix iniFile a b : validateLogFilePageSetting iniFile (a +:+ b) = true → validateLogFilePageSetting iniFile a = true.
Proof.
  unfold validateLogFilePageSetting. rewrite !Contains_spec. intros (x & y & ->). exists x, (b +:+ y). by autorewrite with gostr.
Qed.

End Qmgr.
