(* ===== verification/Ha.v ===== *)
(** * Native HA (internal/ha/ha.go)

    The configuration of native high availability from the environment and the
    certificates, and the files made from it.  The template engine is a parameter. *)
From S2P Require Import Prelude Utf8 GoStrings Paths Os Support Keystore Tls.
Import Tls.

Open Scope Z_scope.

Module Ha.

Record haInstance := { Name : string; ReplicationAddress : string }.
Record haLocalGroupConfig := { LocalName : string; Role : string; LocalAddress : string }.
(** [yesNo] is a boolean that prints as Yes or No. *)
Record haRecoveryGroupConfig := { RecoveryName : string; Enabled : bool; RecoveryAddress : string }.
Definition yesNo (b : bool) : string := if b then "Yes" else "No".

Record haGroupConfig := {
  Local_ : haLocalGroupConfig;
  Recovery : haRecoveryGroupConfig;
  GroupCipherSpec : string;
  GroupCertificateLabel : string }.

Record haConfig := {
  HaName : string;
  Instances : list haInstance;
  Group : haGroupConfig;
  haTLSEnabled : bool;
  CipherSpec : string;
  CertificateLabel : string;
  keyRepository : string;
  fipsAvailable : bool }.

Definition ShouldConfigureTLS (h : haConfig) : bool :=
  haTLSEnabled h || negb (LocalName (Local_ (Group h)) =s "").

Definition SSLFipsRequired (h : haConfig) : string := yesNo (fipsAvailable h).

Definition KeyRepository (h : haConfig) : string :=
  if negb (keyRepository h =s "") then keyRepository h else "/run/runmqserver/ha/tls/key".

Definition updateTLS (fips : bool) (haCertLabel haGroupCertLabel : string) (h : haConfig) : haConfig :=
  let g := Group h in
  Build_haConfig (HaName h) (Instances h)
    (Build_haGroupConfig (Local_ g) (Recovery g) (GroupCipherSpec g)
       (if negb (haGroupCertLabel =s "") then haGroupCertLabel else GroupCertificateLabel g))
    (haTLSEnabled h || negb (haCertLabel =s "") || negb (haGroupCertLabel =s ""))
    (CipherSpec h)
    (if negb (haCertLabel =s "") then haCertLabel else CertificateLabel h)
    (keyRepository h) fips.

(** The configuration as a function of the environment. *)
Definition config_of (e : string → string) : haConfig :=
  let recoveryName := e "MQ_NATIVE_HA_GROUP_RECOVERY_NAME" in
  Build_haConfig (e "HOSTNAME")
    [Build_haInstance (e "MQ_NATIVE_HA_INSTANCE_0_NAME") (e "MQ_NATIVE_HA_INSTANCE_0_REPLICATION_ADDRESS");
     Build_haInstance (e "MQ_NATIVE_HA_INSTANCE_1_NAME") (e "MQ_NATIVE_HA_INSTANCE_1_REPLICATION_ADDRESS");
     Build_haInstance (e "MQ_NATIVE_HA_INSTANCE_2_NAME") (e "MQ_NATIVE_HA_INSTANCE_2_REPLICATION_ADDRESS")]
    (Build_haGroupConfig
       (Build_haLocalGroupConfig (e "MQ_NATIVE_HA_GROUP_LOCAL_NAME") (e "MQ_NATIVE_HA_GROUP_ROLE") (e "MQ_NATIVE_HA_GROUP_LOCAL_ADDRESS"))
       (Build_haRecoveryGroupConfig recoveryName
          (if recoveryName =s "" then false else negb (e "MQ_NATIVE_HA_GROUP_RECOVERY_ENABLED" =s "false"))
          (e "MQ_NATIVE_HA_GROUP_REPLICATION_ADDRESS"))
       (e "MQ_NATIVE_HA_GROUP_CIPHERSPEC") "")
    false (e "MQ_NATIVE_HA_CIPHERSPEC") "" (e "MQ_NATIVE_HA_KEY_REPOSITORY") false.

Definition loadConfigFromEnv : M haConfig := gets (λ w, config_of (λ k, default "" (env w !! k))).

Definition checkVars : list string :=
  ["MQ_NATIVE_HA_INSTANCE_0_NAME"; "MQ_NATIVE_HA_INSTANCE_0_REPLICATION_ADDRESS";
   "MQ_NATIVE_HA_INSTANCE_1_NAME"; "MQ_NATIVE_HA_INSTANCE_1_REPLICATION_ADDRESS";
   "MQ_NATIVE_HA_INSTANCE_2_NAME"; "MQ_NATIVE_HA_INSTANCE_2_REPLICATION_ADDRESS";
   "MQ_NATIVE_HA_TLS"; "MQ_NATIVE_HA_CIPHERSPEC"].

Definition envConfigPresent : M bool := gets (λ w, existsb (λ k, negb (default "" (env w !! k) =s "")) checkVars).

Section ha.
Context `{OS} `{Crypto}.
Context (execute : string → haConfig → string * option error) (parse : string → option error).

Definition generate (templatePath outputPath : string) (h : haConfig) : M (option error) :=
  Files.ProcessTemplateFile execute parse templatePath outputPath h.

(** The files of the map, in an order the program does not choose. *)
Definition loadConfigAndGenerate (templateConfigs : list (string * string)) (fips : bool)
    (haCertLabel haGroupCertLabel : string) : M (option error) :=
  cfg ← loadConfigFromEnv;
  let cfg := updateTLS fips haCertLabel haGroupCertLabel cfg in
  each_err (λ c, generate c.2 c.1 cfg) templateConfigs.

(** The output files and their templates. *)
Definition configFiles (haCertLabel haGroupCertLabel : string) (envConfig : bool) : list (string * string) :=
  ("/run/10-native-ha-instance.ini", "/etc/mqm/10-native-ha-instance.ini.tpl")
  :: (if negb (haCertLabel =s "") || negb (haGroupCertLabel =s "")
      then [("/run/10-native-ha-keystore.ini", "/etc/mqm/10-native-ha-keystore.ini.tpl")] else [])
  ++ (if envConfig then [("/run/10-native-ha.ini", "/etc/mqm/10-native-ha.ini.tpl")] else []).

(** A panic of the TLS configuration is [None]. *)
Definition ConfigureNativeHA (fips : bool) : M (option (option error)) :=
  nha ← Getenv "MQ_NATIVE_HA";
  if negb (nha =s "true") then mret (Some None) else
  '(labels, _) ← ConfigureHATLSKeystore fips;
  match labels with
  | Panic => mret None
  | Fail e => mret (Some (Some (Wrap "error loading tls keys" e)))
  | Ret (haCertLabel, haGroupCertLabel) =>
      envConfig ← envConfigPresent;
      _ ← (if envConfig : bool
           then log INFO "Configuring Native HA using values provided in environment variables" else mret tt);
      Some <$> loadConfigAndGenerate (configFiles haCertLabel haGroupCertLabel envConfig) fips haCertLabel haGroupCertLabel
  end.

End ha.

(** ** What is generated *)

Section laws.
Context `{Faultless} {data : Type} (execute : string → data → string * option error) (parse : string → option error).

(** A template over an empty file, in a directory that exists. *)
Lemma template_ok tpl out (d : data) w text o : files w !! norm tpl = Some (File text) → parse text = None →
  files w !! norm (Dir out) = Some Directory → files w !! norm out = Some (File "") → execute text d = (o, None) →
  Files.ProcessTemplateFile execute parse tpl out d w = (None, set_files (<[norm out := File o]> (files w)) w).
Proof.
  intros Ht Hp Hd Ho He. unfold Files.ProcessTemplateFile. rewrite bind_run, (ReadFile_ok _ _ _ Ht). cbn [fst snd].
  rewrite Hp, check_run. unfold Files.makeDir. rewrite bind_run, (Stat_ok _ _ _ Hd) by done. cbn [mret M_ret fst snd].
  rewrite He, bind_run, (write_existing _ _ _ _ _ Ho). cbn [fst snd]. unfold overwrite.
  assert (∀ n, drop_bytes n "" = "") as -> by by intros []. by rewrite sapp_nil_r.
Qed.

(** Templates whose outputs are different files, none of which is a template. *)
Lemma templates_ok cs (d : data) w : NoDup (map (norm ∘ fst) cs) →
  (∀ c c', c ∈ cs → c' ∈ cs → norm c.1 ≠ norm c'.2) →
  (∀ c, c ∈ cs → norm (Dir c.1) = ["run"] ∧ norm c.1 ≠ ["run"] ∧ files w !! norm c.1 = Some (File "") ∧
    ∃ text, files w !! norm c.2 = Some (File text) ∧ parse text = None ∧ (execute text d).2 = None) →
  files w !! ["run"] = Some Directory →
  ∃ g, each_err (λ c, Files.ProcessTemplateFile execute parse c.2 c.1 d) cs w = (None, set_files g w)
    ∧ (∀ c text, c ∈ cs → files w !! norm c.2 = Some (File text) → g !! norm c.1 = Some (File (execute text d).1))
    ∧ ∀ p, p ∉ map (norm ∘ fst) cs → g !! p = files w !! p.
Proof.
  revert w. induction cs as [|c cs IH]; intros w Hnd Hne Hc Hrun; cbn [each_err].
  { exists (files w). rewrite set_files_id. split; [done|]. split; [|done]. by intros c t ?%not_elem_of_nil. }
  cbn [map] in Hnd. apply NoDup_cons in Hnd as [Hin Hnd].
  destruct (Hc c (list_elem_of_here _ _)) as (Hd & Hr & Ho & text & Ht & Hp & He).
  rewrite check_run, (template_ok _ _ _ _ text (execute text d).1); [|done|done|by rewrite Hd|done|destruct (execute text d); cbn in *; by subst].
  cbn [fst snd]. set (w1 := set_files _ w).
  assert (∀ p, p ≠ norm c.1 → files w1 !! p = files w !! p) as Hw1.
  { intros p Hpn. cbn [w1 files set_files]. unfold w1. cbn [files set_files]. by apply lookup_insert_ne. }
  assert (∀ c', c' ∈ cs → norm c'.1 ≠ norm c.1) as Hoth.
  { intros c' Hc' E. apply Hin. cbn. rewrite <- E. by apply (list_elem_of_fmap_2 (norm ∘ fst)). }
  destruct (IH w1) as (g & E & Hg & Hk); [done|intros; apply Hne; by right| |by rewrite Hw1|].
  - intros c' Hc'. rewrite !Hw1; [apply Hc; by right|apply not_eq_sym, Hne; [by left|by right]|by apply Hoth].
  - exists g. unfold w1 in E. rewrite set_files_set in E. split; [exact E|]. split.
    + intros c' text' [->|Hc']%elem_of_cons Ht'.
      * rewrite Ht in Ht'. injection Ht' as <-. rewrite Hk by done. unfold w1. cbn [files set_files]. by rewrite lookup_insert_eq.
      * apply Hg; [done|]. rewrite Hw1; [done|]. apply not_eq_sym, Hne; [by left|by right].
    + intros p Hp'. cbn [map] in Hp'. apply not_elem_of_cons in Hp' as [? ?]. rewrite Hk, Hw1 by done. done.
Qed.
End laws.

Section property.
Context `{Faultless} `{Crypto}.
Context (execute : string → haConfig → string * option error) (parse : string → option error).

(** The configuration the templates are given. *)
Definition given (fips : bool) (haCertLabel haGroupCertLabel : string) (w : world) : haConfig :=
  updateTLS fips haCertLabel haGroupCertLabel (config_of (λ k, default "" (env w !! k))).

Lemma labels_given l1 l2 : negb (l1 =s "") || negb (l2 =s "") = true ↔ l1 ≠ "" ∨ l2 ≠ "".
Proof. by rewrite orb_true_iff, !negb_true_iff, !String.eqb_neq. Qed.

(** C29. In whatever order the map of the files is walked, each file of Native HA gets the text of its
    template for the configuration of the environment and the labels of the certificates, and no other file is
    changed; the file of the key store is one of them exactly when there is a label, and TLS
    is then configured. *)
Theorem ha_files fips l1 l2 envConfig cs w : cs ≡ₚ configFiles l1 l2 envConfig →
  (∀ c, c ∈ cs → files w !! norm c.1 = Some (File "") ∧
    ∃ text, files w !! norm c.2 = Some (File text) ∧ parse text = None ∧ (execute text (given fips l1 l2 w)).2 = None) →
  files w !! ["run"] = Some Directory →
  ∃ w', loadConfigAndGenerate execute parse cs fips l1 l2 w = (None, w')
    ∧ (∀ c text, c ∈ cs → files w !! norm c.2 = Some (File text) →
         files w' !! norm c.1 = Some (File (execute text (given fips l1 l2 w)).1))
    ∧ (∀ p, p ∉ map (norm ∘ fst) cs → files w' !! p = files w !! p)
    ∧ (["run"; "10-native-ha-keystore.ini"] ∈ map (norm ∘ fst) cs ↔ l1 ≠ "" ∨ l2 ≠ "")
    ∧ (l1 ≠ "" ∨ l2 ≠ "" → ShouldConfigureTLS (given fips l1 l2 w) = true).
Proof.
  intros Hcs Hc Hrun.
  assert (∀ c, c ∈ cs → c ∈ configFiles "x" "" true) as Hsub.
  { intros c. rewrite Hcs. unfold configFiles. destruct (negb (l1 =s "") || _), envConfig; cbn; set_solver. }
  assert (Forall (λ c, norm (Dir c.1) = ["run"] ∧ norm c.1 ≠ ["run"]) (configFiles "x" "" true)) as Hdir
    by by repeat (constructor; [by vm_compute|]).
  rewrite Forall_forall in Hdir.
  destruct (templates_ok execute parse cs (given fips l1 l2 w) w) as (g & E & Hg & Hk).
  - rewrite Hcs. apply (bool_decide_unpack _). unfold configFiles. by destruct (negb (l1 =s "") || _), envConfig; vm_compute.
  - intros c c' Hin%Hsub Hin'%Hsub. unfold configFiles in *. cbn in Hin, Hin'. set_unfold. destruct_or!; subst; vm_compute; discriminate.
  - intros c Hin. destruct (Hc c Hin) as [Ho Ht]. destruct (Hdir c (Hsub c Hin)). done.
  - done.
  - exists (set_files g w). split_and!; [exact E|exact Hg|exact Hk| |].
    + rewrite Hcs, <- labels_given. unfold configFiles.
      destruct (negb (l1 =s "") || negb (l2 =s "")), envConfig; (split; [|intros [=]; apply (bool_decide_unpack _); by vm_compute]); try done;
        intros Hin; exfalso; revert Hin; apply (bool_decide_unpack (_ ∉ _)); by vm_compute.
    + intros Hl%labels_given. unfold given, updateTLS, ShouldConfigureTLS. cbn [haTLSEnabled config_of].
      by rewrite orb_false_l, Hl.
Qed.
End property.

(** A template that shows what it is given. *)
Definition show (text : string) (h : haConfig) : string * option error :=
  (text +:+ ":" +:+ HaName h +:+ ":" +:+ yesNo (Enabled (Recovery (Group h))) +:+ ":" +:+ CertificateLabel h, None).

Definition ha_world : world := world_of [("HOSTNAME", "mq0"); ("MQ_NATIVE_HA_GROUP_RECOVERY_NAME", "dr")]
  [("/run", Directory); ("/run/10-native-ha-instance.ini", File ""); ("/run/10-native-ha-keystore.ini", File "");
   ("/etc/mqm/10-native-ha-instance.ini.tpl", File "i"); ("/etc/mqm/10-native-ha-keystore.ini.tpl", File "k")].

Lemma ha_files_witness : ∃ w',
  loadConfigAndGenerate show (λ _, None) (rev (configFiles "ha" "" false)) false "ha" "" ha_world = (None, w')
  ∧ files w' !! ["run"; "10-native-ha-keystore.ini"] = Some (File "k:mq0:Yes:ha").
Proof.
  destruct (ha_files show (λ _, None) false "ha" "" false (rev (configFiles "ha" "" false)) ha_world) as (w' & E & Hg & _).
  - symmetry. apply Permutation_rev.
  - intros c Hc. cbn in Hc. apply elem_of_cons in Hc as [->|Hc%list_elem_of_singleton]; [|subst c];
      (split; [vm_compute; reflexivity|]); eexists; (split; [vm_compute; reflexivity|done]).
  - vm_compute. reflexivity.
  - exists w'. split; [exact E|].
    apply (Hg ("/run/10-native-ha-keystore.ini", "/etc/mqm/10-native-ha-keystore.ini.tpl") "k"); [|vm_compute; reflexivity].
    cbn. by left.
Defined.

End Ha.
