(* ===== verification/Web.v ===== *)
(** * The web server (cmd/runmqserver/webserver.go, post_init.go)

    Its configuration, copied from the image, and its start. *)
From S2P Require Import Prelude Utf8 GoStrings Paths Os Support Keystore Tls Startup.
Import Tls.

Open Scope Z_scope.

Module Web.

Definition prefix : string := "/etc/mqm/web".

Section web.
Context `{OS} `{Crypto}.
Context (execute : string → list (string * string) → string * option error) (parse : string → option error).

(** [os.Symlink]: the new name must not exist. *)
Definition Symlink (from to : string) : M (option error) :=
  let p := norm to in
  err_of <$> guarded "symlink" p (λ w,
    match files w !! p with
    | Some _ => (Err (PathError "symlink" (from +:+ " " +:+ to) EEXIST), w)
    | None =>
        if has_parent w p then (Ok tt, set_files (<[p := Link from]> (files w)) w)
        else (Err (PathError "symlink" (from +:+ " " +:+ to) ENOENT), w)
    end).

Definition runWebServer : M (option error) :=
  _ ← log INFO "Starting web server";
  '(out, rc, err) ← exec "strmqweb" [];
  match err with
  | Some e => _ ← log INFO ("Error " +:+ Itoa rc +:+ " starting web server: " +:+ out); mret (Some e)
  | None => _ ← log INFO "Started web server"; mret None
  end.

(** An error other than a missing program is not looked at. *)
Definition startWebServer : M (option error) :=
  s ← Stat "/opt/mqm/bin/strmqweb";
  if match s with Err e => IsNotExist e | Ok _ => false end
  then _ ← log DEBUG "Skipping web server, because it's not installed"; mret None
  else runWebServer.

(** The place of a file of the image in the volume. *)
Definition target (from : string) : string := "/var/mqm/web" +:+ drop_bytes (String.length prefix) from.

(** One file or directory of the walk; [dir] says which. *)
Definition installWebFile (from : string) (dir : bool) : M (option error) :=
  let to := target from in
  s ← Stat to;
  match (match s with Ok _ => Ok true | Err e => if IsNotExist e then Ok false else Err e end) with
  | Err e => mret (Some e)
  | Ok exists_ =>
      if dir then if exists_ : bool then mret None else MkdirAll to
      else
        try (if exists_ : bool then Remove to else mret None) ;;
        if HasSuffix from "/mqwebuser.xml" then
          e ← Symlink from to;
          match e with Some e => _ ← log ERROR (Error_ e); mret (Some e) | None => mret None end
        else
          e ← Files.CopyFile from to;
          match e with Some e => _ ← log ERROR (Error_ e); mret (Some e) | None => mret None end
  end.

(** [filepath.Walk]: a directory before its entries, which are in the order of their
    names; the first error ends the walk.  The fuel bounds the depth. *)
Fixpoint walk (fuel : nat) (path : string) : M (option error) :=
  match fuel with
  | O => mret None
  | S fuel =>
      dir ← Volume.isDir path;
      if negb dir then installWebFile path false else
      l ← ReadDir path;
      match l with
      | Err e => mret (Some e)
      | Ok names =>
          try installWebFile path true ;;
          each_err (λ name, walk fuel (JoinPath [path; name])) names
      end
  end.

Definition ignore_missing (m : M (res node)) (k : M (option error)) : M (option error) :=
  s ← m;
  match s with
  | Err e => mret (if IsNotExist e then None else Some e)
  | Ok _ => k
  end.

Definition installWebConfig : M (option error) :=
  d ← gets Volume.depth;
  walk (S d) prefix.

(** [None] when the truststore is the nil pointer. *)
Definition configureWebServer (fips : bool) (keyLabel : string) (p12Truststore : KeyStoreData) : M (option (option error)) :=
  c ← Files.CopyFile "/opt/mqm/samp/web/server.xml" "/var/mqm/web/installations/Installation1/servers/mqweb/server.xml";
  match c with
  | Some e => _ ← log ERROR (Error_ e); mret (Some (Some e))
  | None =>
      gen ← Getenv "MQ_GENERATE_CERTIFICATE_HOSTNAME";
      ks ← (if negb (keyLabel =s "") || negb (gen =s "")
            then ConfigureWebKeystore fips p12Truststore keyLabel
            else mret (Some (Ok "")));
      match ks with
      | None => mret None
      | Some (Err e) => mret (Some (Some e))
      | Some (Ok webKeystore) =>
          Some <$>
          (try ConfigureWebTLS execute parse keyLabel webKeystore p12Truststore ;;
           ignore_missing (Stat "/opt/mqm/bin/strmqweb")
             (ignore_missing (Stat "/etc/mqm/web") installWebConfig))
      end
  end.

Definition configureFIPSWebServer : M (option error) :=
  Files.ProcessTemplateFile execute parse
    "/etc/mqm/web/installations/Installation1/servers/mqweb/configDropins/defaults/jvm.options.tpl" "/run/jvm.options"
    [("FipsProvider", "true"); ("FipsProviderName", "IBMJCEPlusFIPS")].

(** cmd/runmqserver/post_init.go: the web server itself is started in a goroutine, [startWebServer]. *)
Definition enabled (v : string) : bool := (v =s "true") || (v =s "1").

Definition postInit (fips : bool) (keyLabel : string) (p12Truststore : KeyStoreData) : M (option (option error)) :=
  enableWebServer ← Getenv "MQ_ENABLE_EMBEDDED_WEB_SERVER";
  if enabled enableWebServer then
    e ← (if fips then configureFIPSWebServer else mret None);
    match e with
    | Some e => mret (Some (Some e))
    | None => configureWebServer fips keyLabel p12Truststore
    end
  else mret (Some None).

End web.

(** ** What the installation leaves *)

Definition imageDir : list string := ["etc"; "mqm"; "web"].
Definition volumeDir : list string := ["var"; "mqm"; "web"].

Lemma target_abs x : target (abs_path (imageDir ++ x)) = abs_path (volumeDir ++ x).
Proof. destruct x as [|c x]; [done|]. unfold target, abs_path. by rewrite !Volume.Join_app. Qed.

(** All directories on the way to a path exist. *)
Definition has_dirs (f : gmap (list string) node) (p : list string) : Prop :=
  ∀ a, a `prefix_of` p → a ≠ p → a ≠ [] → f !! a = Some Directory.

Lemma has_dirs_parent w a c : a ≠ [] → has_dirs (files w) (a ++ [c]) → has_parent w (a ++ [c]) = true.
Proof.
  intros Ha Hd. unfold has_parent. rewrite rev_app_distr. cbn [rev app]. rewrite rev_involutive.
  destruct a as [|b a]; [done|]. apply bool_decide_eq_true, Hd; [by apply prefix_app_r| |done].
  intros E. rewrite <- (app_nil_r (b :: a)) in E at 1. by apply (inj ((b :: a) ++.)) in E.
Qed.

Lemma prefix_snoc (a b : list string) c : b `prefix_of` a ++ [c] → b `prefix_of` a ∨ b = a ++ [c].
Proof.
  intros [r Hr]. destruct r as [|d r _] using rev_ind; [right; by rewrite app_nil_r in Hr|left].
  rewrite app_assoc in Hr. apply app_inj_tail in Hr as [-> _]. by exists r.
Qed.

Lemma has_dirs_snoc f a c : has_dirs f a → f !! a = Some Directory → has_dirs f (a ++ [c]).
Proof.
  intros Hd Ha b Hb Hne Hnn. apply prefix_snoc in Hb as [Hb|]; [|done].
  destruct (decide (b = a)) as [->|]; auto.
Qed.

Lemma ancestors_snoc p c : ancestors (p ++ [c]) = ancestors p ++ [p ++ [c]].
Proof. induction p as [|d p IH]; [done|]. cbn [app ancestors]. rewrite IH, map_app. done. Qed.

Lemma ancestors_prefix p d : d ∈ ancestors p → d `prefix_of` p ∧ d ≠ [].
Proof.
  revert d. induction p as [|c p IH]; intros d; cbn [ancestors]; [by intros ?%not_elem_of_nil|].
  intros [->|(e & -> & He)%list_elem_of_fmap]%elem_of_cons; [split; [by apply prefix_cons, prefix_nil|done]|].
  apply IH in He as [He _]. split; [by apply prefix_cons|done].
Qed.

Lemma mkdirs_done op path ds k w : Forall (λ d, files w !! d = Some Directory) ds →
  mkdirs op path (ds ++ k) w = mkdirs op path k w.
Proof. intros Hd. induction Hd as [|d ds Hd _ IH]; [done|]. cbn [app mkdirs]. by rewrite Hd. Qed.

(** The entry of the volume for an entry of the image: a file that may hold a secret is a link. *)
Definition installed (x : list string) (n : node) : node :=
  match n with
  | File d => if HasSuffix (abs_path (imageDir ++ x)) "/mqwebuser.xml" then Link (abs_path (imageDir ++ x)) else File d
  | _ => n
  end.

(** The image is a tree of files and directories, and what the volume has is of the same
    kind: an old link of the volume leads into the image. *)
Record fits (f : gmap (list string) node) : Prop := {
  image_plain x n : f !! (imageDir ++ x) = Some n → Forall (λ c, plain c = true) x ∧ ∀ t, n ≠ Link t;
  image_tree x c n : f !! (imageDir ++ x ++ [c]) = Some n → f !! (imageDir ++ x) = Some Directory;
  volume_dir x n : f !! (imageDir ++ x) = Some Directory → f !! (volumeDir ++ x) = Some n → n = Directory;
  volume_file x d n : f !! (imageDir ++ x) = Some (File d) → f !! (volumeDir ++ x) = Some n →
    n ≠ Directory ∧ ∀ t, n = Link t → ∃ y, norm t = imageDir ++ y ∧ is_Some (f !! (imageDir ++ y)) }.

(** The entries of the image that satisfy [K] are installed, and nothing else is changed. *)
Definition volume_path (p : list string) : option (list string) :=
  if below volumeDir p then Some (drop 3 p) else None.

Definition installs (K : list string → bool) (f g : gmap (list string) node) : Prop :=
  ∀ p, g !! p = match (x ← volume_path p; if K x then installed x <$> f !! (imageDir ++ x) else None) with
                | Some n => Some n | None => f !! p end.

Lemma volume_path_app x : volume_path (volumeDir ++ x) = Some x.
Proof. unfold volume_path. by rewrite (proj2 (Volume.below_spec _ _)) by by apply prefix_app_r. Qed.

Lemma volume_path_image x : volume_path (imageDir ++ x) = None.
Proof.
  unfold volume_path. destruct (below _ _) eqn:E; [|done]. apply Volume.below_spec in E as [r [=]].
Qed.

Lemma volume_path_some p x : volume_path p = Some x → p = volumeDir ++ x.
Proof.
  unfold volume_path. destruct (below _ _) eqn:E; [|done]. apply Volume.below_spec in E as [r ->]. intros [= <-]. done.
Qed.

Lemma installs_image K f g x : installs K f g → g !! (imageDir ++ x) = f !! (imageDir ++ x).
Proof. intros Hi. by rewrite Hi, volume_path_image. Qed.

Lemma installs_volume K f g x : installs K f g → g !! (volumeDir ++ x) =
  match (if K x then installed x <$> f !! (imageDir ++ x) else None) with Some n => Some n | None => f !! (volumeDir ++ x) end.
Proof. intros Hi. by rewrite Hi, volume_path_app. Qed.

Lemma installs_ext K K' f g : (∀ x, is_Some (f !! (imageDir ++ x)) → K x = K' x) → installs K f g → installs K' f g.
Proof.
  intros HK Hi p. rewrite Hi. destruct (volume_path p) as [x|]; [|done]. cbn [mbind option_bind].
  destruct (f !! (imageDir ++ x)) as [n|] eqn:E; [by rewrite HK|by destruct (K x), (K' x)].
Qed.

Lemma installs_trans K K' f g h : installs K f g → installs K' g h → installs (λ x, K x || K' x) f h.
Proof.
  intros Hg Hh p. rewrite Hh. destruct (volume_path p) as [x|] eqn:E; cbn [mbind option_bind]; [|by rewrite Hg, E].
  rewrite (installs_image K f g) by done. apply volume_path_some in E as ->. rewrite (installs_volume K f g) by done.
  destruct (f !! (imageDir ++ x)) as [n|]; by destruct (K x), (K' x).
Qed.

Lemma installs_one x n f : f !! (imageDir ++ x) = Some n →
  installs (λ y, bool_decide (y = x)) f (<[volumeDir ++ x := installed x n]> f).
Proof.
  intros Hn p. destruct (volume_path p) as [y|] eqn:E; cbn [mbind option_bind].
  - apply volume_path_some in E as ->. destruct (decide (y = x)) as [->|Hne].
    + by rewrite lookup_insert_eq, bool_decide_true, Hn by done.
    + rewrite bool_decide_false by done. by rewrite lookup_insert_ne by (intros ?%(inj (volumeDir ++.)); congruence).
  - rewrite lookup_insert_ne; [done|]. intros <-. by rewrite volume_path_app in E.
Qed.

(** An old link of the volume leads into the image, as a new one does. *)
Lemma installed_fits K f g : fits f → installs K f g → fits g.
Proof.
  intros Hf Hi. split.
  - intros x n. rewrite (installs_image K f g) by done. apply (image_plain f Hf).
  - intros x c n. rewrite !(installs_image K f g) by done. apply (image_tree f Hf).
  - intros x n. rewrite (installs_image K f g), (installs_volume K f g) by done. intros Hx.
    rewrite Hx. destruct (K x); [by intros [= <-]|]. by apply (volume_dir f Hf).
  - intros x d n. rewrite (installs_image K f g), (installs_volume K f g) by done. intros Hx. rewrite Hx.
    destruct (K x); cbn [fmap option_fmap option_map installed].
    + intros [= <-]. destruct (HasSuffix _ _); [|done]. split; [done|]. intros t [= <-]. exists x.
      split; [|by rewrite (installs_image K f g), Hx]. apply norm_abs, Forall_app. split; [by repeat constructor|].
      by apply (image_plain f Hf) in Hx as [? _].
    + intros Hn. destruct (volume_file f Hf x d n Hx Hn) as [Hd Hl]. split; [done|]. intros t Ht.
      destruct (Hl t Ht) as (y & ? & ?). exists y. by rewrite (installs_image K f g).
Qed.

Section laws.
Context `{Faultless}.

Lemma MkdirAll_last p c w : Forall (λ c, plain c = true) (p ++ [c]) → has_dirs (files w) (p ++ [c]) →
  files w !! (p ++ [c]) = None →
  MkdirAll (abs_path (p ++ [c])) w = (None, set_files (<[p ++ [c] := Directory]> (files w)) w).
Proof.
  intros Hp Hd Hn. unfold MkdirAll. rewrite fmap_run, guarded_ok, norm_abs by done.
  rewrite ancestors_snoc, mkdirs_done.
  - cbn [mkdirs]. by rewrite Hn.
  - apply Forall_forall. intros d [Hpre Hne]%ancestors_prefix. apply Hd; [by apply prefix_app_r| |done].
    intros ->. apply prefix_length in Hpre. rewrite length_app in Hpre. simpl in Hpre. lia.
Qed.

(** A path below the image is not a system path. *)
Lemma image_source x : Forall (λ c, plain c = true) x → CheckFileSource getwd (abs_path (imageDir ++ x)) = None.
Proof.
  intros Hx. unfold CheckFileSource, Abs. rewrite IsAbs_abs, Clean_abs by apply IsAbs_abs.
  rewrite norm_abs by (apply Forall_app; by repeat constructor).
  assert (∃ rest, abs_path (imageDir ++ x) = String "/" (String "e" rest)) as [rest ->] by by destruct x; eexists.
  vm_compute. reflexivity.
Qed.

Lemma Stat_follows w p n : Forall (λ c, plain c = true) p → follow w p = Some n → Stat (abs_path p) w = (Ok n, w).
Proof. intros Hp Hn. unfold Stat. by rewrite guarded_ok, norm_abs, Hn by done. Qed.

Lemma ReadDir_ok path w : files w !! norm path = Some Directory → ReadDir path w = (Ok (children (files w) (norm path)), w).
Proof. intros Hn. unfold ReadDir. rewrite guarded_ok. unfold follow. by rewrite Hn. Qed.

(** The entry of the volume is made where there is none. *)
Lemma install_new x d w : Forall (λ c, plain c = true) x → files w !! (imageDir ++ x) = Some (File d) →
  files w !! (volumeDir ++ x) = None → has_parent w (volumeDir ++ x) = true →
  (if HasSuffix (abs_path (imageDir ++ x)) "/mqwebuser.xml"
   then Symlink (abs_path (imageDir ++ x)) (abs_path (volumeDir ++ x))
   else Files.CopyFile (abs_path (imageDir ++ x)) (abs_path (volumeDir ++ x))) w
  = (None, set_files (<[volumeDir ++ x := installed x (File d)]> (files w)) w).
Proof.
  intros Hx Hs Hn Hp. assert (∀ r, Forall (λ c, plain c = true) r → Forall (λ c, plain c = true) (r ++ x)) as Hpl
    by (intros r ?; by apply Forall_app).
  assert (norm (abs_path (volumeDir ++ x)) = volumeDir ++ x) as Hnv by by apply norm_abs, Hpl; repeat constructor.
  assert (norm (abs_path (imageDir ++ x)) = imageDir ++ x) as Hni by by apply norm_abs, Hpl; repeat constructor.
  unfold installed. destruct (HasSuffix _ _).
  - unfold Symlink. by rewrite guarded_ok, fmap_run, Hnv, Hn, Hp.
  - unfold Files.CopyFile, Files.CopyFileMode. rewrite image_source by done. rewrite bind_run.
    rewrite (Open_ok _ w (File d)) by (unfold follow; by rewrite Hni, Hs). cbn [fst snd]. rewrite bind_run, write_new; rewrite Hnv; [|done..].
    cbn [fst snd]. unfold overwrite. destruct (String.length d); by rewrite sapp_nil_r.
Qed.

(** The parent of an entry of the volume. *)
Lemma volume_snoc x : ∃ a c, volumeDir ++ x = a ++ [c] ∧ a ≠ [].
Proof.
  destruct x as [|c x _] using rev_ind; [by exists ["var"; "mqm"], "web"|]. exists (volumeDir ++ x), c. by rewrite app_assoc.
Qed.

Lemma installWebFile_run x n w : fits (files w) → files w !! (imageDir ++ x) = Some n → has_dirs (files w) (volumeDir ++ x) →
  installWebFile (abs_path (imageDir ++ x)) (bool_decide (n = Directory)) w
  = (None, set_files (<[volumeDir ++ x := installed x n]> (files w)) w).
Proof.
  intros Hf Hn Hd. destruct (image_plain _ Hf x n Hn) as [Hx Hl].
  assert (Forall (λ c, plain c = true) (volumeDir ++ x)) as Hpv by (apply Forall_app; by repeat constructor).
  destruct (volume_snoc x) as (a & c & Ev & Ha). unfold installWebFile. rewrite target_abs, bind_run. destruct n as [d| |t]; [|..|by destruct (Hl t)].
  - rewrite bool_decide_false by done.
    assert (has_parent w (volumeDir ++ x) = true) as Hp by (rewrite Ev in Hd |- *; by apply has_dirs_parent).
    destruct (files w !! (volumeDir ++ x)) as [n|] eqn:E.
    + destruct (volume_file _ Hf x d n Hn E) as [Hnd Hlk].
      assert (∃ n', follow w (volumeDir ++ x) = Some n') as [n' Hfo].
      { unfold follow. rewrite E. destruct n as [| |t]; [eauto..|]. destruct (Hlk t) as (y & -> & [n' ?]); eauto. }
      rewrite (Stat_follows _ _ n') by done. cbn [fst snd]. rewrite check_run.
      rewrite (Remove_ok _ _ n) by (by rewrite norm_abs). cbn [fst snd]. rewrite norm_abs by done.
      set (w1 := set_files (delete (volumeDir ++ x) (files w)) w).
      assert (files w1 !! (imageDir ++ x) = Some (File d)) as Hn1 by (unfold w1; cbn [files set_files]; by rewrite lookup_delete_ne).
      assert (has_parent w1 (volumeDir ++ x) = true) as Hp1.
      { eapply has_parent_dirs, Hp. apply keeps_dirs_delete. by rewrite E; intros [= ?]. }
      pose proof (install_new x d w1 Hx Hn1 (lookup_delete_eq _ _) Hp1) as Hi. subst w1. cbn [files set_files] in Hi.
      rewrite insert_delete_eq in Hi. rewrite set_files_set in Hi.
      by destruct (HasSuffix _ _); rewrite bind_run, Hi.
    + rewrite Stat_missing by (by rewrite norm_abs). cbn [fst snd IsNotExist]. rewrite check_run. cbn [mret M_ret fst snd].
      pose proof (install_new x d w Hx Hn E Hp) as Hi. by destruct (HasSuffix _ _); rewrite bind_run, Hi.
  - rewrite bool_decide_true by done. cbn [installed]. destruct (files w !! (volumeDir ++ x)) as [n|] eqn:E.
    + rewrite (volume_dir _ Hf x n Hn E) in E. rewrite (Stat_follows _ _ Directory); [|done|unfold follow; by rewrite E].
      cbn [fst snd]. rewrite insert_id, set_files_id by done. done.
    + rewrite Stat_missing by (by rewrite norm_abs). cbn [fst snd IsNotExist]. rewrite Ev in *. by apply MkdirAll_last.
Qed.

(** The walk below an entry of the image. *)
Definition walked (x : list string) (m : M (option error)) (w : world) : Prop :=
  ∃ g, m w = (None, set_files g w) ∧ installs (λ y, below x y) (files w) g ∧ fits g.

Lemma image_child f x c r n : fits f → f !! (imageDir ++ x ++ c :: r) = Some n →
  is_Some (f !! (imageDir ++ x ++ [c])) ∧ f !! (imageDir ++ x) = Some Directory ∧ plain c = true.
Proof.
  intros Hf. revert n. induction r as [|e r IH] using rev_ind; intros n Hn.
  - split; [by rewrite Hn|]. split; [by apply (image_tree _ Hf) in Hn|].
    apply (image_plain _ Hf) in Hn as [Hp _]. by apply Forall_app in Hp as [_ Hp%Forall_inv].
  - change (x ++ c :: r ++ [e]) with (x ++ (c :: r) ++ [e]) in Hn. rewrite (app_assoc x) in Hn.
    apply (image_tree _ Hf) in Hn. by eapply IH.
Qed.

(** What is below an entry: itself, and what is below its children. *)
Lemma below_children f x y : fits f → is_Some (f !! (imageDir ++ y)) →
  bool_decide (y = x) || existsb (λ c, below (x ++ [c]) y) (children f (imageDir ++ x)) = below x y.
Proof.
  intros Hf [n Hy]. apply eq_true_iff_eq. rewrite orb_true_iff, bool_decide_eq_true, existsb_exists, Volume.below_spec. split.
  - intros [->|(c & _ & Hb%Volume.below_spec)]; [done|]. etrans; [|exact Hb]. by apply prefix_app_r.
  - intros [[|c r] ->]; [left; by rewrite app_nil_r|right]. exists c. rewrite Volume.below_spec.
    destruct (image_child _ _ _ _ _ Hf Hy) as (Hc & _ & Hp). split; [|exists r; by rewrite <- app_assoc].
    apply list_elem_of_In, Volume.children_spec. by rewrite <- app_assoc.
Qed.

(** A file has nothing below it. *)
Lemma below_file f x d y : fits f → f !! (imageDir ++ x) = Some (File d) → is_Some (f !! (imageDir ++ y)) →
  bool_decide (y = x) = below x y.
Proof.
  intros Hf Hx [n Hy]. apply eq_true_iff_eq. rewrite bool_decide_eq_true, Volume.below_spec. split; [by intros ->|].
  intros [[|c r] ->]; [by rewrite app_nil_r|]. apply (image_child _ _ _ _ _ Hf) in Hy as (_ & Hd & _). congruence.
Qed.

(** The way to an entry of the volume is not changed by what is installed below the entry. *)
Lemma installs_way x c f g a : installs (λ y, below (x ++ [c]) y) f g → a `prefix_of` volumeDir ++ x → g !! a = f !! a.
Proof.
  intros Hg Ha. rewrite Hg. destruct (volume_path a) as [y|] eqn:Ey; [|done]. apply volume_path_some in Ey as ->.
  cbn [mbind option_bind]. destruct (below (x ++ [c]) y) eqn:Eb; [|done]. apply Volume.below_spec in Eb as [r ->].
  apply prefix_length in Ha. rewrite !length_app in Ha. simpl in Ha. lia.
Qed.

(** Where the walk starts: the entry exists, its place can be made, and the fuel is enough. *)
Definition walkable (fuel : nat) (x : list string) (n : node) (f : gmap (list string) node) : Prop :=
  fits f ∧ f !! (imageDir ++ x) = Some n ∧ has_dirs f (volumeDir ++ x)
  ∧ ∀ y, is_Some (f !! (imageDir ++ y)) → (length y < length x + fuel)%nat.

Lemma walk_entries fuel x : Forall (λ c, plain c = true) (imageDir ++ x) →
  (∀ y n w, walkable fuel y n (files w) → walked y (walk fuel (abs_path (imageDir ++ y))) w) →
  ∀ l w, (∀ c, c ∈ l → is_Some (files w !! (imageDir ++ x ++ [c]))) → walkable (S fuel) x Directory (files w) →
  files w !! (volumeDir ++ x) = Some Directory →
  ∃ g, each_err (λ name, walk fuel (JoinPath [abs_path (imageDir ++ x); name])) l w = (None, set_files g w)
    ∧ installs (λ y, existsb (λ c, below (x ++ [c]) y) l) (files w) g ∧ fits g.
Proof.
  intros Hpi Hwalk. induction l as [|c l IH]; intros w Hin (Hf & Hn & Hd & Hfu) Hvd; cbn [each_err existsb].
  { exists (files w). rewrite set_files_id. split; [done|]. split; [|done]. intros p. by destruct (volume_path p). }
  destruct (Hin c (list_elem_of_here _ _)) as [m Hm]. destruct (image_plain _ Hf _ _ Hm) as [Hpc _].
  apply Forall_app in Hpc as [_ Hpc%Forall_inv]. rewrite check_run, Volume.JoinPath_child, <- (app_assoc imageDir) by done.
  destruct (Hwalk (x ++ [c]) m w) as (g1 & -> & Hg1 & Hfg1).
  { split_and!; [done..| |].
    - rewrite app_assoc. by apply has_dirs_snoc.
    - intros y Hy. specialize (Hfu y Hy). rewrite length_app. simpl. lia. }
  pose proof (λ a, installs_way x c _ _ a Hg1) as Hway. cbn [fst snd].
  destruct (IH (set_files g1 w)) as (g & -> & Hg & Hfg); cbn [files set_files].
  - intros e He. rewrite (installs_image _ _ _ _ Hg1). apply Hin. by right.
  - split_and!; [done|by rewrite (installs_image _ _ _ _ Hg1)| |].
    + intros a Ha Hne Hnn. rewrite Hway by done. by apply Hd.
    + intros y. rewrite (installs_image _ _ _ _ Hg1). apply Hfu.
  - by rewrite Hway.
  - exists g. rewrite set_files_set. split; [done|]. split; [|done]. by eapply installs_trans.
Qed.

Lemma walk_installs fuel x n w : walkable fuel x n (files w) → walked x (walk fuel (abs_path (imageDir ++ x))) w.
Proof.
  revert x n w. induction fuel as [|fuel IH]; intros x n w (Hf & Hn & Hd & Hfuel).
  { specialize (Hfuel x ltac:(by rewrite Hn)). lia. }
  destruct (image_plain _ Hf x n Hn) as [Hx Hl].
  assert (Forall (λ c, plain c = true) (imageDir ++ x)) as Hpi by (apply Forall_app; by repeat constructor).
  cbn [walk]. unfold walked. rewrite bind_run. unfold Volume.isDir, gets. cbn [fst snd]. rewrite norm_abs, Hn by done.
  pose proof (installWebFile_run x n w Hf Hn Hd) as Hi. pose proof (installs_one x n (files w) Hn) as Hone.
  set (f1 := <[volumeDir ++ x := installed x n]> (files w)) in *.
  destruct n as [d| |t]; [rewrite bool_decide_false in Hi |- * by done|rewrite bool_decide_true in Hi |- * by done|by destruct (Hl t)]; cbn [negb].
  { exists f1. split; [exact Hi|]. split; [|by eapply installed_fits].
    eapply installs_ext, Hone. intros y. by apply (below_file _ _ d). }
  rewrite bind_run, ReadDir_ok by (by rewrite norm_abs).
  rewrite norm_abs by done. cbn [fst snd]. rewrite check_run, Hi. cbn [fst snd].
  destruct (walk_entries fuel x Hpi IH (children (files w) (imageDir ++ x)) (set_files f1 w)) as (g & E & Hg & Hfg); cbn [files set_files].
  - intros c [_ Hc]%Volume.children_spec. rewrite (installs_image _ _ _ _ Hone). by rewrite app_assoc.
  - split_and!; [by eapply installed_fits|by rewrite (installs_image _ _ _ _ Hone)| |].
    + intros a Ha Hne Hnn. unfold f1. rewrite lookup_insert_ne by done. by apply Hd.
    + intros y. rewrite (installs_image _ _ _ _ Hone). apply Hfuel.
  - unfold f1. by rewrite lookup_insert_eq.
  - exists g. rewrite set_files_set in E. split; [exact E|]. split; [|done].
    eapply installs_ext, (installs_trans _ _ _ _ _ Hone Hg). intros y Hy. by apply below_children.
Qed.

(** The whole tree, from a volume that has the directory of MQ. *)
Lemma install_run w : fits (files w) → files w !! imageDir = Some Directory → files w !! ["var"] = Some Directory →
  files w !! ["var"; "mqm"] = Some Directory →
  ∃ g, installWebConfig w = (None, set_files g w) ∧ installs (λ _, true) (files w) g ∧ fits g.
Proof.
  intros Hf Hi Hv Hm. unfold installWebConfig. destruct (walk_installs (S (Volume.depth w)) [] Directory w) as (g & E & Hg & Hfg).
  - split_and!; [done|exact Hi| |].
    + intros a [r Hr] Hne Hnn. destruct a as [|? [|? [|? [|? ?]]]]; simplify_eq/=; done.
    + intros y Hy. pose proof (Volume.depth_bound w _ Hy) as Hb. rewrite length_app in Hb. simpl in Hb |- *. lia.
  - exists g. rewrite bind_run. unfold gets. cbn [fst snd]. split; [exact E|]. split; [|done].
    eapply installs_ext, Hg. intros y _. cbn beta. apply Volume.below_spec, prefix_nil.
Qed.


End laws.

(** The condition, as a test of each entry of the image. *)
Definition entry_ok (f : gmap (list string) node) (x : list string) (n : node) : bool :=
  forallb plain x && match n with Link _ => false | _ => true end
  && match rev x with [] => true | _ :: r => bool_decide (f !! (imageDir ++ rev r) = Some Directory) end
  && match n, f !! (volumeDir ++ x) with
     | Directory, Some n => bool_decide (n = Directory)
     | File _, Some Directory => false
     | File _, Some (Link t) => below imageDir (norm t) && bool_decide (is_Some (f !! norm t))
     | _, _ => true
     end.

Definition fits_ok (f : gmap (list string) node) : bool :=
  forallb (λ e, if below imageDir e.1 then entry_ok f (drop 3 e.1) e.2 else true) (map_to_list f).

Lemma fits_ok_spec f : fits_ok f = true → fits f.
Proof.
  intros Hok. unfold fits_ok in Hok. rewrite forallb_forall in Hok.
  assert (∀ x n, f !! (imageDir ++ x) = Some n → entry_ok f x n = true) as Hall.
  { intros x n Hx. specialize (Hok (imageDir ++ x, n)). cbn [fst snd] in Hok.
    rewrite (proj2 (Volume.below_spec _ _)) in Hok by by apply prefix_app_r. change (drop 3 (imageDir ++ x)) with x in Hok.
    exact (Hok (proj1 (list_elem_of_In _ _) (proj2 (elem_of_map_to_list _ _ _) Hx))). }
  unfold entry_ok in Hall. split.
  - intros x n Hx%Hall. breflect. split; [|intros t ->; done].
    apply Forall_forall. intros c Hc. match goal with H : forallb _ _ = true |- _ => rewrite forallb_forall in H; by apply H, list_elem_of_In end.
  - intros x c n Hx%Hall. breflect. rewrite rev_app_distr in *. cbn [rev app] in *. breflect. by rewrite rev_involutive in *.
  - intros x n Hx%Hall Hn. breflect. rewrite Hn in *. by breflect.
  - intros x d n Hx%Hall Hn. breflect. rewrite Hn in *. destruct n as [| |t]; [done..|]. split; [done|].
    intros t' [= <-]. breflect. match goal with H : below _ _ = true |- _ => apply Volume.below_spec in H as [y Hy] end.
    exists y. rewrite Hy in *. done.
Qed.

Definition web_world : world := world_of []
  [("/etc/mqm/web", Directory); ("/etc/mqm/web/servers", Directory); ("/etc/mqm/web/servers/mqwebuser.xml", File "<secret/>");
   ("/etc/mqm/web/servers/a.xml", File "new"); ("/var", Directory); ("/var/mqm", Directory); ("/var/mqm/web", Directory);
   ("/var/mqm/web/servers", Directory); ("/var/mqm/web/servers/a.xml", File "older and longer"); ("/var/mqm/web/own", File "kept")].


End Web.
