(* ===== verification/Main.v ===== *)
(** * The program runmqserver (cmd/runmqserver/main.go, and the log mirrors of logging.go)

    The order of the start: checks, volumes, configuration, queue manager, ready signal.
    The signal handler (Signals.v), the log mirrors (Mirror.v), the web server and the metrics run
    in goroutines of their own; here they are started. *)
From S2P Require Import Prelude Utf8 GoStrings Paths Os MqIni Ready Json Diagnostics ConsoleLog Support Keystore Tls Startup Runtime Qmgr Ha Web.
Import Tls.

Open Scope Z_scope.

Module Main.

(** ** Outcomes *)

(** [doMain] returns its error, or a run-time panic ends the process. *)
Inductive exit := Returned (e : option error) | Panicked.

Record flags := { initFlag : bool; infoFlag : bool; noLogRuntimeFlag : bool; devFlag : bool }.

(** What the template engine writes for a text and the data. *)
Class Templates := {
  execute_map : string → list (string * string) → string * option error;
  execute_ha : string → Ha.haConfig → string * option error;
  parse : string → option error }.

Section main.
Context `{OS} `{Runtime.Kernel} `{Crypto} `{Templates} `{Metadata}.
Context `{Qmgr.Rlimits} (executable : res string).

(** [if err != nil { logTermination(err); return err }], after [collectDiagOnFail] was set. *)
Definition terminate (e : error) : M exit := _ ← ConsoleLog.logTermination true (Error_ e); mret (Returned (Some e)).

Definition step (m : M (option error)) (k : M exit) : M exit :=
  e ← m; match e with Some e => terminate e | None => k end.

(** The same for a function that can panic. *)
Definition pstep (m : M (option (option error))) (k : M exit) : M exit :=
  e ← m;
  match e with
  | None => mret Panicked
  | Some (Some e) => terminate e
  | Some None => k
  end.

(** ** Log mirrors: the part of [mirrorLog] before its goroutine *)

Definition mirrorLog (path : string) : M (option error) :=
  s ← Stat path;
  match s with
  | Err e => mret (if IsNotExist e then None else Some e)
  | Ok _ => err_of <$> guarded "open" (norm path) (mret (Ok tt))
  end.

Definition mirrorSystemErrorLogs : M (option error) := mirrorLog "/var/mqm/errors/AMQERR01.json".

(** A log in the queue manager's directory of error logs. *)
Definition mirrorErrorLog (file name : string) : M (option (option error)) :=
  qm ← MqIni.GetQueueManager name;
  match qm with
  | None => mret None
  | Some (Err e) => _ ← log DEBUG (Error_ e); mret (Some (Some e))
  | Some (Ok qm) => Some <$> mirrorLog (JoinPath [MqIni.GetErrorLogDirectory qm; file])
  end.

Definition mirrorMQSCLogs : string → M (option (option error)) := mirrorErrorLog "autocfgmqsc.LOG".
Definition mirrorQueueManagerErrorLogs : string → M (option (option error)) := mirrorErrorLog "AMQERR01.json".
Definition mirrorMQSimpleAuthLogs : M (option error) := mirrorLog "/var/mqm/errors/simpleauth.json".
Definition mirrorWebServerLogs : M (option error) :=
  mirrorLog "/var/mqm/web/installations/Installation1/servers/mqweb/logs/messages.log".

(** ** The phases of the start *)

Definition when (b : bool) (m : M (option error)) : M (option error) := if b then m else mret None.
Definition pwhen (b : bool) (m : M (option (option error))) : M (option (option error)) := if b then m else mret (Some None).

Definition volumes : list string :=
  ["/mnt/mqm/data"; "/mnt/mqm/scratch"; "/mnt/mqm/tmp"; "/mnt/mqm-log/log"; "/mnt/mqm-data/qmgrs"].

Definition keptScratch : list string :=
  map (λ p, JoinPath ["/mnt/mqm/scratch"; p])
    ["secrets/kubernetes.io/serviceaccount"; "termination-log"; "MQInstanaTracing/userconfiginstana.ini";
     "10-dev.mqsc"; "20-dev-tls.mqsc"; "qm-service-component.ini"].

(** Make and clean the volumes. *)
Definition prepareVolumes : M (option error) :=
  try each_err Volume.createVolume volumes ;;
  try Volume.cleanVolume "/run/scratch" ;;
  try Volume.cleanVolume "/run/mqm" ;;
  cleanTmp ← Getenv "MQ_ENABLE_CLEAN_TMP_ON_START";
  try when (cleanTmp =s "true") (try Volume.cleanVolume "/tmp" ;; Volume.cleanVolume "/mnt/mqm/tmp") ;;
  _ ← Volume.cleanVolumeBestEffort "/mnt/mqm/scratch" keptScratch;
  try Volume.createVolume "/run/scratch/runmqserver" ;;
  Volume.createVolume "/run/mqm".

Definition nativeHAINIs : list string := ["10-native-ha.ini"; "10-native-ha-instance.ini"; "10-native-ha-keystore.ini"].

(** The files of the ephemeral volume. *)
Definition initialiseFiles (dev : bool) : M (option error) :=
  try WriteFile "/run/15-tls.mqsc" "" ;;
  try each_err (λ f, WriteFile (JoinPath ["/run"; f]) "") nativeHAINIs ;;
  mqdev ← Getenv "MQ_DEV";
  try Files.CopyFile
        (if dev && (mqdev =s "true")
         then "/etc/mqm/web/installations/Installation1/servers/mqweb/mqwebcontainer.xml.dev"
         else "/etc/mqm/web/installations/Installation1/servers/mqweb/mqwebcontainer.xml.default")
        "/run/mqwebcontainer.xml" ;;
  try Files.CopyFile "/etc/mqm/web/installations/Installation1/servers/mqweb/tls.xml.default" "/run/tls.xml" ;;
  Files.CopyFile "/etc/mqm/web/installations/Installation1/servers/mqweb/configDropins/defaults/jvm.options.default" "/run/jvm.options".

Definition traced (var : string) : M bool := v ← Getenv var; mret (Web.enabled v).

Definition createDirs : M (option error) :=
  trace ← traced "MQ_ENABLE_TRACE_CRTMQDIR";
  try when trace Qmgr.startMQTrace ;;
  try Qmgr.createDirStructure ;;
  when trace Qmgr.endMQTrace.

(** Certificates, the web server and native HA: from the version information on. *)
Definition configure (dev : bool) : M (option (option error)) :=
  _ ← Process.logVersionInfo;
  fipsType ← Fips.ProcessFIPSType true;
  let fips := Fips.IsFIPSEnabled fipsType in
  '(label, t) ← ConfigureDefaultTLSKeystores fips;
  match label with
  | Panic => mret None
  | Fail e => mret (Some (Some e))
  | Ret keyLabel =>
      err ← ConfigureTLS execute_map parse keyLabel (cms t) dev;
      match err with
      | Some e => mret (Some (Some e))
      | None =>
          valid ← ConsoleLog.isLogConsoleSourceValid;
          _ ← (if negb valid then
                 log INFO "One or more invalid value is provided for MQ_LOGGING_CONSOLE_SOURCE. Allowed values are 'qmgr','web' and 'mqsc' in csv format"
               else mret tt);
          web ← ConsoleLog.checkLogSourceForMirroring "web";
          err ← when web mirrorWebServerLogs;
          match err with
          | Some e => mret (Some (Some e))
          | None =>
              err ← Web.postInit execute_map parse fips keyLabel (p12 t);
              match err with
              | None => mret None
              | Some (Some e) => mret (Some (Some e))
              | Some None =>
                  nha ← Getenv "MQ_NATIVE_HA";
                  err ← pwhen (nha =s "true") (Ha.ConfigureNativeHA execute_ha parse fips);
                  match err with
                  | Some None => _ ← Fips.PostInit fipsType; mret (Some None)
                  | r => mret r
                  end
              end
          end
      end
  end.

(** ** [doMain] *)

(** After the queue manager was started: the log of its configuration, and the ready signal. *)
Definition afterStart (traceStart : bool) (name : string) : M exit :=
  mqsc ← ConsoleLog.checkLogSourceForMirroring "mqsc";
  pstep (pwhen mqsc (mirrorMQSCLogs name)) (
  step (when traceStart Qmgr.endMQTrace) (
  metrics ← traced "MQ_ENABLE_METRICS";
  _ ← (if metrics : bool then mret tt else log INFO "Metrics are disabled");
  step Ready.Set_ (mret (Returned None)))).

(** After it was created: its logs, the command level, and its start. *)
Definition afterCreate (traceCreate : bool) (name : string) (dev : bool) : M exit :=
  step (when traceCreate Qmgr.endMQTrace) (
  qmgr ← ConsoleLog.checkLogSourceForMirroring "qmgr";
  step (when qmgr mirrorSystemErrorLogs) (
  pstep (pwhen qmgr (mirrorQueueManagerErrorLogs name)) (
  auth ← SimpleAuth.IsEnabled;
  step (when (dev && auth) mirrorMQSimpleAuthLogs) (
  step Qmgr.updateCommandLevel (
  traceStart ← traced "MQ_ENABLE_TRACE_STRMQM";
  step (when traceStart Qmgr.startMQTrace) (
  auth ← SimpleAuth.IsEnabled;
  pstep (pwhen (dev && auth) (Qmgr.updateQMini name)) (
  step (Qmgr.startQueueManager name) (
  afterStart traceStart name)))))))).

(** After the configuration: create and start the queue manager, then signal that it is ready. *)
Definition startMQ (name : string) (dev : bool) : M exit :=
  traceCreate ← traced "MQ_ENABLE_TRACE_CRTMQM";
  step (when traceCreate Qmgr.startMQTrace) (
  newQM ← Qmgr.createQueueManager name dev;
  match newQM with
  | None => mret Panicked
  | Some (_, Some e) => terminate e
  | Some (_, None) => afterCreate traceCreate name dev
  end).

(** From the license on. *)
Definition afterLicense (f : flags) (name : string) : M exit :=
  _ ← log INFO ("Using queue manager name: " +:+ name);
  pstep (pwhen (negb (noLogRuntimeFlag f)) Runtime.LogContainerDetails) (
  step prepareVolumes (
  step (initialiseFiles (devFlag f)) (
  step createDirs (
  if initFlag f then mret (Returned None) else
  pstep (configure (devFlag f)) (
  startMQ name (devFlag f)))))).

(** Before [collectDiagOnFail] is set. *)
Definition refuse (msg : string) (e : error) : M exit := _ ← ConsoleLog.logTermination false msg; mret (Returned (Some e)).

(** The signals of an earlier run are cleared, and the license is checked. *)
Definition licensed (f : flags) (name : string) : M exit :=
  err ← Ready.Clear;
  match err with
  | Some e => refuse (Error_ e) e
  | None =>
      '(accepted, err) ← License.checkLicense;
      match err with
      | Some e => refuse ("Error checking license acceptance: " +:+ Error_ e) e
      | None =>
          if accepted : bool then afterLicense f name
          else refuse "License not accepted" (Errorf "License not accepted")
      end
  end.

(** A failed host name is returned as the nil error of the call before. *)
Definition checkedMain (f : flags) (name : res string) : M exit :=
  single ← Process.verifySingleProcess executable;
  match single with
  | Some e => _ ← log ERROR (Error_ e); mret (Returned (Some e))
  | None =>
      match name with
      | Err _ => _ ← ConsoleLog.logTermination false "<nil>"; mret (Returned None)
      | Ok name => licensed f name
      end
  end.

Definition showInfo : M exit :=
  _ ← Process.logVersionInfo;
  d ← Runtime.LogContainerDetails;
  match d with
  | None => mret Panicked
  | Some (Some e) => _ ← log INFO ("Error displaying container details: " +:+ Error_ e); mret (Returned None)
  | Some None => mret (Returned None)
  end.

(** The name is read before the logger is made.  A failed [configureLogger] leaves the logger nil, which
    [logTermination] then uses. *)
Definition namedMain (f : flags) : M exit :=
  name ← Name.GetQueueManagerName;
  mf ← ConsoleLog.configureLogger;
  match mf with
  | Err _ => mret Panicked
  | Ok _ => if infoFlag f then showInfo else checkedMain f name
  end.

(** The logger is still nil when the warning about the limit is logged. *)
Definition doMain (f : flags) : M exit :=
  err ← Qmgr.raiseFileLimit;
  match err with
  | Some _ => mret Panicked
  | None => namedMain f
  end.

(** The exit code of [main]. *)
Definition exit_status (e : exit) : Z :=
  match e with Returned None => 0 | Returned (Some _) => 1 | Panicked => 2 end.

(** The warning that the limit of open files cannot be raised ends the program. *)
Lemma soft_limit_panics f w e : env w !! "MQ_ENABLE_SOFT_FILE_LIMIT_INCREASE" = Some "true" →
  Qmgr.Getrlimit w = Err e → doMain f w = (Panicked, w).
Proof.
  intros He Hr. unfold doMain, Qmgr.raiseFileLimit, Qmgr.setNoFileSoftLimitEqualToHardLimit, Getenv, gets.
  rewrite !bind_run. cbn [fst snd]. rewrite He. change (default "" (Some "true") =s "true") with true. cbv iota.
  rewrite bind_run. unfold gets. cbn [fst snd]. by rewrite Hr.
Qed.

End main.
End Main.
