(* ===== verification/Dev.v ===== *)
(** * The program runmqdevserver (cmd/runmqdevserver)

    The developer image's first program: it prepares the developer's configuration and is then
    replaced by runmqserver. *)
From S2P Require Import Prelude Utf8 GoStrings Paths Os MqIni Json ConsoleLog Support Keystore Tls Runtime Ha Main.
Import Tls.

Open Scope Z_scope.

Module Dev.

Section dev.
Context `{OS} `{Runtime.Kernel} `{Crypto} `{Main.Templates}.

Definition getLogFormat : M string :=
  f ← Getenv "MQ_LOGGING_CONSOLE_FORMAT";
  let logFormat := ToLower (TrimSpace f) in
  logFormat ← (if logFormat =s "" then f ← Getenv "LOG_FORMAT"; mret (ToLower (TrimSpace f)) else mret logFormat);
  mret (if negb (logFormat =s "") && ((logFormat =s "basic") || (logFormat =s "json")) then logFormat else "basic").

Definition getDebug : M bool :=
  debug ← Getenv "DEBUG"; mret ((debug =s "true") || (debug =s "1")).

(** The error of the host name, in the name of the queue manager or in the new logger. *)
Definition configureLogger : M (option error) :=
  f ← getLogFormat;
  n ← Name.GetQueueManagerName;
  mret (match n with
        | Err e => Some e
        | Ok _ =>
            match hostname with
            | Err e => Some e
            | Ok _ => if (f =s "json") || (f =s "basic") then None
                      else Some (Errorf ("invalid value for LOG_FORMAT: " +:+ f))
            end
        end).

Definition logTermination (msg : string) : M unit :=
  _ ← log DEBUG ("Writing termination message: " +:+ msg);
  err ← WriteFile "/run/termination-log" msg;
  _ ← match err with Some e => log DEBUG (Error_ e) | None => mret tt end;
  log ERROR msg.

Definition updateMQSC (appPasswordRequired : bool) : M (option error) :=
  dev ← Getenv "MQ_DEV";
  if dev =s "true" then
    Files.ProcessTemplateFile Main.execute_map Main.parse "/etc/mqm/10-dev.mqsc.tpl" "/run/10-dev.mqsc"
      [("ChckClnt", if appPasswordRequired then "REQUIRED" else "ASQMGR")]
  else mret None.

(** A call whose error is written to the termination log and returned. *)
Definition step (m : M (option error)) (k : M Main.exit) : M Main.exit :=
  e ← m;
  match e with
  | Some e => _ ← logTermination (Error_ e); mret (Main.Returned (Some e))
  | None => k
  end.

Definition simpleAuth : M (option error) :=
  try Files.CopyFile "/etc/mqm/qm-service-component.ini.default" "/run/qm-service-component.ini" ;;
  SimpleAuth.CheckForPasswords.

(** Simple authentication, then the commands for the developer's objects. *)
Definition developerFiles : M Main.exit :=
  enableHtPwd ← LookupEnv "MQ_CONNAUTH_USE_HTP";
  step (match enableHtPwd with
        | Some v => if EqualFold v "true" then simpleAuth else mret None
        | None => mret None
        end) (
  err ← updateMQSC (bool_decide (is_Some enableHtPwd));
  match err with
  | Some e => _ ← logTermination ("Error updating MQSC: " +:+ Error_ e); mret (Main.Returned (Some e))
  | None => mret (Main.Returned None)
  end).

(** A failed [configureLogger] leaves the logger nil, which [logTermination] uses. *)
Definition doMain : M Main.exit :=
  c ← configureLogger;
  match c with
  | Some _ => mret Main.Panicked
  | None =>
      d ← Runtime.LogContainerDetails;
      match d with
      | None => mret Main.Panicked
      | Some d =>
          step (mret d) (
          step (WriteFile "/run/10-dev.mqsc" "") (
          step (WriteFile "/run/20-dev-tls.mqsc" "") (
          step (WriteFile "/run/qm-service-component.ini" "") (
          developerFiles))))
      end
  end.

(** What [main] does with the outcome: the exit code, or the process is replaced by
    runmqserver with these arguments ([syscall.Exec], which is [replace]). *)
Definition main (replace : list string → M (option error)) : M Z :=
  e ← doMain;
  match e with
  | Main.Returned None =>
      err ← replace ["runmqserver"; "-nologruntime"; "-dev"];
      _ ← match err with
          | Some e => log ERROR ("Error replacing this process with runmqserver: " +:+ Error_ e)
          | None => mret tt
          end;
      mret 0
  | e => mret (Main.exit_status e)
  end.

End dev.
End Dev.
