(* ===== verification/Lifecycle.v ===== *)
(** * The life of the container's main process (cmd/runmqserver/main.go: doMain from the call of signalHandler to its end)

    The main goroutine, the signal handler (Signals.v) and the log mirrors (Mirror.v) as one system.  The steps
    of the start are Main.v; here the start is an event, the outcome it has, and what follows is modelled step by
    step: the two jobs sent to the handler, the end of the startup, the ready signal, the wait for the handler,
    and the deferred calls, last first: the mirrors are cancelled, and waited for, and the startup is marked
    complete if it was not.  When [doMain] returns the process ends, and nothing happens any more. *)
From S2P Require Import Prelude Utf8 GoStrings Bufio Paths Os Signals Mirror MirrorEnd.

Module Lifecycle.

(** ** State *)

(** Where the main goroutine is; the result of [doMain] once it is known. *)
Inductive stage :=
| Starting                      (* the steps of Main.v *)
| Sending (j : Signals.job)     (* signalControl <- startReaping, then reapNow *)
| Marking                       (* markStartupComplete *)
| Signalling                    (* ready.Set *)
| Waiting                       (* <-signalControl *)
| Cancelling (r : option error) (* deferred: cancelMirror *)
| Joining (r : option error)    (* deferred: wg.Wait *)
| Finishing (r : option error)  (* deferred: markStartupComplete unless startupMarkedComplete *)
| Ended (r : option error).

Record state := State {
  main : stage;
  startupMarkedComplete : bool;
  handler : Signals.state;
  mirrors : list (string * Mirror.state) }.    (* each with the path of its file *)

(** When [signalHandler] has returned its channel. *)
Definition start (c : Signals.children) : state := State Starting false (Signals.start c) [].

(** ** Steps *)

(** How the steps of Main.v end: as far as the queue manager started, for the flag -i, or with an error. *)
Inductive outcome := Completed | Initialised | Failed (e : error).

Inductive event :=
| Handler (e : Signals.event)                 (* the handler, the stopper and the kernel *)
| Mirror (i : nat) (e : Mirror.event)         (* a mirror, and the process that writes its file *)
| StartMirror (name : string) (inodes : list string) (path : option nat) (fromStart : bool)
| StartupEnds (o : outcome)
| ReadySet (r : option error)
| MainStep.

(** What only the main goroutine does. *)
Definition of_main (e : Signals.event) : bool := match e with Signals.Send _ | Signals.StartupDone => true | _ => false end.
Definition is_cancel (e : Mirror.event) : bool := match e with Mirror.Cancel => true | _ => false end.

Definition cancelMirror (m : string * Mirror.state) : string * Mirror.state :=
  (m.1, default m.2 (Mirror.next m.1 Mirror.Cancel m.2)).

(** [wg.Wait] returns when every mirror has called [wg.Done]. *)
Definition all_done (ms : list (string * Mirror.state)) : bool := forallb (λ m, MirrorEnd.ended m.2) ms.

Definition set_main (l : stage) (s : state) : state := State l (startupMarkedComplete s) (handler s) (mirrors s).
Definition set_handler (h : Signals.state) (s : state) : state := State (main s) (startupMarkedComplete s) h (mirrors s).

Definition after_startup (o : outcome) : stage :=
  match o with
  | Completed => Sending Signals.startReaping
  | Initialised => Cancelling None
  | Failed e => Cancelling (Some e)
  end.
Definition after_send (j : Signals.job) : stage :=
  match j with Signals.startReaping => Sending Signals.reapNow | Signals.reapNow => Marking end.
Definition after_ready (r : option error) : stage := match r with None => Waiting | Some e => Cancelling (Some e) end.

(** The main goroutine after the startup; [None] where it waits. *)
Definition proceed (s : state) : option state :=
  match main s with
  | Sending j =>
      h ← Signals.next (Signals.Send j) (handler s);
      Some (set_main (after_send j) (set_handler h s))
  | Marking =>
      h ← Signals.next Signals.StartupDone (handler s);
      Some (State Signalling true h (mirrors s))
  | Waiting => if Signals.controlClosed (handler s) then Some (set_main (Cancelling None) s) else None
  | Cancelling r => Some (State (Joining r) (startupMarkedComplete s) (handler s) (map cancelMirror (mirrors s)))
  | Joining r => if all_done (mirrors s) then Some (set_main (Finishing r) s) else None
  | Finishing r =>
      if startupMarkedComplete s then Some (set_main (Ended r) s)
      else h ← Signals.next Signals.StartupDone (handler s); Some (set_main (Ended r) (set_handler h s))
  | Starting | Signalling | Ended _ => None
  end.

Definition next (e : event) (s : state) : option state :=
  match main s, e with
  | Ended _, _ => None
  | _, Handler e => if of_main e then None else h ← Signals.next e (handler s); Some (set_handler h s)
  | _, Mirror i e =>
      if is_cancel e then None else
      m ← mirrors s !! i; m' ← Mirror.next m.1 e m.2;
      Some (State (main s) (startupMarkedComplete s) (handler s) (<[i := (m.1, m')]> (mirrors s)))
  | Starting, StartMirror n ino p fromStart =>
      Some (State Starting (startupMarkedComplete s) (handler s) (mirrors s ++ [(n, Mirror.start ino p fromStart)]))
  | Starting, StartupEnds o =>
      Some (set_main (after_startup o) s)
  | Signalling, ReadySet r => Some (set_main (after_ready r) s)
  | _, MainStep => proceed s
  | _, _ => None
  end.

Fixpoint run (es : list event) (s : state) : option state :=
  match es with
  | [] => Some s
  | e :: es => s' ← next e s; run es s'
  end.

Lemma life_snoc es e s s' : run (es ++ [e]) s = Some s' ↔ ∃ s1, run es s = Some s1 ∧ next e s1 = Some s'.
Proof.
  revert s. induction es as [|e' es IH]; intros s; cbn [app run].
  - destruct (next e s) as [s2|] eqn:E; simpl; split; [intros [= <-]; eauto|naive_solver|done|naive_solver].
  - destruct (next e' s) as [s2|] eqn:E; simpl; [apply IH|]. split; [done|by intros (? & ? & _)].
Qed.

(** ** The rules *)

(** The step as a relation, a rule for each kind, by which the invariants are shown. *)
Inductive step (s : state) : event → state → Prop :=
| step_handler e h : of_main e = false → Signals.next e (handler s) = Some h → step s (Handler e) (set_handler h s)
| step_mirror i e m m' : is_cancel e = false → mirrors s !! i = Some m → Mirror.next m.1 e m.2 = Some m' →
    step s (Mirror i e) (State (main s) (startupMarkedComplete s) (handler s) (<[i := (m.1, m')]> (mirrors s)))
| step_start n ino p b : main s = Starting →
    step s (StartMirror n ino p b)
      (State Starting (startupMarkedComplete s) (handler s) (mirrors s ++ [(n, Mirror.start ino p b)]))
| step_startup o : main s = Starting → step s (StartupEnds o) (set_main (after_startup o) s)
| step_ready r : main s = Signalling → step s (ReadySet r) (set_main (after_ready r) s)
| step_send j h : main s = Sending j → Signals.next (Signals.Send j) (handler s) = Some h →
    step s MainStep (set_main (after_send j) (set_handler h s))
| step_mark h : main s = Marking → Signals.next Signals.StartupDone (handler s) = Some h →
    step s MainStep (State Signalling true h (mirrors s))
| step_wait : main s = Waiting → Signals.controlClosed (handler s) = true → step s MainStep (set_main (Cancelling None) s)
| step_cancel r : main s = Cancelling r →
    step s MainStep (State (Joining r) (startupMarkedComplete s) (handler s) (map cancelMirror (mirrors s)))
| step_join r : main s = Joining r → all_done (mirrors s) = true → step s MainStep (set_main (Finishing r) s)
| step_marked r : main s = Finishing r → startupMarkedComplete s = true → step s MainStep (set_main (Ended r) s)
| step_unmarked r h : main s = Finishing r → startupMarkedComplete s = false →
    Signals.next Signals.StartupDone (handler s) = Some h → step s MainStep (set_main (Ended r) (set_handler h s)).

Lemma proceed_step s s' : proceed s = Some s' → step s MainStep s'.
Proof.
  unfold proceed. intros E. destruct (main s) eqn:Em; try done.
  - destruct (Signals.next _ _) eqn:En; simplify_eq/=. by eapply step_send.
  - destruct (Signals.next _ _) eqn:En; simplify_eq/=. by eapply step_mark.
  - destruct (Signals.controlClosed _) eqn:Ec; simplify_eq. by apply step_wait.
  - simplify_eq. by apply step_cancel.
  - destruct (all_done _) eqn:Ed; simplify_eq. by apply step_join.
  - destruct (startupMarkedComplete s) eqn:Es; simplify_eq; [by apply step_marked|].
    destruct (Signals.next _ _) eqn:En; simplify_eq/=. by eapply step_unmarked.
Qed.

Definition is_ended (l : stage) : bool := match l with Ended _ => true | _ => false end.

Lemma next_step e s s' : next e s = Some s' → is_ended (main s) = false ∧ step s e s'.
Proof.
  unfold next. intros E. split; [by destruct (main s)|]. destruct e as [e|i e|n ino p b|o|r|].
  - assert ((if of_main e then None else h ← Signals.next e (handler s); Some (set_handler h s)) = Some s') as E' by by destruct (main s).
    destruct (of_main e) eqn:Ho; [done|]. destruct (Signals.next _ _) eqn:En; simplify_eq/=. by apply step_handler.
  - assert ((if is_cancel e then None else m ← mirrors s !! i; m' ← Mirror.next m.1 e m.2;
      Some (State (main s) (startupMarkedComplete s) (handler s) (<[i := (m.1, m')]> (mirrors s)))) = Some s') as E' by by destruct (main s).
    destruct (is_cancel e) eqn:Hc; [done|]. destruct (mirrors s !! i) as [m|] eqn:Hm; [|done]. cbn [mbind option_bind] in E'.
    destruct (Mirror.next _ _ _) eqn:En; simplify_eq/=. by eapply step_mirror.
  - destruct (main s) eqn:Em; simplify_eq. by apply step_start.
  - destruct (main s) eqn:Em; simplify_eq. by apply step_startup.
  - destruct (main s) eqn:Em, r; simplify_eq; by apply (step_ready s _ Em).
  - apply proceed_step. by destruct (main s).
Qed.

(** A property of the events so far and the state, by induction on the run. *)
Lemma run_rule c (P : list event → state → Prop) : P [] (start c) →
  (∀ es e s s', P es s → is_ended (main s) = false → step s e s' → P (es ++ [e]) s') →
  ∀ es s, run es (start c) = Some s → P es s.
Proof.
  intros H0 Hs es. induction es as [|e es IH] using rev_ind; intros s; [by intros [= <-]|].
  intros (s1 & E1 & [He E2]%next_step)%life_snoc. eauto.
Qed.

(** ** The parts of a run *)

Lemma handler_run c es s : run es (start c) = Some s →
  ∃ hes, Signals.run hes (Signals.start c) = Some (handler s) ∧ (In (Handler Signals.StopSignal) es ↔ In Signals.StopSignal hes).
Proof.
  revert es s. apply run_rule; [by exists []|]. intros es e s s' (hes & Hr & Hin) _ Hs.
  assert (handler s' = handler s ∧ e ≠ Handler Signals.StopSignal
    ∨ ∃ he, Signals.next he (handler s) = Some (handler s') ∧ (he = Signals.StopSignal ↔ e = Handler Signals.StopSignal))
    as [[-> He]|(he & Hn & He)].
  { destruct Hs; try (left; split; [done|congruence]); right; eexists; (split; [eassumption|]); split; congruence. }
  - exists hes. split; [done|]. rewrite <- Hin, in_app_iff. simpl. naive_solver.
  - exists (hes ++ [he]). split; [apply Signals.run_snoc; eauto|]. rewrite !in_app_iff, Hin. simpl. naive_solver.
Qed.

(** What the handler's system does to the flags that the main goroutine depends on. *)
Lemma signals_flags e h h' : Signals.next e h = Some h' →
  Signals.startupDone h' = (Signals.startupDone h || match e with Signals.StartupDone => true | _ => false end)
  ∧ (Signals.controlClosed h = true → Signals.controlClosed h' = true).
Proof.
  intros En. destruct h as [l st ss rs ns nr sd shd cc sq ms pr].
  destruct e; simpl in En; repeat (case_match; try done); simplify_eq/=; rewrite ?orb_false_r, ?orb_true_r; try done;
    match goal with j : Signals.job |- _ => by destruct j end.
Qed.

(** A run of a mirror with the cancellations in it. *)
Definition history (n : string) (ino : list string) (p : option nat) (b : bool) (cancels : nat) (m : Mirror.state) : Prop :=
  ∃ mes, Mirror.run n mes (Mirror.start ino p b) = Some m ∧ length (List.filter is_cancel mes) = cancels.

Lemma mirror_run_snoc n mes e m m' m0 : Mirror.run n mes m0 = Some m → Mirror.next n e m = Some m' →
  Mirror.run n (mes ++ [e]) m0 = Some m'.
Proof.
  revert m0. induction mes as [|e' mes IH]; intros m0; cbn [app Mirror.run]; [intros [= ->] ->; done|].
  destruct (Mirror.next n e' m0) as [m1|]; simpl; [apply IH|done].
Qed.

Lemma history_next n ino p b k e m m' : history n ino p b k m → Mirror.next n e m = Some m' →
  history n ino p b (k + if is_cancel e then 1 else 0) m'.
Proof.
  intros (mes & Hr & Hk) En. exists (mes ++ [e]). split; [by eapply mirror_run_snoc|].
  rewrite List.filter_app, length_app, Hk. simpl. by destruct (is_cancel e).
Qed.

(** The deferred call of [cancelMirror] was made. *)
Definition past_cancel (l : stage) : bool := match l with Joining _ | Finishing _ | Ended _ => true | _ => false end.

Definition histories (es : list event) (s : state) : Prop :=
  Forall (λ m, ∃ ino p b, In (StartMirror m.1 ino p b) es ∧ history m.1 ino p b (if past_cancel (main s) then 1 else 0) m.2)
    (mirrors s).

Lemma histories_grow es e s s' : histories es s → mirrors s' = mirrors s → past_cancel (main s') = past_cancel (main s) →
  histories (es ++ [e]) s'.
Proof.
  unfold histories. intros Hh -> ->. eapply Forall_impl; [exact Hh|]. intros m (ino & p & b & Hin & Hm).
  exists ino, p, b. split; [|done]. apply in_app_iff. by left.
Qed.

Lemma run_histories c es s : run es (start c) = Some s → histories es s.
Proof.
  revert es s. apply run_rule; [by constructor|]. intros es e s s' Hh _ Hs.
  destruct Hs as [e h|i e m m' Hc Hm Hn|n ino p b Hm|o Hm|r Hm|j h Hm|h Hm|Hm|r Hm|r Hm|r Hm|r h Hm];
    try (eapply histories_grow; [exact Hh|done|]; by rewrite ?Hm; first [destruct o|destruct r|destruct j|idtac]).
  - apply Forall_insert; [by apply (histories_grow _ _ _ s Hh)|].
    pose proof (Forall_lookup_1 _ _ _ _ Hh Hm) as (ino & p & b & Hin & Hr). exists ino, p, b.
    split; [apply in_app_iff; by left|]. eapply history_next in Hr; [|exact Hn]. rewrite Hc, Nat.add_0_r in Hr. exact Hr.
  - apply Forall_app. split; [apply (histories_grow _ _ s (set_main Starting s) Hh); [done|by rewrite Hm]|]. apply Forall_singleton.
    exists ino, p, b. split; [apply in_app_iff; right; by left|]. by exists [].
  - apply Forall_map. eapply Forall_impl; [exact Hh|]. intros m (ino & p & b & Hin & Hr). exists ino, p, b.
    split; [apply in_app_iff; by left|]. rewrite Hm in Hr. apply (history_next _ _ _ _ _ Mirror.Cancel _ _ Hr). done.
Qed.

(** ** The invariant *)

Record wf (s : state) : Prop := {
  wf_marked : match main s with
              | Starting | Sending _ | Marking => startupMarkedComplete s = false
              | Signalling | Waiting => startupMarkedComplete s = true
              | _ => True
              end;
  wf_startup : Signals.startupDone (handler s) = (startupMarkedComplete s || is_ended (main s));
  wf_done : match main s with Finishing _ | Ended _ => all_done (mirrors s) = true | _ => True end }.

Lemma all_done_spec ms : all_done ms = true ↔ Forall (λ m, MirrorEnd.ended m.2 = true) ms.
Proof. unfold all_done. induction ms as [|m ms IH]; simpl; [split; [intros _; constructor|done]|]. by rewrite Forall_cons, andb_true_iff, IH. Qed.

Lemma mirror_done i m m' e ms : all_done ms = true → ms !! i = Some m → Mirror.next m.1 e m.2 = Some m' →
  all_done (<[i := (m.1, m')]> ms) = true.
Proof.
  rewrite !all_done_spec. intros Hd Hm Hn. apply Forall_insert; [done|].
  pose proof (Forall_lookup_1 _ _ _ _ Hd Hm) as He. eapply MirrorEnd.ended_step; [exact He|exact Hn].
Qed.

Lemma run_wf c es s : run es (start c) = Some s → wf s.
Proof.
  revert es s. apply (run_rule c (λ _ s, wf s)); [by split|]. intros _ e s s' [Hk Hd Hj] Hend Hs. rewrite Hend, orb_false_r in Hd.
  destruct Hs as [e h Ho Hn|i e m m' Hc Hm Hn|n ino p b Hm|o Hm|r Hm|j h Hm Hn|h Hm Hn|Hm Hc|r Hm|r Hm Ha|r Hm Hs|r h Hm Hs Hn];
    try rewrite Hm in *; split; cbn -[all_done Signals.next]; rewrite ?orb_false_r; try done;
    try (destruct (signals_flags _ _ _ Hn) as [-> _]); rewrite ?Hend, ?Hd, ?Hk, ?orb_true_r, ?orb_false_r; try done;
    try (by destruct o); try (by destruct r); try (by destruct j).
  - destruct e; try done; by rewrite orb_false_r.
  - destruct (main s); try done; by eapply mirror_done.
Qed.

(** *** Why [doMain] returns *)

Definition cause (es : list event) (h : Signals.state) (r : option error) : Prop :=
  match r with
  | Some e => In (StartupEnds (Failed e)) es ∨ In (ReadySet (Some e)) es
  | None => In (StartupEnds Initialised) es ∨ In (ReadySet None) es ∧ Signals.controlClosed h = true
  end.

Definition explained (es : list event) (s : state) : Prop :=
  match main s with
  | Waiting => In (ReadySet None) es
  | Cancelling r | Joining r | Finishing r | Ended r => cause es (handler s) r
  | _ => True
  end.

Lemma cause_grow es e h h' r : cause es h r → (Signals.controlClosed h = true → Signals.controlClosed h' = true) →
  cause (es ++ [e]) h' r.
Proof. unfold cause. intros Hc Hh. destruct r; rewrite !in_app_iff; tauto. Qed.

Lemma run_explained c es s : run es (start c) = Some s → explained es s.
Proof.
  revert es s. apply run_rule; [done|]. intros es e s s' Hx _ Hs. unfold explained in *.
  destruct Hs as [e h Ho Hn|i e m m' Hc Hm Hn|n ino p b Hm|o Hm|r Hm|j h Hm Hn|h Hm Hn|Hm Hc|r Hm|r Hm Ha|r Hm Hs|r h Hm Hs Hn];
    try rewrite Hm in Hx; cbn; try (eapply cause_grow; [exact Hx|]; try done); try done.
  - destruct (signals_flags _ _ _ Hn) as [_ Hcl]. destruct (main s); try done; try (by eapply cause_grow). apply in_app_iff. by left.
  - destruct (main s); try done; try (by eapply cause_grow). apply in_app_iff. by left.
  - destruct o; cbn; rewrite ?in_app_iff; simpl; auto.
  - destruct r; cbn; rewrite ?in_app_iff; simpl; auto.
  - by destruct j.
  - right. split; [|done]. apply in_app_iff. by left.
  - by destruct (signals_flags _ _ _ Hn) as [_ Hcl].
Qed.

(** ** The properties *)

(** C10. The end is orderly.  When [doMain] has returned, every log mirror has ended, having run by its rules with
    exactly one cancellation, and the startup is marked complete.  If it returned an error, the startup or the ready
    signal failed with it.  If it returned none, then either it was run with the flag -i, or the container had
    signalled that it is ready, a stop signal had arrived, the gathering of metrics was stopped, the queue
    manager had been stopped, and the handler had returned. *)
Theorem orderly_end c es s r : run es (start c) = Some s → main s = Ended r →
  Forall (λ m, MirrorEnd.ended m.2 = true ∧ ∃ ino p b, In (StartMirror m.1 ino p b) es ∧ history m.1 ino p b 1 m.2) (mirrors s)
  ∧ Signals.startupDone (handler s) = true
  ∧ match r with
    | Some e => In (StartupEnds (Failed e)) es ∨ In (ReadySet (Some e)) es
    | None => In (StartupEnds Initialised) es
        ∨ In (ReadySet None) es ∧ In (Handler Signals.StopSignal) es ∧ Signals.metricsStopped (handler s) = true
          ∧ Signals.stopQM (handler s) = Signals.Stopped ∧ Signals.pc (handler s) = Signals.Returned
    end.
Proof.
  intros Hr Hm. destruct (run_wf _ _ _ Hr) as [_ Hd Hj]. rewrite Hm in *. split; [|split].
  - pose proof (run_histories _ _ _ Hr) as Hh. unfold histories in Hh. rewrite Hm in Hh. apply all_done_spec in Hj.
    apply Forall_and. by split.
  - by rewrite Hd, orb_true_r.
  - pose proof (run_explained _ _ _ Hr) as Hx. unfold explained in Hx. rewrite Hm in Hx. destruct r as [e|]; [done|].
    destruct Hx as [Hi|[Hs Hc]]; [by left|right]. destruct (handler_run _ _ _ Hr) as (hes & Hh & Hin).
    pose proof (Signals.stop_signalled _ _ _ Hh) as Hst. pose proof (Signals.run_inv _ _ _ Hh) as I. revert I Hc Hst Hin.
    generalize (handler s). intros h I Hc Hst Hin. Signals.inv_cases I; split_and!; try done; apply Hin, Hst; auto.
Qed.

(** *** Nothing waits for ever *)

(** Until the startup is over a job is taken, unless the handler can go on by itself first. *)
Lemma send_enabled j h : Signals.inv h = true → Signals.startupDone h = false → Signals.handler_enabled h = false →
  Signals.next (Signals.Send j) h ≠ None.
Proof. intros I Hd Hh. Signals.inv_cases I; unfold Signals.handler_enabled in Hh; simpl in *; subst; simpl in *; done. Qed.

Lemma cancelled_once n mes m0 m : Mirror.run n mes m0 = Some m →
  Mirror.cancelled m0 = true ∨ length (List.filter is_cancel mes) ≠ 0%nat → Mirror.cancelled m = true.
Proof.
  revert m0. induction mes as [|e mes IH]; intros m0; simpl; [intros [= ->]; naive_solver|].
  destruct (Mirror.next n e m0) as [m1|] eqn:En; simpl; [|done]. intros Hr Hc. apply (IH m1 Hr).
  destruct (is_cancel e) eqn:He; [left|].
  - destruct e; try done. simpl in En. by simplify_eq/=.
  - destruct Hc as [Hc|Hc]; [left|by right]. by eapply MirrorEnd.cancelled_step.
Qed.

Lemma mirrors_end es s r : histories es s → main s = Joining r →
  Forall (λ m, ∀ mes m', Mirror.run m.1 mes m.2 = Some m' → (14 ≤ MirrorEnd.own_steps mes)%nat → MirrorEnd.ended m' = true) (mirrors s).
Proof.
  unfold histories. intros Hh Hm. rewrite Hm in Hh. eapply Forall_impl; [exact Hh|].
  intros m (ino & p & b & _ & mes & Hr & Hc) mes' m' Hr' Hn.
  assert (Mirror.cancelled m.2 = true) as Hcan by (eapply cancelled_once; [exact Hr|right; by rewrite Hc]).
  destruct (MirrorEnd.cancelled_ends _ _ _ _ Hr' Hcan) as [?|Hle]; [done|]. pose proof (MirrorEnd.remaining_le m.2).
  assert (MirrorEnd.remaining m' = 0)%nat as H0 by lia. by apply MirrorEnd.remaining_ended.
Qed.

(** Neither the handler nor the main goroutine can go on, nothing is being computed, and the queue manager is not being stopped. *)
Definition quiet (s : state) : Prop :=
  Signals.handler_enabled (handler s) = false ∧ Signals.stopQM (handler s) ≠ Signals.Stopping
  ∧ proceed s = None ∧ main s ≠ Starting ∧ main s ≠ Signalling.

(** C11. The main goroutine and the handler do not wait for each other.  When neither can go on, however the
    signals, the children and the mirrors have come between their steps, then the process has ended; or the
    container is up, no stop signal has come, and the handler listens; or only log mirrors are waited for, each of which
    ends within fourteen more of its steps, whatever else happens. *)
Theorem nothing_hangs c es s : run es (start c) = Some s → quiet s →
  (∃ r, main s = Ended r)
  ∨ (main s = Waiting ∧ ¬ In (Handler Signals.StopSignal) es ∧ Signals.pc (handler s) = Signals.Select ∧ Signals.notifyStop (handler s) = true)
  ∨ (∃ r, main s = Joining r ∧ Forall (λ m, ∀ mes m', Mirror.run m.1 mes m.2 = Some m' →
       (14 ≤ MirrorEnd.own_steps mes)%nat → MirrorEnd.ended m' = true) (mirrors s)).
Proof.
  intros Hr (Hh & Hq & Hm & Hs & Hg). destruct (run_wf _ _ _ Hr) as [Hk Hd _]. unfold proceed in Hm.
  destruct (handler_run _ _ _ Hr) as (hes & Hhr & Hin). pose proof (Signals.run_inv _ _ _ Hhr) as I.
  destruct (main s) as [|j| | | |r|r|r|r] eqn:Em; try done; cbn [is_ended] in Hd; rewrite ?Hk, ?orb_false_r in Hd; eauto.
  - exfalso. apply (send_enabled j _ I Hd Hh). by destruct (Signals.next (Signals.Send j) (handler s)).
  - right. left. pose proof (Signals.idle_select _ I Hh Hd) as Hi. pose proof (Signals.stop_pending _ _ _ Hhr) as Hp.
    destruct (Signals.controlClosed (handler s)) eqn:Hc; [done|]. revert I Hi Hp Hq Hc Hin. generalize (handler s).
    intros h I Hi Hp Hq Hc Hin. rewrite Hin. Signals.inv_cases I; simpl in *;
      destruct Hi as [(? & ? & ? & ?)|?]; try done; (split; [done|]); (split; [|done]);
      intros Hst; destruct (Hp Hst) as [?|[?|?]]; congruence.
  - right. right. exists r. split; [done|]. by eapply mirrors_end; [eapply run_histories|].
  - by destruct (startupMarkedComplete s).
Qed.

(** ** Examples *)

(** A container that comes up, with a mirror. *)
Definition comes_up : list event :=
  [StartMirror Mirror.errorLog ["zero" +:+ lf] (Some 0%nat) false; StartupEnds Completed; MainStep; MainStep; MainStep; ReadySet None].

(** It is told to stop, and stops, while the log is still written. *)
Definition stops : list event :=
  map Handler [Signals.StopSignal; Signals.TakeStop; Signals.EndStopNotify; Signals.SeeStartupDone; Signals.Exit 7;
               Signals.QueueManagerStopped; Signals.SeeShutdown]
  ++ [MainStep; Mirror 0 (Mirror.AppendLine "last"); MainStep] ++ replicate 7 (Mirror 0 Mirror.Read) ++ [MainStep; MainStep].

Definition init : Signals.children := Signals.Children [7%nat] [] [].

Lemma nothing_hangs_witness : ∃ s, run comes_up (start init) = Some s ∧ main s = Waiting
  ∧ ¬ In (Handler Signals.StopSignal) comes_up.
Proof.
  destruct (run comes_up (start init)) as [s|] eqn:E; [|vm_compute in E; discriminate]. exists s. split; [reflexivity|].
  destruct (nothing_hangs init comes_up s E) as [[r Hr]|[(Hm & Hn & _)|(r & Hr & _)]].
  - vm_compute in E. injection E as <-. split; [reflexivity|]. repeat split; discriminate.
  - exfalso. vm_compute in E. injection E as <-. discriminate.
  - split; [exact Hm|exact Hn].
  - exfalso. vm_compute in E. injection E as <-. discriminate.
Defined.

Lemma orderly_end_witness : ∃ s, run (comes_up ++ stops) (start init) = Some s ∧ main s = Ended None
  ∧ Signals.stopQM (handler s) = Signals.Stopped
  ∧ Forall (λ m, MirrorEnd.ended m.2 = true ∧ ∃ ino p b, In (StartMirror m.1 ino p b) (comes_up ++ stops) ∧ history m.1 ino p b 1 m.2)
      (mirrors s).
Proof.
  destruct (run (comes_up ++ stops) (start init)) as [s|] eqn:E; [|vm_compute in E; discriminate]. exists s. split; [reflexivity|].
  assert (main s = Ended None) as Hm by (vm_compute in E; injection E as <-; reflexivity).
  destruct (orderly_end init _ s None E Hm) as (Hd & _ & Hx). split; [exact Hm|].
  destruct Hx as [Hi|(_ & _ & _ & Hs & _)].
  - exfalso. revert Hi. vm_compute. intuition discriminate.
  - split; [exact Hs|exact Hd].
Defined.

End Lifecycle.
