(* ===== verification/MetricNames.v ===== *)
(** * The names of the metrics (internal/metrics/mapping.go)

    The table from the description of a published metric to its name and whether it is
    given to Prometheus. *)
From S2P Require Import Prelude Utf8 GoStrings.

Module MetricNames.

Record metricLookup := Lookup { name : string; enabled : bool }.

Definition generateMetricNamesMap : list (string * metricLookup) :=
  [("CPU/SystemSummary/CPU load - one minute average", Lookup "cpu_load_one_minute_average_percentage" true);
   ("CPU/SystemSummary/CPU load - five minute average", Lookup "cpu_load_five_minute_average_percentage" true);
   ("CPU/SystemSummary/CPU load - fifteen minute average", Lookup "cpu_load_fifteen_minute_average_percentage" true);
   ("CPU/SystemSummary/System CPU time percentage", Lookup "system_cpu_time_percentage" true);
   ("CPU/SystemSummary/User CPU time percentage", Lookup "user_cpu_time_percentage" true);
   ("CPU/SystemSummary/RAM free percentage", Lookup "ram_free_percentage" true);
   ("CPU/SystemSummary/RAM total bytes", Lookup "system_ram_size_bytes" false);
   ("CPU/QMgrSummary/System CPU time - percentage estimate for queue manager", Lookup "system_cpu_time_estimate_for_queue_manager_percentage" true);
   ("CPU/QMgrSummary/User CPU time - percentage estimate for queue manager", Lookup "user_cpu_time_estimate_for_queue_manager_percentage" true);
   ("CPU/QMgrSummary/RAM total bytes - estimate for queue manager", Lookup "ram_usage_estimate_for_queue_manager_bytes" true);
   ("DISK/SystemSummary/MQ trace file system - free space", Lookup "trace_file_system_free_space_percentage" true);
   ("DISK/SystemSummary/MQ trace file system - bytes in use", Lookup "trace_file_system_in_use_bytes" true);
   ("DISK/SystemSummary/MQ errors file system - free space", Lookup "errors_file_system_free_space_percentage" true);
   ("DISK/SystemSummary/MQ errors file system - bytes in use", Lookup "errors_file_system_in_use_bytes" true);
   ("DISK/SystemSummary/MQ FDC file count", Lookup "fdc_files" true);
   ("DISK/QMgrSummary/Queue Manager file system - free space", Lookup "queue_manager_file_system_free_space_percentage" true);
   ("DISK/QMgrSummary/Queue Manager file system - bytes in use", Lookup "queue_manager_file_system_in_use_bytes" true);
   ("DISK/Log/Log - logical bytes written", Lookup "log_logical_written_bytes_total" true);
   ("DISK/Log/Log - physical bytes written", Lookup "log_physical_written_bytes_total" true);
   ("DISK/Log/Log - current primary space in use", Lookup "log_primary_space_in_use_percentage" true);
   ("DISK/Log/Log - workload primary space utilization", Lookup "log_workload_primary_space_utilization_percentage" true);
   ("DISK/Log/Log - write latency", Lookup "log_write_latency_seconds" true);
   ("DISK/Log/Log - bytes max", Lookup "log_max_bytes" true);
   ("DISK/Log/Log - write size", Lookup "log_write_size_bytes" true);
   ("DISK/Log/Log - bytes in use", Lookup "log_in_use_bytes" true);
   ("DISK/Log/Log file system - bytes max", Lookup "log_file_system_max_bytes" true);
   ("DISK/Log/Log file system - bytes in use", Lookup "log_file_system_in_use_bytes" true);
   ("DISK/Log/Log file system - free space", Lookup "log_file_system_free_space_percentage" true);
   ("DISK/Log/Log - bytes occupied by reusable extents", Lookup "log_occupied_by_reusable_extents_bytes" true);
   ("DISK/Log/Log - bytes occupied by extents waiting to be archived", Lookup "log_occupied_by_extents_waiting_to_be_archived_bytes" true);
   ("DISK/Log/Log - bytes required for media recovery", Lookup "log_required_for_media_recovery_bytes" true);
   ("DISK/Log/Log - disk written log sequence number", Lookup "log_sequence_number_disk_total" true);
   ("DISK/Log/Log - quorum log sequence number", Lookup "log_sequence_number_quorum_total" true);
   ("DISK/Log/Log - timestamp of slowest write", Lookup "log_slowest_write_timestamp_seconds" true);
   ("DISK/Log/Log - slowest write since restart", Lookup "log_slowest_write_since_restart_seconds" true);
   ("STATMQI/SUBSCRIBE/Create durable subscription count", Lookup "durable_subscription_create_total" true);
   ("STATMQI/SUBSCRIBE/Alter durable subscription count", Lookup "durable_subscription_alter_total" true);
   ("STATMQI/SUBSCRIBE/Resume durable subscription count", Lookup "durable_subscription_resume_total" true);
   ("STATMQI/SUBSCRIBE/Delete durable subscription count", Lookup "durable_subscription_delete_total" true);
   ("STATMQI/SUBSCRIBE/Create non-durable subscription count", Lookup "non_durable_subscription_create_total" true);
   ("STATMQI/SUBSCRIBE/Delete non-durable subscription count", Lookup "non_durable_subscription_delete_total" true);
   ("STATMQI/SUBSCRIBE/Failed create/alter/resume subscription count", Lookup "failed_subscription_create_alter_resume_total" true);
   ("STATMQI/SUBSCRIBE/Subscription delete failure count", Lookup "failed_subscription_delete_total" true);
   ("STATMQI/SUBSCRIBE/MQSUBRQ count", Lookup "mqsubrq_total" true);
   ("STATMQI/SUBSCRIBE/Failed MQSUBRQ count", Lookup "failed_mqsubrq_total" true);
   ("STATMQI/SUBSCRIBE/Durable subscriber - high water mark", Lookup "durable_subscriber_high_water_mark" false);
   ("STATMQI/SUBSCRIBE/Durable subscriber - low water mark", Lookup "durable_subscriber_low_water_mark" false);
   ("STATMQI/SUBSCRIBE/Non-durable subscriber - high water mark", Lookup "non_durable_subscriber_high_water_mark" false);
   ("STATMQI/SUBSCRIBE/Non-durable subscriber - low water mark", Lookup "non_durable_subscriber_low_water_mark" false);
   ("STATMQI/PUBLISH/Topic MQPUT/MQPUT1 interval total", Lookup "topic_mqput_mqput1_total" true);
   ("STATMQI/PUBLISH/Interval total topic bytes put", Lookup "topic_put_bytes_total" true);
   ("STATMQI/PUBLISH/Failed topic MQPUT/MQPUT1 count", Lookup "failed_topic_mqput_mqput1_total" true);
   ("STATMQI/PUBLISH/Persistent - topic MQPUT/MQPUT1 count", Lookup "persistent_topic_mqput_mqput1_total" true);
   ("STATMQI/PUBLISH/Non-persistent - topic MQPUT/MQPUT1 count", Lookup "non_persistent_topic_mqput_mqput1_total" true);
   ("STATMQI/PUBLISH/Published to subscribers - message count", Lookup "published_to_subscribers_message_total" true);
   ("STATMQI/PUBLISH/Published to subscribers - byte count", Lookup "published_to_subscribers_bytes_total" true);
   ("STATMQI/CONNDISC/MQCONN/MQCONNX count", Lookup "mqconn_mqconnx_total" true);
   ("STATMQI/CONNDISC/Failed MQCONN/MQCONNX count", Lookup "failed_mqconn_mqconnx_total" true);
   ("STATMQI/CONNDISC/MQDISC count", Lookup "mqdisc_total" true);
   ("STATMQI/CONNDISC/Concurrent connections - high water mark", Lookup "concurrent_connections_high_water_mark" false);
   ("STATMQI/OPENCLOSE/MQOPEN count", Lookup "mqopen_total" true);
   ("STATMQI/OPENCLOSE/Failed MQOPEN count", Lookup "failed_mqopen_total" true);
   ("STATMQI/OPENCLOSE/MQCLOSE count", Lookup "mqclose_total" true);
   ("STATMQI/OPENCLOSE/Failed MQCLOSE count", Lookup "failed_mqclose_total" true);
   ("STATMQI/INQSET/MQINQ count", Lookup "mqinq_total" true);
   ("STATMQI/INQSET/Failed MQINQ count", Lookup "failed_mqinq_total" true);
   ("STATMQI/INQSET/MQSET count", Lookup "mqset_total" true);
   ("STATMQI/INQSET/Failed MQSET count", Lookup "failed_mqset_total" true);
   ("STATMQI/PUT/Persistent message MQPUT count", Lookup "persistent_message_mqput_total" true);
   ("STATMQI/PUT/Persistent message MQPUT1 count", Lookup "persistent_message_mqput1_total" true);
   ("STATMQI/PUT/Put persistent messages - byte count", Lookup "persistent_message_put_bytes_total" true);
   ("STATMQI/PUT/Non-persistent message MQPUT count", Lookup "non_persistent_message_mqput_total" true);
   ("STATMQI/PUT/Non-persistent message MQPUT1 count", Lookup "non_persistent_message_mqput1_total" true);
   ("STATMQI/PUT/Put non-persistent messages - byte count", Lookup "non_persistent_message_put_bytes_total" true);
   ("STATMQI/PUT/Interval total MQPUT/MQPUT1 count", Lookup "mqput_mqput1_total" true);
   ("STATMQI/PUT/Interval total MQPUT/MQPUT1 byte count", Lookup "mqput_mqput1_bytes_total" true);
   ("STATMQI/PUT/Failed MQPUT count", Lookup "failed_mqput_total" true);
   ("STATMQI/PUT/Failed MQPUT1 count", Lookup "failed_mqput1_total" true);
   ("STATMQI/PUT/MQSTAT count", Lookup "mqstat_total" true);
   ("STATMQI/GET/Persistent message destructive get - count", Lookup "persistent_message_destructive_get_total" true);
   ("STATMQI/GET/Persistent message browse - count", Lookup "persistent_message_browse_total" true);
   ("STATMQI/GET/Got persistent messages - byte count", Lookup "persistent_message_get_bytes_total" true);
   ("STATMQI/GET/Persistent message browse - byte count", Lookup "persistent_message_browse_bytes_total" true);
   ("STATMQI/GET/Non-persistent message destructive get - count", Lookup "non_persistent_message_destructive_get_total" true);
   ("STATMQI/GET/Non-persistent message browse - count", Lookup "non_persistent_message_browse_total" true);
   ("STATMQI/GET/Got non-persistent messages - byte count", Lookup "non_persistent_message_get_bytes_total" true);
   ("STATMQI/GET/Non-persistent message browse - byte count", Lookup "non_persistent_message_browse_bytes_total" true);
   ("STATMQI/GET/Interval total destructive get- count", Lookup "destructive_get_total" true);
   ("STATMQI/GET/Interval total destructive get - byte count", Lookup "destructive_get_bytes_total" true);
   ("STATMQI/GET/Failed MQGET - count", Lookup "failed_mqget_total" true);
   ("STATMQI/GET/Failed browse count", Lookup "failed_browse_total" true);
   ("STATMQI/GET/MQCTL count", Lookup "mqctl_total" true);
   ("STATMQI/GET/Expired message count", Lookup "expired_message_total" true);
   ("STATMQI/GET/Purged queue count", Lookup "purged_queue_total" true);
   ("STATMQI/GET/MQCB count", Lookup "mqcb_total" true);
   ("STATMQI/GET/Failed MQCB count", Lookup "failed_mqcb_total" true);
   ("STATMQI/SYNCPOINT/Commit count", Lookup "commit_total" true);
   ("STATMQI/SYNCPOINT/Rollback count", Lookup "rollback_total" true);
   ("NHAREPLICA/REPLICATION/Catch-up log bytes sent", Lookup "replication_catchup_log_sent_bytes" true);
   ("NHAREPLICA/REPLICATION/MQ FDC file count", Lookup "replication_mq_fdc_file_count" true);
   ("NHAREPLICA/REPLICATION/Catch-up log bytes decompressed", Lookup "replication_catch_up_log_decompressed_bytes" true);
   ("NHAREPLICA/REPLICATION/Acknowledged log sequence number", Lookup "replication_acknowledged_log_sequence_number_total" true);
   ("NHAREPLICA/REPLICATION/Log file system - bytes in use", Lookup "replication_log_file_system_in_use_bytes" true);
   ("NHAREPLICA/REPLICATION/Log file system - free space", Lookup "replication_log_file_system_free_space_percent" true);
   ("NHAREPLICA/REPLICATION/Synchronous log bytes sent", Lookup "replication_synchronous_log_sent_bytes" true);
   ("NHAREPLICA/REPLICATION/Log write average acknowledgement size", Lookup "replication_log_write_average_acknowledgement_size_bytes" true);
   ("NHAREPLICA/REPLICATION/Backlog average bytes", Lookup "replication_backlog_average_bytes" true);
   ("NHAREPLICA/REPLICATION/Synchronous compressed log bytes sent", Lookup "replication_synchronous_compressed_log_sent_bytes" true);
   ("NHAREPLICA/REPLICATION/Synchronous uncompressed log bytes sent", Lookup "replication_synchronous_uncompressed_log_sent_bytes" true);
   ("NHAREPLICA/REPLICATION/Synchronous log data average compression time", Lookup "replication_synchronous_log_data_average_compression_time_seconds" true);
   ("NHAREPLICA/REPLICATION/Catch-up log data average compression time", Lookup "replication_catch_up_log_data_average_compression_time_seconds" true);
   ("NHAREPLICA/REPLICATION/Average network round trip time", Lookup "replication_average_network_round_trip_time_seconds" true);
   ("NHAREPLICA/REPLICATION/Synchronous log bytes decompressed", Lookup "replication_synchronous_log_decompressed_bytes" true);
   ("NHAREPLICA/REPLICATION/Synchronous log data average decompression time", Lookup "replication_synchronous_log_data_average_decompression_time_seconds" true);
   ("NHAREPLICA/REPLICATION/Queue Manager file system - free space", Lookup "replication_queue_manager_file_system_free_space_percent" true);
   ("NHAREPLICA/REPLICATION/Catch-up log data average decompression time", Lookup "replication_catch_up_log_data_average_decompression_time_seconds" true);
   ("NHAREPLICA/REPLICATION/Log write average acknowledgement latency", Lookup "replication_log_write_average_acknowledgement_latency_seconds" true);
   ("NHAREPLICA/REPLICATION/Backlog bytes", Lookup "replication_backlog_bytes" true);
   ("NHAREPLICA/REPLICATION/Catch-up compressed log bytes sent", Lookup "replication_catch_up_compressed_log_sent_bytes" true);
   ("NHAREPLICA/REPLICATION/Catch-up uncompressed log bytes sent", Lookup "replication_catch_up_uncompressed_log_sent_bytes" true);
   ("NHAREPLICA/REPLICATION/Queue Manager file system - bytes in use", Lookup "replication_queue_manager_file_system_in_use_bytes" true);
   ("NHAREPLICA/REPLICATION/Backlog long-term average bytes", Lookup "replication_backlog_long_term_average_bytes" true);
   ("NHAREPLICA/REPLICATION/Catch-up time percentage", Lookup "replication_catch_up_time_percentage" true);
   ("NHAREPLICA/REPLICATION/Throttling time percentage", Lookup "replication_throttling_time_percentage" true);
   ("NHAREPLICA/REPLICATION/Log - write latency", Lookup "replication_log_write_latency_seconds" true);
   ("NHAREPLICA/REPLICATION/Log - write size", Lookup "replication_log_write_size_bytes" true);
   ("NHAREPLICA/REPLICATION/Log - slowest write since restart", Lookup "replication_log_slowest_write_since_restart_seconds" true);
   ("NHAREPLICA/REPLICATION/Log - timestamp of slowest write", Lookup "replication_log_slowest_write_timestamp_seconds" true);
   ("NHAREPLICA/RECOVERY/Compressed log bytes sent", Lookup "recovery_compressed_log_sent_bytes" true);
   ("NHAREPLICA/RECOVERY/Backlog average bytes", Lookup "recovery_backlog_average_bytes" true);
   ("NHAREPLICA/RECOVERY/Rebase count", Lookup "recovery_rebase_count" true);
   ("NHAREPLICA/RECOVERY/Average network round trip time", Lookup "recovery_average_network_round_trip_time_seconds" true);
   ("NHAREPLICA/RECOVERY/Log data average compression time", Lookup "recovery_log_data_average_compression_time_seconds" true);
   ("NHAREPLICA/RECOVERY/Log bytes decompressed", Lookup "recovery_log_decompressed_bytes" true);
   ("NHAREPLICA/RECOVERY/Log data average decompression time", Lookup "recovery_log_data_average_decompression_time_seconds" true);
   ("NHAREPLICA/RECOVERY/Log bytes sent", Lookup "recovery_log_sent_bytes" true);
   ("NHAREPLICA/RECOVERY/Backlog bytes", Lookup "recovery_backlog_bytes" true);
   ("NHAREPLICA/RECOVERY/Recovery log sequence number", Lookup "recovery_recovery_log_sequence_number" true)].

(** The entry of a key. *)
Definition find (key : string) : option metricLookup :=
  snd <$> List.find (λ e, String.eqb e.1 key) generateMetricNamesMap.

End MetricNames.
