(* ===== verification/Metrics.v ===== *)
(** * Metrics (internal/metrics: update.go, exporter.go; the goroutine of update.go is in Gather.v)

    From the publications of the queue manager, which the package mqmetric collects, to the
    samples Prometheus is given.  The maps of mqmetric are lists in any order; what its
    [Normalise] computes, and addition of float64, are the class [Mqmetric]. *)
From S2P Require Import Prelude Utf8 GoStrings Paths Os MetricNames.

Open Scope Z_scope.

Module Metrics.

(** ** The data of package mqmetric *)

Definition QMgrMapKey : string := "@self".
Definition NativeHAKeyPrefix : string := "@NATIVEHA@".
Definition MQIAMO_MONITOR_DELTA : Z := 2.

Record monElement := Element { Description : string; Datatype : Z; Values : gmap string Z }.
Record monType := Type_ { TypeName : string; ObjectTopic : string; Elements : list monElement }.
Record monClass := Class_ { ClassName : string; Types : list monType }.

Class Mqmetric := {
  float : Type;
  f_zero : float;
  f_add : float → float → float;
  Normalise : monElement → string → Z → float }.

Section metrics.
Context `{Mqmetric}.

Record metricData := Metric {
  name : string;
  description : string;
  objectType : bool;
  nhaType : bool;
  values : gmap string float;
  isDelta : bool }.

(** ** update.go *)

Definition makeKey (c : monClass) (t : monType) (e : monElement) : string :=
  ClassName c +:+ "/" +:+ TypeName t +:+ "/" +:+ Description e.

Definition isNHA (c : monClass) : bool := ClassName c =s "NHAREPLICA".
Definition wanted (c : monClass) (t : monType) : bool := isNHA c || negb (Contains (ObjectTopic t) "%s").

(** The elements the loops visit, with their class and type. *)
Definition visited (cs : list monClass) : list (monClass * monType * monElement) :=
  c ← cs; t ← Types c; if wanted c t then (λ e, (c, t, e)) <$> Elements t else [].

(** One element of [initialiseMetrics]; the state is the metrics and whether all are valid. *)
Definition initElement (st : gmap string metricData * bool) (x : monClass * monType * monElement)
  : M (gmap string metricData * bool) :=
  let '(c, t, e) := x in
  let key := makeKey c t e in
  match MetricNames.find key with
  | Some l =>
      if MetricNames.enabled l then
        match st.1 !! key with
        | None =>
            mret (<[key := Metric (MetricNames.name l) (Description e) false (isNHA c) ∅ (Datatype e =? MQIAMO_MONITOR_DELTA)]> st.1, st.2)
        | Some _ => _ ← log ERROR ("Metrics Error: Found duplicate metric key [" +:+ key +:+ "]"); mret (st.1, false)
        end
      else _ ← log DEBUG ("Metrics: Skipping metric, metric is not enabled for key [" +:+ key +:+ "]"); mret st
  | None => _ ← log INFO ("Metrics Warning: Skipping metric, unexpected key [" +:+ key +:+ "]"); mret (st.1, false)
  end.

Fixpoint initElements (st : gmap string metricData * bool) (l : list (monClass * monType * monElement))
  : M (gmap string metricData * bool) :=
  match l with
  | [] => mret st
  | x :: l => st ← initElement st x; initElements st l
  end.

Definition initialiseMetrics (cs : list monClass) : M (gmap string metricData * option error) :=
  '(metrics, validMetrics) ← initElements (∅, true) (visited cs);
  mret (metrics, if validMetrics : bool then None else Some (Errorf "Invalid metrics data")).

Definition set_values (v : gmap string float) (m : metricData) : metricData :=
  Metric (name m) (description m) (objectType m) (nhaType m) v (isDelta m).

Definition normalised (e : monElement) : gmap string float := map_imap (λ label v, Some (Normalise e label v)) (Values e).

(** The values of the metrics, and then the cached values of the elements. *)
Definition updateElement (metrics : gmap string metricData) (x : monClass * monType * monElement) : gmap string metricData :=
  let '(c, t, e) := x in alter (set_values (normalised e)) (makeKey c t e) metrics.

Definition resetType (c : monClass) (t : monType) : monType :=
  if wanted c t then Type_ (TypeName t) (ObjectTopic t) (map (λ e, Element (Description e) (Datatype e) ∅) (Elements t)) else t.
Definition resetClass (c : monClass) : monClass := Class_ (ClassName c) (map (resetType c) (Types c)).

Definition updateMetrics (cs : list monClass) (metrics : gmap string metricData) : list monClass * gmap string metricData :=
  (map resetClass cs, foldl updateElement metrics (visited cs)).

(** ** exporter.go *)

(** A vector of Prometheus: its samples by the values of its labels. *)
Record vec := Vec { fqName : string; Help : string; labels : list string; samples : gmap (list string) float }.

Record exporter := Exporter {
  qmName : string;
  gaugeMap : gmap string vec;
  counterMap : gmap string vec;
  firstCollect : bool }.

Definition newExporter (qmName : string) : exporter := Exporter qmName ∅ ∅ true.

Definition getVecDetails (objectType nhaType : bool) : string * list string :=
  if objectType then ("object", ["object"; "qmgr"])
  else if nhaType then ("nha", ["instance"; "qmgr"])
  else ("qmgr", ["qmgr"]).

(** [prometheus.BuildFQName] *)
Definition createVec (name description : string) (objectType nhaType : bool) : vec :=
  let '(prefix, labels) := getVecDetails objectType nhaType in
  Vec ("ibmmq_" +:+ prefix +:+ "_" +:+ name) description labels ∅.
Definition createCounterVec := createVec.
Definition createGaugeVec := createVec.

(** [Describe]: a vector for each metric. *)
Definition describeOne (e : exporter) (x : string * metricData) : exporter :=
  let '(key, metric) := x in
  let v := createVec (name metric) (description metric) (objectType metric) (nhaType metric) in
  if isDelta metric then Exporter (qmName e) (gaugeMap e) (<[key := v]> (counterMap e)) (firstCollect e)
  else Exporter (qmName e) (<[key := v]> (gaugeMap e)) (counterMap e) (firstCollect e).
Definition Describe (response : gmap string metricData) (e : exporter) : exporter :=
  foldl describeOne e (map_to_list response).

Definition labelValues (qmName label : string) : list string :=
  if label =s QMgrMapKey then [qmName]
  else if HasPrefix label NativeHAKeyPrefix then [ReplaceAll label NativeHAKeyPrefix ""; qmName]
  else [label; qmName].

(** [GetMetricWithLabelValues]: as many values as labels, in UTF-8. *)
Definition accepts (v : vec) (lvs : list string) : bool := (length lvs =? length (labels v))%nat && forallb valid_utf8 lvs.

Definition set_samples (s : gmap (list string) float) (v : vec) : vec := Vec (fqName v) (Help v) (labels v) s.

Definition addSample (qm : string) (v : vec) (x : string * float) : vec :=
  let lvs := labelValues qm x.1 in
  if accepts v lvs then set_samples (<[lvs := f_add (default f_zero (samples v !! lvs)) x.2]> (samples v)) v else v.
Definition setSample (qm : string) (v : vec) (x : string * float) : vec :=
  let lvs := labelValues qm x.1 in
  if accepts v lvs then set_samples (<[lvs := x.2]> (samples v)) v else v.

Definition counterVec (first : bool) (qm : string) (metric : metricData) (v : vec) : vec :=
  if first then v else foldl (addSample qm) v (map_to_list (values metric)).
Definition gaugeVec (first : bool) (qm : string) (metric : metricData) (v : vec) : vec :=
  let v := set_samples ∅ v in
  if first then v else foldl (setSample qm) v (map_to_list (values metric)).

(** One metric of [Collect]; a metric that was not described is the nil vector, a panic. *)
Definition collectOne (first : bool) (e : exporter) (x : string * metricData) : option exporter :=
  let '(key, metric) := x in
  if isDelta metric then
    v ← counterMap e !! key;
    Some (Exporter (qmName e) (gaugeMap e) (<[key := counterVec first (qmName e) metric v]> (counterMap e)) (firstCollect e))
  else
    v ← gaugeMap e !! key;
    Some (Exporter (qmName e) (<[key := gaugeVec first (qmName e) metric v]> (gaugeMap e)) (counterMap e) (firstCollect e)).

Fixpoint collectAll (first : bool) (e : exporter) (l : list (string * metricData)) : option exporter :=
  match l with
  | [] => Some e
  | x :: l => e ← collectOne first e x; collectAll first e l
  end.

Definition Collect (response : gmap string metricData) (e : exporter) : option exporter :=
  e ← collectAll (firstCollect e) e (map_to_list response);
  Some (Exporter (qmName e) (gaugeMap e) (counterMap e) false).

(** A sequence of scrapes. *)
Fixpoint Collects (rs : list (gmap string metricData)) (e : exporter) : option exporter :=
  match rs with
  | [] => Some e
  | r :: rs => e ← Collect r e; Collects rs e
  end.

End metrics.

(** ** The maps after a loop over the metrics *)

Section laws.
Context `{Mqmetric}.

Definition vec_of (m : metricData) : vec := createVec (name m) (description m) (objectType m) (nhaType m).

Lemma Describe_list l e key : NoDup l.*1 →
  let e' := foldl describeOne e l in
  counterMap e' !! key = match (list_to_map l : gmap string metricData) !! key with
    | Some m => if isDelta m then Some (vec_of m) else counterMap e !! key
    | None => counterMap e !! key
    end
  ∧ gaugeMap e' !! key = match (list_to_map l : gmap string metricData) !! key with
    | Some m => if isDelta m then gaugeMap e !! key else Some (vec_of m)
    | None => gaugeMap e !! key
    end
  ∧ qmName e' = qmName e ∧ firstCollect e' = firstCollect e.
Proof.
  revert e. induction l as [|[k m] l IH]; intros e Hnd; [done|]. cbn [fmap list_fmap fst] in Hnd.
  apply NoDup_cons in Hnd as [Hk Hnd]. cbn zeta. cbn [foldl list_to_map foldr].
  destruct (IH (describeOne e (k, m)) Hnd) as (Hc & Hg & Hq & Hf). rewrite Hc, Hg, Hq, Hf.
  assert ((list_to_map l : gmap string metricData) !! k = None) as Hn by by apply not_elem_of_list_to_map_1.
  destruct (decide (k = key)) as [->|Hne].
  - rewrite Hn, lookup_insert_eq. unfold describeOne.
    destruct (isDelta m) eqn:Ed; cbn; rewrite ?Ed, ?lookup_insert_eq; done.
  - rewrite lookup_insert_ne by done. unfold describeOne.
    destruct (isDelta m) eqn:Ed; cbn; rewrite ?lookup_insert_ne by done; done.
Qed.

Lemma Describe_lookup r e key :
  counterMap (Describe r e) !! key = match r !! key with
    | Some m => if isDelta m then Some (vec_of m) else counterMap e !! key
    | None => counterMap e !! key
    end
  ∧ gaugeMap (Describe r e) !! key = match r !! key with
    | Some m => if isDelta m then gaugeMap e !! key else Some (vec_of m)
    | None => gaugeMap e !! key
    end
  ∧ qmName (Describe r e) = qmName e ∧ firstCollect (Describe r e) = firstCollect e.
Proof.
  pose proof (Describe_list (map_to_list r) e key (NoDup_fst_map_to_list r)) as Hd.
  by rewrite list_to_map_to_list in Hd.
Qed.

(** Every metric of a response has its vector. *)
Definition described (r : gmap string metricData) (e : exporter) : Prop :=
  ∀ key m, r !! key = Some m → is_Some (if isDelta m then counterMap e !! key else gaugeMap e !! key).

Lemma collectAll_list first l e : NoDup l.*1 →
  (∀ key m, (key, m) ∈ l → is_Some (if isDelta m then counterMap e !! key else gaugeMap e !! key)) →
  ∃ e', collectAll first e l = Some e' ∧ qmName e' = qmName e ∧ ∀ key,
  counterMap e' !! key = match (list_to_map l : gmap string metricData) !! key with
    | Some m => if isDelta m then counterVec first (qmName e) m <$> counterMap e !! key else counterMap e !! key
    | None => counterMap e !! key
    end
  ∧ gaugeMap e' !! key = match (list_to_map l : gmap string metricData) !! key with
    | Some m => if isDelta m then gaugeMap e !! key else gaugeVec first (qmName e) m <$> gaugeMap e !! key
    | None => gaugeMap e !! key
    end.
Proof.
  revert e. induction l as [|[k m] l IH]; intros e Hnd Hd; [by exists e|]. cbn [fmap list_fmap fst] in Hnd.
  apply NoDup_cons in Hnd as [Hk Hnd]. cbn [collectAll].
  assert ((list_to_map l : gmap string metricData) !! k = None) as Hn by by apply not_elem_of_list_to_map_1.
  assert (∃ e1, collectOne first e (k, m) = Some e1 ∧ qmName e1 = qmName e ∧ ∀ key,
    counterMap e1 !! key = (if decide (k = key) then
      if isDelta m then counterVec first (qmName e) m <$> counterMap e !! key else counterMap e !! key
      else counterMap e !! key)
    ∧ gaugeMap e1 !! key = (if decide (k = key) then
      if isDelta m then gaugeMap e !! key else gaugeVec first (qmName e) m <$> gaugeMap e !! key
      else gaugeMap e !! key)) as (e1 & E1 & Hq1 & H1).
  { destruct (Hd k m ltac:(by left)) as [v Hv]. unfold collectOne. destruct (isDelta m).
    - rewrite Hv. eexists; split; [done|]. split; [done|]. intros key. cbn. destruct (decide (k = key)) as [->|Hne].
      + by rewrite lookup_insert_eq, Hv.
      + by rewrite lookup_insert_ne.
    - rewrite Hv. eexists; split; [done|]. split; [done|]. intros key. cbn. destruct (decide (k = key)) as [->|Hne].
      + by rewrite lookup_insert_eq, Hv.
      + by rewrite lookup_insert_ne. }
  rewrite E1. destruct (IH e1 Hnd) as (e2 & E2 & Hq2 & H2).
  { intros key m' Hin. destruct (H1 key) as [Hc Hg]. rewrite Hc, Hg. destruct (decide (k = key)) as [->|_]; [|apply Hd; by right].
    destruct Hk. apply list_elem_of_fmap. by exists (key, m'). }
  exists e2. split; [exact E2|]. split; [congruence|]. intros key. destruct (H2 key) as [Hc Hg], (H1 key) as [Hc1 Hg1].
  rewrite Hc, Hg, Hc1, Hg1, Hq1. cbn [list_to_map foldr fst snd]. destruct (decide (k = key)) as [->|Hne].
  - by rewrite Hn, lookup_insert_eq.
  - by rewrite lookup_insert_ne.
Qed.

Lemma Collect_lookup r e : described r e → ∃ e', Collect r e = Some e' ∧ qmName e' = qmName e ∧ firstCollect e' = false ∧ ∀ key,
  counterMap e' !! key = match r !! key with
    | Some m => if isDelta m then counterVec (firstCollect e) (qmName e) m <$> counterMap e !! key else counterMap e !! key
    | None => counterMap e !! key
    end
  ∧ gaugeMap e' !! key = match r !! key with
    | Some m => if isDelta m then gaugeMap e !! key else gaugeVec (firstCollect e) (qmName e) m <$> gaugeMap e !! key
    | None => gaugeMap e !! key
    end.
Proof.
  intros Hd. destruct (collectAll_list (firstCollect e) (map_to_list r) e (NoDup_fst_map_to_list r)) as (e' & E & Hq & Hl).
  { intros key m Hin%elem_of_map_to_list. by apply Hd. }
  unfold Collect. rewrite E. eexists; split; [done|]. split; [done|]. split; [done|]. cbn.
  by rewrite list_to_map_to_list in Hl.
Qed.

(** ** Scrapes of a queue manager metric *)

(** The same metrics, of the same kind. *)
Definition same_kinds (r r' : gmap string metricData) : Prop := ∀ key, isDelta <$> r !! key = isDelta <$> r' !! key.

(** A metric of the queue manager itself: its values have one label. *)
Definition self_metric (delta : bool) (key : string) (r : gmap string metricData) : Prop :=
  ∃ m, r !! key = Some m ∧ isDelta m = delta ∧ nhaType m = false ∧ objectType m = false
    ∧ ∀ l, is_Some (values m !! l) → l = QMgrMapKey.

Definition self_value (key : string) (r : gmap string metricData) : option float := m ← r !! key; values m !! QMgrMapKey.

Definition counter_value (key : string) (e : exporter) : option float := v ← counterMap e !! key; samples v !! [qmName e].
Definition gauge_value (key : string) (e : exporter) : option float := v ← gaugeMap e !! key; samples v !! [qmName e].

(** What a counter adds up to. *)
Definition total (key : string) (rs : list (gmap string metricData)) (s : option float) : option float :=
  foldl (λ s r, match self_value key r with Some v => Some (f_add (default f_zero s) v) | None => s end) s rs.

Lemma self_list m : (∀ l, is_Some (values m !! l) → l = QMgrMapKey) →
  map_to_list (values m) = match values m !! QMgrMapKey with Some v => [(QMgrMapKey, v)] | None => [] end.
Proof.
  intros Hl. destruct (values m !! QMgrMapKey) as [v|] eqn:E.
  - assert (values m = {[QMgrMapKey := v]}) as ->; [|apply map_to_list_singleton].
    apply map_eq. intros l. destruct (decide (l = QMgrMapKey)) as [->|Hne]; [by rewrite lookup_singleton_eq|].
    rewrite lookup_singleton_ne by done. destruct (values m !! l) eqn:El; [|done]. destruct Hne. apply Hl. by rewrite El.
  - assert (values m = ∅) as ->; [|apply map_to_list_empty]. apply map_empty. intros l.
    destruct (values m !! l) eqn:El; [|done]. assert (l = QMgrMapKey) as -> by (apply Hl; by rewrite El). congruence.
Qed.

Lemma counterVec_self first qm m v : valid_utf8 qm = true → labels v = ["qmgr"] →
  (∀ l, is_Some (values m !! l) → l = QMgrMapKey) →
  labels (counterVec first qm m v) = ["qmgr"]
  ∧ samples (counterVec first qm m v) !! [qm] = if first then samples v !! [qm] else
      match values m !! QMgrMapKey with Some x => Some (f_add (default f_zero (samples v !! [qm])) x) | None => samples v !! [qm] end.
Proof.
  intros Hu Hv Hl. unfold counterVec. destruct first; [done|]. rewrite self_list by done.
  destruct (values m !! QMgrMapKey) as [x|]; [|done]. cbn [foldl]. unfold addSample, labelValues. cbn [fst snd].
  rewrite String.eqb_refl. unfold accepts. rewrite Hv. cbn [length forallb]. rewrite Hu. cbn. by rewrite lookup_insert_eq.
Qed.

Lemma gaugeVec_self first qm m v : valid_utf8 qm = true → labels v = ["qmgr"] →
  (∀ l, is_Some (values m !! l) → l = QMgrMapKey) →
  labels (gaugeVec first qm m v) = ["qmgr"]
  ∧ samples (gaugeVec first qm m v) !! [qm] = if first then None else values m !! QMgrMapKey.
Proof.
  intros Hu Hv Hl. unfold gaugeVec. destruct first; [done|]. rewrite self_list by done.
  destruct (values m !! QMgrMapKey) as [x|]; [|done]. cbn [foldl]. unfold setSample, labelValues. cbn [fst snd].
  rewrite String.eqb_refl. unfold accepts. cbn [labels set_samples]. rewrite Hv. cbn [length forallb]. rewrite Hu. cbn.
  by rewrite lookup_insert_eq.
Qed.

(** The state the scrapes keep, for the metrics [r0] described. *)
Record scraped (qm : string) (r0 : gmap string metricData) (e : exporter) : Prop := {
  scraped_name : qmName e = qm;
  scraped_kinds : ∀ key m, r0 !! key = Some m → is_Some (if isDelta m then counterMap e !! key else gaugeMap e !! key) }.

Lemma scraped_described qm r0 r e : scraped qm r0 e → same_kinds r0 r → described r e.
Proof.
  intros [_ Hs] Hk key m Hm. specialize (Hk key). rewrite Hm in Hk. cbn in Hk.
  destruct (r0 !! key) as [m0|] eqn:E; [|done]. cbn in Hk. injection Hk as <-. by apply Hs.
Qed.

Lemma Collect_scraped qm r0 r e : scraped qm r0 e → same_kinds r0 r → ∃ e', Collect r e = Some e'
  ∧ firstCollect e' = false ∧ scraped qm r0 e' ∧ ∀ key,
  counterMap e' !! key = match r !! key with
    | Some m => if isDelta m then counterVec (firstCollect e) qm m <$> counterMap e !! key else counterMap e !! key
    | None => counterMap e !! key
    end
  ∧ gaugeMap e' !! key = match r !! key with
    | Some m => if isDelta m then gaugeMap e !! key else gaugeVec (firstCollect e) qm m <$> gaugeMap e !! key
    | None => gaugeMap e !! key
    end.
Proof.
  intros Hs Hk. destruct (Collect_lookup r e (scraped_described _ _ _ _ Hs Hk)) as (e' & E & Hq & Hf & Hl).
  destruct Hs as [Hn Hs]. rewrite Hn in Hl. exists e'. split; [done|]. split; [done|]. split; [|done]. split; [congruence|].
  intros key m Hm. destruct (Hl key) as [-> ->]. specialize (Hs key m Hm).
  destruct (r !! key) as [m'|]; [|done]. destruct (isDelta m), (isDelta m'); by rewrite ?fmap_is_Some.
Qed.

(** A counter and a gauge of the queue manager over the scrapes. *)
Lemma counter_scrapes qm r0 key rs e v : valid_utf8 qm = true → scraped qm r0 e → firstCollect e = false →
  Forall (same_kinds r0) rs → Forall (self_metric true key) rs →
  counterMap e !! key = Some v → labels v = ["qmgr"] →
  ∃ e', Collects rs e = Some e' ∧ counter_value key e' = total key rs (samples v !! [qm]).
Proof.
  intros Hu. revert e v. induction rs as [|r rs IH]; intros e v Hs Hf Hk Hm Hv Hl.
  - exists e. split; [done|]. unfold counter_value. rewrite Hv. cbn. by rewrite (scraped_name _ _ _ Hs).
  - apply Forall_cons in Hk as [Hk Hks], Hm as [(m & Em & Hd & _ & _ & Hself) Hms].
    destruct (Collect_scraped qm r0 r e Hs Hk) as (e1 & E1 & Hf1 & Hs1 & Hl1). cbn [Collects]. rewrite E1.
    destruct (Hl1 key) as [Hc _]. rewrite Em, Hd, Hf, Hv in Hc. cbn [fmap option_fmap option_map] in Hc.
    destruct (counterVec_self false qm m v Hu Hl Hself) as [Hlab Hsam].
    destruct (IH e1 _ Hs1 Hf1 Hks Hms Hc Hlab) as (e' & E' & Ht). exists e'. split; [exact E'|]. rewrite Ht, Hsam.
    unfold total. cbn [foldl]. unfold self_value at 3. rewrite Em. cbn. by destruct (values m !! QMgrMapKey).
Qed.

Lemma gauge_scrapes qm r0 key rs r e v : valid_utf8 qm = true → scraped qm r0 e → firstCollect e = false →
  Forall (same_kinds r0) (rs ++ [r]) → Forall (self_metric false key) (rs ++ [r]) →
  gaugeMap e !! key = Some v → labels v = ["qmgr"] →
  ∃ e', Collects (rs ++ [r]) e = Some e' ∧ gauge_value key e' = self_value key r.
Proof.
  intros Hu. revert e v. induction rs as [|r1 rs IH]; intros e v Hs Hf Hk Hm Hv Hl; cbn [app] in *;
    apply Forall_cons in Hk as [Hk Hks], Hm as [(m & Em & Hd & _ & _ & Hself) Hms]; cbn [Collects];
    [destruct (Collect_scraped qm r0 r e Hs Hk) as (e1 & E1 & Hf1 & Hs1 & Hl1)
    |destruct (Collect_scraped qm r0 r1 e Hs Hk) as (e1 & E1 & Hf1 & Hs1 & Hl1)]; rewrite E1;
    destruct (Hl1 key) as [_ Hg]; rewrite Em, Hd, Hf, Hv in Hg; cbn [fmap option_fmap option_map] in Hg;
    destruct (gaugeVec_self false qm m v Hu Hl Hself) as [Hlab Hsam].
  - exists e1. split; [done|]. unfold gauge_value, self_value. rewrite Hg, Em. cbn. by rewrite (scraped_name _ _ _ Hs1).
  - by apply (IH e1 _ Hs1 Hf1 Hks Hms Hg Hlab).
Qed.
(** [Describe] establishes it. *)
Lemma described_scraped qm r0 : scraped qm r0 (Describe r0 (newExporter qm)).
Proof.
  split; [by destruct (Describe_lookup r0 (newExporter qm) "") as (_ & _ & -> & _)|]. intros key m Hm.
  destruct (Describe_lookup r0 (newExporter qm) key) as (-> & -> & _). rewrite Hm. by destruct (isDelta m).
Qed.

(** After [Describe] and the first scrape, which only records that it was made. *)
Lemma first_scrape qm r0 r : same_kinds r0 r → ∃ e, Collect r (Describe r0 (newExporter qm)) = Some e
  ∧ firstCollect e = false ∧ scraped qm r0 e
  ∧ (∀ key, self_metric true key r0 → ∃ v, counterMap e !! key = Some v ∧ labels v = ["qmgr"] ∧ samples v = ∅)
  ∧ (∀ key, self_metric false key r0 → ∃ v, gaugeMap e !! key = Some v ∧ labels v = ["qmgr"]).
Proof.
  intros Hk. pose proof (described_scraped qm r0) as Hs.
  destruct (Collect_scraped qm r0 r _ Hs Hk) as (e & E & Hf & Hs' & Hl). exists e. do 3 (split; [done|]).
  assert (firstCollect (Describe r0 (newExporter qm)) = true) as Hfst
    by by destruct (Describe_lookup r0 (newExporter qm) "") as (_ & _ & _ & ->).
  rewrite Hfst in Hl.
  split; intros key (m & Em & Hd & Hn & Ho & _); specialize (Hk key); rewrite Em in Hk; cbn in Hk;
    destruct (r !! key) as [m'|] eqn:E'; try done; cbn in Hk; injection Hk as Hk;
    destruct (Hl key) as [Hc Hg]; destruct (Describe_lookup r0 (newExporter qm) key) as (Hc0 & Hg0 & _);
    rewrite Em, Hd in Hc0, Hg0; rewrite E', <- Hk, Hd in Hc, Hg.
  - rewrite Hc, Hc0. eexists; split; [done|]. unfold vec_of, createVec. by rewrite Ho, Hn.
  - rewrite Hg, Hg0. eexists; split; [done|]. unfold vec_of, createVec. by rewrite Ho, Hn.
Qed.


(** A metric that was not described makes [Collect] panic. *)
Lemma Collect_undescribed r e key m : r !! key = Some m →
  (if isDelta m then counterMap e !! key else gaugeMap e !! key) = None → Collect r e = None.
Proof.
  intros Hm Hn. unfold Collect. enough (collectAll (firstCollect e) e (map_to_list r) = None) as -> by done.
  assert ((key, m) ∈ map_to_list r) as Hin by by apply elem_of_map_to_list.
  pose proof (NoDup_fst_map_to_list r) as Hnd. generalize (firstCollect e). intros first. clear Hm.
  revert e Hn. induction (map_to_list r) as [|[k m'] l IH]; intros e Hn; [by apply not_elem_of_nil in Hin|].
  cbn [collectAll]. destruct (collectOne first e (k, m')) as [e1|] eqn:E1; [|done]. cbn. unfold collectOne in E1.
  cbn [fmap list_fmap fst] in Hnd. apply NoDup_cons in Hnd as [Hk Hnd]. apply elem_of_cons in Hin as [[= -> ->]|Hin].
  - destruct (isDelta m'); rewrite Hn in E1; done.
  - apply IH; [done|done|]. assert (k ≠ key) as Hne.
    { intros ->. apply Hk. apply list_elem_of_fmap. by exists (key, m). }
    destruct (isDelta m'); [destruct (counterMap e !! k)|destruct (gaugeMap e !! k)]; try done; cbn in E1;
      injection E1 as <-; cbn; destruct (isDelta m); by rewrite ?lookup_insert_ne.
Qed.

(** ** The vectors are well formed *)

(** The names Prometheus accepts. *)
Definition is_letter (c : ascii) : bool :=
  ((65 <=? byteZ c) && (byteZ c <=? 90)) || ((97 <=? byteZ c) && (byteZ c <=? 122)).
Definition name_start (c : ascii) : bool := is_letter c || (c =b "_") || (c =b ":").
Definition valid_name (s : string) : bool :=
  match s with
  | EmptyString => false
  | String c t => name_start c && forallb (λ c, name_start c || is_digit c) (String.list_ascii_of_string t)
  end.
Definition valid_label (s : string) : bool := valid_name s && negb (Contains s ":").

(** A metric that [initialiseMetrics] makes comes from a row of the table. *)
Definition from_table (key : string) (m : metricData) : Prop :=
  ∃ l, MetricNames.find key = Some l ∧ name m = MetricNames.name l ∧ objectType m = false.

Definition all_from_table (r : gmap string metricData) : Prop := ∀ key m, r !! key = Some m → from_table key m.

Lemma initElements_table l st w : all_from_table st.1 → all_from_table (initElements st l w).1.1.
Proof.
  revert st w. induction l as [|[[c t] e] l IH]; intros st w Hst; [done|]. cbn [initElements]. rewrite bind_run. apply IH.
  unfold initElement. destruct (MetricNames.find (makeKey c t e)) as [row|] eqn:Ef; [|done].
  destruct (MetricNames.enabled row); [|done]. destruct (st.1 !! makeKey c t e) as [m0|]; [done|]. cbn. intros key m.
  destruct (decide (makeKey c t e = key)) as [<-|Hne].
  - rewrite lookup_insert_eq. intros [= <-]. by exists row.
  - rewrite lookup_insert_ne by done. apply Hst.
Qed.

Lemma initialised_table cs w : all_from_table (initialiseMetrics cs w).1.1.
Proof.
  unfold initialiseMetrics. rewrite bind_run.
  pose proof (initElements_table (visited cs) (∅, true) w) as Ht.
  destruct (initElements (∅, true) (visited cs) w) as [[ms v] w']. apply Ht. intros key m. cbn [fst]. by rewrite lookup_empty.
Qed.

Lemma find_row key row : MetricNames.find key = Some row → (key, row) ∈ MetricNames.generateMetricNamesMap.
Proof.
  unfold MetricNames.find. destruct (List.find _ _) as [[k r]|] eqn:E; [|done]. cbn. intros [= <-].
  apply find_some in E as [Hin Hk]. breflect. cbn in Hk. subst k. by apply list_elem_of_In.
Qed.

Lemma rows_nodup : NoDup ((λ x, MetricNames.name x.2) <$> MetricNames.generateMetricNamesMap).
Proof. by apply (bool_decide_unpack _); vm_compute. Qed.

Lemma NoDup_fmap_inj {A B} (f : A → B) (l : list A) x y : NoDup (f <$> l) → x ∈ l → y ∈ l → f x = f y → x = y.
Proof.
  intros Hnd Hx Hy Hf. apply list_elem_of_lookup in Hx as [i Hi], Hy as [j Hj].
  assert (i = j) as ->; [|congruence]. eapply NoDup_lookup; [exact Hnd|..]; rewrite list_lookup_fmap.
  - by rewrite Hi.
  - by rewrite Hj, Hf.
Qed.

Lemma rows_names : forallb (λ x, forallb (λ c, name_start c || is_digit c) (String.list_ascii_of_string (MetricNames.name x.2)))
  MetricNames.generateMetricNamesMap = true.
Proof. by vm_compute. Qed.

(** The vector of a metric after [Describe]. *)
Lemma described_vec r qm key v :
  counterMap (Describe r (newExporter qm)) !! key = Some v ∨ gaugeMap (Describe r (newExporter qm)) !! key = Some v →
  ∃ m, r !! key = Some m ∧ v = vec_of m.
Proof.
  destruct (Describe_lookup r (newExporter qm) key) as (-> & -> & _). cbn. rewrite lookup_empty.
  destruct (r !! key) as [m|]; [|naive_solver]. exists m. destruct (isDelta m); intuition congruence.
Qed.

Lemma vec_names m key : from_table key m → valid_name (fqName (vec_of m)) = true
  ∧ Forall (λ l, valid_label l = true) (labels (vec_of m)) ∧ NoDup (labels (vec_of m)).
Proof.
  intros (row & Hf & Hn & Ho). apply find_row, list_elem_of_In in Hf.
  pose proof rows_names as Hr. rewrite forallb_forall in Hr. specialize (Hr _ Hf). cbn [snd] in Hr. rewrite <- Hn in Hr.
  unfold vec_of, createVec. rewrite Ho. destruct (nhaType m); cbn [getVecDetails fqName labels]; (split; [by cbn|]);
    (split; [repeat constructor|]); apply (bool_decide_unpack _); by vm_compute.
Qed.

Lemma vec_names_inj m m' key key' : from_table key m → from_table key' m' → fqName (vec_of m) = fqName (vec_of m') → key = key'.
Proof.
  intros (row & Hf & Hn & Ho) (row' & Hf' & Hn' & Ho'). unfold vec_of, createVec. rewrite Ho, Ho'.
  destruct (nhaType m), (nhaType m'); cbn [getVecDetails fqName]; intros Hq; try done;
    rewrite Hn, Hn' in Hq; repeat apply sapp_inj_l in Hq; apply find_row in Hf, Hf';
    by pose proof (NoDup_fmap_inj _ _ _ _ rows_nodup Hf Hf' Hq) as [= ->].
Qed.

(** C21. Whatever the queue manager publishes, the vectors that [Describe] makes of the metrics
    of [initialiseMetrics] can be registered: their names and labels are ones Prometheus
    accepts, the labels of one vector differ, a metric is a counter or a gauge and not both,
    and two vectors never have one name. *)
Theorem vectors_well_formed cs w qm :
  let e := Describe (initialiseMetrics cs w).1.1 (newExporter qm) in
  let vectors key v := counterMap e !! key = Some v ∨ gaugeMap e !! key = Some v in
  (∀ key v, vectors key v → valid_name (fqName v) = true ∧ Forall (λ l, valid_label l = true) (labels v) ∧ NoDup (labels v))
  ∧ (∀ key, counterMap e !! key = None ∨ gaugeMap e !! key = None)
  ∧ ∀ key key' v v', vectors key v → vectors key' v' → fqName v = fqName v' → key = key'.
Proof.
  pose proof (initialised_table cs w) as Ht. cbn zeta. split; [|split].
  - intros key v (m & Hm & ->)%described_vec. by apply (vec_names m key), Ht.
  - intros key. destruct (Describe_lookup (initialiseMetrics cs w).1.1 (newExporter qm) key) as (-> & -> & _). cbn.
    rewrite !lookup_empty. destruct (_ !! key) as [m|]; [|by left]. destruct (isDelta m); auto.
  - intros key key' v v' (m & Hm & ->)%described_vec (m' & Hm' & ->)%described_vec.
    by apply vec_names_inj; apply Ht.
Qed.
End laws.

(** ** A queue manager to evaluate on: values are integers *)

Definition integers : Mqmetric := {| float := Z; f_zero := 0; f_add := Z.add; Normalise _ _ v := v |}.

Definition puts (v : Z) : gmap string (@metricData integers) :=
  {["STATMQI/PUT/Interval total MQPUT/MQPUT1 count" :=
      @Metric integers "mqput_mqput1_total" "Interval total MQPUT/MQPUT1 count" false false ({[QMgrMapKey := v]} : gmap string Z) true]}.

Lemma puts_self v : @self_metric integers true "STATMQI/PUT/Interval total MQPUT/MQPUT1 count" (puts v).
Proof.
  eexists. split; [apply lookup_singleton_eq|]. do 3 (split; [done|]). intros l [x Hx].
  by apply (lookup_singleton_Some QMgrMapKey l v x) in Hx as [<- _].
Qed.

Lemma puts_kinds v v' : @same_kinds integers (puts v) (puts v').
Proof. intros key. unfold puts. destruct (decide ("STATMQI/PUT/Interval total MQPUT/MQPUT1 count" = key)) as [<-|Hne];
  [by rewrite !lookup_singleton_eq|by rewrite !lookup_singleton_ne by done]. Qed.

End Metrics.
