(* ===== verification/Gather.v ===== *)
(** * The goroutine that gathers the metrics (internal/metrics/update.go: processMetrics, doConnect)

    It connects to the queue manager, answers the requests of the exporter until something
    fails, closes the connection, and connects again after a while.  It is a state machine: its
    events are what the calls of package mqmetric and its channels give.  Together with the exporter of
    Metrics.v, which reads the answers. *)
From S2P Require Import Prelude Utf8 GoStrings Paths Os MetricNames Metrics.
Import Metrics.

Open Scope Z_scope.

Module Gather.

Section gather.
Context `{Mqmetric}.

Definition requestTimeout : Z := 10.

(** ** Connecting *)

(** The errors of [InitConnection] and [DiscoverAndSubscribe], and the classes discovered. *)
Record attempt := Attempt {
  InitConnection : option error;
  DiscoverAndSubscribe : option error;
  Classes : list monClass }.

Definition doConnect (qmName : string) (a : attempt) : option error :=
  match InitConnection a with
  | Some e => Some (Wrap ("Failed to connect to queue manager " +:+ qmName) e)
  | None =>
      match DiscoverAndSubscribe a with
      | Some e => Some (Wrap "Failed to discover and subscribe to metrics" e)
      | None => None
      end
  end.

(** ** The loop *)

(** At [doConnect]; between two calls of [ProcessPublications]; after the connection was closed; returned. *)
Inductive phase := Connecting | Serving | Waiting | Stopped.

#[export] Instance phase_eq_dec : EqDecision phase.
Proof. solve_decision. Defined.

(** [starts] counts what was sent to [startChannel], [answers] is what was sent to
    [responseChannel], oldest first, and [connected] says whether there is an open connection. *)
Record pstate := PState {
  at_ : phase;
  firstConnect : bool;
  starts : nat;
  metrics_ : gmap string metricData;
  answers : list (gmap string metricData);
  connected : bool }.

Inductive pevent :=
| Connect (a : attempt)
| PublicationsFailed (e : error)            (* [ProcessPublications] fails *)
| Request (collect : bool) (cs : list monClass)   (* with what is published by then *)
| Stop
| Timeout.

Definition initial : pstate := PState Connecting true 0 ∅ [] false.

(** The error ends the inner loop: it is logged and the connection is closed. *)
Definition disconnect (e : error) (s : pstate) : M (option pstate) :=
  _ ← log ERROR ("Metrics Error: " +:+ Error_ e);
  mret (Some (PState Waiting (firstConnect s) (starts s) (metrics_ s) (answers s) false)).

Definition stopped (s : pstate) : M (option pstate) :=
  _ ← log INFO "Stopping metrics gathering";
  mret (Some (PState Stopped (firstConnect s) (starts s) (metrics_ s) (answers s) false)).

(** [None] when the event cannot happen. *)
Definition processMetrics (qmName : string) (e : pevent) (s : pstate) : M (option pstate) :=
  match at_ s, e with
  | Connecting, Connect a =>
      match doConnect qmName a with
      | Some e => disconnect e s
      | None =>
          '(m, _) ← initialiseMetrics (Classes a);
          mret (Some (PState Serving false (if firstConnect s then S (starts s) else starts s) m (answers s) true))
      end
  | Serving, PublicationsFailed e => disconnect e s
  | Serving, Request collect cs =>
      let metrics := if collect then (updateMetrics cs (metrics_ s)).2 else metrics_ s in
      mret (Some (PState Serving (firstConnect s) (starts s) metrics (answers s ++ [metrics]) true))
  | Serving, Timeout =>
      _ ← log DEBUG ("Metrics: No requests received within timeout period (" +:+ Itoa requestTimeout +:+ " seconds)");
      mret (Some s)
  | Serving, Stop | Waiting, Stop => stopped s
  | Waiting, Timeout =>
      _ ← log INFO "Retrying metrics gathering";
      mret (Some (PState Connecting (firstConnect s) (starts s) (metrics_ s) (answers s) false))
  | _, _ => mret None
  end.

Fixpoint prun (qmName : string) (l : list pevent) (s : pstate) : M (option pstate) :=
  match l with
  | [] => mret (Some s)
  | e :: l =>
      s ← processMetrics qmName e s;
      match s with Some s => prun qmName l s | None => mret None end
  end.

(** ** What the events do to the state *)

Definition connects (qmName : string) (e : pevent) : bool :=
  match e with Connect a => bool_decide (doConnect qmName a = None) | _ => false end.
Definition is_connect (e : pevent) : bool := match e with Connect _ => true | _ => false end.
Definition is_request (e : pevent) : bool := match e with Request _ _ => true | _ => false end.
Definition is_stop (e : pevent) : bool := match e with Stop => true | _ => false end.

(** A connection is open exactly while requests are served, there is one signal of the start, with
    the first connection, and the metrics are ones of the table. *)
Record wf (s : pstate) : Prop := {
  wf_connected : connected s = bool_decide (at_ s = Serving);
  wf_starts : starts s = if firstConnect s then 0%nat else 1%nat;
  wf_serving : at_ s = Serving → firstConnect s = false;
  wf_metrics : all_from_table (metrics_ s);
  wf_answers : Forall all_from_table (answers s) }.

Lemma update_lookup cs m key : (updateMetrics cs m).2 !! key = m !! key
  ∨ ∃ x v, m !! key = Some x ∧ (updateMetrics cs m).2 !! key = Some (set_values v x).
Proof.
  unfold updateMetrics. cbn [snd]. revert m. induction (visited cs) as [|[[c t] e] l IH]; intros m; [by left|]. cbn [foldl].
  set (m1 := updateElement m (c, t, e)).
  assert (m1 !! key = m !! key ∨ ∃ x v, m !! key = Some x ∧ m1 !! key = Some (set_values v x)) as H1.
  { unfold m1, updateElement. destruct (decide (makeKey c t e = key)) as [->|Hne]; [|left; by rewrite lookup_alter_ne].
    rewrite lookup_alter_eq. destruct (m !! key) as [x|]; [right|by left]. cbn. eauto. }
  destruct (IH m1) as [E|(x & v & Ex & E)], H1 as [E1|(x1 & v1 & Ex1 & E1)]; rewrite ?E, ?E1 in *; eauto.
  right. injection Ex as <-. eexists _, v. split; [done|]. by destruct x1.
Qed.

Lemma update_table cs m : all_from_table m → all_from_table (updateMetrics cs m).2.
Proof.
  intros Hm key y. destruct (update_lookup cs m key) as [->|(x & v & Ex & ->)]; [apply Hm|].
  intros [= <-]. destruct (Hm key x Ex) as (row & ? & ? & ?). by exists row.
Qed.

Lemma update_kinds cs m : same_kinds m (updateMetrics cs m).2.
Proof. intros key. destruct (update_lookup cs m key) as [->|(x & v & -> & ->)]; done. Qed.

(** What an event does, by cases; the world plays no part. *)
Definition stepped (qmName : string) (e : pevent) (s s' : pstate) : Prop :=
  answers s' = answers s ++ (if is_request e then [metrics_ s'] else [])
  ∧ firstConnect s' = firstConnect s && negb (connects qmName e)
  ∧ (is_stop e = true ↔ at_ s' = Stopped)
  ∧ (is_connect e = false → same_kinds (metrics_ s) (metrics_ s'))
  ∧ at_ s ≠ Stopped.

Lemma step_spec qmName e s w s' w' : wf s → processMetrics qmName e s w = (Some s', w') →
  wf s' ∧ stepped qmName e s s'.
Proof.
  intros [Hc Hst Hf Hm Ha]. unfold processMetrics, disconnect, stopped, stepped.
  destruct (at_ s) eqn:Ep, e as [a|er|col cs| |]; try done; cbn [is_request is_stop is_connect connects];
    rewrite ?andb_true_r, ?app_nil_r.
  - destruct (doConnect qmName a) as [er|] eqn:Ed; rewrite bind_run; cbn [fst snd].
    + intros [= <- _]. cbn [negb at_ firstConnect answers metrics_]. rewrite andb_true_r. split; [by split|by split_and!].
    + pose proof (initialised_table (Classes a) w) as Ht.
      destruct (initialiseMetrics (Classes a) w) as [[m er] w1]. cbn [fst snd] in *. intros [= <- _].
      cbn [negb at_ firstConnect answers metrics_]. rewrite andb_false_r. split; [|by split_and!].
      split; cbn; try done. rewrite Hst. by destruct (firstConnect s).
  - rewrite bind_run. intros [= <- _]. split; [by split|by split_and!].
  - intros [= <- _]. cbn [at_ firstConnect answers metrics_].
    assert (all_from_table (if col then (updateMetrics cs (metrics_ s)).2 else metrics_ s)) as Ht
      by (destruct col; auto using update_table).
    split; [split; cbn; auto; apply Forall_app; by repeat constructor|]. split_and!; try done.
    intros _. destruct col; [apply update_kinds|]. by intros key.
  - rewrite bind_run. intros [= <- _]. split; [by split|by split_and!].
  - rewrite bind_run. intros [= <- _]. rewrite Ep. split; [by split; rewrite ?Ep|by split_and!].
  - rewrite bind_run. intros [= <- _]. split; [by split|by split_and!].
  - rewrite bind_run. intros [= <- _]. split; [by split|by split_and!].
Qed.

Lemma same_kinds_trans r1 r2 r3 : same_kinds r1 r2 → same_kinds r2 r3 → same_kinds r1 r3.
Proof. intros H1 H2 key. by rewrite H1, H2. Qed.

(** The same for a run: the answers, the first connection, the last event and the kinds. *)
Lemma prun_spec qmName l s w s' w' : wf s → prun qmName l s w = (Some s', w') →
  wf s' ∧ length (answers s') = (length (answers s) + length (filter is_request l))%nat
  ∧ firstConnect s' = firstConnect s && negb (existsb (connects qmName) l)
  ∧ match list.last l with Some e => is_stop e = true ↔ at_ s' = Stopped | None => s' = s end
  ∧ (existsb is_connect l = false → ∃ rs, answers s' = answers s ++ rs
       ∧ Forall (same_kinds (metrics_ s)) (metrics_ s' :: rs)).
Proof.
  revert s w. induction l as [|e l IH]; intros s w Hs; cbn [prun].
  { intros [= <- _]. cbn. rewrite andb_true_r. do 2 (split; [done || lia|]). do 2 (split; [done|]). intros _. exists [].
    rewrite app_nil_r. split; [done|]. repeat constructor. }
  rewrite bind_run. destruct (processMetrics qmName e s w) as [[s1|] w1] eqn:E; [|done]. cbn [fst snd].
  intros Hr. destruct (step_spec _ _ _ _ _ _ Hs E) as (Hs1 & Ha1 & Hf1 & Hst1 & Hk1 & _).
  destruct (IH s1 w1 Hs1 Hr) as (Hs' & Ha' & Hf' & Hst' & Hk'). split; [done|]. split_and!.
  - rewrite Ha', Ha1, length_app. destruct (is_request e) eqn:Er.
    + rewrite filter_cons_True by by rewrite Er. cbn. lia.
    + rewrite filter_cons_False by (rewrite Er; by intros []). cbn. lia.
  - rewrite Hf', Hf1. cbn [existsb]. by destruct (firstConnect s), (connects qmName e), (existsb _ l).
  - destruct l as [|e' l]; [cbn in *; by subst s'|].
    rewrite last_cons_cons. destruct (list.last (e' :: l)) eqn:El; [exact Hst'|by apply last_None in El].
  - cbn [existsb]. intros [He Hl]%orb_false_iff. destruct (Hk' Hl) as (rs & -> & Hrs). specialize (Hk1 He). rewrite Ha1.
    exists ((if is_request e then [metrics_ s1] else []) ++ rs). split; [by rewrite app_assoc|].
    inversion_clear Hrs as [|? ? Hm Hrs1]. constructor; [by eapply same_kinds_trans|].
    apply Forall_app; split; [destruct (is_request e); by repeat constructor|].
    eapply Forall_impl; [exact Hrs1|]. intros r. by apply same_kinds_trans.
Qed.

Lemma initial_wf : wf initial.
Proof. by split. Qed.

(** A stop ends it at once, or after the connection that is being made. *)
Lemma stop_ends qmName s a w : at_ s ≠ Stopped → ∃ s' w',
  prun qmName (if bool_decide (at_ s = Connecting) then [Connect a; Stop] else [Stop]) s w = (Some s', w')
  ∧ at_ s' = Stopped ∧ connected s' = false.
Proof.
  intros Hs. destruct (at_ s) eqn:Ep; try done.
  - rewrite bool_decide_true by done. cbn [prun]. rewrite bind_run. unfold processMetrics at 1. rewrite Ep.
    destruct (doConnect qmName a) as [e|]; unfold disconnect; rewrite bind_run.
    + cbn [fst snd mret M_ret]. rewrite bind_run. cbn. eauto.
    + destruct (initialiseMetrics (Classes a) w) as [[m er] w1]. cbn [fst snd mret M_ret]. rewrite bind_run. cbn. eauto.
  - rewrite bool_decide_false by done. cbn [prun]. rewrite bind_run. unfold processMetrics. rewrite Ep. cbn. eauto.
  - rewrite bool_decide_false by done. cbn [prun]. rewrite bind_run. unfold processMetrics. rewrite Ep. cbn. eauto.
Qed.

(** C22. Whatever fails, the goroutine keeps its promises to the others: the start is signalled exactly once, with
    the first connection; every request has one answer, whose metrics are ones of the table; the connection is open
    exactly while requests are served; it returns only for a stop, and a stop ends it, connection closed, at once or after
    the attempt to connect under way. *)
Theorem gathering_lifecycle qmName l w s w' : prun qmName l initial w = (Some s, w') →
  starts s = (if existsb (connects qmName) l then 1 else 0)%nat
  ∧ length (answers s) = length (filter is_request l) ∧ Forall all_from_table (answers s)
  ∧ connected s = bool_decide (at_ s = Serving)
  ∧ (at_ s = Stopped ↔ list.last l = Some Stop)
  ∧ (at_ s ≠ Stopped → ∀ a w, ∃ s' w',
       prun qmName (if bool_decide (at_ s = Connecting) then [Connect a; Stop] else [Stop]) s w = (Some s', w')
       ∧ at_ s' = Stopped ∧ connected s' = false).
Proof.
  intros Hr. destruct (prun_spec _ _ _ _ _ _ initial_wf Hr) as ([Hc Hst _ _ Ha] & Hl & Hf & Hlast & _).
  split_and!; try done.
  - rewrite Hst, Hf. cbn [initial firstConnect andb]. by destruct (existsb _ l).
  - destruct (list.last l) as [e|]; [rewrite <- Hlast; by destruct e|]. by subst s.
  - intros Hn a w1. by apply stop_ends.
Qed.

(** ** With the exporter *)

Lemma Collects_some qm r0 rs e : scraped qm r0 e → Forall (same_kinds r0) rs → is_Some (Collects rs e).
Proof.
  revert e. induction rs as [|r rs IH]; intros e He Hrs; [by eexists|]. apply Forall_cons in Hrs as [Hr Hrs].
  destruct (Collect_scraped qm r0 r e He Hr) as (e1 & E & _ & He1 & _). cbn [Collects]. rewrite E. by apply IH.
Qed.


End gather.

(** ** A queue manager to evaluate on *)

Definition published (v : Z) : list monClass :=
  [Class_ "STATMQI" [Type_ "PUT" "$SYS/MQ" [Element "Interval total MQPUT/MQPUT1 count" MQIAMO_MONITOR_DELTA {[QMgrMapKey := v]}]]].

Definition unavailable : pevent := Connect (Attempt (Some (Errorf "MQCONN: MQRC 2059")) None []).
Definition available : pevent := Connect (Attempt None None (published 0)).

Definition gather (l : list pevent) (s : @pstate integers) : option (@pstate integers) * world :=
  @prun integers "QM1" l s (world_of [] []).

(** The queue manager is not there at first; then it is described and scraped. *)
Definition session : list pevent :=
  [unavailable; Timeout; available; Request false (published 0); Request true (published 7); Stop].

Lemma gathering_lifecycle_witness : ∃ s w', gather session initial = (Some s, w')
  ∧ starts s = 1%nat ∧ length (answers s) = 2%nat ∧ at_ s = Stopped.
Proof.
  destruct (gather session initial) as [[s|] w'] eqn:E; [|exfalso; vm_compute in E; discriminate].
  destruct (@gathering_lifecycle integers "QM1" session (world_of [] []) s w' E) as (Hs & Hl & _ & _ & Hst & _).
  exists s, w'. split; [reflexivity|]. split; [exact Hs|]. split; [exact Hl|]. apply Hst. reflexivity.
Defined.

Definition serving : @pstate integers := default initial (gather [available] initial).1.

Lemma serving_wf : wf serving.
Proof. by destruct (prun_spec "QM1" [available] initial (world_of [] []) serving (gather [available] initial).2 initial_wf) as [Hw _]. Qed.

Definition scraping : list pevent := [Request false (published 0); Request true (published 7); Timeout; Request true (published 5)].


End Gather.
