(* ===== verification/Watch.v ===== *)
(** * The metrics server and its certificate (internal/metrics/tlswatch.go, metrics.go)

    Loading the certificate from the mounted files, and the two goroutines that reload it
    when the files change.  The goroutines are a state machine, whose events are what
    their channels and timers give; the disk can be another one at each event.  Package
    crypto/tls is the class [KeyPairs].  Then the decisions of metrics.go: whether to use TLS,
    the start of the gathering and its end. *)
From S2P Require Import Prelude Utf8 GoStrings Paths Os LogRotation Ready.

Open Scope Z_scope.

(** [tls.X509KeyPair], and the serial number of its certificate in hexadecimal. *)
Class KeyPairs := {
  keyPair : Type;
  X509KeyPair : string → string → res keyPair;
  leafSerial : keyPair → res string }.

Module Watch.

Section watch.
Context `{OS} `{KeyPairs}.

Record certificateMonitor := Monitor { certDir : string; cert : option keyPair; certSerial : string }.

Definition newCertificateMonitor (certDir : string) : certificateMonitor := Monitor certDir None "".

(** [latestCert] *)
Definition latestCert (cm : certificateMonitor) : option keyPair := cert cm.

(** ** Loading *)

Definition ends_line (s : string) : bool := HasSuffix s (s1 "010").

(** The line feed is added after the certificate that is read, when the text before it has none. *)
Definition appendPEM (certPEM cert : string) : string :=
  certPEM +:+ (if negb (certPEM =s "") && negb (ends_line certPEM) then cert +:+ s1 "010" else cert).

Fixpoint readCerts (certFiles : list string) (certPEM : string) : M (res string) :=
  match certFiles with
  | [] => mret (Ok certPEM)
  | certFile :: certFiles =>
      cert ← ReadFile (Clean certFile);
      match cert with
      | Err e => if IsNotExist e then readCerts certFiles certPEM
                 else mret (Err (Wrap ("failed to read cert file (" +:+ certFile +:+ ")") e))
      | Ok cert => readCerts certFiles (appendPEM certPEM cert)
      end
  end.

(** The key pair on disk, with its serial number. *)
Definition loadPair (certDir : string) : M (res (keyPair * string)) :=
  certPEM ← readCerts [certDir +:+ "/tls.crt"; certDir +:+ "/ca.crt"] "";
  match certPEM with
  | Err e => mret (Err e)
  | Ok certPEM =>
      keyPEM ← ReadFile (Clean (certDir +:+ "/tls.key"));
      match keyPEM with
      | Err e => mret (Err (Wrap ("failed to read key file (" +:+ certDir +:+ "/tls.key)") e))
      | Ok keyPEM =>
          match X509KeyPair certPEM keyPEM with
          | Err e => _ ← log ERROR ("error loading key pair: " +:+ Error_ e); mret (Err e)
          | Ok newCertPair =>
              match leafSerial newCertPair with
              | Err e => _ ← log ERROR ("error reading certificate serial: " +:+ Error_ e); mret (Err e)
              | Ok serial => mret (Ok (newCertPair, serial))
              end
          end
      end
  end.

Definition updateCert (updateTrigger : string) (cm : certificateMonitor) : M (certificateMonitor * option error) :=
  p ← loadPair (certDir cm);
  match p with
  | Err e => mret (cm, Some e)
  | Ok (newCertPair, serial) =>
      _ ← (if negb (serial =s certSerial cm)
           then print_stderr ("HTTPS metrics TLS certificate reload triggered by " +:+ updateTrigger +:+
                  ", Loaded new certificate (serial: " +:+ serial +:+ ")")
           else mret tt);
      mret (Monitor (certDir cm) (Some newCertPair) serial, None)
  end.

(** ** Watching *)

(** The goroutine that updates: waiting for a trigger, sleeping after one, in [updateCert], or ended. *)
Inductive updater := Idle | Debouncing (source : string) | Loading | Ended.

Record watcher := Watcher { monitor : certificateMonitor; updater_ : updater; detecting : bool; cancelled : bool }.

Inductive event :=
| FsEvent | Tick       (* the goroutine that detects changes *)
| Debounced            (* the sleep is over: the files are read *)
| Loaded               (* [updateCert] returns *)
| Cancel               (* [stop] *)
| DetectorDone | UpdaterDone.

(** A trigger is given only to a goroutine that waits for it. *)
Definition triggerUpdate (source : string) (s : watcher) : watcher :=
  match updater_ s with
  | Idle => Watcher (monitor s) (Debouncing source) (detecting s) (cancelled s)
  | _ => s
  end.

(** [None] when the event cannot happen. *)
Definition step (e : event) (s : watcher) : M (option watcher) :=
  match e, updater_ s with
  | FsEvent, _ => mret (if detecting s then Some (triggerUpdate "fsevent" s) else None)
  | Tick, _ => mret (if detecting s then Some (triggerUpdate "poll" s) else None)
  | Debounced, Debouncing source =>
      '(cm, err) ← updateCert source (monitor s);
      _ ← match err with
          | Some e => log ERROR ("error loading updated certificate pair for metrics server: " +:+ Error_ e)
          | None => mret tt
          end;
      mret (Some (Watcher cm Loading (detecting s) (cancelled s)))
  | Loaded, Loading => mret (Some (Watcher (monitor s) Idle (detecting s) (cancelled s)))
  | Cancel, u => mret (Some (Watcher (monitor s) u (detecting s) true))
  | DetectorDone, u => mret (if cancelled s then Some (Watcher (monitor s) u false true) else None)
  | UpdaterDone, Idle => mret (if cancelled s then Some (Watcher (monitor s) Ended (detecting s) true) else None)
  | _, _ => mret None
  end.

(** Package fsnotify: the error of [NewWatcher], and of [Add] for a directory. *)
Record Fsnotify := { NewWatcher : option error; Add : string → option error }.

Definition watch (fs : Fsnotify) (cm : certificateMonitor) : res watcher :=
  match NewWatcher fs with
  | Some e => Err (Wrap "failed to set up fsnotify" e)
  | None =>
      match Add fs (certDir cm) with
      | Some e => Err (Wrap "failed to watch certificate directory" e)
      | None => Ok (Watcher cm Idle true false)
      end
  end.

Definition loadAndWatchCertificates (fs : Fsnotify) (certDir : string) : M (res watcher) :=
  '(cm, err) ← updateCert "startup" (newCertificateMonitor certDir);
  match err with
  | Some e => mret (Err e)
  | None => mret (watch fs cm)
  end.

(** A run: the events in order, each with the disk at its time. *)
Fixpoint runs (l : list (world * event)) (s : watcher) : option watcher :=
  match l with
  | [] => Some s
  | (w, e) :: l => s ← (step e s w).1; runs l s
  end.

(** ** metrics.go *)

Definition keyDirMetrics : string := "/etc/mqm/metrics/pki/keys".

Definition isHTTPSMetricsEnabled (keyDirectory : string) : M (res bool) :=
  l ← ReadDir keyDirectory;
  match l with
  | Err e => mret (if Contains (Error_ e) "no such file or directory" then Ok false
                   else Err (Wrap ("Unable to read files in '" +:+ keyDirectory +:+ "'") e))
  | Ok [] => mret (Ok false)
  | Ok files =>
      let certFile := existsb (String.eqb "tls.crt") files in
      let keyFile := existsb (String.eqb "tls.key") files in
      if certFile && keyFile then mret (Ok true)
      else
        _ ← (if negb certFile then log ERROR ("Metrics Error: Unable to find required file 'tls.crt' in '" +:+ keyDirectory +:+ "'") else mret tt);
        _ ← (if negb keyFile then log ERROR ("Metrics Error: Unable to find required file 'tls.key' in '" +:+ keyDirectory +:+ "'") else mret tt);
        mret (Err (Errorf "Missing files required for HTTPS"))
  end.

Definition auditLog : LogRotation.RotatingLogger :=
  LogRotation.NewRotatingLogger "/var/mqm/errors" "metricaudit%02d.json" (4 * 1024 * 1024) 3.

(** The server that is started: with TLS when there is a watcher, and whether its requests are audited. *)
Record server := Server { tlsWatcher : option watcher; audited : bool }.

(** The collection of the metrics is started in between, and waited for; registering with
    Prometheus and fsnotify can fail. *)
Definition startMetricsGathering (register : option error) (fsnotify : Fsnotify) : M (res server) :=
  https ← isHTTPSMetricsEnabled keyDirMetrics;
  match https with
  | Err e => mret (Err (Wrap "Failed to validate HTTPS metrics configuration" e))
  | Ok httpsMetricsEnabled =>
      audit ← Getenv "MQ_LOGGING_METRICS_AUDIT_ENABLED";
      err ← (if audit =s "true" then LogRotation.Init auditLog else mret None);
      match err with
      | Some e => mret (Err (Wrap "Failed to set up metric audit log" e))
      | None =>
          _ ← log INFO (if httpsMetricsEnabled : bool then "Starting HTTPS metrics gathering"
                        else "Starting HTTP (insecure) metrics gathering");
          match register with
          | Some e => mret (Err (Wrap "Failed to register metrics" e))
          | None =>
              if httpsMetricsEnabled : bool then
                w ← loadAndWatchCertificates fsnotify keyDirMetrics;
                mret (match w with
                      | Err e => Err (Wrap "failed to set up TLS certificate monitor" e)
                      | Ok w => Ok (Server (Some w) (audit =s "true"))
                      end)
              else mret (Ok (Server None (audit =s "true")))
          end
      end
  end.

(** ** Gathering and stopping *)

(** [metricsEnabled], the stops in the buffer of [stopChannel], and whether requests are served. *)
Record gathering := Gathering { metricsEnabled : bool; stopChannel : nat; serving : bool }.

Definition stopCapacity : nat := 2.

(** [None] when the send blocks; the error of [Shutdown] is the argument. *)
Definition StopMetricsGathering (shutdown : option error) (g : gathering) : M (option gathering) :=
  if negb (metricsEnabled g) then mret (Some g) else
  if bool_decide (stopCapacity ≤ stopChannel g)%nat then mret None else
  _ ← match shutdown with Some e => log ERROR ("Failed to shutdown metrics server: " +:+ Error_ e) | None => mret tt end;
  mret (Some (Gathering true (S (stopChannel g)) false)).

(** The loop before: the world at each poll of the status. *)
Fixpoint waitActive (qmName : string) (polls : list world) : bool :=
  match polls with
  | [] => false
  | w :: polls => Ready.ActiveQM (Ready.Status qmName w).1.1 || waitActive qmName polls
  end.

(** [None] while it waits, and when stopping blocks. *)
Definition GatherMetrics (qmName : string) (polls : list world) (register : option error) (fsnotify : Fsnotify) (shutdown : option error)
    (g : gathering) : M (option gathering) :=
  if negb (waitActive qmName polls) then mret None else
  r ← startMetricsGathering register fsnotify;
  match r with
  | Ok _ => mret (Some (Gathering true (stopChannel g) true))
  | Err e =>
      _ ← log ERROR ("Metrics Error: " +:+ Error_ e);
      StopMetricsGathering shutdown (Gathering true (stopChannel g) (serving g))
  end.

(** The server's goroutine: what it does when [ListenAndServe] returns an error other than
    that the server was closed. *)
Definition serverFailed (e : error) (shutdown : option error) (g : gathering) : M (option gathering) :=
  _ ← log ERROR ("Metrics Error: Failed to handle metrics request: " +:+ Error_ e);
  StopMetricsGathering shutdown g.

(** The certificate of a connection: [GetCertificate]. *)
Definition GetCertificate (w : watcher) : res keyPair :=
  match latestCert (monitor w) with Some c => Ok c | None => Err (Errorf "no certificate loaded") end.

End watch.

(** ** What is served *)

Section laws.
Context `{OS} `{KeyPairs}.

(** The key pair of a disk. *)
Definition disk (dir : string) (w : world) : res (keyPair * string) := (loadPair dir w).1.

(** The certificate after an event: another one only when a load succeeds. *)
Definition next_cert (dir : string) (c : option keyPair) (x : world * event) : option keyPair :=
  match x.2, disk dir x.1 with Debounced, Ok (p, _) => Some p | _, _ => c end.

Lemma updateCert_run src cm w : (updateCert src cm w).1 = match disk (certDir cm) w with
  | Ok (p, serial) => (Monitor (certDir cm) (Some p) serial, None)
  | Err e => (cm, Some e)
  end.
Proof.
  unfold updateCert, disk. rewrite bind_run. destruct (loadPair (certDir cm) w) as [[[p serial]|e] w1]; [|done].
  cbn [fst snd]. rewrite bind_run. by destruct (negb _).
Qed.

Lemma step_cert e s w s' : (step e s w).1 = Some s' →
  certDir (monitor s') = certDir (monitor s) ∧ cert (monitor s') = next_cert (certDir (monitor s)) (cert (monitor s)) (w, e).
Proof.
  unfold next_cert. cbn [fst snd]. destruct e; unfold step.
  - cbn. destruct (detecting s); [|done]. intros [= <-]. unfold triggerUpdate. by destruct (updater_ s).
  - cbn. destruct (detecting s); [|done]. intros [= <-]. unfold triggerUpdate. by destruct (updater_ s).
  - destruct (updater_ s) as [|src| |]; try done. rewrite bind_run. pose proof (updateCert_run src (monitor s) w) as Hu.
    destruct (updateCert src (monitor s) w) as [[cm err] w1]. cbn [fst snd] in *.
    rewrite bind_run. cbn. intros [= <-]. cbn [monitor].
    destruct (disk (certDir (monitor s)) w) as [[p serial]|er]; injection Hu as -> _; done.
  - destruct (updater_ s); try done. by intros [= <-].
  - by intros [= <-].
  - cbn. destruct (cancelled s); [|done]. by intros [= <-].
  - destruct (updater_ s); try done. cbn. destruct (cancelled s); [|done]. by intros [= <-].
Qed.

Lemma runs_cert l s s' : runs l s = Some s' → certDir (monitor s') = certDir (monitor s)
  ∧ cert (monitor s') = foldl (next_cert (certDir (monitor s))) (cert (monitor s)) l.
Proof.
  revert s. induction l as [|[w e] l IH]; intros s; [by intros [= <-]|]. cbn [runs].
  destruct (step e s w).1 as [s1|] eqn:E; [|done]. cbn. intros Hr. apply step_cert in E as [Hd Hc].
  apply IH in Hr as [Hd' Hc']. rewrite Hd', Hc', Hd, Hc. done.
Qed.

Lemma next_cert_some dir l c : is_Some c → is_Some (foldl (next_cert dir) c l).
Proof.
  revert c. induction l as [|x l IH]; intros c Hc; [done|]. apply IH. unfold next_cert.
  destruct (x.2); try done. by destruct (disk dir x.1) as [[p serial]|].
Qed.

Lemma load_started fs dir w0 s : (loadAndWatchCertificates fs dir w0).1 = Ok s →
  ∃ p serial, disk dir w0 = Ok (p, serial) ∧ s = Watcher (Monitor dir (Some p) serial) Idle true false.
Proof.
  unfold loadAndWatchCertificates. rewrite bind_run. pose proof (updateCert_run "startup" (newCertificateMonitor dir) w0) as Hu.
  destruct (updateCert _ _ w0) as [[cm err] w1]. cbn [fst snd] in *. cbn [newCertificateMonitor certDir] in Hu.
  destruct (disk dir w0) as [[p serial]|e]; injection Hu as -> ->; [|done]. unfold mret, M_ret, watch. cbn [fst].
  destruct (NewWatcher fs); [done|]. destruct (Add fs _); [done|]. intros [= <-]. eauto.
Qed.

(** C19. Once started, the metrics server always has a certificate: the one of the last time
    the files could be loaded, at the start or after a trigger.  A load that fails, whatever the
    disk holds then, leaves it; no other event changes it. *)
Theorem cert_last_good fs dir w0 s0 l s : (loadAndWatchCertificates fs dir w0).1 = Ok s0 → runs l s0 = Some s →
  ∃ p serial, disk dir w0 = Ok (p, serial) ∧ latestCert (monitor s) = foldl (next_cert dir) (Some p) l
    ∧ ∃ c, GetCertificate s = Ok c ∧ latestCert (monitor s) = Some c.
Proof.
  intros (p & serial & Hw & ->)%load_started [_ Hc]%runs_cert. cbn [monitor certDir cert] in Hc. exists p, serial.
  split; [done|]. split; [exact Hc|]. unfold GetCertificate, latestCert.
  destruct (next_cert_some dir l (Some p)) as [c Hs]; [done|]. rewrite Hc, Hs. eauto.
Qed.

(** The buffer is large enough: the signal handler can stop the metrics after the start of the
    gathering failed and nobody reads the channel. *)
Lemma stop_after_failure qmName polls register fsnotify shutdown shutdown' g w g1 w1 w2 : stopChannel g = 0%nat →
  GatherMetrics qmName polls register fsnotify shutdown g w = (Some g1, w1) →
  is_Some (StopMetricsGathering shutdown' g1 w2).1.
Proof.
  intros Hg. unfold GatherMetrics. destruct (waitActive qmName polls); [|done]. cbn [negb]. rewrite bind_run.
  assert (∀ g2 w2, (stopChannel g2 < stopCapacity)%nat → is_Some (StopMetricsGathering shutdown' g2 w2).1) as Hs.
  { intros g2 w3 Hlt. unfold StopMetricsGathering. destruct (metricsEnabled g2); [|by eexists]. cbn [negb].
    rewrite bool_decide_false by lia. rewrite bind_run. by eexists. }
  destruct (startMetricsGathering register fsnotify w) as [[?|e] w3]; cbn [fst snd].
  - intros [= <- _]. apply Hs. cbn. rewrite Hg. unfold stopCapacity. lia.
  - rewrite bind_run. unfold StopMetricsGathering at 1. cbn [metricsEnabled negb stopChannel]. rewrite Hg.
    cbn [stopCapacity]. rewrite bool_decide_false by (unfold stopCapacity; lia). rewrite bind_run. intros [= <- _].
    apply Hs. unfold stopCapacity. cbn. lia.
Qed.

(** Without a load in between, a pending load stays pending. *)
Lemma pending_step e s w s' src : (step e s w).1 = Some s' → updater_ s = Debouncing src →
  (∃ src', updater_ s' = Debouncing src') ∨ e = Debounced.
Proof.
  intros Hs Hu. destruct e; auto; left; unfold step in Hs; rewrite ?Hu in Hs; cbn in Hs; try done.
  - destruct (detecting s); [|done]. injection Hs as <-. unfold triggerUpdate. rewrite Hu. eauto.
  - destruct (detecting s); [|done]. injection Hs as <-. unfold triggerUpdate. rewrite Hu. eauto.
  - injection Hs as <-. eauto.
  - destruct (cancelled s); [|done]. injection Hs as <-. eauto.
Qed.

Lemma settled dir p serial l : (∀ w, (w, Debounced) ∈ l → disk dir w = Ok (p, serial)) →
  foldl (next_cert dir) (Some p) l = Some p.
Proof.
  induction l as [|[w e] l IH]; intros Hl; [done|]. cbn [foldl]. unfold next_cert at 2. cbn [fst snd].
  assert (match e, disk dir w with Debounced, Ok (p, _) => Some p | _, _ => Some p end = Some p) as ->.
  { destruct e; try done. rewrite (Hl w (list_elem_of_here _ _)). done. }
  apply IH. intros w' Hw'. apply Hl. by right.
Qed.

Lemma pending_served l s src p serial s' : updater_ s = Debouncing src → runs l s = Some s' →
  (∀ w, (w, Debounced) ∈ l → disk (certDir (monitor s)) w = Ok (p, serial)) →
  latestCert (monitor s') = Some p ∨ ∃ src', updater_ s' = Debouncing src'.
Proof.
  revert s src. induction l as [|[w e] l IH]; intros s src Hu; cbn [runs].
  { intros [= <-] _. eauto. }
  destruct (step e s w).1 as [s1|] eqn:E; [|done]. cbn. intros Hr Hl. pose proof (step_cert _ _ _ _ E) as [Hd Hc].
  assert (∀ w, (w, Debounced) ∈ l → disk (certDir (monitor s1)) w = Ok (p, serial)) as Hl1.
  { intros w' Hw'. rewrite Hd. apply Hl. by right. }
  destruct (pending_step _ _ _ _ _ E Hu) as [[src' Hu']| ->]; [exact (IH s1 src' Hu' Hr Hl1)|].
  left. apply runs_cert in Hr as [_ Hr]. unfold latestCert. rewrite Hr, Hc. unfold next_cert at 2. cbn [fst snd].
  rewrite (Hl w (list_elem_of_here _ _)). by apply settled with serial.
Qed.

Lemma debounced_run s src w : updater_ s = Debouncing src → ∃ s', (step Debounced s w).1 = Some s'.
Proof.
  intros Hu. destruct (step Debounced s w).1 as [s'|] eqn:E; [by eexists|]. exfalso. revert E.
  unfold step. rewrite Hu, bind_run. destruct (updateCert src (monitor s) w) as [[cm err] w1]. cbn [fst snd]. by rewrite bind_run.
Qed.

(** C40. No change is missed unless it is noticed while the files are being read: after a notification, of
    the file system or of the timer, that comes when the goroutine waits or has a load ahead of it,
    the files as they are from then on are served, or their load is still ahead and can
    happen. *)
Theorem change_served w0 e s l s' p serial : e = FsEvent ∨ e = Tick → updater_ s = Idle ∨ (∃ src, updater_ s = Debouncing src) →
  runs ((w0, e) :: l) s = Some s' → (∀ w, (w, Debounced) ∈ l → disk (certDir (monitor s)) w = Ok (p, serial)) →
  latestCert (monitor s') = Some p ∨ ∀ w, ∃ s'', (step Debounced s' w).1 = Some s''.
Proof.
  intros He Hu. cbn [runs]. destruct (step e s w0).1 as [s1|] eqn:E; [|done]. cbn. intros Hr Hl.
  pose proof (step_cert _ _ _ _ E) as [Hd _].
  assert (∃ src, updater_ s1 = Debouncing src) as [src Hs1].
  { destruct He as [-> | ->]; unfold step in E; cbn in E; destruct (detecting s); try done; injection E as <-;
      unfold triggerUpdate; destruct Hu as [Hu|[src Hu]]; rewrite Hu; eauto. }
  rewrite <- Hd in Hl. destruct (pending_served _ _ _ _ _ _ Hs1 Hr Hl) as [?|[src' Hs']]; [by left|]. right.
  intros w. by apply debounced_run with src'.
Qed.

(** A notification while the files are being read is dropped. *)
Lemma missed_while_loading w s : updater_ s = Loading → detecting s = true → runs [(w, FsEvent)] s = Some s.
Proof. intros Hu Hd. cbn [runs]. unfold step. cbn. rewrite Hd. unfold triggerUpdate. by rewrite Hu. Qed.

(** ** HTTPS is on exactly when both files are there *)

Lemma https_enabled dir w names : (ReadDir dir w).1 = Ok names →
  (isHTTPSMetricsEnabled dir w).1 = if existsb (String.eqb "tls.crt") names && existsb (String.eqb "tls.key") names then Ok true
    else match names with [] => Ok false | _ => Err (Errorf "Missing files required for HTTPS") end.
Proof.
  unfold isHTTPSMetricsEnabled. rewrite bind_run. destruct (ReadDir dir w) as [[l|e] w1]; [|done]. cbn [fst snd]. intros [= <-].
  destruct l as [|x l]; [done|]. destruct (_ && _) eqn:E; [done|]. rewrite bind_run. cbn [fst snd]. by rewrite bind_run.
Qed.

End laws.

(** ** A disk to evaluate on *)

Definition plain_pairs : KeyPairs := {|
  keyPair := string * string;
  X509KeyPair c k := if c =s "" then Err (Errorf "tls: failed to find any PEM data in certificate input") else Ok (c, k);
  leafSerial p := Ok p.1 |}.

Definition mounted (crt : string) : world := world_of []
  [("/certs/tls.crt", File crt); ("/certs/tls.key", File "key"); ("/certs", Directory)].

Definition watching (crt : string) (u : updater) : @watcher plain_pairs := Watcher (@Monitor plain_pairs "/certs" (Some (crt, "key")) crt) u true false.

Lemma cert_last_good_witness : ∃ c, GetCertificate (watching "one" Loading) = Ok c ∧ c = ("one", "key").
Proof.
  destruct (@cert_last_good quiet plain_pairs (Build_Fsnotify None (λ _, None)) "/certs" (mounted "one") (watching "one" Idle)
    [(mounted "one", FsEvent); (mounted "", Debounced)] (watching "one" Loading)) as (p & serial & Hd & Hl & c & Hc & Hlc).
  - reflexivity.
  - reflexivity.
  - exists c. split; [exact Hc|]. rewrite Hl in Hlc. injection Hd as <- _. by injection Hlc as <-.
Defined.

Lemma change_served_witness : latestCert (monitor (watching "two" Idle)) = Some ("two", "key").
Proof.
  destruct (@change_served quiet plain_pairs (mounted "one") FsEvent (watching "one" Idle)
    [(mounted "two", Debounced); (mounted "two", Loaded)] (watching "two" Idle) ("two", "key") "two") as [Hs|Hs].
  - by left.
  - by left.
  - reflexivity.
  - intros w. rewrite !elem_of_cons, elem_of_nil. intros [[= ->]|[?|[]]]; [reflexivity|discriminate].
  - exact Hs.
  - destruct (Hs (mounted "two")) as [s'' Hx]. discriminate Hx.
Defined.

End Watch.
