(* ===== verification/AuditLog.v ===== *)
(** * The audit log of the metrics server (internal/metrics/audit.go)

    A handler wrapped so that every request appends one JSON line to the audit log, with the
    status the handler set.  A handler is what it calls on its [http.ResponseWriter]; the log is
    an interface, as in the code. *)
From S2P Require Import Prelude Utf8 GoStrings Paths Os Json Logger.

Open Scope Z_scope.

(** The interface [logHandler]. *)
Class LogHandler := { Append : string → bool → M unit }.

Module Audit.

(** ** net/http *)

Definition statusTexts : list (Z * string) :=
  [(100, "Continue"); (101, "Switching Protocols"); (102, "Processing"); (103, "Early Hints");
   (200, "OK"); (201, "Created"); (202, "Accepted"); (203, "Non-Authoritative Information"); (204, "No Content");
   (205, "Reset Content"); (206, "Partial Content"); (207, "Multi-Status"); (208, "Already Reported"); (226, "IM Used");
   (300, "Multiple Choices"); (301, "Moved Permanently"); (302, "Found"); (303, "See Other"); (304, "Not Modified");
   (305, "Use Proxy"); (307, "Temporary Redirect"); (308, "Permanent Redirect");
   (400, "Bad Request"); (401, "Unauthorized"); (402, "Payment Required"); (403, "Forbidden"); (404, "Not Found");
   (405, "Method Not Allowed"); (406, "Not Acceptable"); (407, "Proxy Authentication Required"); (408, "Request Timeout");
   (409, "Conflict"); (410, "Gone"); (411, "Length Required"); (412, "Precondition Failed"); (413, "Request Entity Too Large");
   (414, "Request URI Too Long"); (415, "Unsupported Media Type"); (416, "Requested Range Not Satisfiable");
   (417, "Expectation Failed"); (418, "I'm a teapot"); (421, "Misdirected Request"); (422, "Unprocessable Entity");
   (423, "Locked"); (424, "Failed Dependency"); (425, "Too Early"); (426, "Upgrade Required"); (428, "Precondition Required");
   (429, "Too Many Requests"); (431, "Request Header Fields Too Large"); (451, "Unavailable For Legal Reasons");
   (500, "Internal Server Error"); (501, "Not Implemented"); (502, "Bad Gateway"); (503, "Service Unavailable");
   (504, "Gateway Timeout"); (505, "HTTP Version Not Supported"); (506, "Variant Also Negotiates");
   (507, "Insufficient Storage"); (508, "Loop Detected"); (510, "Not Extended"); (511, "Network Authentication Required")].

Definition StatusText (code : Z) : string :=
  match List.find (λ e, e.1 =? code) statusTexts with Some e => e.2 | None => "" end.

(** What the client is sent: the status, once it is decided, and the body. *)
Record response := Response { status : option Z; body : string }.

Definition code_ok (code : Z) : bool := (100 <=? code) && (code <=? 999).
Definition informational (code : Z) : bool := (100 <=? code) && (code <=? 199) && negb (code =? 101).

(** The first status that is not informational counts; an invalid one is a panic. *)
Definition WriteHeader (code : Z) (r : response) : option response :=
  if negb (code_ok code) then None
  else if informational code then Some r
  else Some (match status r with Some _ => r | None => Response (Some code) (body r) end).

Definition Write (bytes : string) (r : response) : response :=
  Response (Some (default 200 (status r))) (body r +:+ bytes).

Inductive call := CallWriteHeader (code : Z) | CallWrite (bytes : string).

Definition invoke (c : call) (r : response) : option response :=
  match c with CallWriteHeader code => WriteHeader code r | CallWrite bytes => Some (Write bytes r) end.

Fixpoint serve (cs : list call) (r : response) : option response :=
  match cs with [] => Some r | c :: cs => r ← invoke c r; serve cs r end.

(** ** statusCapturingResponseWriter *)

(** The response behind the writer, and the status it captured. *)
Record statusCapturingResponseWriter := Capturing { ResponseWriter : response; statusCode : Z }.

Definition newStatusCapturingResponseWriter (base : response) : statusCapturingResponseWriter := Capturing base 0.

Definition captureHeader (code : Z) (c : statusCapturingResponseWriter) : option statusCapturingResponseWriter :=
  r ← WriteHeader code (ResponseWriter c); Some (Capturing r code).

Definition capture (x : call) (c : statusCapturingResponseWriter) : option statusCapturingResponseWriter :=
  match x with
  | CallWriteHeader code => captureHeader code c
  | CallWrite bytes => Some (Capturing (Write bytes (ResponseWriter c)) (statusCode c))
  end.

Fixpoint captures (cs : list call) (c : statusCapturingResponseWriter) : option statusCapturingResponseWriter :=
  match cs with [] => Some c | x :: cs => c ← capture x c; captures cs c end.

(** ** The audit event *)

Record auditEvent := AuditEvent {
  Timestamp : string; Event : string; Pod : string; RemoteAddr : string; Endpoint : string;
  Result : string; StatusCode : Z; QueuemanagerName : string }.

Definition fields (e : auditEvent) : list (string * field) :=
  [("timestamp", FStr (Timestamp e)); ("event", FStr (Event e)); ("pod", FStr (Pod e));
   ("remote_addr", FStr (RemoteAddr e)); ("endpoint", FStr (Endpoint e)); ("result", FStr (Result e));
   ("status_code", FInt (StatusCode e)); ("queuemanager_name", FStr (QueuemanagerName e))].

Section audit.
Context `{OS} `{LogHandler}.

Record request := Request { RequestURI : string; RequestRemoteAddr : string }.

(** A failed host name is the empty string; marshalling the event cannot fail.  The
    formatted time is an argument. *)
Definition newEvent (now qmName : string) (req : request) (code : Z) : auditEvent :=
  AuditEvent now "metrics" (match hostname with Ok h => h | Err _ => "" end) (RequestRemoteAddr req) (RequestURI req)
    (StatusText code) code qmName.

(** [None] is a panic of the handler, which is not audited. *)
Definition auditingHandler (now qmName : string) (base : request → list call) (req : request) (w : response) : M (option response) :=
  match captures (base req) (newStatusCapturingResponseWriter w) with
  | None => mret None
  | Some capWriter =>
      _ ← Append (MarshalStruct (fields (newEvent now qmName req (statusCode capWriter)))) false;
      mret (Some (ResponseWriter capWriter))
  end.

(** The wrapper that is used without audit. *)
Definition passthroughHandlerFuncWrapper (base : request → list call) : request → list call := base.

End audit.

(** ** The captured status *)

(** The last status the handler set. *)
Definition last_code (code : Z) (cs : list call) : Z :=
  foldl (λ code x, match x with CallWriteHeader code => code | CallWrite _ => code end) code cs.

(** Behind the capturing writer the client is sent what the handler sends without it. *)
Lemma captures_serve cs r code :
  captures cs (Capturing r code) = (λ r', Capturing r' (last_code code cs)) <$> serve cs r.
Proof.
  revert r code. induction cs as [|[c|b] cs IH]; intros r code; [done|..]; cbn [captures capture serve invoke].
  - unfold captureHeader. cbn [ResponseWriter]. destruct (WriteHeader c r) as [r1|]; [|done]. cbn. by rewrite IH.
  - cbn. by rewrite IH.
Qed.

Lemma last_code_ok cs r r' code : serve cs r = Some r' → code_ok code = true ∨ code = 0 →
  code_ok (last_code code cs) = true ∨ last_code code cs = 0.
Proof.
  revert r code. induction cs as [|[c|b] cs IH]; intros r code; [done|..]; cbn [serve invoke].
  - unfold WriteHeader. destruct (code_ok c) eqn:Ec; [|done]. cbn [negb].
    destruct (informational c); intros Hs Hc; (eapply (IH _ c); [exact Hs|by left]).
  - intros Hs Hc. exact (IH _ code Hs Hc).
Qed.

(** A handler that sets one final status before it writes: that is the status sent. *)
Lemma one_status code bs r' : serve (CallWriteHeader code :: map CallWrite bs) (Response None "") = Some r' →
  informational code = false → status r' = Some code ∧ last_code 0 (CallWriteHeader code :: map CallWrite bs) = code.
Proof.
  cbn [serve invoke]. unfold WriteHeader. destruct (code_ok code); [|done]. intros Hs Hi. rewrite Hi in Hs. cbn in Hs.
  assert (∀ b, serve (map CallWrite bs) (Response (Some code) b) = Some r' → status r' = Some code) as Hw.
  { clear Hs. induction bs as [|x bs IH]; intros b; [by intros [= <-]|]. apply IH. }
  split; [by eapply Hw|]. clear. cbn. induction bs; done.
Qed.

(** ** Reading the line back *)

Section roundtrip.
Context `{Floats}.

Lemma take_while_stop {A} (p : A → bool) l x k : Forall (λ x, p x = true) l → p x = false →
  take_while p (l ++ x :: k) = l ∧ drop_while p (l ++ x :: k) = x :: k.
Proof.
  intros Hl Hx. induction Hl as [|y l Hy _ IH]; simpl; [by rewrite Hx|]. rewrite Hy. destruct IH as [-> ->]. done.
Qed.

(** The literal of an integer: digits, without a leading zero. *)
Definition literal (ds : list Z) : bool :=
  forallb is_dig ds && match ds with [] => false | [_] => true | d :: _ => negb (d =? 48) end.

Lemma pnum_literal ds c rest : literal ds = true → c = 44 ∨ c = 125 → pnum (ds ++ c :: rest) = Some (ds, c :: rest).
Proof.
  unfold literal. intros [Hds Hz]%andb_true_iff Hc. rewrite forallb_forall in Hds.
  assert (Forall (λ x, is_dig x = true) ds) as Hall by (apply Forall_forall; intros x Hx; by apply Hds, list_elem_of_In).
  assert (is_dig c = false) as Hcd by by destruct Hc as [->| ->].
  assert (digits1 (ds ++ c :: rest) = Some (ds, c :: rest)) as Hd1.
  { unfold digits1. destruct (take_while_stop is_dig ds c rest Hall Hcd) as [-> ->]. by destruct ds. }
  assert (pfrac (c :: rest) = Some ([], c :: rest) ∧ pexp (c :: rest) = Some ([], c :: rest)) as [Hf He]
    by by destruct Hc as [->| ->].
  destruct ds as [|d ds]; [done|]. pose proof (Forall_inv Hall) as Hd.
  assert (pint (d :: ds ++ c :: rest) = Some (d :: ds, c :: rest) ∧ pnum (d :: ds ++ c :: rest)
    = '(i, rs) ← pint (d :: ds ++ c :: rest); '(f, rs) ← pfrac rs; '(e, rs) ← pexp rs; Some ([] ++ i ++ f ++ e, rs)) as [Hi Hn].
  { assert (d = 48 ∨ d = 49 ∨ d = 50 ∨ d = 51 ∨ d = 52 ∨ d = 53 ∨ d = 54 ∨ d = 55 ∨ d = 56 ∨ d = 57) as Hcases
      by (unfold is_dig in Hd; lia).
    destruct Hcases as [->|[->|[->|[->|[->|[->|[->|[->|[->| ->]]]]]]]]]; (split; [|reflexivity]); try exact Hd1.
    by destruct ds. }
  cbn [app]. rewrite Hn, Hi. cbn [mbind option_bind]. rewrite Hf. cbn [mbind option_bind]. rewrite He. cbn. by rewrite app_nil_r.
Qed.

Lemma reads_literal s : all_bytes is_digit s = true → literal (runes s) = true → float_ok s = true → reads (runes s) (JNum s).
Proof.
  intros Hs Hl Hf fuel d c rest Hc. assert (all_bytes is_ascii s = true) as Ha.
  { eapply all_bytes_impl; [|done]. unfold is_digit, is_ascii. intros x. rewrite andb_true_iff, !Z.leb_le, Z.ltb_lt. lia. }
  pose proof (pnum_literal _ c rest Hl Hc) as Hp. destruct (runes s) as [|x xs] eqn:E; [done|]. cbn [app] in *.
  assert (is_dig x = true) as Hx by (unfold literal in Hl; cbn in Hl; by destruct (is_dig x)).
  assert (48 <= x <= 57) as Hrange by (unfold is_dig in Hx; lia).
  cbn [pval]. rewrite skip_ws_solid by (unfold ws; zbool; lia).
  do 6 (rewrite (proj2 (Z.eqb_neq _ _)) by lia). rewrite Hp. cbn [mbind option_bind]. rewrite <- E.
  destruct (encode_runes s Ha) as [-> _]. by rewrite Hf.
Qed.

Lemma codes_literal : forallb (λ z, literal (runes (Itoa z))) (0 :: seqZ 100 900) = true.
Proof. vm_compute. reflexivity. Qed.

Lemma code_literal code : code_ok code = true ∨ code = 0 → literal (runes (Itoa code)) = true ∧ 0 <= code.
Proof.
  intros Hc. pose proof codes_literal as Hl. rewrite forallb_forall in Hl. split.
  - apply Hl, list_elem_of_In, elem_of_cons. destruct Hc as [Hc|Hc]; [right|by left]. apply elem_of_seqZ.
    unfold code_ok in Hc. lia.
  - unfold code_ok in Hc. lia.
Qed.

Lemma printable_digits s : all_bytes is_digit s = true → Forall (λ r, printable_rune r = true) (runes s).
Proof.
  induction s as [|x s IH]; [constructor|]. intros [Hx Hs]%andb_true_iff. constructor; [|by apply IH].
  unfold is_digit in Hx. unfold printable_rune. rewrite scalar_intro by lia. lia.
Qed.

(** The object of an event. *)
Definition event_object (e : auditEvent) : object :=
  [("timestamp", JStr (sanitized (Timestamp e))); ("event", JStr (sanitized (Event e))); ("pod", JStr (sanitized (Pod e)));
   ("remote_addr", JStr (sanitized (RemoteAddr e))); ("endpoint", JStr (sanitized (Endpoint e)));
   ("result", JStr (sanitized (Result e))); ("status_code", JNum (Itoa (StatusCode e)));
   ("queuemanager_name", JStr (sanitized (QueuemanagerName e)))].

Lemma marshal_event e : code_ok (StatusCode e) = true ∨ StatusCode e = 0 → float_ok (Itoa (StatusCode e)) = true →
  no_byte "010" (MarshalStruct (fields e)) = true ∧ Unmarshal (MarshalStruct (fields e)) = Some (event_object e).
Proof.
  intros Hc Hf. destruct (code_literal _ Hc) as [Hl Hpos]. pose proof (Itoa_digits _ Hpos) as Hd.
  set (value := λ v : field, match v with FStr s => JStr (sanitized s) | FInt z => JNum (Itoa z) end).
  set (kvs := map (λ kv : string * field, (kv.1, (field_text kv.2, value kv.2))) (fields e)).
  assert (MarshalStruct (fields e) = encode (123 :: members (map (λ kv, (kv.1, kv.2.1)) kvs))) as ->.
  { unfold MarshalStruct, kvs. by rewrite map_map. }
  assert (Forall (λ kv, Forall (λ r, printable_rune r = true) kv.2.1) kvs) as Hp.
  { unfold kvs, fields. cbn [map fst snd field_text]. repeat (constructor; [first [apply quote_printable|by apply printable_digits]|]). constructor. }
  split.
  - apply Logger.encode_no_lf; [apply printable_scalar, members_printable, Forall_map; exact Hp|].
    eapply Forall_impl; [apply members_printable, Forall_map; exact Hp|]. intros r [_ Hr%Z.leb_le]%andb_true_iff. lia.
  - rewrite Unmarshal_members; [done| |exact Hp].
    unfold kvs, fields. cbn [map fst snd field_text value].
    repeat (constructor; [first [apply reads_quote|by apply reads_literal]|]). constructor.
Qed.
End roundtrip.

Section property.
Context `{OS} `{LogHandler} `{Floats}.

End property.

(** The handler of the root page, and a log to evaluate on: the standard error. *)
Definition active (req : request) : list call := [CallWriteHeader 200; CallWrite "Status: METRICS ACTIVE"].
Definition stderr_log : LogHandler := {| Append line _ := print_stderr line |}.


End Audit.
