(* ===== verification/StartOrder.v ===== *)
(** * The order of the start (properties of cmd/runmqserver/main.go)

    Two properties of the whole start: nothing is changed unless the license is accepted, and the file that
    signals readiness is made only after the queue manager was started.  The second needs that no
    other operation of the start makes the file: a lemma for each function, by the rules of Frame.v. *)
From S2P Require Import Prelude Utf8 GoStrings Bufio Paths Os Frame MqVersion MqIni Ready Json Diagnostics ConsoleLog Support Keystore Tls Startup Runtime Qmgr Ha Web Main.
Import Tls.

Open Scope Z_scope.

Module StartOrder.

Definition readyPath : list string := ["run"; "runmqserver"; "ready"].

Lemma readyPath_norm : norm Ready.readyFile = readyPath.
Proof. by vm_compute. Qed.

(** A path joined to a directory that is not on the way to the file. *)
Definition elsewhere (p : list string) : bool := negb (bool_decide (p `prefix_of` readyPath)).

Lemma elsewhere_app p q : elsewhere p = true → p ++ q ≠ readyPath.
Proof.
  intros He Hq. unfold elsewhere in He. breflect. apply He. rewrite <- Hq. by apply prefix_app_r.
Qed.

Lemma CleanPath_elsewhere p ps : IsAbs p = true → elsewhere (norm p) = true → norm (CleanPath (p :: ps)) ≠ readyPath.
Proof.
  intros Ha He. rewrite CleanPath_abs by done.
  rewrite norm_abs by (apply Forall_app; auto using norm_plain, CleanPath_plain). by apply elsewhere_app.
Qed.

Section absent.
Context `{OS} `{Runtime.Kernel} `{Crypto} `{Main.Templates} `{Metadata}.
Context `{Qmgr.Rlimits} (executable : res string).

Local Notation spares := (frame (absent readyPath)).

(** Commands, the source of random bytes and the change of the limit do not make the file. *)
Hypothesis exec_spares : ∀ n a w, absent readyPath w (exec n a w).2.
Hypothesis rand_spares : ∀ n, spares (rand_Read n).
Hypothesis setrlimit_spares : ∀ l, spares (Qmgr.Setrlimit l).

Lemma Run_spares n a : spares (Run n a).
Proof. apply frame_Run. intros w. apply exec_spares. Qed.

Lemma exec_any_spares n a : spares (exec n a).
Proof. apply frame_exec. apply exec_spares. Qed.

Lemma exec_env_spares k v n a : spares (exec_env k v n a).
Proof. intros w Hw. unfold exec_env. pose proof (exec_spares n a (set_env (<[k := v]> (env w)) w) Hw) as He. by destruct (exec _ _ _). Qed.

Lemma MkdirAll_spares path : existsb (λ d, bool_decide (d = readyPath)) (ancestors (norm path)) = false → spares (MkdirAll path).
Proof.
  intros Hn. apply frame_MkdirAll; [exact _|]. intros d w Hd. apply absent_insert. intros ->.
  apply not_true_iff_false in Hn. apply Hn, existsb_exists. exists readyPath. by rewrite <- list_elem_of_In, bool_decide_eq_true.
Qed.

Lemma WriteFile_spares path d : norm path ≠ readyPath → spares (WriteFile path d).
Proof. intros Hn. apply frame_WriteFile; [exact _|]. intros. by apply absent_insert. Qed.

Lemma write_with_spares op path f : norm path ≠ readyPath → spares (write_with op path f).
Proof. intros Hn. apply frame_write_with; [exact _|]. intros. by apply absent_insert. Qed.

Hint Resolve Run_spares exec_any_spares exec_env_spares rand_spares setrlimit_spares : frame.
Hint Extern 1 (spares (MkdirAll _)) => apply MkdirAll_spares; by vm_compute : frame.

(** ** Supporting packages, diagnostics, logs *)

Lemma logDiagnostics_spares : spares Diagnostics.logDiagnostics.
Proof.
  unfold Diagnostics.logDiagnostics, Diagnostics.getDebug, Diagnostics.logFDCSummary.
  assert (∀ p, spares (Diagnostics.logPathPermissions p)).
  { unfold Diagnostics.logPathPermissions, Diagnostics.logEntry, Diagnostics.logFilePermission. solve_frame. }
  solve_frame.
Qed.
Hint Resolve logDiagnostics_spares : frame.

Lemma logTermination_spares c m : spares (ConsoleLog.logTermination c m).
Proof. unfold ConsoleLog.logTermination. solve_frame. Qed.

Lemma source_loop_spares s l : spares (ConsoleLog.source_loop s l).
Proof. induction l as [|a l IH]; cbn [ConsoleLog.source_loop]; solve_frame. Qed.
Hint Resolve logTermination_spares source_loop_spares : frame.

Lemma checkLogSource_spares s : spares (ConsoleLog.checkLogSourceForMirroring s).
Proof. unfold ConsoleLog.checkLogSourceForMirroring, ConsoleLog.getMQLogConsoleSource. solve_frame. Qed.

Lemma isLogConsoleSourceValid_spares : spares ConsoleLog.isLogConsoleSourceValid.
Proof. unfold ConsoleLog.isLogConsoleSourceValid, ConsoleLog.getMQLogConsoleSource. solve_frame. Qed.

Lemma configureLogger_spares : spares ConsoleLog.configureLogger.
Proof. unfold ConsoleLog.configureLogger, ConsoleLog.getLogFormat. solve_frame. Qed.

Lemma ProcessFIPSType_spares b : spares (Fips.ProcessFIPSType b).
Proof. unfold Fips.ProcessFIPSType. solve_frame. Qed.

Lemma CopyFile_spares src dest : norm dest ≠ readyPath → spares (Files.CopyFile src dest).
Proof. intros Hn. unfold Files.CopyFile, Files.CopyFileMode. solve_frame. Qed.

Lemma EncodeSecrets_spares s : spares (SimpleAuth.EncodeSecrets s).
Proof. unfold SimpleAuth.EncodeSecrets. solve_frame. Qed.

Lemma ProcessTemplateFile_spares {D} (ex : string → D → string * option error) parse t dest d :
  norm dest ≠ readyPath → existsb (λ d, bool_decide (d = readyPath)) (ancestors (norm (Dir dest))) = false →
  spares (Files.ProcessTemplateFile ex parse t dest d).
Proof.
  intros Hn Hd. unfold Files.ProcessTemplateFile, Files.makeDir. pose proof (MkdirAll_spares _ Hd). solve_frame.
Qed.

Hint Resolve checkLogSource_spares isLogConsoleSourceValid_spares configureLogger_spares ProcessFIPSType_spares
  EncodeSecrets_spares : frame.
Hint Extern 1 (spares (Files.CopyFile _ _)) => apply CopyFile_spares; by vm_compute : frame.
Hint Extern 1 (spares (Files.ProcessTemplateFile _ _ _ _ _)) => apply ProcessTemplateFile_spares; by vm_compute : frame.

(** ** Key stores *)

Lemma run_err_spares c what a : spares (Keystore.run_err c what a).
Proof. unfold Keystore.run_err. solve_frame. Qed.

Lemma run_gskit_spares lib c what a : spares (Keystore.run_gskit lib c what a).
Proof. unfold Keystore.run_gskit. solve_frame. Qed.
Hint Resolve run_err_spares run_gskit_spares : frame.

Lemma Create_spares ks : spares (Keystore.Create ks).
Proof. unfold Keystore.Create, Keystore.removeStale, Keystore.createNew. solve_frame. Qed.

Lemma listLabels_spares ms cut ks : spares (Keystore.listLabels ms cut ks).
Proof. unfold Keystore.listLabels. solve_frame. Qed.

Lemma RenameCertificate_spares ks from to : spares (Keystore.RenameCertificate ks from to).
Proof. unfold Keystore.RenameCertificate, Keystore.fileExists. solve_frame. Qed.

Lemma Import_spares ks file pw : spares (Keystore.Import ks file pw).
Proof. unfold Keystore.Import. solve_frame. Qed.

Lemma AddNoLabel_spares ks file : spares (Keystore.AddNoLabel ks file).
Proof. unfold Keystore.AddNoLabel. solve_frame. Qed.

Lemma CreateSelfSigned_spares ks l dn h : spares (Keystore.CreateSelfSignedCertificate ks l dn h).
Proof. unfold Keystore.CreateSelfSignedCertificate. solve_frame. Qed.

Hint Resolve Create_spares listLabels_spares RenameCertificate_spares Import_spares AddNoLabel_spares CreateSelfSigned_spares : frame.

(** ** Steps on the two stores of internal/tls *)

Definition tspares {A} (m : T A) : Prop := ∀ t w, absent readyPath w (m t w).2.

Lemma tspares_ret {A} (a : A) : tspares (mret a).
Proof. by intros t w. Qed.
Lemma tspares_fail {A} e : tspares (@fail _ A e).
Proof. by intros t w. Qed.
Lemma tspares_panic {A} : tspares (@panic _ A).
Proof. by intros t w. Qed.
Lemma tspares_get k : tspares (get k).
Proof. by intros t w. Qed.
Lemma tspares_put k d : tspares (put k d).
Proof. by intros t w. Qed.
Lemma tspares_bind {A B} (m : T A) (f : A → T B) : tspares m → (∀ a, tspares (f a)) → tspares (m ≫= f).
Proof.
  intros Hm Hf t w. unfold mbind, T_bind. specialize (Hm t w). destruct (m t w) as [[[a|e|] t1] w1]; try done.
  etrans; [exact Hm|apply Hf].
Qed.
Lemma tspares_lift {A} (m : M A) : spares m → tspares (lift m).
Proof. intros Hm t w. unfold lift. specialize (Hm w). by destruct (m w). Qed.
Lemma tspares_lift_res {A} wrap (m : M (res A)) : spares m → tspares (lift_res wrap m).
Proof. intros Hm t w. unfold lift_res. specialize (Hm w). by destruct (m w) as [[] ?]. Qed.
Lemma tspares_lift_err wrap m : spares m → tspares (lift_err wrap m).
Proof. intros Hm t w. unfold lift_err. specialize (Hm w). by destruct (m w) as [[] ?]. Qed.
Lemma tspares_store k : tspares (store k).
Proof. apply tspares_bind; [apply tspares_get|]. intros d. destruct (Keystore d); [apply tspares_ret|apply tspares_panic]. Qed.
Lemma tspares_each {A} (f : A → T unit) l : (∀ x, tspares (f x)) → tspares (T_each f l).
Proof. intros Hf. induction l as [|x l IH]; [apply tspares_ret|]. by apply tspares_bind. Qed.
Lemma tspares_fold {A B} (f : B → A → T B) l b : (∀ b x, tspares (f b x)) → tspares (T_fold f b l).
Proof. intros Hf. revert b. induction l as [|x l IH]; intros b; [apply tspares_ret|]. by apply tspares_bind. Qed.

Hint Resolve tspares_ret tspares_fail tspares_panic tspares_get tspares_put tspares_store : frame.

Ltac tframe_step :=
  match goal with
  | |- tspares _ => solve [eauto with frame nocore]
  | |- tspares (match ?x with _ => _ end) => destruct x eqn:?
  | |- tspares (_ ≫= _) => apply tspares_bind; [|intros ?]
  | |- tspares (lift _) => apply tspares_lift
  | |- tspares (lift_res _ _) => apply tspares_lift_res
  | |- tspares (lift_err _ _) => apply tspares_lift_err
  | |- tspares (T_each _ _) => apply tspares_each; intros ?
  | |- tspares (T_fold _ _ _) => apply tspares_fold; intros ? ?
  | |- frame _ _ => frame_step
  end.
Ltac solve_tframe := intros; repeat tframe_step.

(** ** internal/tls *)

Lemma listDir_spares d : spares (listDir d).
Proof. unfold listDir. solve_frame. Qed.
Hint Resolve listDir_spares : frame.

Lemma addToKnown_spares b k add wrap : tspares (addToKnownCertificates b k add wrap).
Proof. unfold addToKnownCertificates. solve_tframe. Qed.
Hint Resolve addToKnown_spares : frame.

Lemma trustCertificate_spares b : tspares (trustCertificate b).
Proof. unfold trustCertificate, trust. solve_tframe. Qed.

Lemma intermediate_spares path st b : tspares (intermediate path st b).
Proof. unfold intermediate, trust. solve_tframe. Qed.
Hint Resolve trustCertificate_spares intermediate_spares : frame.

Lemma processPrivateKey_spares keyDir set keys : tspares (processPrivateKey keyDir set keys).
Proof. unfold processPrivateKey, privateKeyFile. solve_tframe. Qed.

Lemma processCertificates_spares keyDir set keyPrefix keys : tspares (processCertificates keyDir set keyPrefix keys).
Proof. unfold processCertificates, certificateFile. solve_tframe. Qed.

Lemma relabel_spares l : tspares (relabelCertificate l).
Proof. unfold relabelCertificate, Keystore.GetCertificateLabels. solve_tframe. Qed.

Lemma validate_spares c ca : spares (validateCertificates c ca).
Proof. unfold validateCertificates. solve_frame. Qed.
Hint Resolve processPrivateKey_spares processCertificates_spares relabel_spares validate_spares : frame.

(** The directories of key stores. *)
Definition keystoreDir_ok (d : string) : Prop := d = keystoreDirDefault ∨ d = keystoreDirHA.

Lemma keystoreDir_abs d : keystoreDir_ok d → IsAbs d = true ∧ elsewhere (norm d) = true.
Proof. intros [->| ->]; split; by vm_compute. Qed.

Lemma importKeySet_spares dir set k c ca : keystoreDir_ok dir → tspares (importKeySet dir set k c ca).
Proof.
  intros [Ha He]%keystoreDir_abs. unfold importKeySet.
  assert (∀ s d, spares (WriteFile (CleanPath [dir; s]) d)) by (intros; by apply WriteFile_spares, CleanPath_elsewhere).
  solve_tframe.
Qed.

Lemma processKeys_spares dir keyDir : keystoreDir_ok dir → tspares (processKeys dir keyDir).
Proof.
  intros Hd. unfold processKeys, processKeySet. pose proof (λ set k c ca, importKeySet_spares dir set k c ca Hd). solve_tframe.
Qed.

Lemma writeCertificates_spares file l : norm file ≠ readyPath → spares (writeCertificatesToFile file l).
Proof.
  intros Hn. unfold writeCertificatesToFile. pose proof (λ op f, write_with_spares op file f Hn).
  assert (∀ i, spares (writeBlocks file i l)) by (induction l; intros i; cbn [writeBlocks]; solve_frame). solve_frame.
Qed.

Lemma renameAll_spares ks i l : spares (renameAll ks i l).
Proof. revert i. induction l as [|c l IH]; intros i; cbn [renameAll]; solve_frame. Qed.

Lemma removeOld_spares file : spares (removeOld file).
Proof. unfold removeOld. solve_frame. Qed.
Hint Resolve renameAll_spares removeOld_spares : frame.
Hint Extern 1 (spares (writeCertificatesToFile _ _)) => apply writeCertificates_spares; by vm_compute : frame.

Lemma processTrust_spares d : tspares (processTrustCertificates d).
Proof.
  unfold processTrustCertificates, addCertificatesToTruststore, addCertificatesToCMSKeystore, trustSet, trustFile,
    Keystore.ListAllCertificates. solve_tframe.
Qed.

Lemma haveKeysAndCerts_spares d : spares (haveKeysAndCerts d).
Proof.
  unfold haveKeysAndCerts. assert (∀ l, spares (haveIn d l)) by (induction l; cbn [haveIn]; solve_frame). solve_frame.
Qed.
Hint Resolve haveKeysAndCerts_spares : frame.

Lemma anyKeysAndCerts_spares l : spares (anyKeysAndCerts l).
Proof. induction l as [|d l IH]; cbn [anyKeysAndCerts]; solve_frame. Qed.
Hint Resolve anyKeysAndCerts_spares : frame.

Lemma generateAllKeystores_spares fips dir c p : keystoreDir_ok dir → spares (generateAllKeystores fips dir c p).
Proof.
  intros Hd. unfold generateAllKeystores, generateRandomPassword.
  assert (spares (MkdirAll dir)) by (destruct Hd as [->| ->]; apply MkdirAll_spares; by vm_compute). solve_frame.
Qed.

Lemma keyLabelsOf_spares dir keyDirs : keystoreDir_ok dir → tspares (keyLabelsOf dir keyDirs).
Proof. intros Hd. unfold keyLabelsOf. pose proof (λ k, processKeys_spares dir k Hd). solve_tframe. Qed.

Lemma configureTLSKeystores_spares fips dir keyDirs trustDirs p : keystoreDir_ok dir →
  spares (configureTLSKeystores fips dir keyDirs trustDirs p).
Proof.
  intros Hd. unfold configureTLSKeystores. pose proof (λ c, generateAllKeystores_spares fips dir c p Hd).
  assert (tspares (keyLabels ← keyLabelsOf dir keyDirs; _ ← T_each processTrustCertificates trustDirs; mret keyLabels : T _)) as Ht.
  { pose proof (keyLabelsOf_spares dir keyDirs Hd). pose proof processTrust_spares. solve_tframe. }
  repeat match goal with |- frame _ _ => frame_step end. intros w. apply Ht.
Qed.

Lemma ConfigureDefault_spares fips : spares (ConfigureDefaultTLSKeystores fips).
Proof.
  unfold ConfigureDefaultTLSKeystores. pose proof (configureTLSKeystores_spares fips keystoreDirDefault [keyDirDefault]
    [trustDirDefault] true (or_introl (reflexivity _))). solve_frame.
Qed.

Lemma ConfigureHA_spares fips : spares (ConfigureHATLSKeystore fips).
Proof.
  unfold ConfigureHATLSKeystore. pose proof (configureTLSKeystores_spares fips keystoreDirHA [keyDirHA; keyDirGroupHA]
    [trustDirGroupHA] false (or_intror (reflexivity _))). solve_frame.
Qed.

Lemma ConfigureTLS_spares ex parse l d dev : spares (ConfigureTLS ex parse l d dev).
Proof. unfold ConfigureTLS, configureTLSDev, Keystore.ListAllCertificates. solve_frame. Qed.

Lemma ConfigureWebTLS_spares ex parse l ks d : spares (ConfigureWebTLS ex parse l ks d).
Proof. unfold ConfigureWebTLS. solve_frame. Qed.

Lemma ConfigureWebKeystore_spares fips d l : spares (ConfigureWebKeystore fips d l).
Proof. unfold ConfigureWebKeystore. solve_frame. Qed.
Hint Resolve ConfigureDefault_spares ConfigureHA_spares ConfigureTLS_spares ConfigureWebTLS_spares ConfigureWebKeystore_spares : frame.

(** ** Volumes, the version and the container runtime *)

Lemma cleanVolume_spares p : spares (Volume.cleanVolume p).
Proof. unfold Volume.cleanVolume. solve_frame. Qed.

Lemma walk_spares fuel skip p : spares (Volume.walk fuel skip p).
Proof.
  revert p. assert (∀ p, spares (Volume.visit skip p)) by (intros; unfold Volume.visit; solve_frame).
  induction fuel as [|fuel IH]; intros p; cbn [Volume.walk]; unfold Volume.isDir; solve_frame.
Qed.
Hint Resolve cleanVolume_spares walk_spares : frame.

Lemma cleanVolumeBestEffort_spares p l : spares (Volume.cleanVolumeBestEffort p l).
Proof. unfold Volume.cleanVolumeBestEffort. solve_frame. Qed.

Lemma createVolume_spares p : existsb (λ d, bool_decide (d = readyPath)) (ancestors (norm p)) = false → spares (Volume.createVolume p).
Proof. intros Hn. unfold Volume.createVolume. pose proof (MkdirAll_spares p Hn). solve_frame. Qed.
Hint Resolve cleanVolumeBestEffort_spares : frame.
Hint Extern 1 (spares (Volume.createVolume _)) => apply createVolume_spares; by vm_compute : frame.

Lemma logVersionInfo_spares : spares Process.logVersionInfo.
Proof.
  unfold Process.logVersionInfo, Process.logDateStamp, Process.logGitRepo, Process.logGitCommit, Process.logImageTag,
    Process.logMQVersion, MqVersion.Get. solve_frame.
Qed.

Lemma verifySingleProcess_spares : spares (Process.verifySingleProcess executable).
Proof. unfold Process.verifySingleProcess, Process.verifyOnlyOne. solve_frame. Qed.

Lemma checkLicense_spares : spares License.checkLicense.
Proof. unfold License.checkLicense, License.resolveLicenseFile. solve_frame. Qed.

Lemma GetMounts_spares : spares Runtime.GetMounts.
Proof. unfold Runtime.GetMounts, Runtime.readProc. solve_frame. Qed.
Hint Resolve logVersionInfo_spares verifySingleProcess_spares checkLicense_spares GetMounts_spares : frame.

Lemma checkMounts_spares l : spares (Runtime.checkMounts l).
Proof. induction l as [|[m t] l IH]; cbn [Runtime.checkMounts]; solve_frame. Qed.
Hint Resolve checkMounts_spares : frame.

Lemma LogContainerDetails_spares : spares Runtime.LogContainerDetails.
Proof.
  unfold Runtime.LogContainerDetails, Runtime.checkVolumes, Runtime.logFacts, Runtime.logUser, Runtime.logCapabilities,
    Runtime.GetKernelVersion, Runtime.GetBaseImage, Runtime.GetSeccomp, Runtime.GetSeccompEnforcingMode,
    Runtime.GetSecurityAttributes, Runtime.readFileString, Runtime.fileExists, Runtime.readProc. solve_frame.
Qed.
Hint Resolve LogContainerDetails_spares : frame.

(** ** Queue manager commands *)

Lemma raiseFileLimit_spares : spares Qmgr.raiseFileLimit.
Proof. unfold Qmgr.raiseFileLimit, Qmgr.setNoFileSoftLimitEqualToHardLimit. solve_frame. Qed.

Lemma limitWarning_spares e : spares (Qmgr.limitWarning e).
Proof. unfold Qmgr.limitWarning. solve_frame. Qed.

Lemma startMQTrace_spares : spares Qmgr.startMQTrace.
Proof. unfold Qmgr.startMQTrace. solve_frame. Qed.

Lemma endMQTrace_spares : spares Qmgr.endMQTrace.
Proof. unfold Qmgr.endMQTrace. solve_frame. Qed.

Lemma createDirStructure_spares : spares Qmgr.createDirStructure.
Proof. unfold Qmgr.createDirStructure. solve_frame. Qed.

Lemma createQueueManager_spares name dev : spares (Qmgr.createQueueManager name dev).
Proof.
  unfold Qmgr.createQueueManager, Qmgr.existingQueueManager, Qmgr.readQMIni, Qmgr.getCreateQueueManagerArgs,
    MqVersion.Compare, MqVersion.Get. solve_frame.
Qed.

Lemma updateCommandLevel_spares : spares Qmgr.updateCommandLevel.
Proof. unfold Qmgr.updateCommandLevel. solve_frame. Qed.

Lemma dataDir_elsewhere mounts name : IsAbs (Qmgr.getQueueManagerDataDir mounts name) = true
  ∧ elsewhere (norm (Qmgr.getQueueManagerDataDir mounts name)) = true.
Proof.
  unfold Qmgr.getQueueManagerDataDir. case_match; rewrite CleanPath_abs by done; (split; [apply IsAbs_abs|]);
    rewrite norm_abs by (apply Forall_app; auto using norm_plain, CleanPath_plain);
    unfold elsewhere; apply negb_true_iff, bool_decide_eq_false; intros [k Hk]; discriminate.
Qed.

Lemma updateQMini_spares name : spares (Qmgr.updateQMini name).
Proof.
  unfold Qmgr.updateQMini.
  assert (∀ m n d, spares (WriteFile (CleanPath [Qmgr.getQueueManagerDataDir m n; "qm.ini"]) d)).
  { intros m n d. destruct (dataDir_elsewhere m n). by apply WriteFile_spares, CleanPath_elsewhere. }
  solve_frame.
Qed.

Lemma startQueueManager_spares name : spares (Qmgr.startQueueManager name).
Proof. unfold Qmgr.startQueueManager. pose proof raiseFileLimit_spares. pose proof limitWarning_spares. solve_frame. Qed.

Hint Resolve raiseFileLimit_spares createDirStructure_spares createQueueManager_spares updateCommandLevel_spares
  updateQMini_spares startQueueManager_spares startMQTrace_spares endMQTrace_spares : frame.

(** ** Native HA and the web server *)

Lemma configFiles_elsewhere l g e c : c ∈ Ha.configFiles l g e →
  norm c.1 ≠ readyPath ∧ existsb (λ d, bool_decide (d = readyPath)) (ancestors (norm (Dir c.1))) = false.
Proof.
  unfold Ha.configFiles. intros Hc. assert (c.1 ∈ ["/run/10-native-ha-instance.ini"; "/run/10-native-ha-keystore.ini"; "/run/10-native-ha.ini"]) as Hin.
  { revert Hc. destruct (negb (l =s "") || negb (g =s "")), e; cbn [app]; rewrite ?elem_of_cons, elem_of_nil;
      intros; intuition (subst; cbn [fst]; set_solver). }
  rewrite !elem_of_cons, elem_of_nil in Hin. destruct Hin as [->|[->|[->|[]]]]; split; by vm_compute.
Qed.

Lemma ConfigureNativeHA_spares ex parse fips : spares (Ha.ConfigureNativeHA ex parse fips).
Proof.
  unfold Ha.ConfigureNativeHA, Ha.loadConfigAndGenerate, Ha.generate, Ha.loadConfigFromEnv, Ha.envConfigPresent.
  solve_frame.
  match goal with Hc : _ ∈ Ha.configFiles _ _ _ |- _ => apply configFiles_elsewhere in Hc as [] end.
  by apply ProcessTemplateFile_spares.
Qed.

(** What a loop over the result of an action knows of it. *)
Lemma frame_bind_post {A B} (m : M A) (f : A → M B) : spares m → (∀ w a w', m w = (a, w') → spares (f a)) → spares (m ≫= f).
Proof.
  intros Hm Hf w. rewrite bind_run. etrans; [apply Hm|]. apply (Hf w (m w).1 (m w).2). apply surjective_pairing.
Qed.

Lemma ReadDir_plain path w l w' : ReadDir path w = (Ok l, w') → Forall (λ c, plain c = true) l.
Proof.
  unfold ReadDir, guarded. destruct (fault _ _); [done|]. destruct (follow w _) as [[]|]; try done. intros [= <- <-].
  apply Forall_forall. intros c Hc%Volume.children_spec. apply Hc.
Qed.

(** The files of the web server. *)
Lemma webtarget_abs q : Web.target (abs_path (["etc"; "mqm"; "web"] ++ q)) = abs_path (["var"; "mqm"; "web"] ++ q).
Proof. destruct q as [|x q]; [done|]. unfold abs_path. by rewrite !Volume.Join_app. Qed.

Lemma installWebFile_spares q dir : Forall (λ c, plain c = true) q →
  spares (Web.installWebFile (abs_path (["etc"; "mqm"; "web"] ++ q)) dir).
Proof.
  intros Hq. unfold Web.installWebFile, Web.Symlink. rewrite webtarget_abs.
  assert (norm (abs_path (["var"; "mqm"; "web"] ++ q)) = ["var"; "mqm"; "web"] ++ q) as Hn
    by (apply norm_abs; apply Forall_app; split; [by repeat constructor|done]).
  assert (spares (MkdirAll (abs_path (["var"; "mqm"; "web"] ++ q)))).
  { apply MkdirAll_spares. rewrite Hn. apply not_true_is_false. intros (d & Hd & E)%existsb_exists. breflect. subst d.
    apply list_elem_of_In in Hd. cbn [app ancestors] in Hd. apply elem_of_cons in Hd as [|Hd]; [done|].
    apply list_elem_of_fmap in Hd as (d & E & _). discriminate. }
  assert (∀ src, spares (Files.CopyFile src (abs_path (["var"; "mqm"; "web"] ++ q)))).
  { intros src. apply CopyFile_spares. rewrite Hn. by destruct q. }
  rewrite Hn. solve_frame. intros w. destruct (files w !! _); [reflexivity|]. destruct (has_parent _ _); [|reflexivity].
  by apply absent_insert.
Qed.

Lemma webwalk_spares fuel q : Forall (λ c, plain c = true) q →
  spares (Web.walk fuel (abs_path (["etc"; "mqm"; "web"] ++ q))).
Proof.
  revert q. induction fuel as [|fuel IH]; intros q Hq; cbn [Web.walk]; unfold Volume.isDir; [solve_frame|].
  apply frame_bind; [exact _|solve_frame|]. intros d. destruct (negb d); [by apply installWebFile_spares|].
  apply frame_bind_post; [solve_frame|]. intros w [l|e] w' E; [|solve_frame]. apply ReadDir_plain in E.
  apply frame_check; [exact _|by apply installWebFile_spares|]. apply frame_each_err; [exact _|]. intros c Hc.
  rewrite Forall_forall in E. specialize (E c Hc). rewrite Volume.JoinPath_child; [|by apply Forall_app; repeat constructor|done].
  rewrite <- app_assoc. apply IH. apply Forall_app; split; [done|by repeat constructor].
Qed.

Lemma postInit_spares ex parse fips l d : spares (Web.postInit ex parse fips l d).
Proof.
  unfold Web.postInit, Web.configureFIPSWebServer, Web.configureWebServer, Web.installWebConfig, Web.ignore_missing.
  pose proof (λ n, webwalk_spares n [] (Forall_nil_2 _)) as Hw. cbn [app] in Hw. change (abs_path ["etc"; "mqm"; "web"]) with Web.prefix in Hw.
  solve_frame.
Qed.
Hint Resolve postInit_spares ConfigureNativeHA_spares : frame.

(** ** The phases of main *)

Lemma mirrorLog_spares path : spares (Main.mirrorLog path).
Proof. unfold Main.mirrorLog. solve_frame. Qed.
Hint Resolve mirrorLog_spares : frame.

Lemma mirrorErrorLog_spares file name : spares (Main.mirrorErrorLog file name).
Proof. unfold Main.mirrorErrorLog, MqIni.GetQueueManager. solve_frame. Qed.
Hint Resolve mirrorErrorLog_spares : frame.

Lemma prepareVolumes_spares : spares Main.prepareVolumes.
Proof.
  unfold Main.prepareVolumes, Main.when. solve_frame.
  match goal with Hx : _ ∈ Main.volumes |- _ => unfold Main.volumes in Hx; rewrite !elem_of_cons, elem_of_nil in Hx end.
  destruct_or!; subst; solve_frame; done.
Qed.

Lemma initialiseFiles_spares dev : spares (Main.initialiseFiles dev).
Proof.
  unfold Main.initialiseFiles, Main.nativeHAINIs. solve_frame.
  match goal with Hx : _ ∈ _ |- _ => rewrite !elem_of_cons, elem_of_nil in Hx end.
  destruct_or!; subst; try done; solve_frame.
Qed.

Lemma createDirs_spares : spares Main.createDirs.
Proof. unfold Main.createDirs, Main.traced, Main.when. solve_frame. Qed.

Lemma configure_spares dev : spares (Main.configure dev).
Proof.
  unfold Main.configure, Main.when, Main.pwhen, Main.mirrorWebServerLogs, Fips.PostInit. solve_frame.
Qed.
Hint Resolve prepareVolumes_spares initialiseFiles_spares createDirs_spares configure_spares : frame.

(** ** The ready file and the outcome *)

(** A part of the start that ends well only with the ready file made, and in a way described by [S];
    and that does not make the file otherwise. *)
Definition signals (S : Main.exit * world → Prop) (m : M Main.exit) : Prop := ∀ w,
  ((m w).1 = Main.Returned None → is_Some (files (m w).2 !! readyPath) ∧ S (m w))
  ∧ (files w !! readyPath = None → is_Some (files (m w).2 !! readyPath) → (m w).1 = Main.Returned None).

Lemma signals_bind S {A} (m : M A) f : spares m → (∀ a, signals S (f a)) → signals S (m ≫= f).
Proof.
  intros Hm Hf w. rewrite bind_run. destruct (Hf (m w).1 (m w).2) as [Hs1 Hs2]. split; [exact Hs1|].
  intros Hw. apply Hs2. by apply Hm.
Qed.

Lemma signals_fails S m : spares m → (∀ w, (m w).1 ≠ Main.Returned None) → signals S m.
Proof. intros Hm Hn w. split; [by intros ?%Hn|]. intros Hw [n Hx]. specialize (Hm w Hw). congruence. Qed.

Lemma signals_terminate S e : signals S (Main.terminate e).
Proof.
  apply signals_fails; [unfold Main.terminate; solve_frame|]. intros w. unfold Main.terminate. by rewrite bind_run.
Qed.

Lemma signals_panic S : signals S (mret Main.Panicked).
Proof. apply signals_fails; [solve_frame|]. by intros w. Qed.

Lemma signals_step S m k : spares m → signals S k → signals S (Main.step m k).
Proof. intros Hm Hk. apply signals_bind; [done|]. intros [e|]; [apply signals_terminate|done]. Qed.

Lemma signals_pstep S m k : spares m → signals S k → signals S (Main.pstep m k).
Proof.
  intros Hm Hk. apply signals_bind; [done|]. intros [[e|]|]; [apply signals_terminate|done|apply signals_panic].
Qed.

(** Writing the file is the last thing. *)
Lemma signals_set : signals (λ _, True) (Main.step Ready.Set_ (mret (Main.Returned None))).
Proof.
  intros w. unfold Main.step. rewrite bind_run.
  assert (match (Ready.Set_ w).1 with
          | Some _ => (Ready.Set_ w).2 = w
          | None => is_Some (files (Ready.Set_ w).2 !! readyPath)
          end) as Hs.
  { unfold Ready.Set_, WriteFile. rewrite fmap_run. unfold write_with. rewrite readyPath_norm.
    unfold guarded. destruct (fault _ _); [done|]. destruct (files w !! readyPath) as [[]|]; try done.
    - cbn [fst snd err_of files set_files]. rewrite lookup_insert_eq. eauto.
    - destruct (has_parent w readyPath); [|done]. cbn [fst snd err_of files set_files]. rewrite lookup_insert_eq. eauto. }
  destruct (Ready.Set_ w) as [[e|] w1]; cbn [fst snd] in *.
  - subst w1. exact (signals_terminate (λ _, True) e w).
  - split; [by split|done].
Qed.

Ltac signals_step1 :=
  match goal with
  | |- signals _ (Main.terminate _) => apply signals_terminate
  | |- signals _ (mret Main.Panicked) => apply signals_panic
  | |- signals _ (Main.step Ready.Set_ _) => apply signals_set
  | Hs : _ |- signals _ _ => exact Hs
  | Hs : ∀ _, _ |- signals _ _ => apply Hs
  | |- signals _ (Main.step _ _) => apply signals_step; [unfold Main.when, Main.pwhen, Main.mirrorSystemErrorLogs, Main.mirrorMQSimpleAuthLogs; solve_frame|]
  | |- signals _ (Main.pstep _ _) => apply signals_pstep; [unfold Main.when, Main.pwhen, Main.mirrorMQSCLogs, Main.mirrorQueueManagerErrorLogs; solve_frame|]
  | |- signals _ (match ?x with _ => _ end) => destruct x
  | |- signals _ (_ ≫= _) => apply signals_bind; [unfold Main.traced, SimpleAuth.IsEnabled; solve_frame|intros ?]
  end.

Lemma afterStart_signals ts name : signals (λ _, True) (Main.afterStart ts name).
Proof. unfold Main.afterStart. repeat signals_step1. Qed.

(** The outcome is the one of [afterStart] from a world in which the queue manager was started. *)
Definition started (x : Main.exit * world) : Prop :=
  ∃ traceStart name w1 w2, Qmgr.startQueueManager name w1 = (None, w2) ∧ x = Main.afterStart traceStart name w2.

Lemma start_signals ts name : signals started (Main.step (Qmgr.startQueueManager name) (Main.afterStart ts name)).
Proof.
  intros w. unfold Main.step. rewrite bind_run. destruct (Qmgr.startQueueManager name w) as [[e|] w2] eqn:E.
  - destruct (signals_terminate started e w2) as [Hs1 Hs2]. split; [exact Hs1|]. intros Hw. apply Hs2.
    pose proof (startQueueManager_spares name w Hw) as Hs. by rewrite E in Hs.
  - cbn [fst snd]. destruct (afterStart_signals ts name w2) as [Hs1 Hs2]. split.
    + intros Hr. split; [by apply Hs1|]. by exists ts, name, w, w2.
    + intros Hw. apply Hs2. pose proof (startQueueManager_spares name w Hw) as Hs. by rewrite E in Hs.
Qed.

Lemma afterLicense_signals f name : Main.initFlag f = false → signals started (Main.afterLicense f name).
Proof.
  intros Hi. unfold Main.afterLicense, Main.startMQ, Main.afterCreate. rewrite Hi. pose proof start_signals.
  repeat signals_step1.
Qed.

Lemma Clear_spares : spares Ready.Clear.
Proof. unfold Ready.Clear, Ready.clearFile, Ready.fileExists. solve_frame. Qed.

Lemma GetQueueManagerName_ok w h : hostname = Ok h → ∃ n, Name.GetQueueManagerName w = (Ok n, w).
Proof.
  intros Hh. unfold Name.GetQueueManagerName, LookupEnv, gets. rewrite bind_run, Hh. cbn [fst snd].
  destruct (env w !! _) as [[|c n]|]; eexists; done.
Qed.

Lemma configureLogger_panic e (r : ConsoleLog.mirror → M Main.exit) w : hostname = Err e →
  (mf ← ConsoleLog.configureLogger; match mf with Err _ => mret Main.Panicked | Ok m => r m end) w = (Main.Panicked, w).
Proof.
  intros Hh. rewrite bind_run. unfold ConsoleLog.configureLogger. rewrite bind_run, Hh.
  by destruct (ConsoleLog.getLogFormat_run w) as (l & -> & _).
Qed.

Lemma refuse_signals S msg e : signals S (Main.refuse msg e).
Proof.
  apply signals_fails; [unfold Main.refuse; solve_frame|]. intros w. unfold Main.refuse. by rewrite bind_run.
Qed.

Lemma licensed_signals f name : Main.initFlag f = false → signals started (Main.licensed f name).
Proof.
  intros Hi. unfold Main.licensed. pose proof Clear_spares. pose proof (refuse_signals started).
  pose proof (afterLicense_signals f name Hi). repeat signals_step1.
Qed.

Lemma checkedMain_signals f name : Main.initFlag f = false → signals started (Main.checkedMain executable f (Ok name)).
Proof.
  intros Hi. apply signals_bind; [solve_frame|]. intros [e|]; [|by apply licensed_signals].
  apply signals_fails; [solve_frame|]. intros w. by rewrite bind_run.
Qed.

(** C3. The program waits for the signal to end, with the ready file made, only after the queue
    manager was started: the outcome is then the one of the code that follows a successful
    [startQueueManager].  A start that ends in an error or a panic, at whatever point, does
    not make the file. *)
Theorem ready_after_start f w : Main.infoFlag f = false → Main.initFlag f = false →
  let x := Main.doMain executable f w in
  (x.1 = Main.Returned None → is_Some (files x.2 !! readyPath) ∧ started x)
  ∧ (files w !! readyPath = None → is_Some (files x.2 !! readyPath) → x.1 = Main.Returned None).
Proof.
  intros Hinfo Hinit. cbn zeta. unfold Main.doMain. rewrite bind_run. pose proof (raiseFileLimit_spares w) as Hr.
  destruct (Qmgr.raiseFileLimit w) as [[e|] w1]; cbn [fst snd] in *.
  { split; [done|]. intros Hw [x Hx]. specialize (Hr Hw). unfold mret, M_ret in Hx. cbn [snd] in Hx. congruence. }
  unfold Main.namedMain. rewrite bind_run.
  destruct hostname as [h|e] eqn:Hh.
  - destruct (GetQueueManagerName_ok w1 h Hh) as [n ->]. cbn [fst snd]. rewrite bind_run.
    destruct (ConsoleLog.configureLogger_ok w1 h Hh) as [m ->]. cbn [fst snd]. rewrite Hinfo.
    destruct (checkedMain_signals f n Hinit w1) as [Hs1 Hs2]. split; [exact Hs1|]. intros Hw. by apply Hs2, Hr.
  - assert ((Name.GetQueueManagerName w1).2 = w1) as -> by done. rewrite (configureLogger_panic _ _ _ Hh). cbn [fst snd].
    split; [done|].
    intros Hw [x Hx]. specialize (Hr Hw). congruence.
Qed.

End absent.

(** ** Nothing is done without the license *)

Section license.
Context `{OS} `{Runtime.Kernel} `{Crypto} `{Main.Templates} `{Metadata}.
Context `{Qmgr.Rlimits} (executable : res string).

(** The signals of an earlier run, and the message to the orchestrator. *)
Definition signalFiles : list (list string) :=
  [readyPath; ["run"; "runmqserver"; "ready-to-sync"]; ["run"; "termination-log"]].

Local Notation keeps := (frame (only signalFiles)).

Hypothesis pgrep_keeps : ∀ a w, only [] w (exec "pgrep" a w).2.
Hypothesis setrlimit_keeps : ∀ l w, only [] w (Qmgr.Setrlimit l w).2.

Lemma only_nil ps w w' : only [] w w' → only ps w w'.
Proof. intros [He Hf]. split; [done|]. intros q _. apply Hf, not_elem_of_nil. Qed.

Lemma pgrep_ok a : keeps (Run "pgrep" a).
Proof. apply frame_Run. intros w. apply only_nil, pgrep_keeps. Qed.
Lemma setrlimit_ok l : keeps (Qmgr.Setrlimit l).
Proof. intros w. apply only_nil, setrlimit_keeps. Qed.
Hint Resolve pgrep_ok setrlimit_ok : frame.

Lemma raiseFileLimit_keeps : keeps Qmgr.raiseFileLimit.
Proof. unfold Qmgr.raiseFileLimit, Qmgr.setNoFileSoftLimitEqualToHardLimit. solve_frame. Qed.

Lemma verifySingleProcess_keeps : keeps (Process.verifySingleProcess executable).
Proof. unfold Process.verifySingleProcess, Process.verifyOnlyOne. solve_frame. Qed.

Lemma Clear_keeps : keeps Ready.Clear.
Proof. unfold Ready.Clear, Ready.clearFile, Ready.fileExists. solve_frame. Qed.

Lemma checkLicense_keeps : keeps License.checkLicense.
Proof. unfold License.checkLicense, License.resolveLicenseFile. solve_frame. Qed.

Lemma refuse_keeps msg e : keeps (Main.refuse msg e).
Proof. unfold Main.refuse, ConsoleLog.logTermination. solve_frame. Qed.

(** The license is not accepted without the value in the environment. *)
Lemma checkLicense_refuses w : env w !! "LICENSE" ≠ Some "accept" → (License.checkLicense w).1.1 = false.
Proof.
  intros Hl. unfold License.checkLicense, LookupEnv, gets. rewrite bind_run. cbn [fst snd].
  rewrite bool_decide_false by done. case_match; [|by rewrite !bind_run].
  rewrite bind_run. destruct (License.resolveLicenseFile w) as [name w1]. cbn [fst snd]. rewrite bind_run.
  destruct (ReadFile _ w1) as [[text|e] w2]; cbn [fst snd]; by rewrite bind_run.
Qed.

(** A part of the program that is refused where the license is not accepted. *)
Definition refuses (m : M Main.exit) : Prop := ∀ w, env w !! "LICENSE" ≠ Some "accept" →
  (m w).1 ≠ Main.Returned None ∧ only signalFiles w (m w).2.

Lemma refuses_bind {A} (m : M A) f : keeps m → (∀ a, refuses (f a)) → refuses (m ≫= f).
Proof.
  intros Hm Hf w Hl. rewrite bind_run. specialize (Hm w). destruct Hm as [He Hk].
  destruct (Hf (m w).1 (m w).2) as [Hr Ho]; [by rewrite He|]. split; [exact Hr|].
  etrans; [exact (conj He Hk)|exact Ho].
Qed.

Lemma refuses_refuse msg e : refuses (Main.refuse msg e).
Proof.
  intros w Hl. split; [|apply refuse_keeps]. unfold Main.refuse. by rewrite bind_run.
Qed.

Lemma refuses_licensed f name : refuses (Main.licensed f name).
Proof.
  apply refuses_bind; [apply Clear_keeps|]. intros [e|]; [apply refuses_refuse|]. intros w Hl. rewrite bind_run.
  pose proof (checkLicense_refuses w Hl) as Hacc. pose proof (checkLicense_keeps w) as Hk.
  destruct (License.checkLicense w) as [[acc err] w1]. cbn [fst snd] in *. subst acc.
  assert (∀ msg e, (Main.refuse msg e w1).1 ≠ Main.Returned None ∧ only signalFiles w (Main.refuse msg e w1).2) as Hr.
  { intros msg e. destruct (refuses_refuse msg e w1) as [Hn Ho]; [by rewrite (proj1 Hk)|]. split; [done|]. by etrans. }
  destruct err; apply Hr.
Qed.

Lemma refuses_checked f n : refuses (Main.checkedMain executable f (Ok n)).
Proof.
  apply refuses_bind; [apply verifySingleProcess_keeps|]. intros [e|]; [|apply refuses_licensed].
  intros w _. rewrite bind_run. split; [done|]. apply frame_log; exact _.
Qed.

(** C5. Without LICENSE=accept the program ends in an error and changes no file but the
    signals it clears and the termination log, and no variable; no command is run but pgrep, whatever
    the others would do. *)
Theorem license_required f w : Main.infoFlag f = false → env w !! "LICENSE" ≠ Some "accept" →
  let x := Main.doMain executable f w in
  x.1 ≠ Main.Returned None ∧ env x.2 = env w ∧ ∀ q, q ∉ signalFiles → files x.2 !! q = files w !! q.
Proof.
  intros Hinfo Hl. cbn zeta. enough (refuses (Main.doMain executable f)) as Hr by by apply Hr.
  apply refuses_bind; [apply raiseFileLimit_keeps|]. intros [e|] w1 Hl1; [by split|]. unfold Main.namedMain. rewrite bind_run.
  destruct hostname as [h|e] eqn:Hh.
  - destruct (GetQueueManagerName_ok w1 h Hh) as [n ->]. cbn [fst snd]. rewrite bind_run.
    destruct (ConsoleLog.configureLogger_ok w1 h Hh) as [m ->]. cbn [fst snd]. rewrite Hinfo. by apply refuses_checked.
  - assert ((Name.GetQueueManagerName w1).2 = w1) as -> by done. rewrite (configureLogger_panic _ _ _ Hh). by split.
Qed.

End license.

(** ** A container to evaluate on *)

Definition host : OS := {|
  fault _ _ := None;
  exec name _ w := ((if name =s "pgrep" then "1" +:+ s1 "010" else "", 0, None), w);
  LookPath name := name;
  hostname := Ok "mq0";
  getwd := "/" |}.

Definition kernel : Runtime.Kernel := {|
  Runtime.GOOS := "linux"; Runtime.GOARCH := "amd64";
  Runtime.capability_List := []; Runtime.capability_NewPid _ := Ok (λ _ _, false);
  Runtime.prctl_get_einval := false; Runtime.prctl_set_einval := false;
  Runtime.euid := 1001; Runtime.gid := 0; Runtime.groups := Ok [];
  Runtime.statfs_type _ := Ok 0 |}.

Definition templates : Main.Templates := {|
  Main.execute_map t _ := (t, None); Main.execute_ha t _ := (t, None); Main.parse _ := None |}.

Definition image (license : string) : world := world_of [("LICENSE", license)]
  [("/proc/mounts", File "overlay / overlay rw 0 0"); ("/run", Directory); ("/var/mqm/mqs.ini", File "");
   ("/run/runmqserver", Directory); ("/run/runmqserver/ready-to-sync", File "1");
   ("/etc/mqm/web/installations/Installation1/servers/mqweb/mqwebcontainer.xml.default", File "x");
   ("/etc/mqm/web/installations/Installation1/servers/mqweb/tls.xml.default", File "x");
   ("/etc/mqm/web/installations/Installation1/servers/mqweb/configDropins/defaults/jvm.options.default", File "x");
   ("/etc/mqm/15-tls.mqsc.tpl", File "x")].

(** The system calls on the limit succeed. *)
Definition no_limit : Qmgr.Rlimits := {|
  Qmgr.Getrlimit _ := Ok (Qmgr.Build_RLimit 1024 4096); Qmgr.Setrlimit _ w := (None, w) |}.

Definition run (license : string) : Main.exit * world :=
  @Main.doMain host kernel toy templates Diagnostics.no_metadata no_limit (Ok "/usr/local/bin/runmqserver")
    (Main.Build_flags false false false false) (image license).

Lemma ready_after_start_witness : is_Some (files (run "accept").2 !! readyPath)
  ∧ @started host Diagnostics.no_metadata no_limit (run "accept").
Proof.
  destruct (@ready_after_start host kernel toy templates Diagnostics.no_metadata no_limit (Ok "/usr/local/bin/runmqserver")
    (λ _ _ _ Hw, Hw) (λ _ _ Hw, Hw) (λ _ _ Hw, Hw) (Main.Build_flags false false false false) (image "accept")
    (eq_refl _) (eq_refl _)) as [Hr _].
  apply Hr. vm_compute. reflexivity.
Defined.

Lemma license_required_witness : (run "view").1 ≠ Main.Returned None
  ∧ files (run "view").2 !! ["etc"; "mqm"; "15-tls.mqsc.tpl"] = Some (File "x").
Proof.
  destruct (@license_required host kernel toy templates Diagnostics.no_metadata no_limit (Ok "/usr/local/bin/runmqserver")
    (λ _ w, reflexivity w) (λ _ w, reflexivity w) (Main.Build_flags false false false false) (image "view")
    (eq_refl _)) as (Hr & _ & Hf).
  - discriminate.
  - split; [exact Hr|]. etransitivity; [apply Hf|reflexivity].
    apply (bool_decide_unpack _). vm_compute. exact I.
Defined.

End StartOrder.
