(* ===== verification/Failures.v ===== *)
(** * A failed start is reported (cmd/runmqserver/main.go, cmd/runmqdevserver/main.go, logTermination)

    When a program ends with an error, the error is on the console at the level ERROR, and it
    is what /run/termination-log says, where the orchestrator reads it.  [reports] is closed under the
    constructs that the two programs are made of: only what is done last matters, so that nothing
    has to be known of the operations that fail. *)
From S2P Require Import Prelude Utf8 GoStrings Bufio Paths Os Frame MqVersion MqIni Ready Json Diagnostics ConsoleLog Support Keystore Tls Startup Runtime Qmgr Ha Web Main Dev StartOrder.
Import Tls.

Open Scope Z_scope.

Module Failures.

Definition terminationPath : list string := ["run"; "termination-log"].

Lemma terminationPath_norm : norm ConsoleLog.terminationLog = terminationPath.
Proof. by vm_compute. Qed.

Section reported.
Context `{OS}.

(** The termination log cannot be written: the system refuses, it is not a file, or there is no directory for it. *)
Definition unwritable (w : world) : Prop :=
  fault "open" terminationPath ≠ None ∨ fault "write" terminationPath ≠ None
  ∨ match files w !! terminationPath with
    | Some (File _) => False
    | Some _ => True
    | None => has_parent w terminationPath = false
    end.

(** A text is in the termination log. *)
Definition saved (m : string) (w : world) : Prop := files w !! terminationPath = Some (File m) ∨ unwritable w.

(** It is on the console as an error, too. *)
Definition written (m : string) (w : world) : Prop := (ERROR, m) ∈ console w ∧ saved m w.

(** What comes before the text of an error. *)
Definition titles : list string := [""; "Error checking license acceptance: "; "Error updating MQSC: "].

Definition reported (e : error) (w : world) : Prop := ∃ t, t ∈ titles ∧ written (t +:+ Error_ e) w.

(** ** What is reported stays so: more lines, and the file and its directory as they were *)

Definition settled : relation world := λ w w',
  (∃ l, console w' = console w ++ l)
  ∧ files w' !! terminationPath = files w !! terminationPath ∧ files w' !! ["run"] = files w !! ["run"].

#[export] Instance settled_logs : AllowsLogs settled.
Proof.
  split.
  - split.
    + intros w. split; [exists []; by rewrite app_nil_r|done].
    + intros w w1 w2 ([l Hl] & Ht & Hr) ([l' Hl'] & Ht' & Hr'). split; [|split; congruence].
      exists (l ++ l'). by rewrite Hl', Hl, app_assoc.
  - intros w x. split; [by exists [x]|done].
  - intros w s. split; [exists []; cbn; by rewrite app_nil_r|done].
Qed.

Lemma error_settled m w w' : settled w w' → (ERROR, m) ∈ console w → (ERROR, m) ∈ console w'.
Proof. intros ([l ->] & _) Hc. apply elem_of_app. by left. Qed.

Lemma saved_settled m w w' : settled w w' → saved m w → saved m w'.
Proof.
  intros (_ & Ht & Hr) Hs. unfold saved, unwritable in *. rewrite Ht.
  destruct Hs as [Hs|[Hs|[Hs|Hs]]]; [by left|by right; left|by right; right; left|right; right; right].
  destruct (files w !! terminationPath) as [[]|]; try done. revert Hs. unfold has_parent, terminationPath. cbn. by rewrite Hr.
Qed.

(** After the message was written, the file has it or cannot be written. *)
Lemma WriteFile_saves m w : saved m (WriteFile ConsoleLog.terminationLog m w).2.
Proof.
  unfold WriteFile, write_with, guarded. rewrite terminationPath_norm, fmap_run. cbn [snd]. unfold saved, unwritable.
  destruct (fault "open" terminationPath) eqn:Hf; [by right; left|].
  destruct (fault "write" terminationPath) eqn:Hf'; [by right; right; left|].
  destruct (files w !! terminationPath) as [[d| |t]|] eqn:He.
  - left. apply lookup_insert_eq.
  - right. right. right. cbn [snd]. by rewrite He.
  - right. right. right. cbn [snd]. by rewrite He.
  - destruct (has_parent w terminationPath) eqn:Hp; [left; apply lookup_insert_eq|].
    right. right. right. cbn [snd]. by rewrite He.
Qed.

(** A message: it is saved, then logged as an error, and what follows leaves it. *)
Definition says (m : string) (k : M unit) : Prop := ∀ w, written m (k w).2.

Lemma error_kept m (k : M unit) w : frame settled k → (ERROR, m) ∈ console ((_ ← log ERROR m; k) w).2.
Proof. intros Hk. rewrite bind_run. eapply error_settled; [apply Hk|]. cbn. apply elem_of_app. right. by left. Qed.

Lemma message_saved d m (k : option error → M unit) w : (∀ e, frame settled (k e)) →
  saved m ((_ ← log DEBUG d; err ← WriteFile ConsoleLog.terminationLog m; k err) w).2.
Proof. intros Hk. rewrite !bind_run. eapply saved_settled; [apply Hk|]. apply WriteFile_saves. Qed.

(** ** Programs that report *)

(** An outcome that is an error is reported. *)
Definition reports (m : M Main.exit) : Prop := ∀ w e, (m w).1 = Main.Returned (Some e) → reported e (m w).2.

Lemma reports_bind {A} (m : M A) (k : A → M Main.exit) : (∀ a, reports (k a)) → reports (m ≫= k).
Proof. intros Hk w e. rewrite bind_run. apply Hk. Qed.

Lemma reports_none : reports (mret (Main.Returned None)).
Proof. by intros w e. Qed.

Lemma reports_panic : reports (mret Main.Panicked).
Proof. by intros w e. Qed.

Lemma reports_said t e (k : M unit) : t ∈ titles → says (t +:+ Error_ e) k →
  reports (_ ← k; mret (Main.Returned (Some e))).
Proof. intros Ht Hk w e'. rewrite bind_run. cbn. intros [= <-]. exists t. split; [done|apply Hk]. Qed.

End reported.

(** ** runmqserver *)

Section runmqserver.
Context `{OS} `{Runtime.Kernel} `{Crypto} `{Main.Templates} `{Metadata}.
Context `{Qmgr.Rlimits} (executable : res string).

(** The command that lists the first-failure data writes nothing but output. *)
Hypothesis ffstsummary_settled : ∀ a w, settled w (exec "/opt/mqm/bin/ffstsummary" a w).2.

Lemma logDiagnostics_settled : frame settled Diagnostics.logDiagnostics.
Proof.
  assert (∀ a, frame settled (exec "/opt/mqm/bin/ffstsummary" a)) by (intros a; apply frame_exec, ffstsummary_settled).
  unfold Diagnostics.logDiagnostics, Diagnostics.getDebug, Diagnostics.logFDCSummary.
  assert (∀ p, frame settled (Diagnostics.logPathPermissions p)).
  { unfold Diagnostics.logPathPermissions, Diagnostics.logEntry, Diagnostics.logFilePermission. solve_frame. }
  solve_frame.
Qed.
Hint Resolve logDiagnostics_settled : frame.

Lemma logTermination_says c m : says m (ConsoleLog.logTermination c m).
Proof.
  intros w. unfold ConsoleLog.logTermination. split; [|apply message_saved; solve_frame].
  rewrite bind_run, bind_run, bind_run. apply error_kept. solve_frame.
Qed.

Lemma terminate_reports e : reports (Main.terminate e).
Proof. apply (reports_said "" e); [by left|]. apply logTermination_says. Qed.
Hint Resolve terminate_reports reports_none reports_panic : go.

Lemma step_reports m k : reports k → reports (Main.step m k).
Proof. intros Hk. apply reports_bind. intros [e|]; auto with go. Qed.

Lemma pstep_reports m k : reports k → reports (Main.pstep m k).
Proof. intros Hk. apply reports_bind. intros [[e|]|]; auto with go. Qed.

Lemma refuse_reports t e : t ∈ titles → reports (Main.refuse (t +:+ Error_ e) e).
Proof. intros Ht. apply (reports_said t e); [done|]. apply logTermination_says. Qed.

Hint Extern 1 (reports (_ ← _; _)) => apply reports_bind; intros : go.
Hint Resolve step_reports pstep_reports : go.

Lemma startMQ_reports name dev : reports (Main.startMQ name dev).
Proof.
  unfold Main.startMQ, Main.afterCreate, Main.afterStart. apply reports_bind. intros b. apply step_reports, reports_bind.
  intros [[qm [e|]]|]; auto 40 with go.
Qed.

Lemma afterLicense_reports f name : reports (Main.afterLicense f name).
Proof.
  unfold Main.afterLicense. apply reports_bind. intros _. apply pstep_reports, step_reports, step_reports, step_reports.
  destruct (Main.initFlag f); [apply reports_none|]. apply pstep_reports, startMQ_reports.
Qed.

Lemma licensed_reports f name : reports (Main.licensed f name).
Proof.
  unfold Main.licensed. apply reports_bind. intros [e|]; [apply (refuse_reports ""); by left|].
  apply reports_bind. intros [[] [e|]]; try (apply refuse_reports; by right; left); [apply afterLicense_reports|].
  apply (refuse_reports "" (Errorf "License not accepted")). by left.
Qed.

(** The world in which the program looks for another instance of itself. *)
Definition named (w : world) : world := (ConsoleLog.configureLogger (Name.GetQueueManagerName (Qmgr.raiseFileLimit w).2).2).2.

(** C4. A start of runmqserver that ends with an error, whatever failed, reports it: the error is on the
    console at the level ERROR, and its text, after a title where the code gives one, is what the termination
    log says, unless that file cannot be written.  The one exception is a second instance in the
    container: its error is on the console only, and the termination log is left to the first. *)
Theorem failures_reported f w e : (Main.doMain executable f w).1 = Main.Returned (Some e) →
  reported e (Main.doMain executable f w).2
  ∨ (Process.verifySingleProcess executable (named w)).1 = Some e ∧ (ERROR, Error_ e) ∈ console (Main.doMain executable f w).2.
Proof.
  unfold Main.doMain, named. rewrite bind_run. destruct (Qmgr.raiseFileLimit w) as [[l|] w1]; cbn [fst snd]; [done|].
  unfold Main.namedMain. rewrite bind_run. destruct (Name.GetQueueManagerName w1) as [n w2]. cbn [fst snd].
  rewrite bind_run. destruct (ConsoleLog.configureLogger w2) as [[mf|mf] w3]; cbn [fst snd]; [|done].
  destruct (Main.infoFlag f).
  { intros He. left. revert He. assert (reports Main.showInfo) as Hi; [|apply Hi].
    unfold Main.showInfo. do 2 (apply reports_bind; intros ?). destruct a0 as [[d|]|]; auto with go. }
  unfold Main.checkedMain. rewrite bind_run. destruct (Process.verifySingleProcess executable w3) as [[s|] w4]; cbn [fst snd].
  - rewrite bind_run. cbn. intros [= <-]. right. split; [done|]. apply elem_of_app. right. by left.
  - intros He. left. revert He. destruct n as [n|x]; [apply licensed_reports|by rewrite bind_run].
Qed.

End runmqserver.

(** ** runmqdevserver *)

Section runmqdevserver.
Context `{OS} `{Runtime.Kernel} `{Crypto} `{Main.Templates}.

Lemma dev_logTermination_says m : says m (Dev.logTermination m).
Proof.
  intros w. unfold Dev.logTermination. split; [|apply message_saved; solve_frame].
  rewrite !bind_run. cbn. apply elem_of_app. right. by left.
Qed.

Lemma dev_step_reports m k : reports k → reports (Dev.step m k).
Proof.
  intros Hk. apply reports_bind. intros [e|]; [|done]. apply (reports_said ""); [by left|]. apply dev_logTermination_says.
Qed.

Lemma dev_doMain_reports : reports Dev.doMain.
Proof.
  unfold Dev.doMain, Dev.developerFiles. apply reports_bind. intros [e|]; [apply reports_panic|].
  apply reports_bind. intros [d|]; [|apply reports_panic]. do 4 apply dev_step_reports.
  apply reports_bind. intros v. apply dev_step_reports, reports_bind. intros [e|]; [|apply reports_none].
  apply (reports_said "Error updating MQSC: "); [by right; right; left|]. apply dev_logTermination_says.
Qed.

End runmqdevserver.

(** ** What runmqdevserver leaves for runmqserver *)

Definition devMQSC : list string := ["run"; "10-dev.mqsc"].
Definition devTLS : list string := ["run"; "20-dev-tls.mqsc"].
Definition component : list string := ["run"; "qm-service-component.ini"].
Definition devTemplate : list string := ["etc"; "mqm"; "10-dev.mqsc.tpl"].

(** The two variables that are read at the end, and the files outside a list, stay as they are. *)
Definition quiet (ps : list (list string)) : relation world := λ w w',
  env w' !! "MQ_DEV" = env w !! "MQ_DEV" ∧ env w' !! "MQ_CONNAUTH_USE_HTP" = env w !! "MQ_CONNAUTH_USE_HTP"
  ∧ ∀ q, q ∉ ps → files w' !! q = files w !! q.

#[export] Instance quiet_logs ps : AllowsLogs (quiet ps).
Proof.
  split; [|by intros w x..]. split; [by intros w|]. intros w w1 w2 (H1 & H1' & H1'') (H2 & H2' & H2'').
  split; [congruence|]. split; [congruence|]. intros q Hq. rewrite H2'', H1''; done.
Qed.

Lemma quiet_env ps k v w : k ≠ "MQ_DEV" → k ≠ "MQ_CONNAUTH_USE_HTP" → quiet ps w (set_env (<[k := v]> (env w)) w).
Proof. intros Hd Hh. split; [|split; [|done]]; cbn; by rewrite lookup_insert_ne. Qed.

Lemma quiet_insert ps q n w : q ∈ ps → quiet ps w (set_files (<[q := n]> (files w)) w).
Proof. intros Hq. split; [done|]. split; [done|]. intros r Hr. cbn. rewrite lookup_insert_ne; [done|]. by intros ->. Qed.

Definition componentDefault : string := "/etc/mqm/qm-service-component.ini.default".

Section prepared.
Context `{Faultless} `{Runtime.Kernel} `{Crypto} `{Main.Templates}.

(** The shell that encodes a password writes nothing but output. *)
Hypothesis sh_quiet : ∀ a w, files (exec "/bin/sh" a w).2 = files w.

Lemma WriteFile_done p d w : (WriteFile p d w).1 = None →
  (WriteFile p d w).2 = set_files (<[norm p := File d]> (files w)) w.
Proof.
  unfold WriteFile, write_with. rewrite fmap_run, guarded_ok.
  destruct (files w !! norm p) as [[]|]; cbn [fst snd]; try done.
  by destruct (has_parent w (norm p)).
Qed.

Lemma exec_env_quiet k v a : frame (quiet []) (exec_env k v "/bin/sh" a).
Proof.
  intros w. unfold exec_env. pose proof (sh_quiet a (set_env (<[k := v]> (env w)) w)) as Hf.
  destruct (exec _ _ _) as [r w']. cbn [snd] in *. split; [done|]. split; [done|]. intros q _. cbn. by rewrite Hf.
Qed.
Hint Resolve exec_env_quiet : frame.

Lemma CheckForPasswords_quiet : frame (quiet []) SimpleAuth.CheckForPasswords.
Proof.
  assert (∀ s, frame (quiet []) (SimpleAuth.EncodeSecrets s)) by (unfold SimpleAuth.EncodeSecrets; solve_frame).
  assert (∀ s, frame (quiet []) (SimpleAuth.readMQSecrets s)) by (unfold SimpleAuth.readMQSecrets; solve_frame).
  assert (∀ k u v, k ≠ "MQ_DEV" → k ≠ "MQ_CONNAUTH_USE_HTP" → frame (quiet []) (SimpleAuth.setPassword k u v)).
  { intros k u v Hd Hh. apply frame_fmap, frame_Setenv; [exact _|]. intros w. by apply quiet_env. }
  unfold SimpleAuth.CheckForPasswords, SimpleAuth.checkPassword. solve_frame; auto.
Qed.

Lemma LogContainerDetails_quiet : frame (quiet []) Runtime.LogContainerDetails.
Proof.
  assert (frame (quiet []) Runtime.GetMounts) by (unfold Runtime.GetMounts, Runtime.readProc; solve_frame).
  assert (∀ l, frame (quiet []) (Runtime.checkMounts l)).
  { intros l. induction l as [|[m t] l IH]; cbn [Runtime.checkMounts]; solve_frame. }
  unfold Runtime.LogContainerDetails, Runtime.checkVolumes, Runtime.logFacts, Runtime.logUser, Runtime.logCapabilities,
    Runtime.GetKernelVersion, Runtime.GetBaseImage, Runtime.GetSeccomp, Runtime.GetSeccompEnforcingMode,
    Runtime.GetSecurityAttributes, Runtime.readFileString, Runtime.fileExists, Runtime.readProc. solve_frame.
Qed.

Lemma simpleAuth_quiet : frame (quiet [component]) Dev.simpleAuth.
Proof.
  unfold Dev.simpleAuth. apply frame_check; [exact _| |].
  - unfold Files.CopyFile, Files.CopyFileMode. intros w. revert w.
    change (frame (quiet [component]) (Files.CopyFile "/etc/mqm/qm-service-component.ini.default" "/run/qm-service-component.ini")).
    unfold Files.CopyFile, Files.CopyFileMode. solve_frame. apply frame_write_with; [exact _|]. intros. apply quiet_insert. frame_member.
  - intros w. destruct (CheckForPasswords_quiet w) as (Hd & Hh & Hf). split; [done|]. split; [done|]. intros q _. apply Hf, not_elem_of_nil.
Qed.

(** A template over an empty file whose result is no error: the file is what the template makes of the data. *)
Lemma template_done (d : list (string * string)) text w :
  let m := Files.ProcessTemplateFile Main.execute_map Main.parse "/etc/mqm/10-dev.mqsc.tpl" "/run/10-dev.mqsc" d in
  files w !! devTemplate = Some (File text) → files w !! devMQSC = Some (File "") → (m w).1 = None →
  files (m w).2 !! devMQSC = Some (File (Main.execute_map text d).1).
Proof.
  intros m Ht Ho. subst m. unfold Files.ProcessTemplateFile. rewrite bind_run, (ReadFile_ok _ _ text) by done. cbn [fst snd].
  destruct (Main.parse text); [by rewrite bind_run|]. rewrite check_run.
  assert (frame (only [["run"]]) (Files.makeDir (Dir "/run/10-dev.mqsc"))) as Hm.
  { unfold Files.makeDir. assert (frame (only [["run"]]) (MkdirAll (Dir "/run/10-dev.mqsc"))); [|solve_frame].
    apply frame_MkdirAll; [exact _|]. intros p w' Hp. apply only_insert. revert Hp. by vm_compute. }
  destruct (Hm w) as [_ Hf]. destruct (Files.makeDir _ w) as [[e|] w1]; cbn [fst snd] in *; [done|].
  assert (files w1 !! devMQSC = Some (File "")) as Ho1 by (rewrite Hf; [done|apply (bool_decide_unpack _); vm_compute; exact I]).
  destruct (Main.execute_map text d) as [out err]. rewrite bind_run, (write_existing _ _ _ _ "") by done. cbn [fst snd].
  destruct err; [by rewrite bind_run|]. intros _. cbn [mret M_ret snd fst]. unfold overwrite.
  replace (drop_bytes (String.length out) "") with "" by by destruct (String.length out). rewrite sapp_nil_r. apply lookup_insert_eq.
Qed.

(** A copy of the component's file over an empty one. *)
Lemma component_copied text w : files w !! norm componentDefault = Some (File text) → files w !! component = Some (File "") →
  (Dev.simpleAuth w).1 = None → files (Dev.simpleAuth w).2 !! component = Some (File text).
Proof.
  intros Ht Hc. unfold Dev.simpleAuth. rewrite check_run. destruct (CheckFileSource getwd componentDefault) eqn:Hs.
  { unfold Files.CopyFile, Files.CopyFileMode. unfold componentDefault in Hs. by rewrite Hs. }
  destruct (Files.copy_file componentDefault "/run/qm-service-component.ini" w text "" Hs Ht Hc) as (w1 & Hw & _ & Hf).
  unfold componentDefault in Hw. rewrite Hw. cbn [fst snd]. intros _.
  destruct (CheckForPasswords_quiet w1) as (_ & _ & Hq). rewrite Hq by apply not_elem_of_nil. apply Hf. cbn. lia.
Qed.

Lemma dev_step_done m k w : (Dev.step m k w).1 = Main.Returned None → (m w).1 = None ∧ Dev.step m k w = k (m w).2.
Proof. unfold Dev.step. rewrite bind_run. destruct (m w) as [[e|] w1]; cbn [fst snd]; [by rewrite bind_run|done]. Qed.

(** The files for runmqserver. *)
Definition prepared (w w' : world) : Prop :=
  files w' !! devTLS = Some (File "")
  ∧ (if bool_decide (env w !! "MQ_DEV" = Some "true") then
       ∀ text, files w !! devTemplate = Some (File text) →
         files w' !! devMQSC = Some (File (Main.execute_map text [("ChckClnt",
           if bool_decide (is_Some (env w !! "MQ_CONNAUTH_USE_HTP")) then "REQUIRED" else "ASQMGR")]).1)
     else files w' !! devMQSC = Some (File ""))
  ∧ (if EqualFold (default "" (env w !! "MQ_CONNAUTH_USE_HTP")) "true" then
       ∀ text, files w !! norm componentDefault = Some (File text) → files w' !! component = Some (File text)
     else files w' !! component = Some (File "")).

Lemma written_step p k w : (Dev.step (WriteFile p "") k w).1 = Main.Returned None →
  Dev.step (WriteFile p "") k w = k (set_files (<[norm p := File ""]> (files w)) w).
Proof. intros Hs. destruct (dev_step_done _ _ _ Hs) as [Hd ->]. by rewrite (WriteFile_done _ _ _ Hd). Qed.

(** The three files are made empty. *)
Definition emptied (w : world) : world :=
  set_files (<[component := File ""]> (<[devTLS := File ""]> (<[devMQSC := File ""]> (files w)))) w.

Lemma emptied_run (k : M Main.exit) w :
  let m := Dev.step (WriteFile "/run/10-dev.mqsc" "") (Dev.step (WriteFile "/run/20-dev-tls.mqsc" "")
             (Dev.step (WriteFile "/run/qm-service-component.ini" "") k)) in
  (m w).1 = Main.Returned None → m w = k (emptied w).
Proof.
  cbn zeta. intros Hs. pose proof (written_step _ _ _ Hs) as E. rewrite E in Hs |- *.
  pose proof (written_step _ _ _ Hs) as E'. rewrite E' in Hs |- *. by rewrite (written_step _ _ _ Hs).
Qed.

Lemma updateMQSC_quiet b : frame (quiet [["run"]; devMQSC]) (Dev.updateMQSC b).
Proof.
  unfold Dev.updateMQSC, Files.ProcessTemplateFile, Files.makeDir.
  assert (frame (quiet [["run"]; devMQSC]) (MkdirAll (Dir "/run/10-dev.mqsc"))).
  { apply frame_MkdirAll; [exact _|]. intros p w' Hp. apply quiet_insert. revert Hp. vm_compute. intros Hp.
    apply list_elem_of_singleton in Hp as ->. by left. }
  solve_frame. apply frame_write_with; [exact _|]. intros. apply quiet_insert. frame_member.
Qed.

Lemma simpleAuth_step w (v := env w !! "MQ_CONNAUTH_USE_HTP") :
  let m := match v with Some v => if EqualFold v "true" then Dev.simpleAuth else mret None | None => mret None end in
  files w !! component = Some (File "") → (m w).1 = None →
  quiet [component] w (m w).2
  ∧ (if EqualFold (default "" v) "true" then
       ∀ text, files w !! norm componentDefault = Some (File text) → files (m w).2 !! component = Some (File text)
     else files (m w).2 !! component = Some (File "")).
Proof.
  cbn zeta. intros Hc. destruct v as [v|]; [|intros _; by repeat split].
  cbn [from_option id]. destruct (EqualFold v "true"); [|intros _; by repeat split].
  intros Hd. split; [apply simpleAuth_quiet|]. intros text Ht. by apply component_copied.
Qed.

Lemma updateMQSC_done w b : files w !! devMQSC = Some (File "") → (Dev.updateMQSC b w).1 = None →
  if bool_decide (env w !! "MQ_DEV" = Some "true") then
    ∀ text, files w !! devTemplate = Some (File text) → files (Dev.updateMQSC b w).2 !! devMQSC
      = Some (File (Main.execute_map text [("ChckClnt", if b then "REQUIRED" else "ASQMGR")]).1)
  else files (Dev.updateMQSC b w).2 !! devMQSC = Some (File "").
Proof.
  intros Hm. unfold Dev.updateMQSC. rewrite bind_run. cbn [Getenv gets fst snd].
  destruct (decide (env w !! "MQ_DEV" = Some "true")) as [E|E].
  - rewrite E. cbn [from_option id]. rewrite String.eqb_refl, bool_decide_true by done.
    intros Hd text Ht. by apply template_done.
  - rewrite bool_decide_false by done. destruct (String.eqb_spec (default "" (env w !! "MQ_DEV")) "true") as [E'|_]; [|done].
    by destruct (env w !! "MQ_DEV") as [v|]; cbn in E'; subst.
Qed.

Ltac outside := apply (bool_decide_unpack _); vm_compute; exact I.

Lemma developerFiles_prepared w : files w !! devTLS = Some (File "") → files w !! devMQSC = Some (File "") →
  files w !! component = Some (File "") → (Dev.developerFiles w).1 = Main.Returned None → prepared w (Dev.developerFiles w).2.
Proof.
  intros Ht Hm Hc. unfold Dev.developerFiles. rewrite bind_run. cbn [LookupEnv gets fst snd]. intros Hs.
  destruct (dev_step_done _ _ _ Hs) as [Hd E]. rewrite E in Hs |- *. clear E.
  destruct (simpleAuth_step w Hc Hd) as [(Hq1 & Hq2 & Hq3) Ha]. cbn zeta in *. revert Hs Ha Hq1 Hq2 Hq3.
  generalize ((match env w !! "MQ_CONNAUTH_USE_HTP" with
               | Some v => if EqualFold v "true" then Dev.simpleAuth else mret None
               | None => mret None
               end w).2) as w1. clear Hd. intros w1. rewrite bind_run.
  set (b := bool_decide _). intros Hs Ha Hq1 Hq2 Hq3. pose proof (updateMQSC_quiet b w1) as (_ & _ & Hu).
  assert (files w1 !! devMQSC = Some (File "")) as Hm1 by (rewrite Hq3; [done|outside]).
  assert (files (Dev.updateMQSC b w1).2 !! component = files w1 !! component) as Hc2 by (apply Hu; outside).
  assert (files (Dev.updateMQSC b w1).2 !! devTLS = Some (File "")) as Ht2 by (rewrite Hu, Hq3; [done|outside..]).
  pose proof (updateMQSC_done w1 b Hm1) as Hd.
  destruct (Dev.updateMQSC b w1) as [[e|] w2]; cbn [fst snd mret M_ret] in *; [by rewrite bind_run in Hs|].
  split; [done|]. split; [|by rewrite Hc2]. rewrite Hq1 in Hd. specialize (Hd eq_refl).
  destruct (bool_decide (env w !! "MQ_DEV" = Some "true")); [|done].
  intros text Htext. apply Hd. rewrite Hq3; [done|outside].
Qed.

Lemma lookup_emptied w :
  files (emptied w) !! devTLS = Some (File "") ∧ files (emptied w) !! devMQSC = Some (File "")
  ∧ files (emptied w) !! component = Some (File "") ∧ ∀ q, q ∉ [component; devTLS; devMQSC] → files (emptied w) !! q = files w !! q.
Proof.
  unfold emptied. cbn [files set_files]. rewrite lookup_insert_eq, !(lookup_insert_ne _ component), !lookup_insert_eq by done.
  rewrite lookup_insert_ne, lookup_insert_eq by done. split_and!; [done..|]. intros q Hq.
  rewrite !not_elem_of_cons in Hq. rewrite !lookup_insert_ne; naive_solver.
Qed.

Lemma prepared_quiet w w1 w' : quiet [] w w1 → prepared (emptied w1) w' → prepared w w'.
Proof.
  intros (Hd & Hh & Hf) (Ht & Hm & Hc). destruct (lookup_emptied w1) as (_ & _ & _ & He).
  change (env (emptied w1)) with (env w1) in *. rewrite Hd, Hh in *. split; [done|]. split.
  - destruct (bool_decide _) eqn:Hb; rewrite ?Hb in *; [|done]. intros text. rewrite <- (Hf devTemplate) by outside.
    rewrite <- (He devTemplate) by outside. apply Hm.
  - destruct (EqualFold _ _); [|done]. intros text. rewrite <- (Hf (norm componentDefault)) by outside.
    rewrite <- (He (norm componentDefault)) by outside. apply Hc.
Qed.

Lemma doMain_prepared w : (Dev.doMain w).1 = Main.Returned None → prepared w (Dev.doMain w).2.
Proof.
  unfold Dev.doMain. rewrite bind_run. assert (frame (quiet []) Dev.configureLogger) as Hl.
  { unfold Dev.configureLogger, Dev.getLogFormat, Name.GetQueueManagerName. solve_frame. }
  specialize (Hl w). destruct (Dev.configureLogger w) as [[e|] w1]; cbn [fst snd] in *; [done|].
  rewrite bind_run. pose proof (LogContainerDetails_quiet w1) as Hc.
  destruct (Runtime.LogContainerDetails w1) as [[d|] w2]; cbn [fst snd] in *; [|done].
  intros Hs. destruct (dev_step_done _ _ _ Hs) as [Hd E]. rewrite E in Hs |- *. clear E.
  cbn [mret M_ret snd] in *. 
  pose proof (emptied_run _ _ Hs) as E. cbn zeta in E. rewrite E in Hs |- *. assert (quiet [] w w2) as Hq by by etrans.
  eapply prepared_quiet, developerFiles_prepared, Hs; [exact Hq|apply (lookup_emptied w2)..].
Qed.


End prepared.

(** ** Examples *)

Definition license_error : error :=
  Errorf "Set environment variable LICENSE=accept to indicate acceptance of license terms and conditions".

(** A start without the license. *)
Lemma failures_reported_witness : let x := StartOrder.run "decline" in
  x.1 = Main.Returned (Some license_error)
  ∧ @reported StartOrder.host license_error x.2.
Proof.
  split; [vm_compute; reflexivity|].
  destruct (@failures_reported StartOrder.host StartOrder.kernel toy StartOrder.templates Diagnostics.no_metadata
    StartOrder.no_limit (Ok "/usr/local/bin/runmqserver") (λ _ w, reflexivity w) (Main.Build_flags false false false false)
    (StartOrder.image "decline") license_error) as [Hr|[Hr _]].
  - vm_compute. reflexivity.
  - exact Hr.
  - exfalso. revert Hr. vm_compute. discriminate.
Defined.

(** A template engine that appends the value of the first key. *)
Definition dev_templates : Main.Templates := {|
  Main.execute_map t d := (t +:+ default "" (snd <$> head d), None); Main.execute_ha t _ := (t, None); Main.parse _ := None |}.

Definition dev_image : world := world_of [("MQ_DEV", "true"); ("MQ_CONNAUTH_USE_HTP", "false")]
  [("/proc/mounts", File "overlay / overlay rw 0 0"); ("/run", Directory); ("/etc/mqm/10-dev.mqsc.tpl", File "CHCKCLNT ")].

Definition dev_start : Main.exit * world := @Dev.doMain StartOrder.host StartOrder.kernel dev_templates dev_image.


End Failures.
